(* ===== verification/_CoqProject ===== *)
-Q . S2P
Prelude.v
GoStrings.v
Json.v
Event.v
Framing.v
Mysql.v
Postgres.v
Mongodb.v
Mqtt.v
Redis.v
Dns.v
Md5.v
Tls.v
LineProtocols.v
Unknown.v
Websocket.v
Http.v
HttpRaces.v
Registry.v
Parsers.v
Wire.v
Reassembly.v
Factory.v
Decode.v
DecodeWorkers.v
Dispatch.v
Output.v
Workers.v
EventJson.v
Datagrams.v
Isolation.v
Attribution.v
Stream.v
Connections.v
Losses.v
Consumer.v
Engine.v
Captured.v
Pipeline.v
Shutdown.v
Stages.v
Config.v
Capture.v
Sockets.v
Metrics.v
Wiring.v
Lifecycle.v
