(* ===== verification/Prelude.v ===== *)
(** * netcap, verified: the root of the development

    netcap is an agent that captures packets, reassembles TCP streams, parses
    fifteen application protocols and sends one JSON event per message to
    Kafka. Its stages are goroutines that pass values over buffered channels:

      capture -> decoder -> splitter -> reassembler -> dispatcher -> producer
                               '------- UDP packets -------^

    The dispatcher asks a registry for a parser by the ports of a buffer, and
    falls back on probing all of them. [main] builds the stages from a YAML
    configuration and stops them on a signal.

    ** The files, and the code they model (paths under src/)

    - [Prelude]: bytes, machine integers, the monad of Go computations that
      return or panic, slices, channels, loops, integers in byte strings, and
      the tactics and lemmas that all files share.
    - [GoStrings]: the functions of strings, bytes, strconv, encoding/hex and
      unicode/utf8 that the code calls. [Md5]: crypto/md5. [Json]: the texts of
      encoding/json, with a reader.
    - [Event]: proto/event.go and the connection metadata of
      internal/protocol/parser.go. [EventJson]: the JSON form of the events and
      internal/output/serializer.go.
    - [Framing]: the interface of a protocol that is a sequence of
      self-delimiting messages. [Mysql], [Postgres], [Mongodb] and [Mqtt] are
      instances of it; [Redis], [Dns], [Tls], [LineProtocols] (SMTP, FTP, POP3,
      IMAP, SSH), [Http], [Websocket] and [Unknown] are the other parsers. Each
      models internal/protocol/<name>/parser.go: [Probe], [Parse] and every
      helper, in a Module of that name. [HttpRaces]: the HTTP parser's state
      under concurrent calls and its janitor, with a clock.
    - [Registry]: internal/protocol/registry.go against the interface of a
      parser and its laws. [Parsers]: the fifteen parsers as implementations of
      that interface, and buildRegistry of cmd/netcap/main.go. [Wire]: the
      interface of a protocol whose streams a parser reads whole, with nine of
      the parsers as instances.
    - [Capture] and [Sockets]: internal/capture/afpacket/afpacket.go and
      internal/util/pool.go. [Decode]: internal/decode/decoder.go, the splitter
      of cmd/netcap/main.go and the stage of internal/reassembly/tcp.go, and
      [DecodeWorkers] the decoder's workers together.
      [Reassembly]: internal/reassembly/stream.go. [Dispatch]:
      internal/dispatch/dispatcher.go. [Output]: internal/output/kafka.go, and
      [Workers] its workers together, with their asynchronous writers.
    - [Attribution], [Stream] and [Datagrams] compose these: parsers, dispatcher
      and producer, and the paths of a connection and of datagrams to messages.
      [Factory] has the streams of many connections with a specification of what
      they offer, [Isolation] the dispatcher's loops on many connections, with the
      sweeps of the HTTP parser's janitor between their messages, and
      [Connections] carries [Stream] over to a connection among others, of any
      length; [Losses] has such a connection when messages find no room.
      [Consumer] is the consumer of docs/user-guide.md that pairs HTTP
      events, on the messages of the producer. [Engine] has the stage's calls of
      gopacket's engine and the contract of that engine for packets in order;
      with it, [Captured] follows TCP connections from captured packets to what
      a consumer reads.
    - [Pipeline]: internal/pipeline/pipeline.go. [Shutdown]: the goroutines and
      channels of the running agent as a step relation. [Stages]: the stages'
      constructors, [Start] and [Stop], as implementations of it. [Config]:
      internal/config/config.go. [Metrics]: internal/metrics/metrics.go.
      [Wiring]: main up to the running pipeline, and internal/metrics/server.go.
      [Lifecycle]: main to its end, on the pipeline.

    ** How the code is modelled

    Definitions keep the names of the code. A Go value is a Rocq value: structs
    are records, enumerations are inductive types, a slice or a string is the
    list of its bytes, a map is a gmap, an integer is a Z with its wrap-around
    written where the code can overflow. A function that can panic has type
    [outcome]; every slice and index expression is checked as Go checks it. The
    capacity of a slice, where behaviour depends on it, is an explicit list of
    the bytes that follow in its array. Time is read from a [clock] argument.
    A goroutine's loop is a function of the events it receives, and the
    interleaving with its consumer is a list of operations; where several
    goroutines share state ([HttpRaces], [DecodeWorkers], [Workers], [Shutdown]),
    they are a step relation. A call that may never return has type [call].

    A Go loop is [for_loop] with fuel. The fuel is the length of the input plus
    one, or another bound that the loop cannot exceed; [NoFuel] marks a run that
    is out of fuel, and the theorems that a call returns ([wp]) exclude it for
    every input. [frames], [chunks] and [read] take the length of their input;
    lemmas show that more fuel changes nothing or that it is enough.

    Code outside the repository is a class, with laws where the code relies on
    them, and concrete instances that the witnesses use:
    [Unicode] (case tables beyond ASCII), [NetHTTP] (the message readers of
    net/http), [NetIP] (net.ParseIP), [GopacketFlow], [GopacketDecoder] and
    [ReassemblyEngine], [PacketFlows] and [InOrderDelivery] (gopacket),
    [Prometheus] (its client library), [Kernel] and [LawfulKernel] (system
    calls).
    Interfaces of the repository are classes as well: [ProtocolParser] with
    [LawfulParser], [ConnLifecycleHandler], [Serializer], [Framed] with
    [StableFramed] and [FrameEncoder], [WireFormat], [Piecewise] and [Prefixed].

    ** What is shown

    - Safety: the dispatcher handles every message and packet without a panic
      unless the registry gives the DNS, TLS or Redis parser an input of a named
      shape, and each of those shapes does crash it ([Attribution], [Dispatch]);
      for DNS and TLS the shapes are exactly the inputs that panic ([Dns], [Tls]).
    - Composition: for any segmentation and any drops, a connection's events
      name it, share one Kafka key and leave no state behind; short connections
      are parsed whole, so that segmentation does not matter; for nine protocols
      down to the events of each message and what a Kafka consumer reads, for
      HTTP down to the paired UIDs ([Stream]). All of this holds of a connection
      among any others, interleaved with them and with datagrams in any way
      ([Factory], [Isolation], [Connections]), and there also of connections
      longer than a stream's buffer: of HTTP always, of the other protocols when
      each direction is short or its segments end where messages end. The
      documented consumer pairs HTTP requests and responses by their position,
      whatever else is in the topic, unless several workers reorder them
      ([Consumer]). From captured packets, through any number of decode workers,
      to what a consumer reads: services and HTTP over TCP, whose packets come in
      order ([Captured]), and DNS over UDP ([Datagrams]). The messages in the
      first 256 KiB of a direction are reported whatever follows them
      ([Connections], [Captured]), and when messages are dropped for lack of room
      what is reported is still true and in order ([Losses]). The janitor may
      sweep anywhere in these runs; where numbers or pairs are stated, its
      sweeps leave the connection's state ([sweeps_keep]), as they do while the
      connection is active by the clock. The conditions that a connection's
      messages found room, and that no other connection has its id, are part of
      these statements.
    - Conservation: reassembly, capture, the splitter and the producer's workers
      lose nothing that they do not count or drop explicitly ([Reassembly],
      [Capture], [Decode], [Workers], which also bounds what retries can repeat
      in the topic); a decode worker never leaks data between packets, and the
      decode workers together forward what each packet gives on its own, and can
      always go on to forward all of it ([DecodeWorkers]); a stream cuts its data
      exactly as two independent chunkers do; neither the decode workers nor the
      producer's keep the order of a flow.
    - Parsers: round trips from encoded messages, totality, exact outcomes,
      termination of DNS names under compression, DNS messages with compressed
      names ([message_at]), JA3, pairing of HTTP requests and responses, also
      under concurrent calls, and how the janitor breaks it.
    - Registry: what [Resolve] picks, and that the port index is right.
    - Serialization: a consumer reads back every event, and the very event when
      its strings are valid UTF-8 ([EventJson]).
    - Lifecycle: what [main] starts from a configuration and which settings do
      nothing ([Wiring]); how [main] ends, and that its sockets are then closed
      ([Lifecycle]); the metrics register without a panic, as documented
      ([Metrics]); sockets are not leaked, and which capture loops a failed start
      leaves on closed descriptors ([Sockets]); start and rollback
      order ([Pipeline]); [Shutdown] never returns, and neither does a start that
      fails, but no goroutine sends on a closed channel ([Shutdown]); the
      stages' own [Start] and [Stop] refine this relation ([Stages]).

    ** Not modelled

    The Kafka client (of its writers, [Workers] has what is documented of Async
    and MaxAttempts), the serving of metrics (no code updates them), viper's
    reading of YAML, flags, logging and signal delivery: library calls without
    logic of this repository. The engine that orders TCP segments, the readers
    of HTTP messages and the layer decoder are gopacket's and net/http's: their
    results are inputs. When tickers fire is free. A nil slice and an empty one
    are the same value. Limits of memory: an allocation succeeds, also of a
    channel or slice whose size no address space holds, for which the run-time
    panics; negative sizes do panic here. How a capture loop ends after its
    descriptor was closed under it is the kernel's answer to its next call.

    ** Limits

    All components are modelled. Three things are known only in part: of a
    direction of more than 256 KiB that is not cut between messages, the messages
    after the first flush (the parsers keep no bytes of one piece for the next,
    so the message that a flush cuts is lost, and what its rest is read as depends
    on its bytes); connections whose packets the engine does not get in order
    or that do not end with both FINs, for which it has no contract here; and HTTP connections some of whose messages
    find no room, whose later events are numbered, and so paired, without them. *)

From stdpp Require Export base list gmap strings countable numbers.
From Stdlib Require Export ZArith Lia ZifyBool.
From Stdlib.Strings Require Export Byte.

#[export] Set Default Goal Selector "!".

Global Open Scope Z_scope.

(** ** Bytes and byte strings *)

(** A Go [[]byte] and a Go [string] are both read as the list of their bytes. *)
Abbreviation bytes := (list byte).

#[global] Instance byte_eq_dec : EqDecision byte := Byte.byte_eq_dec.

#[global, program] Instance byte_countable : Countable byte :=
  inj_countable Byte.to_N Byte.of_N _.
Next Obligation. intros b. apply Byte.of_to_N. Qed.

(** [u8 b] is the value of a byte, [byte_of z] the conversion [byte(z)]. *)
Definition u8 (b : byte) : Z := Z.of_N (Byte.to_N b).

Definition byte_of (z : Z) : byte :=
  default x00 (Byte.of_N (Z.to_N (z mod 256))).

(** The bytes of a Go string literal. *)
Definition str (s : string) : bytes := String.list_byte_of_string s.

Lemma u8_range b : 0 <= u8 b < 256.
Proof. unfold u8. pose proof (Byte.to_N_bounded b). lia. Qed.

Lemma byte_of_u8 b : byte_of (u8 b) = b.
Proof.
  unfold byte_of. rewrite Z.mod_small by apply u8_range.
  unfold u8. by rewrite N2Z.id, Byte.of_to_N.
Qed.

Lemma u8_byte_of z : u8 (byte_of z) = z mod 256.
Proof.
  unfold byte_of. pose proof (Z.mod_pos_bound z 256 ltac:(lia)) as Hr.
  destruct (Byte.of_N (Z.to_N (z mod 256))) as [b|] eqn:E; simpl.
  - unfold u8. rewrite (Byte.to_of_N _ E). lia.
  - apply Byte.of_N_None_iff in E. lia.
Qed.

Lemma u8_inj b c : u8 b = u8 c -> b = c.
Proof. intros H. by rewrite <- (byte_of_u8 b), H, byte_of_u8. Qed.

Lemma u8_byte_of_small z : 0 <= z < 256 -> u8 (byte_of z) = z.
Proof. intros. rewrite u8_byte_of. by apply Z.mod_small. Qed.

(** [len] is Go's [len] on slices and strings. *)
Definition len {A} (l : list A) : Z := Z.of_nat (length l).

Lemma len_nonneg {A} (l : list A) : 0 <= len l.
Proof. unfold len. lia. Qed.

Lemma len_app {A} (k l : list A) : len (k ++ l) = len k + len l.
Proof. unfold len. rewrite length_app. lia. Qed.

Lemma len_cons {A} (x : A) l : len (x :: l) = 1 + len l.
Proof. unfold len. simpl. lia. Qed.

Lemma len_nil {A} : len (@nil A) = 0.
Proof. done. Qed.

Lemma len_drop {A} (l : list A) n : len (drop n l) = Z.max 0 (len l - Z.of_nat n).
Proof. unfold len. rewrite length_drop. lia. Qed.

Lemma len_take {A} (l : list A) n : len (take n l) = Z.min (Z.of_nat n) (len l).
Proof. unfold len. rewrite length_take. lia. Qed.

(** An encoding by non-empty pieces has at least one byte per piece. *)
Lemma length_concat_map {A B} (f : A -> list B) l :
  (forall x, f x <> []) -> (length l <= length (concat (map f l)))%nat.
Proof.
  intros Hf. induction l as [|x l IH]; cbn [map concat length]; [done|].
  rewrite length_app. specialize (Hf x). destruct (f x); [done|]. simpl. lia.
Qed.

Create HintDb netcap.
#[export] Hint Resolve len_nonneg u8_range : netcap.

(** ** Machine integers *)

(** Go's [int] and [int64] are 64-bit two's complement on the platforms netcap
    is built for; [uint16], [uint32] and [uint64] wrap modulo a power of two. *)
Definition uint16 (z : Z) : Z := z mod 2 ^ 16.
Definition uint32 (z : Z) : Z := z mod 2 ^ 32.
Definition uint64 (z : Z) : Z := z mod 2 ^ 64.
Definition int64 (z : Z) : Z := (z + 2 ^ 63) mod 2 ^ 64 - 2 ^ 63.
Definition max_int64 : Z := 2 ^ 63 - 1.
Definition min_int64 : Z := - 2 ^ 63.

Lemma int64_small z : min_int64 <= z <= max_int64 -> int64 z = z.
Proof.
  unfold int64, min_int64, max_int64. intros. rewrite Z.mod_small; lia.
Qed.

Lemma int64_overflow z : max_int64 < z < 2 ^ 64 -> int64 z = z - 2 ^ 64.
Proof.
  unfold int64, max_int64. intros.
  replace (z + 2 ^ 63) with ((z - 2 ^ 63) + 1 * 2 ^ 64) by lia.
  rewrite Z.mod_add by lia. rewrite Z.mod_small; lia.
Qed.

(** ** Filters *)

Lemma filter_all {A} (P : A -> Prop) `{!forall x, Decision (P x)} l : Forall P l -> filter P l = l.
Proof. induction 1 as [|x l Hx Hl IH]; [done|]. by rewrite list.filter_cons_True, IH. Qed.

Lemma filter_none {A} (P : A -> Prop) `{!forall x, Decision (P x)} l : Forall (fun x => ~ P x) l -> filter P l = [].
Proof. induction 1 as [|x l Hx Hl IH]; [done|]. by rewrite list.filter_cons_False. Qed.

(** ** Pools of workers *)

(** What an element of a list gives, before and after it is replaced. *)
Lemma omap_at {A B} (f : A -> option B) l i x y :
  l !! i = Some x ->
  exists l1 l2, omap f l = l1 ++ option_list (f x) ++ l2 /\ omap f (<[i := y]> l) = l1 ++ option_list (f y) ++ l2.
Proof.
  intros Hi. exists (omap f (take i l)), (omap f (drop (S i) l)). split.
  - rewrite <- (take_drop_middle l i x Hi) at 1. rewrite omap_app. cbn. by destruct (f x).
  - rewrite (insert_take_drop _ _ _ (lookup_lt_Some _ _ _ Hi)), omap_app. cbn. by destruct (f y).
Qed.

(** An invariant of the steps holds of what they reach. *)
Lemma rtc_invariant {A} (R : A -> A -> Prop) (I : A -> Prop) x y :
  I x -> (forall a b, I a -> R a b -> I b) -> rtc R x y -> I y.
Proof. intros Hx Hstep Hr. revert Hx. induction Hr as [|x y z Hxy _ IH]; [done|]. intros Hx. by eapply IH, Hstep. Qed.

(** ** Outcomes of Go code *)

(** The run-time panics the modelled code can raise. *)
Inductive panic :=
| IndexOutOfRange
| SliceOutOfRange
| CloseOfClosedChannel
| SendOnClosedChannel
| MakeChanSize
| InvalidPattern
| RegistrationFailed.

(** A Go computation returns a value or panics. [NoFuel] is not a behaviour of
    the code: it marks a loop whose fuel ran out, and every component proves
    that it does not occur. *)
Inductive outcome (A : Type) : Type :=
| Ret (a : A)
| Panic (p : panic)
| NoFuel.
Arguments Ret {A} _.
Arguments Panic {A} _.
Arguments NoFuel {A}.

#[global] Instance outcome_ret : MRet outcome := fun A => Ret.
#[global] Instance outcome_bind : MBind outcome := fun A B f o =>
  match o with Ret a => f a | Panic p => Panic p | NoFuel => NoFuel end.

(** A Go function with results [(T, error)]. *)
Inductive result (A : Type) : Type :=
| OkR (a : A)
| ErrR (msg : bytes).
Arguments OkR {A} _.
Arguments ErrR {A} _.

(** A call that may block: it never returns, or it returns. *)
Inductive call (A : Type) := Waits | Returned (a : A).
Arguments Waits {A}.
Arguments Returned {A} _.

#[global] Instance call_ret : MRet call := fun A => Returned.
#[global] Instance call_bind : MBind call := fun A B f c =>
  match c with Returned a => f a | Waits => Waits end.

(** Total correctness: [wp o Q] says the computation returns, without a panic
    and without exhausting its fuel, a value that satisfies [Q]. *)
Definition wp {A} (o : outcome A) (Q : A -> Prop) : Prop :=
  match o with Ret a => Q a | _ => False end.

Lemma wp_ret {A} (a : A) (Q : A -> Prop) : Q a -> wp (Ret a) Q.
Proof. done. Qed.

Lemma wp_bind {A B} (o : outcome A) (f : A -> outcome B) Q :
  wp o (fun a => wp (f a) Q) -> wp (o ≫= f) Q.
Proof. by destruct o. Qed.

Lemma wp_mono {A} (o : outcome A) (P Q : A -> Prop) :
  wp o P -> (forall a, P a -> Q a) -> wp o Q.
Proof. destruct o; simpl; auto. Qed.

Lemma wp_returns {A} (o : outcome A) Q : wp o Q <-> exists a, o = Ret a /\ Q a.
Proof.
  split; [destruct o; naive_solver | by intros (a & -> & ?)].
Qed.

(** Partial correctness: [yields o Q] says that the value the computation
    returns, if it returns one, satisfies [Q]. *)
Definition yields {A} (o : outcome A) (Q : A -> Prop) : Prop :=
  match o with Ret a => Q a | _ => True end.

Lemma yields_bind {A B} (o : outcome A) (f : A -> outcome B) (P : A -> Prop) Q :
  yields o P -> (forall a, P a -> yields (f a) Q) -> yields (o ≫= f) Q.
Proof. destruct o; cbn; auto. Qed.

Lemma yields_any {A} (o : outcome A) : yields o (fun _ => True).
Proof. by destruct o. Qed.

Lemma yields_seq {A B} (o : outcome A) (f : A -> outcome B) Q :
  (forall a, yields (f a) Q) -> yields (o ≫= f) Q.
Proof. intros H. eapply yields_bind; [apply yields_any|auto]. Qed.

#[global] Instance wp_proper {A} (o : outcome A) :
  Proper (pointwise_relation A impl ==> impl) (wp o).
Proof. intros P Q HPQ H. eapply wp_mono; eauto. Qed.

(** ** Slice and index expressions *)

(** [data[i]] *)
Definition index {A} (l : list A) (i : Z) : outcome A :=
  if decide (0 <= i) then
    match l !! Z.to_nat i with Some x => Ret x | None => Panic IndexOutOfRange end
  else Panic IndexOutOfRange.

(** [data[lo:hi]], checked against the length. Go checks the upper bound of a
    slice expression on a slice against its capacity; this is the check Go does
    for strings, and on slices it is the stricter one: where it passes, Go's
    passes with the same value. Code whose behaviour depends on the capacity
    uses [slice_cap] instead. *)
Definition slice {A} (l : list A) (lo hi : Z) : outcome (list A) :=
  if decide (0 <= lo <= hi /\ hi <= len l)
  then Ret (take (Z.to_nat (hi - lo)) (drop (Z.to_nat lo) l))
  else Panic SliceOutOfRange.

(** [data[lo:hi]] on a slice whose array goes on with the bytes [spare]: the
    upper bound is checked against the capacity. *)
Definition slice_cap {A} (l spare : list A) (lo hi : Z) : outcome (list A) :=
  slice (l ++ spare) lo hi.

(** [data[lo:]] and [data[:hi]] *)
Definition slice_from {A} (l : list A) (lo : Z) : outcome (list A) :=
  slice l lo (len l).
Definition slice_to {A} (l : list A) (hi : Z) : outcome (list A) :=
  slice l 0 hi.

Lemma index_ret {A} (l : list A) i x :
  0 <= i -> l !! Z.to_nat i = Some x -> index l i = Ret x.
Proof. intros Hi Hx. unfold index. rewrite decide_True by done. by rewrite Hx. Qed.

Lemma wp_index {A} (l : list A) i (Q : A -> Prop) :
  0 <= i < len l ->
  (forall x, l !! Z.to_nat i = Some x -> Q x) -> wp (index l i) Q.
Proof.
  unfold len. intros Hi HQ.
  destruct (lookup_lt_is_Some_2 l (Z.to_nat i)) as [x Hx]; [lia|].
  rewrite (index_ret l i x); [by apply HQ | lia | done].
Qed.

Lemma index_panic {A} (l : list A) i :
  ~ (0 <= i < len l) -> index l i = Panic IndexOutOfRange.
Proof.
  unfold index, len. intros Hi. case_decide; [|done].
  destruct (l !! Z.to_nat i) eqn:E; [|done].
  apply lookup_lt_Some in E. lia.
Qed.

Lemma slice_ret {A} (l : list A) lo hi :
  0 <= lo <= hi -> hi <= len l ->
  slice l lo hi = Ret (take (Z.to_nat (hi - lo)) (drop (Z.to_nat lo) l)).
Proof. intros. unfold slice. by rewrite decide_True. Qed.

Lemma slice_panic {A} (l : list A) lo hi :
  ~ (0 <= lo <= hi /\ hi <= len l) -> slice l lo hi = Panic SliceOutOfRange.
Proof. intros. unfold slice. by rewrite decide_False. Qed.

Lemma slice_from_ret {A} (l : list A) lo :
  0 <= lo <= len l -> slice_from l lo = Ret (drop (Z.to_nat lo) l).
Proof.
  intros H. unfold slice_from. rewrite slice_ret by lia. f_equal.
  apply take_ge. rewrite length_drop. unfold len in *. lia.
Qed.

Lemma slice_to_ret {A} (l : list A) hi :
  0 <= hi <= len l -> slice_to l hi = Ret (take (Z.to_nat hi) l).
Proof.
  intros H. unfold slice_to. rewrite slice_ret by lia.
  by rewrite Z.sub_0_r, drop_0.
Qed.

(** Slices of a message that starts with a header of known length. *)
Lemma slice_header {A} (h l : list A) k m n :
  len h = k -> m = k + n -> 0 <= n <= len l ->
  slice (h ++ l) k m = Ret (take (Z.to_nat n) l).
Proof.
  intros Hh -> Hn. pose proof (len_nonneg h). rewrite slice_ret by (rewrite ?len_app; lia).
  replace (k + n - k) with n by lia. do 2 f_equal.
  subst k. unfold len. by rewrite Nat2Z.id, drop_app_length.
Qed.

Lemma slice_from_header {A} (h l : list A) k m n :
  len h = k -> m = k + n -> 0 <= n <= len l ->
  slice_from (h ++ l) m = Ret (drop (Z.to_nat n) l).
Proof.
  intros Hh -> Hn. pose proof (len_nonneg h). rewrite slice_from_ret by (rewrite ?len_app; lia).
  f_equal. subst k. unfold len. rewrite Z2Nat.inj_add, Nat2Z.id by lia.
  by rewrite <- drop_drop, drop_app_length.
Qed.

Lemma wp_slice {A} (l : list A) lo hi (Q : list A -> Prop) :
  0 <= lo <= hi -> hi <= len l ->
  Q (take (Z.to_nat (hi - lo)) (drop (Z.to_nat lo) l)) -> wp (slice l lo hi) Q.
Proof. intros. by rewrite slice_ret. Qed.

Lemma wp_slice_from {A} (l : list A) lo (Q : list A -> Prop) :
  0 <= lo <= len l -> Q (drop (Z.to_nat lo) l) -> wp (slice_from l lo) Q.
Proof. intros. by rewrite slice_from_ret. Qed.

Lemma wp_slice_to {A} (l : list A) hi (Q : list A -> Prop) :
  0 <= hi <= len l -> Q (take (Z.to_nat hi) l) -> wp (slice_to l hi) Q.
Proof. intros. by rewrite slice_to_ret. Qed.

(** ** Channels *)

(** A buffered channel: the values sent and not yet received, the capacity it
    was made with, and whether it is closed. *)
Record channel (A : Type) := { chan_buf : list A; chan_cap : Z; chan_closed : bool }.
Arguments chan_buf {A} _.
Arguments chan_cap {A} _.
Arguments chan_closed {A} _.

(** [make(chan T, n)]. The run-time also panics for a size whose buffer would
    not fit the address space, or fails for lack of memory: sizes of that
    order are left out, as all limits of memory are. *)
Definition make_chan {A} (n : Z) : outcome (channel A) :=
  if n <? 0 then Panic MakeChanSize
  else Ret {| chan_buf := []; chan_cap := n; chan_closed := false |}.

(** [select { case ch <- x: ... default: ... }] on a channel with a buffer: the
    channel after it, and whether the value was sent. *)
Definition try_send {A} (ch : channel A) (x : A) : outcome (channel A * bool) :=
  if chan_closed ch then Panic SendOnClosedChannel
  else if len (chan_buf ch) <? chan_cap ch
  then Ret ({| chan_buf := chan_buf ch ++ [x]; chan_cap := chan_cap ch; chan_closed := false |}, true)
  else Ret (ch, false).

(** [close(ch)] *)
Definition close_chan {A} (ch : channel A) : outcome (channel A) :=
  if chan_closed ch then Panic CloseOfClosedChannel
  else Ret {| chan_buf := chan_buf ch; chan_cap := chan_cap ch; chan_closed := true |}.

(** [x, ok := <-ch] when it does not block: a value, or [None] for a closed and
    drained channel. *)
Definition recv_chan {A} (ch : channel A) : option (option A * channel A) :=
  match chan_buf ch with
  | x :: b => Some (Some x, {| chan_buf := b; chan_cap := chan_cap ch; chan_closed := chan_closed ch |})
  | [] => if chan_closed ch then Some (None, ch) else None
  end.

Lemma try_send_wp {A} (ch : channel A) x (Q : channel A * bool -> Prop) :
  chan_closed ch = false ->
  (forall sent, sent = (len (chan_buf ch) <? chan_cap ch) ->
     Q ({| chan_buf := if sent then chan_buf ch ++ [x] else chan_buf ch;
           chan_cap := chan_cap ch; chan_closed := false |}, sent)) ->
  wp (try_send ch x) Q.
Proof.
  intros Hc HQ. unfold try_send. rewrite Hc. specialize (HQ _ eq_refl).
  destruct (_ <? _); [done|]. destruct ch; cbn in *. by subst.
Qed.

(** ** Loops *)

(** A Go [for] loop: [step] runs one test of the loop condition and, when it
    holds, the body. It yields the next loop state, or the result of the loop
    when the condition fails, or on [break] and [return]. *)
Fixpoint for_loop {S R} (fuel : nat) (step : S -> outcome (S + R)) (s : S) : outcome R :=
  match fuel with
  | O => NoFuel
  | Datatypes.S n =>
      x ← step s; match x with inl s' => for_loop n step s' | inr r => Ret r end
  end.

Lemma for_loop_S {S R} n (step : S -> outcome (S + R)) s :
  for_loop (Datatypes.S n) step s =
  (x ← step s; match x with inl s' => for_loop n step s' | inr r => Ret r end).
Proof. done. Qed.

(** One iteration: it continues, ends the loop, or panics. *)
Lemma for_loop_cont {S R} n (step : S -> outcome (S + R)) s s' :
  step s = Ret (inl s') -> for_loop (Datatypes.S n) step s = for_loop n step s'.
Proof. intros H. by rewrite for_loop_S, H. Qed.

Lemma for_loop_done {S R} n (step : S -> outcome (S + R)) s r :
  step s = Ret (inr r) -> for_loop (Datatypes.S n) step s = Ret r.
Proof. intros H. by rewrite for_loop_S, H. Qed.

Lemma for_loop_panic {S R} n (step : S -> outcome (S + R)) s p :
  step s = Panic p -> for_loop (Datatypes.S n) step s = Panic p.
Proof. intros H. by rewrite for_loop_S, H. Qed.

(** Total correctness of a loop: an invariant [I], a measure that each
    continued iteration decreases, and a postcondition. *)
Lemma wp_for_loop {S R} (I : S -> Prop) (m : S -> nat) (Q : R -> Prop)
    (step : S -> outcome (S + R)) :
  (forall s, I s -> wp (step s) (fun x =>
     match x with inl s' => I s' /\ (m s' < m s)%nat | inr r => Q r end)) ->
  forall fuel s, I s -> (m s < fuel)%nat -> wp (for_loop fuel step s) Q.
Proof.
  intros Hstep fuel. induction fuel as [|n IH]; intros s HI Hm; [lia|].
  simpl. apply wp_bind. eapply wp_mono; [by apply Hstep|].
  intros [s'|r]; simpl; [|done]. intros [HI' Hlt]. apply IH; [done|lia].
Qed.

(** A loop invariant, for partial correctness. *)
Lemma yields_for_loop {S R} (I : S -> Prop) (Q : R -> Prop) (step : S -> outcome (S + R)) :
  (forall s, I s -> yields (step s) (fun x => match x with inl s' => I s' | inr r => Q r end)) ->
  forall fuel s, I s -> yields (for_loop fuel step s) Q.
Proof.
  intros Hstep fuel. induction fuel as [|fuel IH]; intros s Hs; [done|]. rewrite for_loop_S.
  eapply yields_bind; [by apply Hstep|]. intros [s'|r]; [apply IH|done].
Qed.

(** More fuel does not change the result of a loop that finished. *)
Lemma for_loop_fuel_mono {S R} (step : S -> outcome (S + R)) n m s :
  for_loop n step s <> NoFuel -> (n <= m)%nat ->
  for_loop m step s = for_loop n step s.
Proof.
  revert m s. induction n as [|n IH]; intros m s Hn Hle; [done|].
  destruct m as [|m]; [lia|]. simpl in *.
  destruct (step s) as [[s'|r]|p|]; simpl in *; try done.
  apply IH; [done|lia].
Qed.

(** Two runs of a loop that both finish agree. *)
Lemma for_loop_det {T R} (step : T -> outcome (T + R)) n m s r :
  for_loop n step s = Ret r -> for_loop m step s <> NoFuel -> for_loop m step s = Ret r.
Proof.
  intros Hn Hm. destruct (decide (n <= m)%nat).
  - rewrite <- Hn. apply for_loop_fuel_mono; [by rewrite Hn | done].
  - rewrite <- Hn. symmetry. apply for_loop_fuel_mono; [done | lia].
Qed.

(** ** Fixed-width integers in byte strings *)

(** [binary.BigEndian.Uint16(b)] and its relatives read the first bytes of [b]
    and panic when [b] is shorter. *)
Fixpoint be_uint (l : bytes) : Z :=
  match l with
  | [] => 0
  | b :: l' => u8 b * 256 ^ len l' + be_uint l'
  end.

Fixpoint le_uint (l : bytes) : Z :=
  match l with
  | [] => 0
  | b :: l' => u8 b + 256 * le_uint l'
  end.

Definition read_be (n : nat) (l : bytes) : outcome Z :=
  if decide (n <= length l)%nat then Ret (be_uint (take n l)) else Panic IndexOutOfRange.
Definition read_le (n : nat) (l : bytes) : outcome Z :=
  if decide (n <= length l)%nat then Ret (le_uint (take n l)) else Panic IndexOutOfRange.

Definition be16 := read_be 2.
Definition be32 := read_be 4.
Definition le16 := read_le 2.
Definition le32 := read_le 4.

(** Bytes shifted to disjoint positions: [|] on them is an addition. *)
Lemma lor_shift k a b : 0 <= k -> 0 <= a < 2 ^ k -> 0 <= b ->
  Z.lor a (Z.shiftl b k) = a + b * 2 ^ k.
Proof.
  intros Hk Ha Hb. rewrite Z.shiftl_mul_pow2 by done.
  rewrite <- Z.add_lor_land. enough (Z.land a (b * 2 ^ k) = 0) by lia.
  apply Z.bits_inj'. intros n Hn. rewrite Z.land_spec, Z.bits_0.
  destruct (decide (n < k)).
  - by rewrite Z.mul_pow2_bits_low, andb_false_r.
  - destruct (decide (a = 0)) as [->|]; [by rewrite Z.bits_0|].
    rewrite (Z.bits_above_log2 a n); [done|lia|].
    apply Z.log2_lt_pow2; [lia|]. eapply Z.lt_le_trans; [apply Ha|].
    apply Z.pow_le_mono_r; lia.
Qed.

(** The encoders the round-trip theorems use. *)
Fixpoint le_bytes (n : nat) (z : Z) : bytes :=
  match n with
  | O => []
  | S n' => byte_of z :: le_bytes n' (z / 256)
  end.
Definition be_bytes (n : nat) (z : Z) : bytes := reverse (le_bytes n z).

Lemma be_uint_range l : 0 <= be_uint l < 256 ^ len l.
Proof.
  induction l as [|b l IH]; simpl; [done|].
  rewrite len_cons, Z.pow_add_r by (auto using len_nonneg; lia).
  pose proof (u8_range b). nia.
Qed.

Lemma le_uint_range l : 0 <= le_uint l < 256 ^ len l.
Proof.
  induction l as [|b l IH]; simpl; [done|].
  rewrite len_cons, Z.pow_add_r by (auto using len_nonneg; lia).
  pose proof (u8_range b). nia.
Qed.

Lemma be_uint_app k l : be_uint (k ++ l) = be_uint k * 256 ^ len l + be_uint l.
Proof.
  induction k as [|b k IH]; simpl; [done|].
  rewrite IH, len_app, Z.pow_add_r by apply len_nonneg. ring.
Qed.

Lemma length_le_bytes n z : length (le_bytes n z) = n.
Proof. revert z. induction n; intros; simpl; auto. Qed.

Lemma length_be_bytes n z : length (be_bytes n z) = n.
Proof. unfold be_bytes. by rewrite length_reverse, length_le_bytes. Qed.

Lemma len_le_bytes n z : len (le_bytes n z) = Z.of_nat n.
Proof. unfold len. by rewrite length_le_bytes. Qed.

Lemma len_be_bytes n z : len (be_bytes n z) = Z.of_nat n.
Proof. unfold len. by rewrite length_be_bytes. Qed.

Lemma le_uint_le_bytes n z : 0 <= z < 256 ^ Z.of_nat n -> le_uint (le_bytes n z) = z.
Proof.
  revert z. induction n as [|n IH]; intros z Hz; [simpl; lia|].
  rewrite Nat2Z.inj_succ, Z.pow_succ_r in Hz by lia.
  cbn [le_bytes le_uint]. rewrite IH, u8_byte_of.
  - pose proof (Z.div_mod z 256). lia.
  - split; [apply Z.div_pos; lia | apply Z.div_lt_upper_bound; lia].
Qed.

Lemma be_uint_reverse l : be_uint (reverse l) = le_uint l.
Proof.
  induction l as [|b l IH]; [done|].
  rewrite reverse_cons, be_uint_app, IH. simpl. change (len [b]) with 1.
  change (len (@nil byte)) with 0. lia.
Qed.

Lemma be_uint_be_bytes n z : 0 <= z < 256 ^ Z.of_nat n -> be_uint (be_bytes n z) = z.
Proof. intros. unfold be_bytes. rewrite be_uint_reverse. by apply le_uint_le_bytes. Qed.

Lemma read_be_ret n l : (n <= length l)%nat -> read_be n l = Ret (be_uint (take n l)).
Proof. intros. unfold read_be. by rewrite decide_True. Qed.

Lemma read_le_ret n l : (n <= length l)%nat -> read_le n l = Ret (le_uint (take n l)).
Proof. intros. unfold read_le. by rewrite decide_True. Qed.

Lemma wp_read_be n l (Q : Z -> Prop) :
  (n <= length l)%nat ->
  (0 <= be_uint (take n l) < 256 ^ Z.of_nat n -> Q (be_uint (take n l))) ->
  wp (read_be n l) Q.
Proof.
  intros Hn HQ. rewrite read_be_ret by done. apply HQ.
  pose proof (be_uint_range (take n l)) as Hr.
  rewrite len_take in Hr. unfold len in Hr.
  by replace (Z.min (Z.of_nat n) (Z.of_nat (length l))) with (Z.of_nat n) in Hr by lia.
Qed.

Lemma wp_read_le n l (Q : Z -> Prop) :
  (n <= length l)%nat ->
  (0 <= le_uint (take n l) < 256 ^ Z.of_nat n -> Q (le_uint (take n l))) ->
  wp (read_le n l) Q.
Proof.
  intros Hn HQ. rewrite read_le_ret by done. apply HQ.
  pose proof (le_uint_range (take n l)) as Hr.
  rewrite len_take in Hr. unfold len in Hr.
  by replace (Z.min (Z.of_nat n) (Z.of_nat (length l))) with (Z.of_nat n) in Hr by lia.
Qed.

(** An integer field: [binary.BigEndian.Uint16(data[lo:hi])] and the like. *)
Lemma bind_slice_be {B} n (data : bytes) lo hi (f : Z -> outcome B) :
  0 <= lo -> hi = lo + Z.of_nat n -> hi <= len data ->
  (v ← slice data lo hi; x ← read_be n v; f x) =
  f (be_uint (take n (drop (Z.to_nat lo) data))).
Proof.
  intros Hlo -> Hhi. rewrite slice_ret by lia. cbn [mbind outcome_bind].
  replace (lo + Z.of_nat n - lo) with (Z.of_nat n) by lia. rewrite Nat2Z.id.
  rewrite read_be_ret by (rewrite length_take, length_drop; unfold len in Hhi; lia).
  by rewrite take_take, Nat.min_id.
Qed.

Lemma bind_slice_le {B} n (data : bytes) lo hi (f : Z -> outcome B) :
  0 <= lo -> hi = lo + Z.of_nat n -> hi <= len data ->
  (v ← slice data lo hi; x ← read_le n v; f x) =
  f (le_uint (take n (drop (Z.to_nat lo) data))).
Proof.
  intros Hlo -> Hhi. rewrite slice_ret by lia. cbn [mbind outcome_bind].
  replace (lo + Z.of_nat n - lo) with (Z.of_nat n) by lia. rewrite Nat2Z.id.
  rewrite read_le_ret by (rewrite length_take, length_drop; unfold len in Hhi; lia).
  by rewrite take_take, Nat.min_id.
Qed.

(** The byte and the 16-bit field at an offset. *)
Definition byte_at (data : bytes) (o : Z) : Z := u8 (default x00 (data !! Z.to_nat o)).
Definition field16 (data : bytes) (o : Z) : Z := be_uint (take 2 (drop (Z.to_nat o) data)).

(** An encoded integer is what a read at its place gives. *)
Lemma be_uint_field n (data pre : bytes) z (post : bytes) o :
  0 <= z < 256 ^ Z.of_nat n -> data = pre ++ be_bytes n z ++ post -> o = len pre ->
  be_uint (take n (drop (Z.to_nat o) data)) = z.
Proof.
  intros Hz -> ->. unfold len. rewrite Nat2Z.id, drop_app_length.
  rewrite <- (length_be_bytes n z) at 1. rewrite take_app_length. by apply be_uint_be_bytes.
Qed.

Lemma field16_range data o : 0 <= field16 data o < 65536.
Proof.
  unfold field16. pose proof (be_uint_range (take 2 (drop (Z.to_nat o) data))) as [H1 H2].
  split; [done|]. eapply Z.lt_le_trans; [exact H2|]. change 65536 with (256 ^ 2).
  apply Z.pow_le_mono_r; [done|]. rewrite len_take. lia.
Qed.

Lemma bind_slice_be16 {B} (data : bytes) lo hi (f : Z -> outcome B) :
  0 <= lo -> hi = lo + 2 -> hi <= len data ->
  (v ← slice data lo hi; x ← be16 v; f x) = f (field16 data lo).
Proof. intros. by rewrite (bind_slice_be 2). Qed.

Lemma bind_index {B} (data : bytes) i (f : byte -> outcome B) :
  0 <= i < len data -> (b ← index data i; f b) = f (default x00 (data !! Z.to_nat i)).
Proof.
  unfold len. intros Hi. destruct (lookup_lt_is_Some_2 data (Z.to_nat i)) as [b Hb]; [lia|].
  rewrite (index_ret _ _ b) by (done || lia). by rewrite Hb.
Qed.

(** Reading back what the encoder wrote, whatever follows it. *)
Lemma read_be_be_bytes n z l :
  0 <= z < 256 ^ Z.of_nat n -> read_be n (be_bytes n z ++ l) = Ret z.
Proof.
  intros. rewrite read_be_ret by (rewrite length_app, length_be_bytes; lia).
  rewrite <- (length_be_bytes n z) at 1. by rewrite take_app_length, be_uint_be_bytes.
Qed.

Lemma read_le_le_bytes n z l :
  0 <= z < 256 ^ Z.of_nat n -> read_le n (le_bytes n z ++ l) = Ret z.
Proof.
  intros. rewrite read_le_ret by (rewrite length_app, length_le_bytes; lia).
  rewrite <- (length_le_bytes n z) at 1. by rewrite take_app_length, le_uint_le_bytes.
Qed.

(** Fields of a message written as the concatenation of its parts. *)
Lemma slice_field {A} (data pre x post : list A) lo hi :
  data = pre ++ x ++ post -> lo = len pre -> hi = lo + len x -> slice data lo hi = Ret x.
Proof.
  intros -> -> ->. pose proof (len_nonneg pre). pose proof (len_nonneg x). pose proof (len_nonneg post).
  rewrite (slice_header pre (x ++ post) (len pre) _ (len x)) by (rewrite ?len_app; lia).
  unfold len. by rewrite Nat2Z.id, take_app_length.
Qed.

Arguments le_uint : simpl never.
Arguments be_uint : simpl never.
Arguments le_bytes : simpl never.
Arguments be_bytes : simpl never.

(** ** Automation *)

(** [len] and [length] facts for [lia]: every [len] is a length, and the
    lengths of appended, taken and dropped lists are computed. *)
Ltac lens :=
  unfold be16, be32, le16, le32 in *; unfold len in *;
  rewrite ?length_cons, ?length_app, ?length_take, ?length_drop, ?length_cons,
    ?length_app, ?length_take, ?length_be_bytes, ?length_le_bytes, ?length_nil in *;
  try lia.

(** One step of a total-correctness proof: decompose the monad, discharge the
    bounds of a slice, index or integer read, and split on the next test. *)
Ltac go_step :=
  match goal with
  | |- wp (Ret _) _ => apply wp_ret
  | |- wp (mret _) _ => apply wp_ret
  | |- wp (_ ≫= _) _ => apply wp_bind
  | |- wp (index _ _) _ => apply wp_index; [by lens | intros ? ?]
  | |- wp (slice _ _ _) _ => apply wp_slice; [by lens | by lens |]
  | |- wp (slice_from _ _) _ => apply wp_slice_from; [by lens |]
  | |- wp (slice_to _ _) _ => apply wp_slice_to; [by lens |]
  | |- wp (be16 _) _ => apply wp_read_be; [by lens | intros ?]
  | |- wp (be32 _) _ => apply wp_read_be; [by lens | intros ?]
  | |- wp (le16 _) _ => apply wp_read_le; [by lens | intros ?]
  | |- wp (le32 _) _ => apply wp_read_le; [by lens | intros ?]
  | |- wp (if decide ?P then _ else _) _ => destruct (decide P)
  | |- wp (if ?b then _ else _) _ => destruct b eqn:?
  | |- wp (match ?x with _ => _ end) _ => destruct x eqn:?
  | |- wp (let _ := _ in _) _ => cbv zeta
  end.
Ltac go := repeat go_step.

(** Facts about closed data, by computation. *)
Ltac ground := repeat first
  [ match goal with
    | |- _ ∉ _ => apply (bool_decide_unpack _); vm_compute; exact I
    | |- _ ∈ _ => apply (bool_decide_unpack _); vm_compute; exact I
    | |- Forall _ [] => constructor
    | |- Forall _ (_ :: _) => constructor
    | |- Forall ?P ?l => let l' := eval hnf in l in progress change (Forall P l')
    | |- _ /\ _ => split
    end
  | progress hnf
  | solve [vm_compute; done] ].
