(* ===== verification/GoStrings.v ===== *)
(** * The parts of Go's [strings], [bytes], [strconv], [encoding/hex],
      [unicode/utf8] and [fmt] packages that netcap uses

    Pure, executable definitions on byte strings. [strings.ToUpper] and
    [strings.ToLower] map runes: UTF-8 decoding and encoding and the ASCII range
    are modelled here, and the case tables of package [unicode] for the runes
    from U+0080 on are the interface [Unicode]. *)

From S2P Require Import Prelude.

(** ** Searching and splitting *)

(** [strings.HasPrefix(s, p)] *)
Fixpoint HasPrefix (s p : bytes) : bool :=
  match p, s with
  | [], _ => true
  | _ :: _, [] => false
  | a :: p', b :: s' => Byte.eqb a b && HasPrefix s' p'
  end.

Arguments HasPrefix !s !p.

(** [bytes.Index(s, sep)]: the first position at which [sep] starts. *)
Fixpoint Index (s sep : bytes) : option nat :=
  if HasPrefix s sep then Some O
  else match s with [] => None | _ :: s' => S <$> Index s' sep end.

Definition Contains (s sep : bytes) : bool := bool_decide (is_Some (Index s sep)).

(** [strings.IndexByte(s, c)] *)
Fixpoint IndexByte (s : bytes) (c : byte) : option nat :=
  match s with
  | [] => None
  | b :: s' => if Byte.eqb b c then Some O else S <$> IndexByte s' c
  end.

(** [strings.SplitN(s, sep, n)] for a non-empty [sep] and [n > 0], and
    [strings.Split(s, sep)]: at most [n] pieces, the last one unsplit. *)
Fixpoint SplitN (s sep : bytes) (n : nat) : list bytes :=
  match n with
  | O => []
  | S O => [s]
  | S n' =>
      match Index s sep with
      | None => [s]
      | Some i => take i s :: SplitN (drop (i + length sep) s) sep n'
      end
  end.

Definition Split (s sep : bytes) : list bytes := SplitN s sep (S (length s)).

(** [strings.Join(parts, sep)] *)
Fixpoint Join (parts : list bytes) (sep : bytes) : bytes :=
  match parts with
  | [] => []
  | [p] => p
  | p :: parts' => p ++ sep ++ Join parts' sep
  end.

Definition CRLF : bytes := [x0d; x0a].

(** ** Decimal and hexadecimal text *)

Definition digit (d : Z) : byte := byte_of (48 + d).
Definition is_digit (b : byte) : bool := (48 <=? u8 b) && (u8 b <=? 57).

Fixpoint dec_digits (fuel : nat) (n : Z) : bytes :=
  match fuel with
  | O => []
  | S f => if n <? 10 then [digit n] else dec_digits f (n / 10) ++ [digit (n mod 10)]
  end.

(** [strconv.Itoa] and the verb [%d]; a number has at most [log2 n + 1]
    decimal digits. *)
Definition Itoa (z : Z) : bytes :=
  if z <? 0 then x2d :: dec_digits (S (Z.to_nat (Z.log2 (- z)))) (- z)
  else dec_digits (S (Z.to_nat (Z.log2 z))) z.

Definition dec_value (s : bytes) : Z := fold_left (fun n b => 10 * n + (u8 b - 48)) s 0.

(** [strconv.Atoi]: an optional sign, at least one digit, nothing but digits,
    and a value of an [int]; [None] is a non-nil error. *)
Definition Atoi (s : bytes) : option Z :=
  let '(neg, s0) :=
    match s with
    | b :: s' => if Byte.eqb b x2d then (true, s') else if Byte.eqb b x2b then (false, s') else (false, s)
    | [] => (false, s)
    end in
  if decide (s0 = []) then None
  else if forallb is_digit s0 then
    let v := if neg : bool then - dec_value s0 else dec_value s0 in
    if (min_int64 <=? v) && (v <=? max_int64) then Some v else None
  else None.

Definition hex_digit (d : Z) : byte := if d <? 10 then byte_of (48 + d) else byte_of (87 + d).

(** [hex.EncodeToString] and the verb [%x] on bytes *)
Definition hex_byte (b : byte) : bytes := [hex_digit (u8 b / 16); hex_digit (u8 b mod 16)].
Definition hex_encode (l : bytes) : bytes := concat (map hex_byte l).

(** ** UTF-8 *)

Definition RuneError : Z := 65533.

Definition in_range (lo hi : Z) (b : byte) : bool := (lo <=? u8 b) && (u8 b <=? hi).

(** The bounds of the second byte and the number of continuation bytes for each
    first byte ([acceptRanges] of package [unicode/utf8]). *)
Definition utf8_first (b : byte) : option (nat * Z * Z) :=
  if in_range 0xC2 0xDF b then Some (1%nat, 0x80, 0xBF)
  else if u8 b =? 0xE0 then Some (2%nat, 0xA0, 0xBF)
  else if u8 b =? 0xED then Some (2%nat, 0x80, 0x9F)
  else if in_range 0xE1 0xEF b then Some (2%nat, 0x80, 0xBF)
  else if u8 b =? 0xF0 then Some (3%nat, 0x90, 0xBF)
  else if in_range 0xF1 0xF3 b then Some (3%nat, 0x80, 0xBF)
  else if u8 b =? 0xF4 then Some (3%nat, 0x80, 0x8F)
  else None.

(** [utf8.DecodeRune] on a non-empty string: the rune and the bytes it takes. *)
Definition DecodeRune (b : byte) (s : bytes) : Z * nat :=
  if u8 b <? 0x80 then (u8 b, 1%nat)
  else match utf8_first b with
  | Some (1%nat, lo, hi) =>
      match s with
      | c :: _ =>
          if in_range lo hi c
          then (Z.land (u8 b) 0x1F * 64 + Z.land (u8 c) 0x3F, 2%nat) else (RuneError, 1%nat)
      | _ => (RuneError, 1%nat)
      end
  | Some (2%nat, lo, hi) =>
      match s with
      | c :: d :: _ =>
          if in_range lo hi c && in_range 0x80 0xBF d
          then (Z.land (u8 b) 0x0F * 4096 + Z.land (u8 c) 0x3F * 64 + Z.land (u8 d) 0x3F, 3%nat)
          else (RuneError, 1%nat)
      | _ => (RuneError, 1%nat)
      end
  | Some (_, lo, hi) =>
      match s with
      | c :: d :: e :: _ =>
          if in_range lo hi c && in_range 0x80 0xBF d && in_range 0x80 0xBF e
          then (Z.land (u8 b) 0x07 * 262144 + Z.land (u8 c) 0x3F * 4096
                + Z.land (u8 d) 0x3F * 64 + Z.land (u8 e) 0x3F, 4%nat)
          else (RuneError, 1%nat)
      | _ => (RuneError, 1%nat)
      end
  | None => (RuneError, 1%nat)
  end.

(** [utf8.AppendRune]; an invalid rune is written as U+FFFD. *)
Definition EncodeRune (r : Z) : bytes :=
  if (0 <=? r) && (r <? 0x80) then [byte_of r]
  else if (0x80 <=? r) && (r <? 0x800) then [byte_of (0xC0 + r / 64); byte_of (0x80 + r mod 64)]
  else if (0x800 <=? r) && (r <? 0x10000) && negb ((0xD800 <=? r) && (r <=? 0xDFFF)) then
    [byte_of (0xE0 + r / 4096); byte_of (0x80 + (r / 64) mod 64); byte_of (0x80 + r mod 64)]
  else if (0x10000 <=? r) && (r <=? 0x10FFFF) then
    [byte_of (0xF0 + r / 262144); byte_of (0x80 + (r / 4096) mod 64);
     byte_of (0x80 + (r / 64) mod 64); byte_of (0x80 + r mod 64)]
  else [xef; xbf; xbd].

(** [strings.Map(f, s)] for an [f] that drops no rune. *)
Fixpoint Map_runes_fuel (fuel : nat) (f : Z -> Z) (s : bytes) : bytes :=
  match fuel, s with
  | S n, b :: s' =>
      let '(r, w) := DecodeRune b s' in
      EncodeRune (f r) ++ Map_runes_fuel n f (drop (w - 1) s')
  | _, _ => []
  end.
Definition Map_runes (f : Z -> Z) (s : bytes) : bytes := Map_runes_fuel (length s) f s.

(** Package [unicode]: the simple case mappings from U+0080 on. *)
Class Unicode := {
  unicode_upper : Z -> Z;
  unicode_lower : Z -> Z;
}.

(** Case tables that leave every rune outside ASCII unchanged. *)
Definition ascii_unicode : Unicode := {| unicode_upper := id; unicode_lower := id |}.

Definition ascii_upper (r : Z) : Z := if (97 <=? r) && (r <=? 122) then r - 32 else r.
Definition ascii_lower (r : Z) : Z := if (65 <=? r) && (r <=? 90) then r + 32 else r.

Section Case.
Context `{Unicode}.

(** [unicode.ToUpper] and [unicode.ToLower] *)
Definition rune_upper (r : Z) : Z := if r <? 0x80 then ascii_upper r else unicode_upper r.
Definition rune_lower (r : Z) : Z := if r <? 0x80 then ascii_lower r else unicode_lower r.

(** [strings.ToUpper] and [strings.ToLower] *)
Definition ToUpper (s : bytes) : bytes := Map_runes rune_upper s.
Definition ToLower (s : bytes) : bytes := Map_runes rune_lower s.
End Case.

(** ** Trimming *)

(** [unicode.IsSpace] *)
Definition IsSpace (r : Z) : bool :=
  ((9 <=? r) && (r <=? 13)) || (r =? 32) || (r =? 0x85) || (r =? 0xA0) || (r =? 0x1680)
  || ((0x2000 <=? r) && (r <=? 0x200a)) || (r =? 0x2028) || (r =? 0x2029)
  || (r =? 0x202f) || (r =? 0x205f) || (r =? 0x3000).

Fixpoint trim_left_fuel (fuel : nat) (s : bytes) : bytes :=
  match fuel, s with
  | S n, b :: s' =>
      let '(r, w) := DecodeRune b s' in
      if IsSpace r then trim_left_fuel n (drop (w - 1) s') else s
  | _, _ => s
  end.

Fixpoint trim_right_fuel (fuel : nat) (s : bytes) : bytes :=
  match fuel, s with
  | S n, b :: s' =>
      let '(r, w) := DecodeRune b s' in
      let rest := trim_right_fuel n (drop (w - 1) s') in
      if IsSpace r && bool_decide (rest = []) then [] else take w s ++ rest
  | _, _ => []
  end.

(** [strings.TrimSpace]. A rune boundary is the same read from either end,
    because a continuation byte never starts a rune. *)
Definition TrimSpace (s : bytes) : bytes :=
  let l := trim_left_fuel (length s) s in trim_right_fuel (length l) l.

(** [bytes.TrimRight(line, c)] for a cutset of one ASCII byte *)
Fixpoint TrimRight (s : bytes) (c : byte) : bytes :=
  match s with
  | [] => []
  | b :: s' =>
      match TrimRight s' c with
      | [] => if Byte.eqb b c then [] else [b]
      | r => b :: r
      end
  end.

(** [min(len(data), n)] bytes of the data *)
Definition clip (s : bytes) (n : Z) : bytes := take (Z.to_nat (Z.min (len s) n)) s.

(** ** Lemmas: bytes *)

Lemma byte_eqb_true a b : Byte.eqb a b = true <-> a = b.
Proof.
  split; [apply Byte.byte_dec_bl | intros ->; by apply Byte.byte_dec_lb].
Qed.

Lemma byte_eqb_refl a : Byte.eqb a a = true.
Proof. by apply byte_eqb_true. Qed.

Lemma byte_eqb_neq a b : a <> b -> Byte.eqb a b = false.
Proof.
  intros H. destruct (Byte.eqb a b) eqn:E; [|done]. by apply byte_eqb_true in E.
Qed.

Lemma HasPrefix_spec s p : HasPrefix s p = true <-> exists t, s = p ++ t.
Proof.
  revert s. induction p as [|a p IH]; intros s; [by destruct s; naive_solver|].
  destruct s as [|b s]; [split; [done | intros [t Ht]; done]|].
  simpl. rewrite andb_true_iff, byte_eqb_true, IH. split.
  - intros [-> [t ->]]. by exists t.
  - intros [t [= -> ->]]. eauto.
Qed.

Lemma HasPrefix_nil s : HasPrefix s [] = true.
Proof. by destruct s. Qed.

Lemma HasPrefix_app p t : HasPrefix (p ++ t) p = true.
Proof. apply HasPrefix_spec. eauto. Qed.

Lemma HasPrefix_length s p : HasPrefix s p = true -> (length p <= length s)%nat.
Proof. intros [t ->]%HasPrefix_spec. rewrite length_app. lia. Qed.

(** ** Lemmas: searching *)

Lemma Index_Some s sep i :
  Index s sep = Some i -> (i + length sep <= length s)%nat /\ exists t, drop i s = sep ++ t.
Proof.
  revert i. induction s as [|b s IH]; intros i; simpl.
  - destruct (HasPrefix [] sep) eqn:E; [|done]. intros [= <-].
    pose proof (HasPrefix_length _ _ E). apply HasPrefix_spec in E. simpl in *. eauto.
  - destruct (HasPrefix (b :: s) sep) eqn:E.
    + intros [= <-]. pose proof (HasPrefix_length _ _ E).
      apply HasPrefix_spec in E. split; [simpl in *; lia | exact E].
    + destruct (Index s sep) as [j|]; [|done]. intros [= <-].
      destruct (IH j eq_refl) as [? Ht]. simpl. split; [lia | exact Ht].
Qed.

Lemma Index_split s sep i :
  Index s sep = Some i -> s = take i s ++ sep ++ drop (i + length sep) s.
Proof.
  intros H. destruct (Index_Some _ _ _ H) as [Hl [t Ht]].
  rewrite <- (take_drop i s) at 1. f_equal. rewrite Ht. f_equal.
  by rewrite <- drop_drop, Ht, drop_app_length.
Qed.

(** No position before the one found matches. *)
Lemma Index_first s sep i j :
  Index s sep = Some i -> (j < i)%nat -> HasPrefix (drop j s) sep = false.
Proof.
  revert i j. induction s as [|b s IH]; intros i j; simpl.
  - destruct (HasPrefix [] sep); [|done]. intros [= <-]. lia.
  - destruct (HasPrefix (b :: s) sep) eqn:E; [intros [= <-]; lia|].
    destruct (Index s sep) as [k|] eqn:Ek; [|done]. intros [= <-] Hj.
    destruct j as [|j]; [done|]. apply (IH k); [done|lia].
Qed.

Lemma IndexByte_Some s c i :
  IndexByte s c = Some i ->
  (i < length s)%nat /\ s = take i s ++ c :: drop (S i) s /\ c ∉ take i s.
Proof.
  revert i. induction s as [|b s IH]; intros i; simpl; [done|].
  destruct (Byte.eqb b c) eqn:E.
  - intros [= <-]. apply byte_eqb_true in E as ->. simpl.
    split_and!; [lia | done | set_solver].
  - destruct (IndexByte s c) as [j|]; [|done]. intros [= <-].
    destruct (IH j eq_refl) as (? & Hs & ?). simpl. split_and!; [lia | congruence |].
    rewrite elem_of_cons. intros [->|?]; [by rewrite byte_eqb_refl in E | done].
Qed.

Lemma IndexByte_None s c : IndexByte s c = None <-> c ∉ s.
Proof.
  induction s as [|b s IH]; simpl; [split; [set_solver|done]|].
  destruct (Byte.eqb b c) eqn:E.
  - apply byte_eqb_true in E as ->. split; [done | set_solver].
  - rewrite not_elem_of_cons, <- IH.
    assert (c <> b) by (intros ->; by rewrite byte_eqb_refl in E).
    destruct (IndexByte s c); split; intuition (try discriminate || done).
Qed.

Lemma IndexByte_app s c t : c ∉ s -> IndexByte (s ++ c :: t) c = Some (length s).
Proof.
  induction s as [|b s IH]; simpl; intros Hc; [by rewrite byte_eqb_refl|].
  rewrite byte_eqb_neq by set_solver. rewrite IH by set_solver. done.
Qed.

(** A separator whose first byte does not occur again in it cannot straddle the
    end of a piece: the one written after the piece is the one found. *)
Lemma Index_app c t x rest :
  c ∉ t -> Index x (c :: t) = None ->
  Index (x ++ (c :: t) ++ rest) (c :: t) = Some (length x).
Proof.
  intros Hc. induction x as [|b x IH].
  - intros _. cbn [Index app].
    by rewrite (HasPrefix_app (c :: t) rest : HasPrefix (c :: t ++ rest) (c :: t) = true).
  - cbn [Index app length]. destruct (HasPrefix (b :: x) (c :: t)) eqn:E; [done|].
    destruct (Index x (c :: t)) eqn:Ex; [done|]. intros _.
    destruct (HasPrefix (b :: x ++ c :: t ++ rest) (c :: t)) eqn:E2.
    + apply HasPrefix_spec in E2 as [t' Ht]. simpl in Ht. injection Ht as -> Ht.
      assert (Hno : forall k, x = t ++ k -> False).
      { intros k ->. replace (c :: t ++ k) with ((c :: t) ++ k) in E by done.
        by rewrite HasPrefix_app in E. }
      apply app_eq_inv in Ht as [(k & Hk & _)|(k & Hk & Hr)]; [by destruct (Hno k)|].
      destruct k as [|d k]; [destruct (Hno []); by rewrite app_nil_r in Hk |- *|].
      simpl in Hr. injection Hr as -> _. set_solver.
    + by rewrite (IH eq_refl : Index (x ++ c :: t ++ rest) (c :: t) = _).
Qed.

Lemma Index_nil sep : sep <> [] -> Index [] sep = None.
Proof. by destruct sep. Qed.

(** *** Split and Join *)

Lemma SplitN_fuel sep n m s :
  sep <> [] -> (length s < n)%nat -> (length s < m)%nat -> SplitN s sep n = SplitN s sep m.
Proof.
  intros Hs. revert m s. induction n as [|n IH]; intros m s Hn Hm; [lia|].
  destruct m as [|m]; [lia|].
  assert (0 < length sep)%nat by (destruct sep; simpl; [done|lia]).
  cbn [SplitN]. destruct (Index s sep) as [i|] eqn:E; [|by destruct n, m].
  destruct (Index_Some _ _ _ E) as [Hl _].
  destruct n as [|n], m as [|m]; [lia|lia|lia|].
  f_equal. apply IH; rewrite length_drop; lia.
Qed.

(** The recursion equation of [Split]; it does not mention the fuel. *)
Lemma Split_eq s sep :
  sep <> [] ->
  Split s sep = match Index s sep with
                | None => [s]
                | Some i => take i s :: Split (drop (i + length sep) s) sep
                end.
Proof.
  intros Hs. assert (0 < length sep)%nat by (destruct sep; simpl; [done|lia]).
  unfold Split at 1. cbn [SplitN].
  destruct (Index s sep) as [i|] eqn:E.
  - destruct (Index_Some _ _ _ E) as [Hl _].
    destruct (length s) as [|n] eqn:Hn; [lia|]. f_equal. unfold Split.
    apply SplitN_fuel; [done| |]; rewrite length_drop; lia.
  - by destruct (length s).
Qed.

Lemma Split_None s sep : sep <> [] -> Index s sep = None -> Split s sep = [s].
Proof. intros Hs H. by rewrite Split_eq, H. Qed.

Lemma Split_app c t x rest :
  c ∉ t -> Index x (c :: t) = None ->
  Split (x ++ (c :: t) ++ rest) (c :: t) = x :: Split rest (c :: t).
Proof.
  intros Hc Hx. rewrite Split_eq by done. rewrite Index_app by done.
  rewrite take_app_length. f_equal.
  by rewrite <- drop_drop, drop_app_length, drop_app_length.
Qed.

Lemma Join_cons p parts sep :
  parts <> [] -> Join (p :: parts) sep = p ++ sep ++ Join parts sep.
Proof. by destruct parts. Qed.

Lemma Split_not_nil s sep : Split s sep <> [].
Proof.
  unfold Split. cbn [SplitN]. destruct (length s), (Index s sep); discriminate.
Qed.

(** Splitting loses nothing: joining the pieces gives the string back. *)
Lemma Join_Split s sep : sep <> [] -> Join (Split s sep) sep = s.
Proof.
  intros Hs. remember (length s) as n eqn:Hn.
  revert s Hn. induction n as [n IH] using lt_wf_ind. intros s ->.
  rewrite Split_eq by done. destruct (Index s sep) as [i|] eqn:E; [|done].
  destruct (Index_Some _ _ _ E) as [Hl _].
  assert (0 < length sep)%nat by (destruct sep; simpl; [done|lia]).
  rewrite Join_cons by apply Split_not_nil.
  rewrite (IH (length (drop (i + length sep) s))) by (rewrite ?length_drop; lia || done).
  symmetry. by apply Index_split.
Qed.

(** Pieces without the separator come back from the text that joins them. *)
Lemma Split_Join c t parts :
  c ∉ t -> parts <> [] -> Forall (fun p => Index p (c :: t) = None) parts ->
  Split (Join parts (c :: t)) (c :: t) = parts.
Proof.
  intros Hc Hne Hall. induction Hall as [|p parts Hp Hall IH]; [done|].
  destruct parts as [|q parts]; [by apply Split_None|].
  rewrite Join_cons by done. rewrite Split_app by done. f_equal. by apply IH.
Qed.

Lemma SplitN_app c t x rest n :
  c ∉ t -> Index x (c :: t) = None ->
  SplitN (x ++ (c :: t) ++ rest) (c :: t) (S (S n)) = x :: SplitN rest (c :: t) (S n).
Proof.
  intros Hc Hx. cbn [SplitN]. rewrite Index_app by done.
  rewrite take_app_length. f_equal.
  by rewrite <- drop_drop, drop_app_length, drop_app_length.
Qed.

Lemma Index_no_head s c t : c ∉ s -> Index s (c :: t) = None.
Proof.
  induction s as [|b s IH]; [done|]. rewrite not_elem_of_cons. intros [Hb Hs].
  cbn [Index HasPrefix]. by rewrite byte_eqb_neq, IH by done.
Qed.

Lemma Index_singleton_None s c : Index s [c] = None <-> c ∉ s.
Proof.
  induction s as [|b s IH]; [split; [by intros; apply not_elem_of_nil|done]|].
  cbn [Index HasPrefix]. rewrite HasPrefix_nil, andb_true_r.
  destruct (Byte.eqb c b) eqn:E.
  - apply byte_eqb_true in E as ->. rewrite elem_of_cons. split; [done | tauto].
  - assert (c <> b) by (intros ->; by rewrite byte_eqb_refl in E).
    rewrite not_elem_of_cons, <- IH.
    destruct (Index s [c]); split; intuition (try discriminate || done).
Qed.

(** *** Decimal text *)

Lemma digit_value d : 0 <= d < 10 -> u8 (digit d) - 48 = d.
Proof. intros. unfold digit. rewrite u8_byte_of_small; lia. Qed.

Lemma digit_is_digit d : 0 <= d < 10 -> is_digit (digit d) = true.
Proof. intros. unfold is_digit, digit. rewrite u8_byte_of_small by lia. lia. Qed.

Lemma dec_value_snoc s b : dec_value (s ++ [b]) = 10 * dec_value s + (u8 b - 48).
Proof. unfold dec_value. by rewrite fold_left_app. Qed.

Lemma pow_le_10_2 n : 0 <= n -> 2 ^ n <= 10 ^ n.
Proof. intros. apply Z.pow_le_mono_l. lia. Qed.

Lemma dec_digits_spec fuel n :
  0 <= n < 10 ^ Z.of_nat fuel ->
  dec_value (dec_digits fuel n) = n /\ forallb is_digit (dec_digits fuel n) = true.
Proof.
  revert n. induction fuel as [|f IH]; intros n Hn.
  { change (10 ^ Z.of_nat 0) with 1 in Hn. split; [unfold dec_value; simpl; lia|done]. }
  rewrite Nat2Z.inj_succ, Z.pow_succ_r in Hn by lia. cbn [dec_digits].
  destruct (n <? 10) eqn:E.
  - unfold dec_value. simpl. rewrite digit_value, digit_is_digit by lia. lia.
  - pose proof (Z.div_mod n 10 ltac:(lia)). pose proof (Z.mod_pos_bound n 10 ltac:(lia)).
    destruct (IH (n / 10)) as [IHv IHd].
    { split; [apply Z.div_pos; lia | apply Z.div_lt_upper_bound; lia]. }
    rewrite dec_value_snoc, IHv, forallb_app, IHd, digit_value by lia.
    simpl. rewrite digit_is_digit by lia. split; [lia|done].
Qed.

Lemma dec_digits_nonempty fuel n : dec_digits (S fuel) n <> [].
Proof.
  cbn [dec_digits]. destruct (n <? 10); [done|]. by destruct (dec_digits fuel (n / 10)).
Qed.

Lemma dec_fuel_enough n : 0 <= n -> n < 10 ^ Z.of_nat (S (Z.to_nat (Z.log2 n))).
Proof.
  intros Hn. pose proof (Z.log2_nonneg n).
  rewrite Nat2Z.inj_succ, Z2Nat.id by lia.
  destruct (decide (n = 0)) as [->|]; [done|].
  pose proof (Z.log2_spec n ltac:(lia)).
  pose proof (pow_le_10_2 (Z.succ (Z.log2 n)) ltac:(lia)). lia.
Qed.

Lemma Itoa_nonneg n :
  0 <= n ->
  dec_value (Itoa n) = n /\ forallb is_digit (Itoa n) = true /\ Itoa n <> [].
Proof.
  intros Hn. unfold Itoa. replace (n <? 0) with false by lia.
  destruct (dec_digits_spec (S (Z.to_nat (Z.log2 n))) n) as [Hv Hd];
    [by auto using dec_fuel_enough|].
  auto using dec_digits_nonempty.
Qed.

(** The decimal text of a number of at most 63 bits is short. *)
Lemma dec_digits_length fuel n : (length (dec_digits fuel n) <= fuel)%nat.
Proof.
  revert n. induction fuel as [|f IH]; intros n; cbn [dec_digits]; [done|].
  destruct (n <? 10); [simpl; lia|]. rewrite length_app. specialize (IH (n / 10)). simpl. lia.
Qed.

Lemma Itoa_short n : 0 <= n -> n <= 2 ^ 62 -> 0 < len (Itoa n) <= 64.
Proof.
  intros H0 Hn. destruct (Itoa_nonneg n H0) as (_ & _ & Hne). split.
  { destruct (Itoa n); [done|lens]. }
  unfold Itoa. replace (n <? 0) with false by lia. unfold len.
  pose proof (dec_digits_length (S (Z.to_nat (Z.log2 n))) n).
  pose proof (Z.log2_le_mono _ _ Hn) as Hl. change (Z.log2 (2 ^ 62)) with 62 in Hl.
  pose proof (Z.log2_nonneg n). lia.
Qed.

Lemma is_digit_not_sign b : is_digit b = true -> b <> x2d /\ b <> x2b.
Proof. intros H. split; intros ->; discriminate. Qed.

Lemma Atoi_digits s :
  s <> [] -> forallb is_digit s = true -> 0 <= dec_value s <= max_int64 ->
  Atoi s = Some (dec_value s).
Proof.
  intros Hne Hd Hv. destruct s as [|b s]; [done|]. unfold Atoi.
  pose proof Hd as Hd'. simpl in Hd'. apply andb_true_iff in Hd' as [Hb _].
  apply is_digit_not_sign in Hb as [? ?].
  rewrite !byte_eqb_neq by done. rewrite decide_False by done. rewrite Hd.
  unfold min_int64, max_int64 in *.
  by replace ((- 2 ^ 63 <=? dec_value (b :: s)) && (dec_value (b :: s) <=? 2 ^ 63 - 1))
    with true by lia.
Qed.

(** [Atoi] reads back what [Itoa] writes, for every [int]. *)
Lemma Atoi_range s n : Atoi s = Some n -> min_int64 <= n <= max_int64.
Proof.
  unfold Atoi. destruct (match s with [] => _ | _ => _ end) as [neg s0].
  case_decide; [done|]. destruct (forallb is_digit s0); [|done]. cbv zeta.
  destruct (_ && _) eqn:E; [|done]. intros [= <-]. lia.
Qed.

Lemma Atoi_Itoa n : min_int64 <= n <= max_int64 -> Atoi (Itoa n) = Some n.
Proof.
  intros Hn. destruct (decide (0 <= n)) as [Hp|Hp].
  - destruct (Itoa_nonneg n Hp) as (Hv & Hd & Hne).
    rewrite Atoi_digits by (rewrite ?Hv; done || lia). by rewrite Hv.
  - unfold Itoa. replace (n <? 0) with true by lia. unfold Atoi. rewrite byte_eqb_refl.
    destruct (dec_digits_spec (S (Z.to_nat (Z.log2 (- n)))) (- n)) as [Hv Hd].
    { split; [lia|]. apply dec_fuel_enough. lia. }
    rewrite decide_False by apply dec_digits_nonempty. rewrite Hd, Hv.
    unfold min_int64, max_int64 in *.
    replace ((- 2 ^ 63 <=? - - n) && (- - n <=? 2 ^ 63 - 1)) with true by lia.
    f_equal. lia.
Qed.

Lemma Itoa_inj m n : 0 <= m -> 0 <= n -> Itoa m = Itoa n -> m = n.
Proof.
  intros Hm Hn H. destruct (Itoa_nonneg m Hm) as [Em _].
  destruct (Itoa_nonneg n Hn) as [En _]. congruence.
Qed.

(** Digits hold no byte outside ['0'..'9']. *)
Lemma Itoa_no_byte n b : 0 <= n -> is_digit b = false -> b ∉ Itoa n.
Proof.
  intros Hn Hb Hin. destruct (Itoa_nonneg n Hn) as (_ & Hd & _).
  rewrite forallb_forall in Hd. rewrite Hd in Hb; [done|]. by apply list_elem_of_In.
Qed.

(** *** Case mapping *)

Section CaseLemmas.
Context `{Unicode}.

Definition ascii (b : byte) : Prop := u8 b < 128.

Lemma DecodeRune_ascii b s : ascii b -> DecodeRune b s = (u8 b, 1%nat).
Proof. unfold ascii, DecodeRune. intros. by replace (u8 b <? 128) with true by lia. Qed.

Lemma EncodeRune_ascii r : 0 <= r < 128 -> EncodeRune r = [byte_of r].
Proof.
  intros. unfold EncodeRune. by replace ((0 <=? r) && (r <? 128)) with true by lia.
Qed.

Lemma Map_runes_cons f b s :
  Map_runes f (b :: s) =
  EncodeRune (f (fst (DecodeRune b s)))
    ++ Map_runes f (drop (snd (DecodeRune b s) - 1) s).
Proof.
  unfold Map_runes. cbn [length Map_runes_fuel].
  destruct (DecodeRune b s) as [r w]; simpl. f_equal.
  assert (Hfuel : forall n m t, (length t <= n)%nat -> (length t <= m)%nat ->
            Map_runes_fuel n f t = Map_runes_fuel m f t).
  { clear. intros n. induction n as [|n IH]; intros m [|c t]; simpl; try lia;
      [by destruct m..|]. destruct m as [|m]; simpl; [lia|].
    destruct (DecodeRune c t). intros. f_equal. apply IH; rewrite length_drop; lia. }
  apply Hfuel; rewrite length_drop; lia.
Qed.

(** On ASCII text the mapping is byte by byte: the fast path of Go's library. *)
Lemma Map_runes_ascii f s :
  (forall r, 0 <= r < 128 -> 0 <= f r < 128) -> Forall ascii s ->
  Map_runes f s = map (fun b => byte_of (f (u8 b))) s.
Proof.
  intros Hf. induction 1 as [|b s Hb Hs IH]; [done|].
  rewrite Map_runes_cons, DecodeRune_ascii by done. simpl.
  pose proof (u8_range b). unfold ascii in *.
  rewrite EncodeRune_ascii by (apply Hf; lia). simpl. by rewrite drop_0, IH.
Qed.

Lemma rune_upper_ascii r : 0 <= r < 128 -> rune_upper r = ascii_upper r /\ 0 <= ascii_upper r < 128.
Proof.
  intros. unfold rune_upper, ascii_upper. replace (r <? 128) with true by lia.
  split; [done|]. destruct ((97 <=? r) && (r <=? 122)) eqn:?; lia.
Qed.

Lemma ToUpper_ascii s :
  Forall ascii s -> ToUpper s = map (fun b => byte_of (ascii_upper (u8 b))) s.
Proof.
  intros Hs. unfold ToUpper. rewrite Map_runes_ascii; [|intros r Hr|done].
  - induction Hs as [|b s Hb Hs IH]; simpl; [done|]. f_equal; [|done].
    pose proof (u8_range b). f_equal.
    apply rune_upper_ascii. unfold ascii in Hb. lia.
  - destruct (rune_upper_ascii r Hr) as [-> ?]. done.
Qed.

(** The first byte written for a rune is ASCII only when it is all of it. *)
Lemma EncodeRune_first r a l :
  EncodeRune r = a :: l -> ascii a -> l = [].
Proof.
  unfold EncodeRune, ascii. intros He Ha.
  destruct ((0 <=? r) && (r <? 0x80)); [by injection He as <- <-|].
  destruct ((0x80 <=? r) && (r <? 0x800)) eqn:E1.
  { injection He as <- _. rewrite u8_byte_of in Ha. exfalso. Z.div_mod_to_equations; lia. }
  destruct ((0x800 <=? r) && (r <? 0x10000) && _) eqn:E2.
  { injection He as <- _. rewrite u8_byte_of in Ha. exfalso.
    apply andb_true_iff in E2 as [E2 _]. Z.div_mod_to_equations; lia. }
  destruct ((0x10000 <=? r) && (r <=? 0x10FFFF)) eqn:E3; injection He as <- _.
  - rewrite u8_byte_of in Ha. exfalso. Z.div_mod_to_equations; lia.
  - exfalso. revert Ha. by compute.
Qed.

Lemma EncodeRune_not_nil r : EncodeRune r <> [].
Proof. unfold EncodeRune. by repeat case_match. Qed.

(** A case-mapped text that begins with an ASCII word comes from a text at
    least as long as the word, whatever the case tables are. *)
Lemma Map_runes_ascii_prefix f s p :
  HasPrefix (Map_runes f s) p = true -> Forall ascii p -> (length p <= length s)%nat.
Proof.
  intros Hp Ha. remember (length s) as n eqn:Hn. revert s Hn p Hp Ha.
  induction n as [n IH] using lt_wf_ind. intros s -> p Hp Ha.
  destruct p as [|a p]; [simpl; lia|]. destruct s as [|b s]; [done|].
  apply HasPrefix_spec in Hp as [t Ht]. rewrite Map_runes_cons in Ht.
  apply Forall_cons_1 in Ha as [Ha Hp].
  destruct (EncodeRune _) as [|c l] eqn:E; [by apply EncodeRune_not_nil in E|].
  simpl in Ht. injection Ht as -> Ht.
  rewrite (EncodeRune_first _ _ _ E Ha) in Ht. simpl in Ht.
  assert (Hlen : (length p <= length (drop (snd (DecodeRune b s) - 1) s))%nat).
  { eapply IH; [|done| |done]; [rewrite length_drop; simpl; lia|].
    apply HasPrefix_spec. eauto. }
  rewrite length_drop in Hlen. simpl. lia.
Qed.
End CaseLemmas.

(** *** Trimming *)

Lemma TrimRight_app k l c : TrimRight l c <> [] -> TrimRight (k ++ l) c = k ++ TrimRight l c.
Proof.
  intros Hl. induction k as [|b k IH]; [done|]. cbn [app TrimRight]. rewrite IH.
  destruct (k ++ TrimRight l c) eqn:E; [|done]. apply app_eq_nil in E as [_ E]. done.
Qed.

Lemma TrimRight_snoc l c : TrimRight (l ++ [c]) c = TrimRight l c.
Proof.
  induction l as [|b l IH]; cbn [app TrimRight]; [by rewrite byte_eqb_refl|]. by rewrite IH.
Qed.

(** *** Hexadecimal text *)

Lemma length_hex_encode l : length (hex_encode l) = (2 * length l)%nat.
Proof. unfold hex_encode. induction l; simpl in *; lia. Qed.

Lemma hex_digit_inj a b : 0 <= a < 16 -> 0 <= b < 16 -> hex_digit a = hex_digit b -> a = b.
Proof.
  intros Ha Hb H. apply (f_equal u8) in H. unfold hex_digit in H.
  destruct (a <? 10) eqn:?, (b <? 10) eqn:?; rewrite !u8_byte_of_small in H by lia; lia.
Qed.

Lemma hex_byte_inj a b : hex_byte a = hex_byte b -> a = b.
Proof.
  intros [= H1 H2]. pose proof (u8_range a). pose proof (u8_range b).
  apply hex_digit_inj in H1, H2; try (Z.div_mod_to_equations; lia).
  apply u8_inj. Z.div_mod_to_equations. lia.
Qed.

(** Hexadecimal text determines the bytes it was made from. *)
Lemma hex_encode_inj k l : hex_encode k = hex_encode l -> k = l.
Proof.
  revert l. induction k as [|a k IH]; intros [|b l] H; try done.
  unfold hex_encode in *. simpl in H. injection H as H1 H2 H.
  f_equal; [|by apply IH]. apply hex_byte_inj. unfold hex_byte. congruence.
Qed.
