(* ===== verification/Json.v ===== *)
(** * JSON texts ([encoding/json])

    The values, texts and reader of JSON that the serializer of the events
    relies on: what [json.Marshal] writes for strings (with the escapes it uses
    for HTML and for invalid UTF-8), integers, arrays and objects, base64 for
    byte slices, and a reader of such texts as a consumer has it. The texts
    have no white space. *)

From S2P Require Import Prelude.
From S2P Require Import GoStrings.
From Stdlib Require Import Lia.

#[local] Set Warnings "-register-all".

Module Json.

Inductive json :=
| JNull
| JBool (b : bool)
| JNum (z : Z)
| JStr (s : bytes)
| JArr (l : list json)
| JObj (l : list (bytes * json)).

(** Induction with the hypothesis for the elements and members. *)
Section Induction.
Variable P : json -> Prop.
Hypotheses (Hnull : P JNull) (Hbool : forall b, P (JBool b)) (Hnum : forall z, P (JNum z))
  (Hstr : forall s, P (JStr s)) (Harr : forall l, Forall P l -> P (JArr l))
  (Hobj : forall l, Forall (fun kv => P (snd kv)) l -> P (JObj l)).

Fixpoint json_nested_ind (j : json) : P j :=
  match j with
  | JNull => Hnull | JBool b => Hbool b | JNum z => Hnum z | JStr s => Hstr s
  | JArr l => Harr l ((fix go l := match l return Forall P l with
      | [] => List.Forall_nil _
      | x :: l => List.Forall_cons _ _ _ (json_nested_ind x) (go l) end) l)
  | JObj l => Hobj l ((fix go l := match l return Forall (fun kv => P (snd kv)) l with
      | [] => List.Forall_nil _
      | kv :: l => List.Forall_cons _ _ _ (json_nested_ind (snd kv)) (go l) end) l)
  end.
End Induction.

(** ** Strings *)

(** A string as [appendString] walks over it: the bytes of one rune, or a byte
    that starts none. *)
Inductive chunk := Rune (c : bytes) | Bad.

Fixpoint chunks_fuel (fuel : nat) (s : bytes) : list chunk :=
  match fuel, s with
  | S n, b :: s' =>
      let '(r, w) := DecodeRune b s' in
      if (128 <=? u8 b) && (r =? RuneError) && (w =? 1)%nat then Bad :: chunks_fuel n s'
      else Rune (b :: take (w - 1) s') :: chunks_fuel n (drop (w - 1) s')
  | _, _ => []
  end.
Definition chunks (s : bytes) : list chunk := chunks_fuel (length s) s.

(** [htmlSafeSet], negated: the ASCII bytes that are escaped. *)
Definition needs_escape (b : byte) : bool :=
  (u8 b <? 32) || existsb (Byte.eqb b) [x22; x5c; x3c; x3e; x26].

Definition escape_byte (b : byte) : bytes :=
  if existsb (Byte.eqb b) [x22; x5c] then [x5c; b]
  else if Byte.eqb b x08 then str "\b" else if Byte.eqb b x0c then str "\f"
  else if Byte.eqb b x0a then str "\n" else if Byte.eqb b x0d then str "\r"
  else if Byte.eqb b x09 then str "\t"
  else str "\u00" ++ hex_byte b.

(** U+2028 and U+2029, as they are in UTF-8, are escaped too. *)
Definition escape_chunk (c : chunk) : bytes :=
  match c with
  | Bad => str "\ufffd"
  | Rune [b] => if needs_escape b then escape_byte b else [b]
  | Rune c =>
      if bool_decide (c = [xe2; x80; xa8]) then str "\u2028"
      else if bool_decide (c = [xe2; x80; xa9]) then str "\u2029" else c
  end.

(** [appendString] *)
Definition quote (s : bytes) : bytes := x22 :: concat (map escape_chunk (chunks s)) ++ [x22].

(** The string the text denotes: invalid bytes are replaced by U+FFFD. *)
Definition chunk_bytes (c : chunk) : bytes :=
  match c with Rune c => c | Bad => [xef; xbf; xbd] end.
Definition sanitize (s : bytes) : bytes := concat (map chunk_bytes (chunks s)).

(** Valid UTF-8 *)
Definition utf8 (s : bytes) : bool :=
  forallb (fun c => match c with Rune _ => true | Bad => false end) (chunks s).

(** ** Base64, as [base64.StdEncoding] *)

Definition b64_char (v : Z) : byte :=
  byte_of (if v <? 26 then 65 + v else if v <? 52 then 71 + v else if v <? 62 then v - 4
           else if v =? 62 then 43 else 47).

Fixpoint base64 (l : bytes) : bytes :=
  match l with
  | [] => []
  | [a] => [b64_char (u8 a / 4); b64_char (u8 a mod 4 * 16); x3d; x3d]
  | [a; b] => [b64_char (u8 a / 4); b64_char (u8 a mod 4 * 16 + u8 b / 16);
               b64_char (u8 b mod 16 * 4); x3d]
  | a :: b :: c :: l' =>
      b64_char (u8 a / 4) :: b64_char (u8 a mod 4 * 16 + u8 b / 16)
      :: b64_char (u8 b mod 16 * 4 + u8 c / 64) :: b64_char (u8 c mod 64) :: base64 l'
  end.

(** ** Texts *)

Fixpoint print (j : json) : bytes :=
  match j with
  | JNull => str "null"
  | JBool b => if b then str "true" else str "false"
  | JNum z => Itoa z
  | JStr s => quote s
  | JArr l => x5b :: Join (map print l) (str ",") ++ [x5d]
  | JObj l => x7b :: Join (map (fun '(k, v) => quote k ++ x3a :: print v) l) (str ",") ++ [x7d]
  end.

(** ** The reader *)

Definition unescape (c : byte) : option byte :=
  if existsb (Byte.eqb c) [x22; x5c; x2f] then Some c
  else if Byte.eqb c x62 then Some x08 else if Byte.eqb c x66 then Some x0c
  else if Byte.eqb c x6e then Some x0a else if Byte.eqb c x72 then Some x0d
  else if Byte.eqb c x74 then Some x09 else None.

Definition hex_value (c : byte) : option Z :=
  if in_range 48 57 c then Some (u8 c - 48) else if in_range 97 102 c then Some (u8 c - 87)
  else if in_range 65 70 c then Some (u8 c - 55) else None.

(** The rest of a string literal after its opening quote. *)
Fixpoint read_string (d : bytes) : option (bytes * bytes) :=
  match d with
  | [] => None
  | b :: d1 =>
      if u8 b =? 34 then Some ([], d1)
      else if u8 b <? 32 then None
      else if u8 b =? 92 then
        match d1 with
        | [] => None
        | c :: d2 =>
            if u8 c =? 117 then
              match d2 with
              | h1 :: h2 :: h3 :: h4 :: d3 =>
                  a ← hex_value h1; b ← hex_value h2; c ← hex_value h3; e ← hex_value h4;
                  '(s, t) ← read_string d3;
                  Some (EncodeRune (4096 * a + 256 * b + 16 * c + e) ++ s, t)
              | _ => None
              end
            else x ← unescape c; '(s, t) ← read_string d2; Some (x :: s, t)
        end
      else '(s, t) ← read_string d1; Some (b :: s, t)
  end.

Fixpoint span_digits (d : bytes) : bytes * bytes :=
  match d with
  | b :: d' => if is_digit b then let '(ds, t) := span_digits d' in (b :: ds, t) else ([], d)
  | [] => ([], [])
  end.

Definition read_number (d : bytes) : option (json * bytes) :=
  let '(neg, d) := match d with b :: d' => if Byte.eqb b x2d then (true, d') else (false, d) | [] => (false, d) end in
  let '(ds, t) := span_digits d in
  if bool_decide (ds = []) then None
  else Some (JNum (if neg : bool then - dec_value ds else dec_value ds), t).

(** The input after a literal. *)
Definition after (lit : bytes) (d : bytes) : option bytes :=
  if HasPrefix d lit then Some (drop (length lit) d) else None.

Fixpoint read (fuel : nat) (d : bytes) {struct fuel} : option (json * bytes) :=
  match fuel, d with
  | S n, b :: d' =>
      if Byte.eqb b x22 then '(s, t) ← read_string d'; Some (JStr s, t)
      else if Byte.eqb b x5b then
        if HasPrefix d' [x5d] then Some (JArr [], drop 1 d')
        else '(l, t) ← read_elements n d'; Some (JArr l, t)
      else if Byte.eqb b x7b then
        if HasPrefix d' [x7d] then Some (JObj [], drop 1 d')
        else '(l, t) ← read_members n d'; Some (JObj l, t)
      else if Byte.eqb b x6e then t ← after (str "null") d; Some (JNull, t)
      else if Byte.eqb b x74 then t ← after (str "true") d; Some (JBool true, t)
      else if Byte.eqb b x66 then t ← after (str "false") d; Some (JBool false, t)
      else read_number d
  | _, _ => None
  end
with read_elements (fuel : nat) (d : bytes) {struct fuel} : option (list json * bytes) :=
  match fuel with
  | O => None
  | S n =>
      '(x, t) ← read n d;
      match t with
      | b :: t' =>
          if Byte.eqb b x5d then Some ([x], t')
          else if Byte.eqb b x2c then '(l, t) ← read_elements n t'; Some (x :: l, t)
          else None
      | [] => None
      end
  end
with read_members (fuel : nat) (d : bytes) {struct fuel} : option (list (bytes * json) * bytes) :=
  match fuel with
  | O => None
  | S n =>
      d ← after [x22] d; '(k, t) ← read_string d; t ← after (str ":") t;
      '(x, t) ← read n t;
      match t with
      | b :: t' =>
          if Byte.eqb b x7d then Some ([(k, x)], t')
          else if Byte.eqb b x2c then '(l, t) ← read_members n t'; Some ((k, x) :: l, t)
          else None
      | [] => None
      end
  end.

(** A whole text. *)
Definition parse (d : bytes) : option json :=
  match read (S (length d)) d with Some (j, []) => Some j | _ => None end.

Definition b64_value (c : byte) : option Z :=
  if in_range 65 90 c then Some (u8 c - 65) else if in_range 97 122 c then Some (u8 c - 71)
  else if in_range 48 57 c then Some (u8 c + 4) else if u8 c =? 43 then Some 62
  else if u8 c =? 47 then Some 63 else None.

Fixpoint unbase64 (l : bytes) : option bytes :=
  match l with
  | [] => Some []
  | c1 :: c2 :: c3 :: c4 :: l' =>
      v1 ← b64_value c1; v2 ← b64_value c2;
      let a := byte_of (v1 * 4 + v2 / 16) in
      if Byte.eqb c3 x3d then
        if Byte.eqb c4 x3d && bool_decide (l' = []) then Some [a] else None
      else
        v3 ← b64_value c3;
        let b := byte_of (v2 mod 16 * 16 + v3 / 4) in
        if Byte.eqb c4 x3d then if bool_decide (l' = []) then Some [a; b] else None
        else v4 ← b64_value c4; rest ← unbase64 l'; Some (a :: b :: byte_of (v3 mod 4 * 64 + v4) :: rest)
  | _ => None
  end.

(** What the reader makes of a printed value. *)
Fixpoint sanitized (j : json) : json :=
  match j with
  | JStr s => JStr (sanitize s)
  | JArr l => JArr (map sanitized l)
  | JObj l => JObj (map (fun '(k, v) => (sanitize k, sanitized v)) l)
  | j => j
  end.

Example print_sample :
  print (JObj [(str "a<b", JArr [JNum (-12); JBool true; JNull]); ([xff], JStr [x0a; xe2; x80; xa8])])
  = str "{" ++ [x22] ++ str "a\u003cb" ++ [x22] ++ str ":[-12,true,null]," ++ [x22] ++ str "\ufffd" ++ [x22]
    ++ str ":" ++ [x22] ++ str "\n\u2028" ++ [x22] ++ str "}".
Proof. vm_compute. reflexivity. Qed.

Example base64_sample : base64 (str "any carnal pleas") = str "YW55IGNhcm5hbCBwbGVhcw==".
Proof. vm_compute. reflexivity. Qed.

(** ** Strings are read back *)

(** What a chunk can be: an ASCII byte, or bytes that all are above. *)
Definition chunk_ok (c : chunk) : Prop :=
  match c with
  | Bad => True
  | Rune [] => False
  | Rune [b] => True
  | Rune c => Forall (fun b => 128 <= u8 b) c
  end.

Lemma utf8_first_lo b n lo hi : utf8_first b = Some (n, lo, hi) -> 128 <= lo /\ (1 <= n <= 3)%nat.
Proof. unfold utf8_first. repeat case_match; intros [= <- <- <-]; lia. Qed.

Lemma DecodeRune_ascii_width b s r w : u8 b < 128 -> DecodeRune b s = (r, w) -> w = 1%nat.
Proof. intros Hb. rewrite DecodeRune_ascii by (unfold ascii; done). by intros [= <- <-]. Qed.

(** The continuation bytes of a rune, or a byte that starts none. *)
Lemma DecodeRune_high b s r w :
  128 <= u8 b -> DecodeRune b s = (r, w) ->
  (r = RuneError /\ w = 1%nat) \/
  ((2 <= w)%nat /\ (w - 1 <= length s)%nat /\ Forall (fun c => 128 <= u8 c) (take (w - 1) s)).
Proof.
  intros Hb. unfold DecodeRune. replace (u8 b <? 128) with false by lia.
  destruct (utf8_first b) as [[[n lo] hi]|] eqn:E; [|intros [= <- <-]; by left].
  apply utf8_first_lo in E as [Hlo Hn].
  assert (Hr : forall c, in_range lo hi c = true -> 128 <= u8 c) by (unfold in_range; lia).
  assert (Hc : forall c, in_range 128 191 c = true -> 128 <= u8 c) by (unfold in_range; lia).
  destruct n as [|[|[|n]]]; [lia|..]; destruct s as [|c [|d [|e s]]];
    try (intros [= <- <-]; by left);
    repeat match goal with |- context [if ?x then _ else _] => destruct x eqn:? end;
    intros [= <- <-]; try (by left); right; rewrite ?andb_true_iff in *; destruct_and?;
    (split; [lia|]); (split; [simpl; lia|]); cbn [take]; repeat (constructor; [by auto|]); constructor.
Qed.

Lemma chunks_fuel_ok n s : Forall chunk_ok (chunks_fuel n s).
Proof.
  revert s. induction n as [|n IH]; intros [|b s]; cbn [chunks_fuel]; try constructor.
  destruct (DecodeRune b s) as [r w] eqn:E. destruct (_ && _) eqn:Ebad; [by repeat constructor|].
  constructor; [|done]. destruct (decide (u8 b < 128)) as [Hb|Hb].
  - by rewrite (DecodeRune_ascii_width b s r w Hb E).
  - destruct (DecodeRune_high b s r w ltac:(lia) E) as [[-> ->]|(Hw & Hl & Hf)];
      [unfold RuneError in Ebad; lia|].
    destruct (take (w - 1) s) as [|c l] eqn:El.
    + apply (f_equal length) in El. rewrite length_take in El. simpl in El. lia.
    + constructor; [lia|done].
Qed.

(** A valid string is read from its runes as it is. *)
Lemma chunks_fuel_concat n s :
  (length s <= n)%nat ->
  forallb (fun c => match c with Rune _ => true | Bad => false end) (chunks_fuel n s) = true ->
  concat (map chunk_bytes (chunks_fuel n s)) = s.
Proof.
  revert s. induction n as [|n IH]; intros [|b s] Hn; cbn [chunks_fuel]; try done; [simpl in Hn; lia|].
  destruct (DecodeRune b s) as [r w]. destruct (_ && _); [done|]. cbn. intros Hv.
  f_equal. rewrite IH; [by rewrite take_drop| |done]. rewrite length_drop. simpl in Hn. lia.
Qed.

Lemma sanitize_utf8 s : utf8 s = true -> sanitize s = s.
Proof. intros. by apply chunks_fuel_concat. Qed.

Lemma utf8_ascii s : Forall ascii s -> utf8 s = true.
Proof.
  unfold utf8, chunks. intros Hs. enough (forall n, forallb _ (chunks_fuel n s) = true) by done.
  intros n. revert n. induction Hs as [|b s Hb Hs IH]; intros [|n]; cbn [chunks_fuel]; try done.
  rewrite DecodeRune_ascii by done. unfold ascii in Hb. replace (128 <=? u8 b) with false by lia.
  cbn. apply IH.
Qed.

(** A byte that stands for itself in a string literal. *)
Lemma read_string_high c t :
  Forall (fun b => 128 <= u8 b) c ->
  read_string (c ++ t) = ('(s, r) ← read_string t; Some (c ++ s, r)).
Proof.
  induction 1 as [|b c Hb Hc IH]; cbn [app].
  - by destruct (read_string t) as [[]|].
  - cbn [read_string]. replace (u8 b =? 34) with false by lia. replace (u8 b <? 32) with false by lia.
    replace (u8 b =? 92) with false by lia. rewrite IH. by destruct (read_string t) as [[]|].
Qed.

Lemma read_escape c t :
  chunk_ok c -> read_string (escape_chunk c ++ t) = ('(s, r) ← read_string t; Some (chunk_bytes c ++ s, r)).
Proof.
  destruct c as [[|b [|b' c]]|]; intros Hc; [done| | |].
  - destruct b; cbn; by destruct (read_string t) as [[]|].
  - cbn [escape_chunk chunk_bytes]. case_bool_decide as E1.
    { rewrite E1. cbn. by destruct (read_string t) as [[]|]. }
    case_bool_decide as E2; [rewrite E2; cbn; by destruct (read_string t) as [[]|]|].
    by apply read_string_high.
  - cbn. by destruct (read_string t) as [[]|].
Qed.

Lemma read_quote s t : read_string (concat (map escape_chunk (chunks s)) ++ x22 :: t) = Some (sanitize s, t).
Proof.
  unfold sanitize. pose proof (chunks_fuel_ok (length s) s) as Hok. fold (chunks s) in Hok.
  induction Hok as [|c cs Hc Hok IH]; cbn [map concat]; [done|].
  rewrite <- app_assoc, read_escape by done. by rewrite IH.
Qed.

(** ** Numbers are read back *)

(** A number ends where no digit follows. *)
Definition number_end (t : bytes) : Prop := match t with b :: _ => is_digit b = false | [] => True end.

Lemma span_digits_app ds t :
  forallb is_digit ds = true -> number_end t -> span_digits (ds ++ t) = (ds, t).
Proof.
  intros Hd Ht. induction ds as [|b ds IH]; cbn [app].
  - destruct t as [|b t]; [done|]. cbn. by rewrite Ht.
  - simpl in Hd. apply andb_true_iff in Hd as [Hb Hd]. cbn. by rewrite Hb, IH.
Qed.

Lemma read_number_digits b ds t :
  forallb is_digit (b :: ds) = true -> number_end t ->
  read_number ((b :: ds) ++ t) = Some (JNum (dec_value (b :: ds)), t).
Proof.
  intros Hd Ht. pose proof Hd as Hd'. simpl in Hd'. apply andb_true_iff in Hd' as [Hb _].
  apply is_digit_not_sign in Hb as [Hb _]. unfold read_number. cbn [app].
  rewrite byte_eqb_neq by done. change (b :: ds ++ t) with ((b :: ds) ++ t).
  by rewrite span_digits_app.
Qed.

Lemma read_Itoa z t : number_end t -> read_number (Itoa z ++ t) = Some (JNum z, t).
Proof.
  intros Ht. destruct (decide (0 <= z)) as [Hz|Hz].
  - destruct (Itoa_nonneg z Hz) as (Hv & Hd & Hne). destruct (Itoa z) as [|b ds]; [done|].
    by rewrite read_number_digits, Hv.
  - assert (E : Itoa z = x2d :: Itoa (- z)).
    { unfold Itoa. replace (z <? 0) with true by lia. by replace (- z <? 0) with false by lia. }
    rewrite E. destruct (Itoa_nonneg (- z) ltac:(lia)) as (Hv & Hd & Hne). unfold read_number. cbn [app].
    rewrite byte_eqb_refl, span_digits_app by done. rewrite bool_decide_false by done. do 3 f_equal. lia.
Qed.

(** ** Every text is read back *)

Lemma Itoa_head z : exists b s, Itoa z = b :: s /\ (b = x2d \/ is_digit b = true).
Proof.
  destruct (decide (0 <= z)) as [Hz|Hz].
  - destruct (Itoa_nonneg z Hz) as (_ & Hd & Hne). destruct (Itoa z) as [|b s]; [done|].
    exists b, s. split; [done|]. simpl in Hd. apply andb_true_iff in Hd as [? _]. by right.
  - unfold Itoa. replace (z <? 0) with true by lia. eauto.
Qed.

Lemma read_num n z t : read (S n) (Itoa z ++ t) = read_number (Itoa z ++ t).
Proof.
  destruct (Itoa_head z) as (b & s & -> & Hb). cbn [app read].
  destruct b; try reflexivity; by destruct Hb.
Qed.

Lemma print_head j : exists b s, print j = b :: s /\ b <> x5d.
Proof.
  destruct j as [|b|z|s|l|l]; cbn.
  - by eexists x6e, _.
  - destruct b; [by eexists x74, _|by eexists x66, _].
  - destruct (Itoa_head z) as (b & s & -> & Hb). exists b, s. split; [done|]. intros ->. by destruct Hb.
  - by eexists x22, _.
  - by eexists x5b, _.
  - by eexists x7b, _.
Qed.

Lemma after_app lit t : after lit (lit ++ t) = Some t.
Proof. unfold after. by rewrite HasPrefix_app, drop_app_length. Qed.

(** What the reader does with the text of a value, given enough fuel. *)
Definition reads (j : json) : Prop :=
  forall fuel t, (length (print j) < fuel)%nat -> number_end t ->
    read fuel (print j ++ t) = Some (sanitized j, t).

Lemma read_elements_ok x l fuel t :
  Forall reads (x :: l) -> (S (length (Join (map print (x :: l)) (str ","))) < fuel)%nat ->
  read_elements fuel (Join (map print (x :: l)) (str ",") ++ x5d :: t) = Some (map sanitized (x :: l), t).
Proof.
  revert x fuel. induction l as [|y l IH]; intros x fuel Hl Hf; destruct fuel as [|n]; try lia;
    apply Forall_cons_1 in Hl as [Hx Hl].
  - cbn [map Join] in *. cbn [read_elements]. rewrite Hx by (done || lia). done.
  - cbn [map] in *. rewrite Join_cons in Hf |- * by done. cbn [read_elements]. rewrite <- !app_assoc.
    rewrite !length_app in Hf. change (length (str ",")) with 1%nat in Hf.
    rewrite Hx by (done || lia). specialize (IH y n Hl). cbn [map] in IH.
    set (J := Join (print y :: _) _) in *. clearbody J. cbn. by rewrite IH by lia.
Qed.

Lemma read_members_S k x n t :
  reads x -> (length (print x) < n)%nat -> number_end t ->
  read_members (S n) ((quote k ++ x3a :: print x) ++ t)
  = match t with
    | b :: t' =>
        if Byte.eqb b x7d then Some ([(sanitize k, sanitized x)], t')
        else if Byte.eqb b x2c
        then '(l, t) ← read_members n t'; Some ((sanitize k, sanitized x) :: l, t)
        else None
    | [] => None
    end.
Proof.
  intros Hx Hn Ht. cbn [read_members]. unfold quote.
  replace (((x22 :: concat (map escape_chunk (chunks k)) ++ [x22]) ++ x3a :: print x) ++ t)
    with ([x22] ++ concat (map escape_chunk (chunks k)) ++ x22 :: str ":" ++ print x ++ t)
    by (cbn [app]; rewrite <- !app_assoc; done).
  rewrite after_app. cbn [mbind option_bind]. rewrite read_quote. cbn [mbind option_bind].
  rewrite after_app. cbn [mbind option_bind]. by rewrite Hx.
Qed.

Definition print_member : bytes * json -> bytes := fun '(k, v) => quote k ++ x3a :: print v.

Lemma read_members_ok kx l fuel t :
  Forall (fun kv => reads (snd kv)) (kx :: l) ->
  (S (length (Join (map print_member (kx :: l)) (str ","))) < fuel)%nat ->
  read_members fuel (Join (map print_member (kx :: l)) (str ",") ++ x7d :: t)
  = Some (map (fun '(k, v) => (sanitize k, sanitized v)) (kx :: l), t).
Proof.
  revert kx fuel. induction l as [|ky l IH]; intros [k x] fuel Hl Hf; destruct fuel as [|n]; try lia;
    apply Forall_cons_1 in Hl as [Hx Hl]; cbn [snd] in Hx; cbn [map] in *.
  - cbn [Join print_member] in *. rewrite length_app in Hf. simpl in Hf. by rewrite read_members_S by (done || lia).
  - rewrite Join_cons in Hf |- * by done. specialize (IH ky n Hl).
    set (J := Join (print_member ky :: _) _) in *. clearbody J.
    unfold print_member in Hf. rewrite !length_app in Hf. simpl in Hf.
    cbn [print_member]. rewrite <- !(app_assoc (quote k ++ _)), read_members_S by (done || lia).
    cbn. by rewrite IH by lia.
Qed.

(** The first byte decides what is read. *)
Lemma read_S_str n d : read (S n) (x22 :: d) = ('(s, t) ← read_string d; Some (JStr s, t)).
Proof. reflexivity. Qed.

Lemma read_S_arr n d :
  read (S n) (x5b :: d)
  = if HasPrefix d [x5d] then Some (JArr [], drop 1 d) else '(l, t) ← read_elements n d; Some (JArr l, t).
Proof. reflexivity. Qed.

Lemma read_S_obj n d :
  read (S n) (x7b :: d)
  = if HasPrefix d [x7d] then Some (JObj [], drop 1 d) else '(l, t) ← read_members n d; Some (JObj l, t).
Proof. reflexivity. Qed.

Lemma reads_all j : reads j.
Proof.
  induction j as [|b|z|s|l IH|l IH] using json_nested_ind; intros fuel t Hf Ht; destruct fuel as [|n]; try lia.
  - change (print JNull ++ t) with (str "null" ++ t). cbn [read]. by rewrite after_app.
  - destruct b; [change (print _) with (str "true")|change (print _) with (str "false")];
      cbn [read]; by rewrite after_app.
  - cbn [print] in *. by rewrite read_num, read_Itoa.
  - cbn [print quote app]. rewrite <- app_assoc. cbn [app]. by rewrite read_S_str, read_quote.
  - destruct l as [|x l].
    { change (print (JArr []) ++ t) with (x5b :: [x5d] ++ t). by rewrite read_S_arr, HasPrefix_app. }
    cbn [print] in *. cbn [app]. rewrite <- app_assoc. cbn [app].
    destruct (print_head x) as (b & s & E & Hb). rewrite length_cons, length_app in Hf. cbn [length] in Hf.
    rewrite read_S_arr, read_elements_ok by (done || lia).
    cbn [map]. destruct (map print l); cbn [Join app]; rewrite E; cbn [app HasPrefix]; by rewrite byte_eqb_neq.
  - destruct l as [|kx l].
    { change (print (JObj []) ++ t) with (x7b :: [x7d] ++ t). by rewrite read_S_obj, HasPrefix_app. }
    cbn [print] in *. fold print_member in *. cbn [app].
    rewrite <- app_assoc. cbn [app]. rewrite length_cons, length_app in Hf. cbn [length] in Hf.
    rewrite read_S_obj, read_members_ok by (done || lia). by destruct kx, l.
Qed.

Lemma parse_print j : parse (print j) = Some (sanitized j).
Proof.
  unfold parse. pose proof (reads_all j (S (length (print j))) [] ltac:(lia) I) as Hr.
  rewrite app_nil_r in Hr. by rewrite Hr.
Qed.

(** ** Base64 is read back *)

Definition b64_check (v : Z) : bool :=
  bool_decide (b64_value (b64_char v) = Some v) && negb (Byte.eqb (b64_char v) x3d) && (u8 (b64_char v) <? 128).

Lemma b64_char_ok v :
  0 <= v < 64 ->
  b64_value (b64_char v) = Some v /\ Byte.eqb (b64_char v) x3d = false /\ ascii (b64_char v).
Proof.
  intros Hv. assert (Hall : forallb b64_check (seqZ 0 64) = true) by (vm_compute; done).
  rewrite forallb_forall in Hall. specialize (Hall v).
  rewrite <- list_elem_of_In, elem_of_seqZ in Hall. specialize (Hall ltac:(lia)).
  unfold b64_check in Hall. rewrite !andb_true_iff, bool_decide_eq_true, negb_true_iff in Hall.
  destruct Hall as [[? ?] ?]. unfold ascii. repeat split; [done|done|lia].
Qed.

(** The sextets of three bytes, and the bytes they make. *)
Lemma sextets (a b c : byte) :
  (0 <= u8 a / 4 < 64) /\ (0 <= u8 a mod 4 * 16 + u8 b / 16 < 64) /\
  (0 <= u8 b mod 16 * 4 + u8 c / 64 < 64) /\ (0 <= u8 c mod 64 < 64) /\
  byte_of (u8 a / 4 * 4 + (u8 a mod 4 * 16 + u8 b / 16) / 16) = a /\
  byte_of ((u8 a mod 4 * 16 + u8 b / 16) mod 16 * 16 + (u8 b mod 16 * 4 + u8 c / 64) / 4) = b /\
  byte_of ((u8 b mod 16 * 4 + u8 c / 64) mod 4 * 64 + u8 c mod 64) = c.
Proof.
  pose proof (u8_range a). pose proof (u8_range b). pose proof (u8_range c).
  repeat split; try (Z.div_mod_to_equations; lia);
    apply u8_inj; rewrite u8_byte_of; Z.div_mod_to_equations; lia.
Qed.

Lemma unbase64_base64 l : unbase64 (base64 l) = Some l /\ Forall ascii (base64 l).
Proof.
  remember (length l) as n eqn:Hn. revert l Hn. induction n as [n IH] using lt_wf_ind. intros l ->.
  assert (Hz : u8 x00 = 0) by done.
  destruct l as [|a [|b [|c l]]]; [by split; [|constructor]|..].
  - destruct (sextets a x00 x00) as (H1 & H2 & _ & _ & Ea & _).
    rewrite Hz in *. change (0 / 16) with 0 in *. rewrite Z.add_0_r in *.
    destruct (b64_char_ok _ H1) as (V1 & _ & A1), (b64_char_ok _ H2) as (V2 & _ & A2).
    cbn [base64 unbase64]. rewrite V1, V2. cbn [mbind option_bind]. rewrite !byte_eqb_refl, Ea.
    split; [done|]. repeat (constructor; [done|]). constructor.
  - destruct (sextets a b x00) as (H1 & H2 & H3 & _ & Ea & Eb & _).
    rewrite Hz in *. change (0 / 64) with 0 in *. rewrite Z.add_0_r in H3, Eb.
    destruct (b64_char_ok _ H1) as (V1 & _ & A1), (b64_char_ok _ H2) as (V2 & _ & A2),
      (b64_char_ok _ H3) as (V3 & N3 & A3).
    cbn [base64 unbase64]. rewrite V1, V2. cbn [mbind option_bind]. rewrite N3, V3. cbn [mbind option_bind].
    rewrite byte_eqb_refl, Ea, Eb. split; [done|]. repeat (constructor; [done|]). constructor.
  - destruct (sextets a b c) as (H1 & H2 & H3 & H4 & Ea & Eb & Ec).
    destruct (b64_char_ok _ H1) as (V1 & _ & A1), (b64_char_ok _ H2) as (V2 & _ & A2),
      (b64_char_ok _ H3) as (V3 & N3 & A3), (b64_char_ok _ H4) as (V4 & N4 & A4).
    destruct (IH (length l) ltac:(simpl; lia) l eq_refl) as [Hl Al].
    cbn [base64 unbase64]. rewrite V1, V2. cbn [mbind option_bind]. rewrite N3, V3. cbn [mbind option_bind].
    rewrite N4, V4, Hl. cbn [mbind option_bind]. rewrite Ea, Eb, Ec. split; [done|]. repeat (constructor; [done|]). done.
Qed.
End Json.
