(* ===== verification/Event.v ===== *)
(** * Protocol events and connection metadata

    The Go structs of [proto/event.go] and [internal/protocol/parser.go] that
    every parser reads and writes. *)

From S2P Require Import Prelude.
From S2P Require Import GoStrings.

(** [type Direction int] *)
Inductive Direction := DirectionUnknown | DirectionRequest | DirectionResponse.

#[global] Instance Direction_eq_dec : EqDecision Direction.
Proof. solve_decision. Defined.

(** [map[string]string] *)
Abbreviation string_map := (gmap bytes bytes).

Record HTTPDetail := {
  http_Method : bytes;
  http_URL : bytes;
  http_Host : bytes;
  http_StatusCode : Z;
  http_Headers : string_map;
  http_ContentType : bytes;
  http_BodyLength : Z;
  http_Body : bytes;
  http_BodyTruncated : bool;
}.

Record DNSQuestion := {
  q_Name : bytes;
  q_Type : bytes;
  q_Class : bytes;
}.

Record DNSAnswer := {
  a_Name : bytes;
  a_Type : bytes;
  a_Class : bytes;
  a_TTL : Z;
  a_Data : bytes;
}.

Record DNSDetail := {
  dns_TransactionID : Z;
  dns_OpCode : Z;
  dns_ResponseCode : Z;
  dns_Questions : list DNSQuestion;
  dns_Answers : list DNSAnswer;
}.

Record TLSDetail := {
  tls_Version : bytes;
  tls_CipherSuite : bytes;
  tls_ServerName : bytes;
  tls_HandshakeType : Z;
  tls_CertificateChain : list bytes;
  tls_ALPNProtocols : list bytes;
}.

Record DBDetail := {
  db_System : bytes;
  db_Operation : bytes;
  db_Statement : bytes;
  db_Database : bytes;
  db_Table : bytes;
  db_ErrorCode : Z;
  db_ErrorMsg : bytes;
  db_Latency : Z;
  db_RowCount : Z;
}.

(** [type ProtocolEvent struct]. A nil pointer or a nil map is [None]. *)
Record ProtocolEvent := {
  TimestampNs : Z;
  UID : bytes;
  SrcIP : bytes;
  DstIP : bytes;
  SrcPort : Z;
  DstPort : Z;
  Protocol : bytes;
  Dir : Direction;
  Metadata : option string_map;
  RawExcerpt : bytes;
  HTTP : option HTTPDetail;
  DNS : option DNSDetail;
  TLS : option TLSDetail;
  DB : option DBDetail;
}.

(** [protocol.ConnMeta] *)
Record ConnMeta := {
  m_SrcIP : bytes;
  m_DstIP : bytes;
  m_SrcPort : Z;
  m_DstPort : Z;
  m_ConnID : Z;
}.

(** [proto.NewEvent(protocol, dir)]; [now] is the reading of the wall clock. *)
Definition NewEvent (now : Z) (protocol : bytes) (dir : Direction) : ProtocolEvent :=
  {| TimestampNs := now; UID := []; SrcIP := []; DstIP := []; SrcPort := 0; DstPort := 0;
     Protocol := protocol; Dir := dir; Metadata := None; RawExcerpt := [];
     HTTP := None; DNS := None; TLS := None; DB := None |}.

(** The zero value of [DBDetail]; composite literals set the fields they name. *)
Definition DBDetail_zero : DBDetail :=
  {| db_System := []; db_Operation := []; db_Statement := []; db_Database := [];
     db_Table := []; db_ErrorCode := 0; db_ErrorMsg := []; db_Latency := 0; db_RowCount := 0 |}.

(** [fillMeta(ev, meta)]: each parser package has its own copy of this helper. *)
Definition fillMeta (ev : ProtocolEvent) (meta : ConnMeta) : ProtocolEvent :=
  {| TimestampNs := TimestampNs ev; UID := UID ev;
     SrcIP := m_SrcIP meta; DstIP := m_DstIP meta;
     SrcPort := m_SrcPort meta; DstPort := m_DstPort meta;
     Protocol := Protocol ev; Dir := Dir ev; Metadata := Metadata ev;
     RawExcerpt := RawExcerpt ev; HTTP := HTTP ev; DNS := DNS ev; TLS := TLS ev; DB := DB ev |}.

(** Field assignments on an event: [ev.Metadata = ...] and so on. *)
Definition set_Metadata (ev : ProtocolEvent) (m : string_map) : ProtocolEvent :=
  {| TimestampNs := TimestampNs ev; UID := UID ev; SrcIP := SrcIP ev; DstIP := DstIP ev;
     SrcPort := SrcPort ev; DstPort := DstPort ev; Protocol := Protocol ev; Dir := Dir ev;
     Metadata := Some m; RawExcerpt := RawExcerpt ev;
     HTTP := HTTP ev; DNS := DNS ev; TLS := TLS ev; DB := DB ev |}.

Definition set_RawExcerpt (ev : ProtocolEvent) (r : bytes) : ProtocolEvent :=
  {| TimestampNs := TimestampNs ev; UID := UID ev; SrcIP := SrcIP ev; DstIP := DstIP ev;
     SrcPort := SrcPort ev; DstPort := DstPort ev; Protocol := Protocol ev; Dir := Dir ev;
     Metadata := Metadata ev; RawExcerpt := r;
     HTTP := HTTP ev; DNS := DNS ev; TLS := TLS ev; DB := DB ev |}.

Definition set_UID (ev : ProtocolEvent) (u : bytes) : ProtocolEvent :=
  {| TimestampNs := TimestampNs ev; UID := u; SrcIP := SrcIP ev; DstIP := DstIP ev;
     SrcPort := SrcPort ev; DstPort := DstPort ev; Protocol := Protocol ev; Dir := Dir ev;
     Metadata := Metadata ev; RawExcerpt := RawExcerpt ev;
     HTTP := HTTP ev; DNS := DNS ev; TLS := TLS ev; DB := DB ev |}.

Definition set_HTTP (ev : ProtocolEvent) (d : HTTPDetail) : ProtocolEvent :=
  {| TimestampNs := TimestampNs ev; UID := UID ev; SrcIP := SrcIP ev; DstIP := DstIP ev;
     SrcPort := SrcPort ev; DstPort := DstPort ev; Protocol := Protocol ev; Dir := Dir ev;
     Metadata := Metadata ev; RawExcerpt := RawExcerpt ev;
     HTTP := Some d; DNS := DNS ev; TLS := TLS ev; DB := DB ev |}.

Definition set_DNS (ev : ProtocolEvent) (d : DNSDetail) : ProtocolEvent :=
  {| TimestampNs := TimestampNs ev; UID := UID ev; SrcIP := SrcIP ev; DstIP := DstIP ev;
     SrcPort := SrcPort ev; DstPort := DstPort ev; Protocol := Protocol ev; Dir := Dir ev;
     Metadata := Metadata ev; RawExcerpt := RawExcerpt ev;
     HTTP := HTTP ev; DNS := Some d; TLS := TLS ev; DB := DB ev |}.

Definition set_TLS (ev : ProtocolEvent) (d : TLSDetail) : ProtocolEvent :=
  {| TimestampNs := TimestampNs ev; UID := UID ev; SrcIP := SrcIP ev; DstIP := DstIP ev;
     SrcPort := SrcPort ev; DstPort := DstPort ev; Protocol := Protocol ev; Dir := Dir ev;
     Metadata := Metadata ev; RawExcerpt := RawExcerpt ev;
     HTTP := HTTP ev; DNS := DNS ev; TLS := Some d; DB := DB ev |}.

Definition set_DB (ev : ProtocolEvent) (d : DBDetail) : ProtocolEvent :=
  {| TimestampNs := TimestampNs ev; UID := UID ev; SrcIP := SrcIP ev; DstIP := DstIP ev;
     SrcPort := SrcPort ev; DstPort := DstPort ev; Protocol := Protocol ev; Dir := Dir ev;
     Metadata := Metadata ev; RawExcerpt := RawExcerpt ev;
     HTTP := HTTP ev; DNS := DNS ev; TLS := TLS ev; DB := Some d |}.

(** The direction a parser gives a message of one side of a connection. *)
Definition side_dir (isFromClient : bool) : Direction :=
  if isFromClient then DirectionRequest else DirectionResponse.

(** The clock read by a [Parse] call: [clk i] is the value [time.Now] returns
    when the call creates its [i]-th event. *)
Abbreviation clock := (nat -> Z).

(** [events = append(events, ev)] when [ev] is not nil, for an event made by
    reading the clock. *)
Definition append_event (clk : clock) (mk : Z -> option ProtocolEvent)
    (events : list ProtocolEvent) : list ProtocolEvent :=
  match mk (clk (length events)) with
  | Some ev => events ++ [ev]
  | None => events
  end.

(** What a parser extracts from an event, without the time it was made. *)
Definition untimed (ev : ProtocolEvent) : ProtocolEvent :=
  {| TimestampNs := 0; UID := UID ev; SrcIP := SrcIP ev; DstIP := DstIP ev;
     SrcPort := SrcPort ev; DstPort := DstPort ev; Protocol := Protocol ev; Dir := Dir ev;
     Metadata := Metadata ev; RawExcerpt := RawExcerpt ev;
     HTTP := HTTP ev; DNS := DNS ev; TLS := TLS ev; DB := DB ev |}.

(** ** Which connection and which parser an event is of *)

(** The event has the addresses and ports of the connection. *)
Definition of_flow (meta : ConnMeta) (ev : ProtocolEvent) : Prop :=
  SrcIP ev = m_SrcIP meta /\ DstIP ev = m_DstIP meta /\
  SrcPort ev = m_SrcPort meta /\ DstPort ev = m_DstPort meta.

(** Whether the event has an HTTP, a DNS, a TLS and a database section. *)
Definition sections (ev : ProtocolEvent) : bool * bool * bool * bool :=
  (bool_decide (is_Some (HTTP ev)), bool_decide (is_Some (DNS ev)),
   bool_decide (is_Some (TLS ev)), bool_decide (is_Some (DB ev))).

(** The section that the name of a protocol calls for. *)
Definition sections_of (name : bytes) : bool * bool * bool * bool :=
  (bool_decide (name = str "http"), bool_decide (name = str "dns"), bool_decide (name = str "tls"),
   bool_decide (name ∈ [str "mysql"; str "postgres"; str "redis"; str "mongodb"])).

(** Only HTTP events have a UID: the id of the connection and a number. *)
Definition uid_of (name : bytes) (meta : ConnMeta) (uid : bytes) : Prop :=
  uid = [] \/ name = str "http" /\
    exists n, 0 <= n /\ uid = hex_encode (be_bytes 8 (m_ConnID meta)) ++ str "-" ++ Itoa n.

(** An event of protocol [name] on the connection: it names both, and has the
    section of the protocol and no other. *)
Definition attributed (name : bytes) (meta : ConnMeta) (ev : ProtocolEvent) : Prop :=
  Protocol ev = name /\ of_flow meta ev /\ sections ev = sections_of name /\ uid_of name meta (UID ev).

Lemma Forall_append_event (Q : ProtocolEvent -> Prop) clk mk evs :
  Forall Q evs -> (forall now ev, mk now = Some ev -> Q ev) -> Forall Q (append_event clk mk evs).
Proof.
  intros He Hm. unfold append_event. destruct (mk _) as [ev|] eqn:E; [|done].
  apply Forall_app. split; [done|]. constructor; [by eapply Hm|constructor].
Qed.

Lemma Forall_fold_append {F} (Q : ProtocolEvent -> Prop) clk (mk : F -> Z -> option ProtocolEvent) fs evs :
  Forall Q evs -> (forall f now ev, mk f now = Some ev -> Q ev) ->
  Forall Q (fold_left (fun evs f => append_event clk (mk f) evs) fs evs).
Proof.
  intros He Hm. revert evs He. induction fs as [|f fs IH]; intros evs He; cbn [fold_left]; [done|].
  apply IH, Forall_append_event; eauto.
Qed.
