(* ===== verification/Framing.v ===== *)
(** * Message framing

    The binary protocols (MySQL, PostgreSQL, MongoDB, MQTT) share one shape: a
    stream is a sequence of self-delimiting messages, and a [Parse] call reads
    the complete ones and drops the incomplete rest. This file states that
    contract once: [Framed] is the interface of a protocol's framing, [frames]
    the specification of what a [Parse] call sees, and the lemmas give the
    behaviour of any [Framed] protocol on encoded and on concatenated streams. *)

From S2P Require Import Prelude.
From S2P Require Import GoStrings.
From S2P Require Import Event.

(** [next d] is the first complete message of [d] and what follows it, or
    [None] when [d] does not start with a complete message the parser accepts. *)
Class Framed (F : Type) := {
  next : bytes -> option (F * bytes);
  next_shorter d f r : next d = Some (f, r) -> (length r < length d)%nat;
}.

(** Protocols whose messages do not depend on the bytes after them. *)
Class StableFramed (F : Type) `{Framed F} := {
  next_app d f r t : next d = Some (f, r) -> next (d ++ t) = Some (f, r ++ t);
}.

(** An encoder that the framing inverts. *)
Class FrameEncoder (F : Type) `{Framed F} := {
  encode : F -> bytes;
  encodable : F -> Prop;
  next_encode f t : encodable f -> next (encode f ++ t) = Some (f, t);
}.

Section Frames.
Context {F : Type} `{Framed F}.

Fixpoint frames_fuel (fuel : nat) (d : bytes) : list F * bytes :=
  match fuel with
  | O => ([], d)
  | S n => match next d with
           | None => ([], d)
           | Some (f, r) => let '(fs, rest) := frames_fuel n r in (f :: fs, rest)
           end
  end.

(** The complete messages of a stream and the bytes left over. *)
Definition frames (d : bytes) : list F * bytes := frames_fuel (S (length d)) d.

Lemma frames_fuel_enough n m d :
  (length d < n)%nat -> (length d < m)%nat -> frames_fuel n d = frames_fuel m d.
Proof.
  revert m d. induction n as [|n IH]; intros m d Hn Hm; [lia|].
  destruct m as [|m]; [lia|]. simpl.
  destruct (next d) as [[f r]|] eqn:E; [|done].
  apply next_shorter in E. by rewrite (IH m r) by lia.
Qed.

Lemma frames_eq d :
  frames d = match next d with
             | None => ([], d)
             | Some (f, r) => let '(fs, rest) := frames r in (f :: fs, rest)
             end.
Proof.
  unfold frames at 1. simpl. destruct (next d) as [[f r]|] eqn:E; [|done].
  apply next_shorter in E. unfold frames.
  by rewrite (frames_fuel_enough (length d) (S (length r)) r) by lia.
Qed.

(** Induction along the messages of a stream. *)
Lemma frames_ind (P : bytes -> Prop) :
  (forall d, next d = None -> P d) ->
  (forall d f r, next d = Some (f, r) -> P r -> P d) -> forall d, P d.
Proof.
  intros Hnone Hsome d. remember (length d) as n eqn:Hn. revert d Hn.
  induction n as [n IH] using lt_wf_ind. intros d ->.
  destruct (next d) as [[f r]|] eqn:E; [|by apply Hnone].
  eapply Hsome; [done|]. eapply IH; [|done]. by eapply next_shorter.
Qed.

Lemma frames_rest_stops d : next (snd (frames d)) = None.
Proof.
  induction d as [d E|d f r E IH] using frames_ind; rewrite frames_eq, E; [exact E|].
  destruct (frames r). exact IH.
Qed.

(** A stream may be cut between two messages without changing what is read. *)
Lemma frames_app `{!StableFramed F} d t :
  snd (frames d) = [] ->
  frames (d ++ t) = (fst (frames d) ++ fst (frames t), snd (frames t)).
Proof.
  induction d as [d E|d f r E IH] using frames_ind; rewrite (frames_eq d), E; simpl.
  - intros ->. simpl. by destruct (frames t).
  - destruct (frames r) as [fs rest] eqn:Er; simpl in *. intros Hrest.
    rewrite frames_eq, (next_app _ _ _ t E), IH by done. done.
Qed.

(** Encoded messages are read back, in order, whatever incomplete message
    follows them. *)
Lemma frames_encode `{!FrameEncoder F} fs t :
  Forall encodable fs -> next t = None ->
  frames (concat (map encode fs) ++ t) = (fs, t).
Proof.
  intros Hfs Ht. induction Hfs as [|f fs Hf Hfs IH]; simpl.
  - by rewrite frames_eq, Ht.
  - rewrite <- app_assoc, frames_eq, next_encode, IH by done. done.
Qed.

(** ... and whatever follows them. *)
Lemma frames_encode_app `{!FrameEncoder F} fs t :
  Forall encodable fs -> fst (frames (concat (map encode fs) ++ t)) = fs ++ fst (frames t).
Proof.
  intros Hfs. induction Hfs as [|f fs Hf Hfs IH]; [done|]. cbn [map concat].
  rewrite <- app_assoc, frames_eq, next_encode by done. destruct (frames (_ ++ t)) as [gs rest]. cbn in *. by rewrite IH.
Qed.

(** What a [Parse] call returns: the events of the complete messages. *)
Definition collect (clk : clock) (decode : F -> Z -> option ProtocolEvent)
    (fs : list F) (events : list ProtocolEvent) : list ProtocolEvent :=
  fold_left (fun evs f => append_event clk (decode f) evs) fs events.

(** The contents of the collected events are those of the messages that decode
    to an event, in order. *)
Lemma collect_untimed clk decode (ev : F -> option ProtocolEvent) fs events :
  (forall f now, untimed <$> decode f now = ev f) ->
  untimed <$> collect clk decode fs events = (untimed <$> events) ++ omap ev fs.
Proof.
  intros Hev. revert events. induction fs as [|f fs IH]; intros events; simpl.
  - by rewrite app_nil_r.
  - unfold collect in *. simpl. rewrite IH. unfold append_event.
    specialize (Hev f (clk (length events))).
    destruct (decode f (clk (length events))); simpl in Hev; rewrite <- Hev; simpl.
    + by rewrite fmap_app, <- app_assoc.
    + done.
Qed.

Lemma collect_app clk decode fs gs events :
  collect clk decode (fs ++ gs) events = collect clk decode gs (collect clk decode fs events).
Proof. unfold collect. apply fold_left_app. Qed.

(** A loop that reads one message per iteration and updates its state [a]
    folds the update over the complete messages. *)
Lemma frames_fold_loop {A R} (upd : F -> A -> A)
    (step : bytes * A -> outcome (bytes * A + R)) (ret : A -> R) :
  (forall d a, step (d, a) =
     match next d with
     | Some (f, r) => Ret (inl (r, upd f a))
     | None => Ret (inr (ret a))
     end) ->
  forall fuel d a, (length d < fuel)%nat ->
    for_loop fuel step (d, a) = Ret (ret (fold_left (fun a f => upd f a) (fst (frames d)) a)).
Proof.
  intros Hstep fuel. induction fuel as [|n IH]; intros d a Hn; [lia|].
  cbn [for_loop]. rewrite Hstep, frames_eq.
  destruct (next d) as [[f r]|] eqn:E; [|done]. simpl.
  apply next_shorter in E. rewrite IH by lia. by destruct (frames r).
Qed.

(** The loop of a framed parser: while a complete message is there, decode it
    and continue after it. *)
Lemma frames_loop clk decode
    (step : bytes * list ProtocolEvent -> outcome (bytes * list ProtocolEvent + list ProtocolEvent)) :
  (forall d evs, step (d, evs) =
     match next d with
     | Some (f, r) => Ret (inl (r, append_event clk (decode f) evs))
     | None => Ret (inr evs)
     end) ->
  forall fuel d evs, (length d < fuel)%nat ->
    for_loop fuel step (d, evs) = Ret (collect clk decode (fst (frames d)) evs).
Proof. intros. by apply (frames_fold_loop (fun f => append_event clk (decode f)) step id). Qed.
End Frames.

(** ** Parsers of framed protocols

    [parse] stands for a parser's [Parse] on a fixed connection: it returns the
    collected events of the complete messages. *)
Section FramedParser.
Context {F : Type} `{Framed F}.
Variables (clk : clock) (decode : F -> Z -> option ProtocolEvent).
Variable parse : bytes -> outcome (result (list ProtocolEvent)).
Hypothesis parse_frames : forall d, parse d = Ret (OkR (collect clk decode (fst (frames d)) [])).
Hypothesis decode_untimed : forall f now, untimed <$> decode f now = decode f 0.

(** An encoded message sequence gives the events of its messages. *)
Lemma framed_parse_encoded `{!FrameEncoder F} fs t :
  Forall encodable fs -> next t = None ->
  exists evs, parse (concat (map encode fs) ++ t) = Ret (OkR evs)
    /\ untimed <$> evs = omap (fun f => decode f 0) fs.
Proof.
  intros Hfs Ht. rewrite parse_frames, frames_encode by done. eexists. split; [done|].
  by rewrite (collect_untimed clk decode (fun f => decode f 0)).
Qed.

(** ... and whatever follows them, their events come first. *)
Lemma framed_parse_prefix `{!FrameEncoder F} fs t :
  Forall encodable fs ->
  exists evs, parse (concat (map encode fs) ++ t) = Ret (OkR evs)
    /\ omap (fun f => decode f 0) fs `prefix_of` untimed <$> evs.
Proof.
  intros Hfs. rewrite parse_frames, frames_encode_app by done. eexists. split; [done|].
  rewrite (collect_untimed clk decode (fun f => decode f 0)), omap_app by done. by eexists.
Qed.

(** Cutting a stream at a message boundary does not change what is read. *)
Lemma framed_parse_app `{!StableFramed F} d t evs evd evt :
  snd (frames d) = [] ->
  parse (d ++ t) = Ret (OkR evs) -> parse d = Ret (OkR evd) -> parse t = Ret (OkR evt) ->
  untimed <$> evs = (untimed <$> evd) ++ (untimed <$> evt).
Proof.
  intros Hd. rewrite !parse_frames, frames_app by done. intros [= <-] [= <-] [= <-]. simpl.
  by rewrite !(collect_untimed clk decode (fun f => decode f 0)), omap_app by done.
Qed.
End FramedParser.
