(* ===== verification/Mysql.v ===== *)
(** * The MySQL parser ([internal/protocol/mysql/parser.go])

    [Probe], [Parse] and the packet decoders, the framing of the wire protocol
    as an instance of [Framed], and the theorems: [Parse] is total on every
    input and returns the events of the complete packets, and an encoded packet
    sequence is read back in order. *)

From S2P Require Import Prelude.
From S2P Require Import GoStrings.
From S2P Require Import Event.
From S2P Require Import Framing.

Module Mysql.

(** [type Parser struct { maxQueryLength int }] *)
Record Parser := { maxQueryLength : Z }.

Definition NewParser (n : Z) : Parser := {| maxQueryLength := n |}.

Definition Name : bytes := str "mysql".
Definition Ports : list Z := [3306; 33060].

Definition comQuery : Z := 0x03.
Definition comStmtPrepare : Z := 0x16.
Definition okMarker : Z := 0x00.
Definition errMarker : Z := 0xff.

(** [int(data[0]) | int(data[1])<<8 | int(data[2])<<16] *)
Definition payload_len (data : bytes) : outcome Z :=
  b0 ← index data 0; b1 ← index data 1; b2 ← index data 2;
  Ret (Z.lor (Z.lor (u8 b0) (Z.shiftl (u8 b1) 8)) (Z.shiftl (u8 b2) 16)).

Definition Probe (data : bytes) (isFromClient : bool) : outcome Z :=
  if len data <? 5 then Ret 0 else
  b3 ← index data 3; b4 ← index data 4;
  if negb isFromClient && (u8 b3 =? 0) && (u8 b4 =? 0x0a) then Ret 90 else
  payloadLen ← payload_len data;
  if (0 <? payloadLen) && (payloadLen + 4 <=? len data) then
    cmd ← index data 4;
    if (u8 cmd =? comQuery) || (u8 cmd =? comStmtPrepare) then Ret 70 else Ret 0
  else Ret 0.

Definition extractString (p : Parser) (b : bytes) : outcome bytes :=
  if (0 <? maxQueryLength p) && (maxQueryLength p <? len b)
  then slice_to b (maxQueryLength p) else Ret b.

Definition db_event (now : Z) (dir : Direction) (meta : ConnMeta) (d : DBDetail) : ProtocolEvent :=
  set_DB (fillMeta (NewEvent now Name dir) meta) d.

Definition detail (op stmt : bytes) (code : Z) (msg : bytes) : DBDetail :=
  {| db_System := Name; db_Operation := op; db_Statement := stmt; db_Database := [];
     db_Table := []; db_ErrorCode := code; db_ErrorMsg := msg;
     db_Latency := 0; db_RowCount := 0 |}.

Definition decodeCommand (p : Parser) (now : Z) (payload : bytes) (meta : ConnMeta)
    : outcome (option ProtocolEvent) :=
  cmd ← index payload 0;
  if u8 cmd =? comQuery then
    rest ← slice_from payload 1; stmt ← extractString p rest;
    Ret (Some (db_event now DirectionRequest meta (detail (str "COM_QUERY") stmt 0 [])))
  else if u8 cmd =? comStmtPrepare then
    rest ← slice_from payload 1; stmt ← extractString p rest;
    Ret (Some (db_event now DirectionRequest meta (detail (str "COM_STMT_PREPARE") stmt 0 [])))
  else Ret None.

Definition decodeResponse (now : Z) (payload : bytes) (meta : ConnMeta)
    : outcome (option ProtocolEvent) :=
  marker ← index payload 0;
  if u8 marker =? okMarker then
    Ret (Some (db_event now DirectionResponse meta (detail (str "OK") [] 0 [])))
  else if u8 marker =? errMarker then
    if len payload <? 3 then Ret None else
    code ← slice payload 1 3; errCode ← le16 code;
    rest ← slice_from payload 3;
    msg ← (if 0 <? len rest then
             c ← index rest 0;
             if (u8 c =? 35) && (6 <? len rest) then slice_from rest 6 else Ret rest
           else Ret rest);
    Ret (Some (db_event now DirectionResponse meta (detail (str "ERR") [] errCode msg)))
  else Ret None.

Definition decodePacket (p : Parser) (now : Z) (payload : bytes) (meta : ConnMeta)
    (isFromClient : bool) : outcome (option ProtocolEvent) :=
  if len payload =? 0 then Ret None
  else if isFromClient then decodeCommand p now payload meta
  else decodeResponse now payload meta.

(** The loop of [Parse]: one iteration reads one packet. *)
Definition Parse_step (p : Parser) (clk : clock) (meta : ConnMeta) (isFromClient : bool)
    (s : bytes * list ProtocolEvent) : outcome (bytes * list ProtocolEvent + list ProtocolEvent) :=
  let '(data, events) := s in
  if 4 <=? len data then
    payloadLen ← payload_len data;
    let packetLen := 4 + payloadLen in
    if (len data <? packetLen) || (payloadLen =? 0) then Ret (inr events) else
    payload ← slice data 4 packetLen;
    ev ← decodePacket p (clk (length events)) payload meta isFromClient;
    let events' := match ev with Some e => events ++ [e] | None => events end in
    data' ← slice_from data packetLen;
    Ret (inl (data', events'))
  else Ret (inr events).

Definition Parse (p : Parser) (clk : clock) (data : bytes) (meta : ConnMeta)
    (isFromClient : bool) : outcome (result (list ProtocolEvent)) :=
  events ← for_loop (S (length data)) (Parse_step p clk meta isFromClient) (data, []);
  Ret (OkR events).

(** ** The wire format *)

(** A packet: its sequence id and its payload. *)
Record packet := { seq_id : byte; payload : bytes }.

Definition next_packet (d : bytes) : option (packet * bytes) :=
  match d with
  | b0 :: b1 :: b2 :: b3 :: rest =>
      let n := le_uint [b0; b1; b2] in
      if (0 <? n) && (n <=? len rest)
      then Some ({| seq_id := b3; payload := take (Z.to_nat n) rest |}, drop (Z.to_nat n) rest)
      else None
  | _ => None
  end.

#[export, program] Instance packet_framed : Framed packet := {| next := next_packet |}.
Next Obligation.
  intros d f r. unfold next_packet.
  destruct d as [|b0 [|b1 [|b2 [|b3 rest]]]]; try done.
  case_match; [|done]. intros [= _ <-]. rewrite length_drop. simpl. lia.
Qed.

#[export, program] Instance packet_stable : StableFramed packet.
Next Obligation.
  intros d f r t. unfold next, packet_framed, next_packet.
  destruct d as [|b0 [|b1 [|b2 [|b3 rest]]]]; try done.
  cbn [app]. remember (le_uint [b0; b1; b2]) as n eqn:Hn. clear Hn.
  destruct ((0 <? n) && (n <=? len rest)) eqn:E; [|done].
  intros [= <- <-]. unfold len in *. rewrite length_app.
  replace ((0 <? n) && (n <=? Z.of_nat (length rest + length t))) with true by lia.
  rewrite take_app_le, drop_app_le by lia. done.
Qed.

#[export, program] Instance packet_encoder : FrameEncoder packet := {|
  encode f := le_bytes 3 (len (payload f)) ++ seq_id f :: payload f;
  encodable f := 0 < len (payload f) < 2 ^ 24;
|}.
Next Obligation.
  intros [s p] t Hf. simpl in *.
  pose proof (le_uint_le_bytes 3 (len p) ltac:(lia)) as Hle.
  change (le_bytes 3 (len p)) with
    [byte_of (len p); byte_of (len p / 256); byte_of (len p / 256 / 256)] in *.
  simpl. rewrite Hle, len_app. pose proof (len_nonneg t).
  replace ((0 <? len p) && (len p <=? len p + len t)) with true by lia.
  unfold len. rewrite Nat2Z.id, take_app_length, drop_app_length. done.
Qed.

(** The event of a packet, read off its bytes. *)
Definition truncate (p : Parser) (s : bytes) : bytes :=
  if 0 <? maxQueryLength p then take (Z.to_nat (maxQueryLength p)) s else s.

(** The message of an ERR packet after its code: without the SQL state when one
    is there and a message follows it. *)
Definition err_message (rest : bytes) : bytes :=
  match rest with
  | c :: _ => if (u8 c =? 35) && (6 <? len rest) then drop 6 rest else rest
  | [] => []
  end.

Definition packet_event (p : Parser) (meta : ConnMeta) (isFromClient : bool)
    (f : packet) (now : Z) : option ProtocolEvent :=
  match payload f with
  | [] => None
  | b :: rest =>
      if isFromClient then
        if u8 b =? comQuery then
          Some (db_event now DirectionRequest meta (detail (str "COM_QUERY") (truncate p rest) 0 []))
        else if u8 b =? comStmtPrepare then
          Some (db_event now DirectionRequest meta
                  (detail (str "COM_STMT_PREPARE") (truncate p rest) 0 []))
        else None
      else
        if u8 b =? okMarker then
          Some (db_event now DirectionResponse meta (detail (str "OK") [] 0 []))
        else if u8 b =? errMarker then
          match rest with
          | c0 :: c1 :: msg =>
              Some (db_event now DirectionResponse meta
                      (detail (str "ERR") [] (le_uint [c0; c1]) (err_message msg)))
          | _ => None
          end
        else None
  end.

(** ** The code computes the specification *)

Lemma payload_len_ret b0 b1 b2 rest :
  payload_len (b0 :: b1 :: b2 :: rest) = Ret (le_uint [b0; b1; b2]).
Proof.
  change (payload_len _) with
    (Ret (Z.lor (Z.lor (u8 b0) (Z.shiftl (u8 b1) 8)) (Z.shiftl (u8 b2) 16))). f_equal.
  pose proof (u8_range b0). pose proof (u8_range b1). pose proof (u8_range b2).
  rewrite (lor_shift 8 (u8 b0) (u8 b1)), (lor_shift 16) by lia.
  unfold le_uint. lia.
Qed.

Lemma extractString_ret p b : extractString p b = Ret (truncate p b).
Proof.
  unfold extractString, truncate.
  destruct (0 <? maxQueryLength p) eqn:E1; simpl; [|done].
  destruct (maxQueryLength p <? len b) eqn:E2.
  - by rewrite slice_to_ret by lia.
  - f_equal. symmetry. apply take_ge. lens.
Qed.

Lemma decodePacket_ret p now f meta isFromClient :
  decodePacket p now (payload f) meta isFromClient = Ret (packet_event p meta isFromClient f now).
Proof.
  unfold decodePacket, packet_event. destruct (payload f) as [|b rest]; [done|].
  rewrite len_cons. replace (1 + len rest =? 0) with false by lens.
  destruct isFromClient.
  - unfold decodeCommand. simpl.
    rewrite slice_from_ret by lens. simpl. rewrite drop_0, extractString_ret.
    by repeat case_match.
  - unfold decodeResponse. simpl. repeat (case_match; [done|]).
    case_match; [|done].
    destruct rest as [|c0 [|c1 msg]]; [done..|].
    rewrite !len_cons. replace (_ <? 3) with false by lens.
    rewrite slice_ret, slice_from_ret by lens. simpl. rewrite drop_0.
    destruct msg as [|c msg]; [done|].
    replace (0 <? len (c :: msg)) with true by lens. unfold err_message. simpl.
    destruct ((u8 c =? 35) && _) eqn:E; [|done].
    by rewrite slice_from_ret by lens.
Qed.

Lemma mysql_Parse_step_next p clk meta isFromClient d evs :
  Parse_step p clk meta isFromClient (d, evs) =
  match next d with
  | Some (f, r) => Ret (inl (r, append_event clk (packet_event p meta isFromClient f) evs))
  | None => Ret (inr evs)
  end.
Proof.
  unfold Parse_step. cbn [next packet_framed]. unfold next_packet.
  destruct d as [|b0 [|b1 [|b2 [|b3 rest]]]]; [done..|].
  replace (4 <=? _) with true by lens.
  rewrite payload_len_ret. pose proof (le_uint_range [b0; b1; b2]) as Hn.
  remember (le_uint [b0; b1; b2]) as n. cbn [mbind outcome_bind]. cbv zeta.
  rewrite !len_cons.
  destruct ((0 <? n) && (n <=? len rest)) eqn:E.
  - replace (_ || _) with false by lens.
    change (b0 :: b1 :: b2 :: b3 :: rest) with ([b0; b1; b2; b3] ++ rest).
    rewrite (slice_header _ _ 4 _ n), (slice_from_header _ _ 4 _ n) by (done || lens).
    cbn [mbind outcome_bind].
    pose proof (decodePacket_ret p (clk (length evs))
      {| seq_id := b3; payload := take (Z.to_nat n) rest |} meta isFromClient) as Hd.
    simpl in Hd. rewrite Hd. done.
  - by replace (_ || _) with true by lens.
Qed.

Lemma packet_event_untimed p meta isFromClient f now :
  untimed <$> packet_event p meta isFromClient f now = packet_event p meta isFromClient f 0.
Proof. unfold packet_event. by repeat case_match. Qed.

Lemma mysql_Parse_ret p clk data meta isFromClient :
  Parse p clk data meta isFromClient =
  Ret (OkR (collect clk (packet_event p meta isFromClient) (fst (frames data)) [])).
Proof.
  unfold Parse. rewrite (frames_loop clk (packet_event p meta isFromClient))
    by (apply mysql_Parse_step_next || lia). done.
Qed.

(** Every call of [Parse] returns, without a panic, a nil error and the
    events of the complete packets of its input. *)
Theorem mysql_Parse_frames p clk data meta isFromClient :
  Parse p clk data meta isFromClient =
  Ret (OkR (collect clk (packet_event p meta isFromClient) (fst (frames data)) [])).
Proof. apply mysql_Parse_ret. Qed.

(** The packets of a stream are read back in order, followed by whatever
    incomplete packet ends it. *)
Theorem mysql_Parse_encoded p clk meta isFromClient pkts t :
  Forall encodable pkts -> next_packet t = None ->
  exists evs,
    Parse p clk (concat (map encode pkts) ++ t) meta isFromClient = Ret (OkR evs)
    /\ untimed <$> evs = omap (fun f => packet_event p meta isFromClient f 0) pkts.
Proof.
  intros Hf Ht.
  apply (framed_parse_encoded (F := packet) clk (packet_event p meta isFromClient)
    (fun d => Parse p clk d meta isFromClient)); auto using mysql_Parse_ret, packet_event_untimed.
Qed.
Lemma mysql_Parse_encoded_witness :
  let pkts := [{| seq_id := x00; payload := x03 :: str "SELECT 1" |}] in
  exists evs,
    Parse (NewParser 6) (fun _ => 7) (concat (map encode pkts) ++ [x05; x00])
      {| m_SrcIP := []; m_DstIP := []; m_SrcPort := 1; m_DstPort := 3306; m_ConnID := 2 |} true = Ret (OkR evs)
    /\ untimed <$> evs = omap (fun f => packet_event (NewParser 6)
      {| m_SrcIP := []; m_DstIP := []; m_SrcPort := 1; m_DstPort := 3306; m_ConnID := 2 |} true f 0) pkts.
Proof.
  intros pkts. apply (mysql_Parse_encoded (NewParser 6) (fun _ => 7) _ true pkts [x05; x00]).
  - repeat constructor; cbn; lia.
  - reflexivity.
Defined.

End Mysql.
