(* ===== verification/Postgres.v ===== *)
(** * The PostgreSQL parser ([internal/protocol/postgres/parser.go])

    Messages are a tag byte, a 4-byte length that counts itself, and a body. A
    client stream may start with an untagged startup message, which [Parse]
    skips. *)

From S2P Require Import Prelude.
From S2P Require Import GoStrings.
From S2P Require Import Event.
From S2P Require Import Framing.

Module Postgres.

Record Parser := { maxQueryLength : Z }.

Definition NewParser (n : Z) : Parser := {| maxQueryLength := n |}.

Definition Name : bytes := str "postgres".
Definition Ports : list Z := [5432].

(** [version == 0x00030000] *)
Definition startup_version : Z := 0x00030000.

(** The tags [Probe] accepts: Q P E R T C Z. *)
Definition probe_tag (tag : byte) : bool :=
  existsb (Byte.eqb tag) [x51; x50; x45; x52; x54; x43; x5a].

Definition Probe (data : bytes) (isFromClient : bool) : outcome Z :=
  if len data <? 8 then Ret 0 else
  startup ← (if isFromClient then
               v ← slice data 4 8; version ← be32 v; Ret (version =? startup_version)
             else Ret false);
  if startup : bool then Ret 90 else
  tag ← index data 0;
  if probe_tag tag then
    if 5 <=? len data then
      l ← slice data 1 5; msgLen ← be32 l;
      if (4 <=? msgLen) && (msgLen + 1 <=? len data) then Ret 80 else Ret 0
    else Ret 0
  else Ret 0.

Definition truncate (p : Parser) (s : bytes) : outcome bytes :=
  if (0 <? maxQueryLength p) && (maxQueryLength p <? len s)
  then slice_to s (maxQueryLength p) else Ret s.

(** [nullTermIdx] and [cstring] *)
Definition nullTermIdx (b : bytes) : Z :=
  match IndexByte b x00 with Some i => Z.of_nat i | None => -1 end.

Definition cstring (b : bytes) : outcome bytes :=
  let idx := nullTermIdx b in
  if idx <? 0 then Ret b else slice_to b idx.

Definition db_event (now : Z) (dir : Direction) (meta : ConnMeta) (op stmt msg : bytes)
    : ProtocolEvent :=
  set_DB (fillMeta (NewEvent now Name dir) meta)
    {| db_System := Name; db_Operation := op; db_Statement := stmt; db_Database := [];
       db_Table := []; db_ErrorCode := 0; db_ErrorMsg := msg;
       db_Latency := 0; db_RowCount := 0 |}.

Definition decodeSimpleQuery (p : Parser) (now : Z) (payload : bytes) (meta : ConnMeta)
    : outcome (option ProtocolEvent) :=
  sql ← cstring payload; stmt ← truncate p sql;
  Ret (Some (db_event now DirectionRequest meta (str "SimpleQuery") stmt [])).

Definition decodeParse (p : Parser) (now : Z) (payload : bytes) (meta : ConnMeta)
    : outcome (option ProtocolEvent) :=
  let idx := nullTermIdx payload in
  if idx <? 0 then Ret None else
  rest ← slice_from payload (idx + 1);
  sql ← cstring rest; stmt ← truncate p sql;
  Ret (Some (db_event now DirectionRequest meta (str "Parse") stmt [])).

(** [severity], [code] and [msg] *)
Definition error_state : Type := bytes * bytes * bytes.

(** [switch fieldType] of [decodeErrorResponse] *)
Definition set_field (fieldType : byte) (val : bytes) (e : error_state) : error_state :=
  let '(severity, code, msg) := e in
  if u8 fieldType =? 83 then (val, code, msg)
  else if u8 fieldType =? 67 then (severity, val, msg)
  else if u8 fieldType =? 77 then (severity, code, val)
  else (severity, code, msg).

Definition error_step (s : bytes * error_state) : outcome (bytes * error_state + error_state) :=
  let '(payload, e) := s in
  if 0 <? len payload then
    fieldType ← index payload 0;
    payload ← slice_from payload 1;
    if u8 fieldType =? 0 then Ret (inr e) else
    val ← cstring payload;
    let advance := len val + 1 in
    if len payload <? advance then Ret (inr e) else
    payload ← slice_from payload advance;
    Ret (inl (payload, set_field fieldType val e))
  else Ret (inr e).

Definition error_text (e : error_state) : bytes :=
  let '(severity, code, msg) := e in severity ++ str " " ++ code ++ str ": " ++ msg.

Definition decodeErrorResponse (now : Z) (payload : bytes) (meta : ConnMeta)
    : outcome (option ProtocolEvent) :=
  e ← for_loop (S (length payload)) error_step (payload, ([], [], []));
  Ret (Some (db_event now DirectionResponse meta (str "ErrorResponse") [] (error_text e))).

Definition decodeMessage (p : Parser) (now : Z) (tag : byte) (payload : bytes) (meta : ConnMeta)
    (isFromClient : bool) : outcome (option ProtocolEvent) :=
  if u8 tag =? 81 then decodeSimpleQuery p now payload meta
  else if u8 tag =? 80 then decodeParse p now payload meta
  else if u8 tag =? 69 then
    if negb isFromClient then decodeErrorResponse now payload meta else Ret None
  else Ret None.

Definition Parse_step (p : Parser) (clk : clock) (meta : ConnMeta) (isFromClient : bool)
    (s : bytes * list ProtocolEvent) : outcome (bytes * list ProtocolEvent + list ProtocolEvent) :=
  let '(data, events) := s in
  if 5 <=? len data then
    tag ← index data 0;
    l ← slice data 1 5; msgLen ← be32 l;
    let totalLen := 1 + msgLen in
    if (msgLen <? 4) || (len data <? totalLen) then Ret (inr events) else
    payload ← slice data 5 totalLen;
    ev ← decodeMessage p (clk (length events)) tag payload meta isFromClient;
    let events' := match ev with Some e => events ++ [e] | None => events end in
    data' ← slice_from data totalLen;
    Ret (inl (data', events'))
  else Ret (inr events).

(** The startup message of a client stream is skipped when it is complete. *)
Definition skip_startup (data : bytes) (isFromClient : bool) : outcome bytes :=
  if isFromClient && (8 <=? len data) then
    v ← slice data 4 8; version ← be32 v;
    if version =? startup_version then
      l ← slice data 0 4; msgLen ← be32 l;
      if (0 <? msgLen) && (msgLen <=? len data) then slice_from data msgLen else Ret data
    else Ret data
  else Ret data.

Definition Parse (p : Parser) (clk : clock) (data : bytes) (meta : ConnMeta)
    (isFromClient : bool) : outcome (result (list ProtocolEvent)) :=
  data ← skip_startup data isFromClient;
  events ← for_loop (S (length data)) (Parse_step p clk meta isFromClient) (data, []);
  Ret (OkR events).

(** ** The wire format *)

Record message := { tag : byte; body : bytes }.

Definition next_message (d : bytes) : option (message * bytes) :=
  match d with
  | t :: l0 :: l1 :: l2 :: l3 :: rest =>
      let n := be_uint [l0; l1; l2; l3] - 4 in
      if (0 <=? n) && (n <=? len rest)
      then Some ({| tag := t; body := take (Z.to_nat n) rest |}, drop (Z.to_nat n) rest)
      else None
  | _ => None
  end.

#[export, program] Instance message_framed : Framed message := {| next := next_message |}.
Next Obligation.
  intros d f r. unfold next_message.
  destruct d as [|t [|l0 [|l1 [|l2 [|l3 rest]]]]]; try done.
  case_match; [|done]. intros [= _ <-]. rewrite length_drop. simpl. lia.
Qed.

#[export, program] Instance message_stable : StableFramed message.
Next Obligation.
  intros d f r t. unfold next, message_framed, next_message.
  destruct d as [|tg [|l0 [|l1 [|l2 [|l3 rest]]]]]; try done.
  cbn [app]. remember (be_uint [l0; l1; l2; l3] - 4) as n eqn:Hn. clear Hn.
  destruct ((0 <=? n) && (n <=? len rest)) eqn:E; [|done].
  intros [= <- <-]. rewrite len_app. pose proof (len_nonneg t).
  replace ((0 <=? n) && (n <=? len rest + len t)) with true by lia. unfold len in *.
  rewrite take_app_le, drop_app_le by lia. done.
Qed.

#[export, program] Instance message_encoder : FrameEncoder message := {|
  encode f := tag f :: be_bytes 4 (len (body f) + 4) ++ body f;
  encodable f := len (body f) + 4 < 2 ^ 32;
|}.
Next Obligation.
  intros [tg b] t Hf. cbn [tag body] in *. pose proof (len_nonneg b).
  pose proof (be_uint_be_bytes 4 (len b + 4) ltac:(lia)) as Hbe.
  pose proof (length_be_bytes 4 (len b + 4)) as Hl.
  destruct (be_bytes 4 (len b + 4)) as [|l0 [|l1 [|l2 [|l3 [|]]]]]; try done.
  simpl. rewrite Hbe, len_app. pose proof (len_nonneg t).
  replace ((0 <=? len b + 4 - 4) && (len b + 4 - 4 <=? len b + len t)) with true by lia.
  replace (len b + 4 - 4) with (len b) by lia.
  unfold len. rewrite Nat2Z.id, take_app_length, drop_app_length. done.
Qed.

(** The fields of an ErrorResponse: a type byte and a NUL-terminated value, up
    to a zero byte. *)
Definition next_field (d : bytes) : option ((byte * bytes) * bytes) :=
  match d with
  | c :: rest =>
      if u8 c =? 0 then None
      else match IndexByte rest x00 with
           | Some i => Some ((c, take i rest), drop (S i) rest)
           | None => None
           end
  | [] => None
  end.

#[export, program] Instance field_framed : Framed (byte * bytes) := {| next := next_field |}.
Next Obligation.
  intros d f r. unfold next_field. destruct d as [|c rest]; [done|].
  case_match; [done|]. case_match; [|done]. intros [= _ <-].
  rewrite length_drop. simpl. lia.
Qed.

#[export, program] Instance field_encoder : FrameEncoder (byte * bytes) := {|
  encode f := fst f :: snd f ++ [x00];
  encodable f := fst f <> x00 /\ x00 ∉ snd f;
|}.
Next Obligation.
  intros [c v] t [Hc Hv]. simpl in *.
  assert (u8 c <> 0) by (intros H; apply Hc; by apply u8_inj).
  replace (u8 c =? 0) with false by lia.
  rewrite <- app_assoc. simpl. rewrite IndexByte_app by done.
  rewrite take_app_length. do 2 f_equal.
  by rewrite <- (Nat.add_1_r (length v)), <- drop_drop, drop_app_length.
Qed.

(** ** The events of messages, read off their bytes *)

Definition truncated (p : Parser) (s : bytes) : bytes :=
  if 0 <? maxQueryLength p then take (Z.to_nat (maxQueryLength p)) s else s.

Definition cstr (b : bytes) : bytes :=
  match IndexByte b x00 with Some i => take i b | None => b end.

Definition error_fields (fs : list (byte * bytes)) : error_state :=
  fold_left (fun e f => set_field (fst f) (snd f) e) fs ([], [], []).

Definition message_event (p : Parser) (meta : ConnMeta) (isFromClient : bool)
    (f : message) (now : Z) : option ProtocolEvent :=
  if u8 (tag f) =? 81 then
    Some (db_event now DirectionRequest meta (str "SimpleQuery") (truncated p (cstr (body f))) [])
  else if u8 (tag f) =? 80 then
    match IndexByte (body f) x00 with
    | Some i =>
        Some (db_event now DirectionRequest meta (str "Parse")
                (truncated p (cstr (drop (S i) (body f)))) [])
    | None => None
    end
  else if (u8 (tag f) =? 69) && negb isFromClient then
    Some (db_event now DirectionResponse meta (str "ErrorResponse") []
            (error_text (error_fields (fst (frames (body f))))))
  else None.

(** What is left of a client stream after its startup message. *)
Definition after_startup (data : bytes) (isFromClient : bool) : bytes :=
  if isFromClient && (8 <=? len data) && (be_uint (take 4 (drop 4 data)) =? startup_version)
     && (0 <? be_uint (take 4 data)) && (be_uint (take 4 data) <=? len data)
  then drop (Z.to_nat (be_uint (take 4 data))) data else data.

(** ** The code computes the specification *)

Lemma postgres_truncate_ret p s : truncate p s = Ret (truncated p s).
Proof.
  unfold truncate, truncated. destruct (0 <? maxQueryLength p) eqn:E1; simpl; [|done].
  destruct (maxQueryLength p <? len s) eqn:E2.
  - by rewrite slice_to_ret by lia.
  - f_equal. symmetry. apply take_ge. lens.
Qed.

Lemma cstring_ret b : cstring b = Ret (cstr b).
Proof.
  unfold cstring, cstr, nullTermIdx. destruct (IndexByte b x00) as [i|] eqn:E; [|done].
  apply IndexByte_Some in E as (Hi & _ & _).
  replace (Z.of_nat i <? 0) with false by lia.
  rewrite slice_to_ret by lens. by rewrite Nat2Z.id.
Qed.

Lemma error_step_next d e :
  error_step (d, e) =
  match next d with
  | Some (f, r) => Ret (inl (r, set_field (fst f) (snd f) e))
  | None => Ret (inr e)
  end.
Proof.
  unfold error_step. cbn [next field_framed]. unfold next_field.
  destruct d as [|c rest]; [done|].
  replace (0 <? len (c :: rest)) with true by lens.
  rewrite slice_from_ret by lens. cbn [mbind outcome_bind].
  change (index (c :: rest) 0) with (Ret c). cbn [mbind outcome_bind].
  change (drop (Z.to_nat 1) (c :: rest)) with rest.
  destruct (u8 c =? 0); [done|].
  rewrite cstring_ret. cbn [mbind outcome_bind]. unfold cstr.
  destruct (IndexByte rest x00) as [i|] eqn:E.
  - apply IndexByte_Some in E as (Hi & _ & _).
    replace (len rest <? _) with false by lens.
    rewrite slice_from_ret by lens. simpl. do 4 f_equal. lens.
  - by replace (len rest <? _) with true by lens.
Qed.

Lemma postgres_decodeMessage_ret p now f meta isFromClient :
  decodeMessage p now (tag f) (body f) meta isFromClient =
  Ret (message_event p meta isFromClient f now).
Proof.
  unfold decodeMessage, message_event. destruct f as [tg b]; simpl.
  destruct (u8 tg =? 81).
  { unfold decodeSimpleQuery. rewrite cstring_ret. simpl. by rewrite postgres_truncate_ret. }
  destruct (u8 tg =? 80).
  { unfold decodeParse, nullTermIdx. destruct (IndexByte b x00) as [i|] eqn:E; [|done].
    apply IndexByte_Some in E as (Hi & _ & _).
    replace (Z.of_nat i <? 0) with false by lia.
    rewrite slice_from_ret by lens. simpl. rewrite cstring_ret. simpl. rewrite postgres_truncate_ret.
    simpl. by replace (Z.to_nat (Z.of_nat i + 1)) with (S i) by lia. }
  destruct (u8 tg =? 69), isFromClient; simpl; try done.
  unfold decodeErrorResponse.
  rewrite (frames_fold_loop (fun f e => set_field (fst f) (snd f) e) error_step id)
    by (apply error_step_next || lia).
  done.
Qed.

Lemma postgres_Parse_step_next p clk meta isFromClient d evs :
  Parse_step p clk meta isFromClient (d, evs) =
  match next d with
  | Some (f, r) => Ret (inl (r, append_event clk (message_event p meta isFromClient f) evs))
  | None => Ret (inr evs)
  end.
Proof.
  unfold Parse_step. cbn [next message_framed]. unfold next_message.
  destruct d as [|tg [|l0 [|l1 [|l2 [|l3 rest]]]]]; [done..|].
  replace (5 <=? _) with true by lens.
  change (slice _ 1 5) with (if decide (0 <= 1 <= 5 /\ 5 <= len (tg :: l0 :: l1 :: l2 :: l3 :: rest))
    then Ret [l0; l1; l2; l3] else Panic SliceOutOfRange).
  rewrite decide_True by lens.
  change (index (tg :: _) 0) with (Ret tg). cbn [mbind outcome_bind].
  change (be32 [l0; l1; l2; l3]) with (Ret (be_uint [l0; l1; l2; l3])).
  cbn [mbind outcome_bind]. remember (be_uint [l0; l1; l2; l3]) as n eqn:Hn. clear Hn.
  cbv zeta. rewrite !len_cons.
  destruct ((0 <=? n - 4) && (n - 4 <=? len rest)) eqn:E.
  - replace (_ || _) with false by lens.
    change (tg :: l0 :: l1 :: l2 :: l3 :: rest) with ([tg; l0; l1; l2; l3] ++ rest).
    rewrite (slice_header _ _ 5 _ (n - 4)), (slice_from_header _ _ 5 _ (n - 4)) by (done || lens).
    pose proof (postgres_decodeMessage_ret p (clk (length evs))
      {| tag := tg; body := take (Z.to_nat (n - 4)) rest |} meta isFromClient) as Hd.
    simpl in Hd |- *. by rewrite Hd.
  - by replace (_ || _) with true by lens.
Qed.

Lemma skip_startup_ret data isFromClient :
  skip_startup data isFromClient = Ret (after_startup data isFromClient).
Proof.
  unfold skip_startup, after_startup.
  destruct (isFromClient && (8 <=? len data)) eqn:E; simpl; [|done].
  apply andb_true_iff in E as [_ E].
  unfold be32. rewrite (bind_slice_be 4) by lia.
  change (drop (Z.to_nat 4) data) with (drop 4 data).
  destruct (be_uint (take 4 (drop 4 data)) =? startup_version); simpl; [|done].
  rewrite (bind_slice_be 4) by lia. change (drop (Z.to_nat 0) data) with data.
  destruct ((0 <? _) && _) eqn:E2; [|done].
  by rewrite slice_from_ret by lia.
Qed.

Lemma postgres_message_event_untimed p meta isFromClient f now :
  untimed <$> message_event p meta isFromClient f now = message_event p meta isFromClient f 0.
Proof. unfold message_event. by repeat case_match. Qed.

Lemma postgres_Parse_ret p clk data meta isFromClient :
  Parse p clk data meta isFromClient =
  Ret (OkR (collect clk (message_event p meta isFromClient)
              (fst (frames (after_startup data isFromClient))) [])).
Proof.
  unfold Parse. rewrite skip_startup_ret. cbn [mbind outcome_bind].
  rewrite (frames_loop clk (message_event p meta isFromClient))
    by (apply postgres_Parse_step_next || lia). done.
Qed.

(** Every call of [Parse] returns, without a panic, a nil error and the
    events of the complete messages of its input, after a startup message. *)
Theorem postgres_Parse_frames p clk data meta isFromClient :
  Parse p clk data meta isFromClient =
  Ret (OkR (collect clk (message_event p meta isFromClient)
              (fst (frames (after_startup data isFromClient))) [])).
Proof. apply postgres_Parse_ret. Qed.

(** The messages of a server stream are read back in order, followed by
    whatever incomplete message ends it. *)
Theorem postgres_Parse_encoded p clk meta msgs t :
  Forall encodable msgs -> next_message t = None ->
  exists evs,
    Parse p clk (concat (map encode msgs) ++ t) meta false = Ret (OkR evs)
    /\ untimed <$> evs = omap (fun f => message_event p meta false f 0) msgs.
Proof.
  intros Hf Ht.
  apply (framed_parse_encoded (F := message) clk (message_event p meta false)
    (fun d => Parse p clk d meta false)); auto using postgres_message_event_untimed.
  intros d. apply postgres_Parse_ret.
Qed.

(** An ErrorResponse body that encodes the fields [fs] gives an event whose
    message is built from the last severity, code and message fields of [fs],
    whatever bytes follow the terminating zero. *)
Theorem postgres_error_fields now meta fs rest :
  Forall encodable fs ->
  decodeErrorResponse now (concat (map encode fs) ++ x00 :: rest) meta =
  Ret (Some (db_event now DirectionResponse meta (str "ErrorResponse") []
               (error_text (error_fields fs)))).
Proof.
  intros Hfs. unfold decodeErrorResponse.
  rewrite (frames_fold_loop (fun f e => set_field (fst f) (snd f) e) error_step id)
    by (apply error_step_next || lia).
  by rewrite frames_encode.
Qed.
Lemma postgres_Parse_encoded_witness :
  let msgs := [{| tag := x45; body := x53 :: str "ERROR" ++ x00 :: [x00] |};
               {| tag := x5a; body := str "I" |}] in
  exists evs,
    Parse (NewParser 0) (fun _ => 7) (concat (map encode msgs) ++ [x45])
      {| m_SrcIP := []; m_DstIP := []; m_SrcPort := 1; m_DstPort := 5432; m_ConnID := 2 |} false = Ret (OkR evs)
    /\ untimed <$> evs = omap (fun f => message_event (NewParser 0)
      {| m_SrcIP := []; m_DstIP := []; m_SrcPort := 1; m_DstPort := 5432; m_ConnID := 2 |} false f 0) msgs.
Proof.
  intros msgs. apply (postgres_Parse_encoded (NewParser 0) (fun _ => 7) _ msgs [x45]).
  - repeat constructor; cbn; lia.
  - reflexivity.
Defined.

Lemma postgres_error_fields_witness :
  let fs := [(x53, str "ERROR"); (x43, str "42P01"); (x4d, str "no such table")] in
  decodeErrorResponse 7 (concat (map encode fs) ++ [x00; x01])
    {| m_SrcIP := []; m_DstIP := []; m_SrcPort := 1; m_DstPort := 5432; m_ConnID := 2 |} =
  Ret (Some (db_event 7 DirectionResponse
    {| m_SrcIP := []; m_DstIP := []; m_SrcPort := 1; m_DstPort := 5432; m_ConnID := 2 |}
    (str "ErrorResponse") [] (str "ERROR 42P01: no such table"))).
Proof.
  intros fs. apply (postgres_error_fields 7 _ fs [x01]).
  repeat constructor; cbn; try done; apply (bool_decide_unpack _); vm_compute; done.
Defined.

End Postgres.
