(* ===== verification/Mongodb.v ===== *)
(** * The MongoDB parser ([internal/protocol/mongodb/parser.go])

    Messages have a 16-byte little-endian header; the parser reads the command
    name of OP_MSG bodies with a partial BSON decoder and the collection name of
    OP_QUERY bodies. *)

From S2P Require Import Prelude.
From S2P Require Import GoStrings.
From S2P Require Import Event.
From S2P Require Import Framing.

Module Mongodb.

Definition opReply : Z := 1.
Definition opMsg : Z := 2013.
Definition opQuery : Z := 2004.
Definition opCompressed : Z := 2012.
Definition headerSize : Z := 16.

(** [maxQueryLength] is stored and never read. *)
Record Parser := { maxQueryLength : Z }.

Definition NewParser (n : Z) : Parser := {| maxQueryLength := n |}.

Definition Name : bytes := str "mongodb".
Definition Ports : list Z := [27017; 27018; 27019].

Definition Probe (data : bytes) (isFromClient : bool) : outcome Z :=
  if len data <? headerSize then Ret 0 else
  m ← slice data 0 4; msgLen ← le32 m;
  o ← slice data 12 16; opCode ← le32 o;
  if (msgLen <? headerSize) || (48 * 1024 * 1024 <? msgLen) then Ret 0
  else if opCode =? opMsg then Ret 90
  else if (opCode =? opQuery) || (opCode =? opReply) || (opCode =? opCompressed) then Ret 75
  else Ret 0.

(** [readCString]: the bytes before the first NUL, and nothing without one. *)
Definition readCString (data : bytes) : bytes :=
  match IndexByte data x00 with Some i => take i data | None => [] end.

Definition extractFirstKey (data : bytes) : outcome (bytes * bytes) :=
  if len data <? 5 then Ret ([], []) else
  d ← slice data 0 4; docLen ← le32 d;
  if (docLen <? 5) || (len data <? docLen) then Ret ([], []) else
  elem ← slice_from data 4;
  if len elem <? 2 then Ret ([], []) else
  elemType ← index elem 0;
  elem ← slice_from elem 1;
  let key := readCString elem in
  if bool_decide (key = []) then Ret ([], []) else
  let valStart := len key + 1 in
  if len elem <=? valStart then Ret (key, []) else
  valData ← slice_from elem valStart;
  if (u8 elemType =? 0x02) && (4 <=? len valData) then
    s ← slice valData 0 4; strLen ← le32 s;
    if (0 <? strLen) && (strLen - 1 <=? len valData - 4) then
      strVal ← slice valData 4 (4 + strLen - 1); Ret (key, strVal)
    else Ret (key, [])
  else Ret (key, []).

Definition db_event (now : Z) (dir : Direction) (meta : ConnMeta) (op table : bytes) : ProtocolEvent :=
  set_DB (fillMeta (NewEvent now Name dir) meta)
    {| db_System := Name; db_Operation := op; db_Statement := []; db_Database := [];
       db_Table := table; db_ErrorCode := 0; db_ErrorMsg := [];
       db_Latency := 0; db_RowCount := 0 |}.

Definition decodeOpMsg (now : Z) (body : bytes) (meta : ConnMeta) (isFromClient : bool)
    : outcome (option ProtocolEvent) :=
  if len body <? 5 then Ret None else
  sectionData ← slice_from body 4;
  if len sectionData <? 1 then Ret None else
  kind ← index sectionData 0;
  if negb (u8 kind =? 0) then Ret None else
  bsonDoc ← slice_from sectionData 1;
  '(cmdName, collection) ← extractFirstKey bsonDoc;
  if bool_decide (cmdName = []) then Ret None else
  Ret (Some (db_event now (side_dir isFromClient) meta cmdName collection)).

Definition decodeOpQuery (now : Z) (body : bytes) (meta : ConnMeta) : outcome (option ProtocolEvent) :=
  if len body <? 4 then Ret None else
  rest ← slice_from body 4;
  let collName := readCString rest in
  if bool_decide (collName = []) then Ret None else
  Ret (Some (db_event now DirectionRequest meta (str "query") collName)).

Definition decodeMessage (now : Z) (opCode : Z) (body : bytes) (meta : ConnMeta)
    (isFromClient : bool) : outcome (option ProtocolEvent) :=
  if opCode =? opMsg then decodeOpMsg now body meta isFromClient
  else if opCode =? opQuery then decodeOpQuery now body meta
  else Ret None.

Definition Parse_step (clk : clock) (meta : ConnMeta) (isFromClient : bool)
    (s : bytes * list ProtocolEvent) : outcome (bytes * list ProtocolEvent + list ProtocolEvent) :=
  let '(data, events) := s in
  if headerSize <=? len data then
    m ← slice data 0 4; msgLen ← le32 m;
    if (msgLen <? headerSize) || (len data <? msgLen) then Ret (inr events) else
    o ← slice data 12 16; opCode ← le32 o;
    body ← slice data headerSize msgLen;
    ev ← decodeMessage (clk (length events)) opCode body meta isFromClient;
    let events' := match ev with Some e => events ++ [e] | None => events end in
    data' ← slice_from data msgLen;
    Ret (inl (data', events'))
  else Ret (inr events).

Definition Parse (p : Parser) (clk : clock) (data : bytes) (meta : ConnMeta)
    (isFromClient : bool) : outcome (result (list ProtocolEvent)) :=
  events ← for_loop (S (length data)) (Parse_step clk meta isFromClient) (data, []);
  Ret (OkR events).

(** ** The wire format *)

(** A message: its request and response ids, its operation and its body. *)
Record message := { ids : bytes; opCode : Z; body : bytes }.

Definition next_message (d : bytes) : option (message * bytes) :=
  let n := le_uint (take 4 d) in
  if (headerSize <=? len d) && (headerSize <=? n) && (n <=? len d)
  then Some ({| ids := take 8 (drop 4 d); opCode := le_uint (take 4 (drop 12 d));
                body := take (Z.to_nat (n - headerSize)) (drop 16 d) |}, drop (Z.to_nat n) d)
  else None.

#[export, program] Instance message_framed : Framed message := {| next := next_message |}.
Next Obligation.
  intros d f r. unfold next_message, headerSize. cbv zeta. case_match; [|done].
  intros [= _ <-]. rewrite length_drop. unfold len in *. lia.
Qed.

#[export, program] Instance message_stable : StableFramed message.
Next Obligation.
  intros d f r t. unfold next, message_framed, next_message, headerSize. cbv zeta.
  destruct (_ && _) eqn:E; [|done]. intros [= <- <-].
  assert (16 <= length d)%nat by (unfold len in E; lia).
  rewrite len_app. pose proof (len_nonneg t).
  rewrite !(take_app_le d), !drop_app_le by lia.
  rewrite (take_app_le (drop 4 d)), (take_app_le (drop 12 d)) by (rewrite length_drop; lia).
  replace ((16 <=? len d + len t) && _ && _) with true by lia.
  rewrite drop_app_le by (unfold len in *; lia).
  rewrite (take_app_le (drop 16 d)) by (rewrite length_drop; unfold len in *; lia). done.
Qed.

#[export, program] Instance message_encoder : FrameEncoder message := {|
  encode m := le_bytes 4 (headerSize + len (body m)) ++ ids m ++ le_bytes 4 (opCode m) ++ body m;
  encodable m := length (ids m) = 8%nat /\ 0 <= opCode m < 2 ^ 32 /\ headerSize + len (body m) < 2 ^ 32;
|}.
Next Obligation.
  intros [i o b] t (Hi & Ho & Hb). cbn [ids opCode body] in *.
  unfold next, message_framed, next_message, headerSize in *. rewrite <- !app_assoc.
  pose proof (len_nonneg b). pose proof (len_nonneg t).
  rewrite !(take_app_length' (le_bytes 4 (16 + len b))) by (by rewrite length_le_bytes).
  rewrite le_uint_le_bytes by lia.
  rewrite !len_app, !len_le_bytes. unfold len in Hi |- *. rewrite Hi. fold (len b) (len t).
  replace (_ && _ && _) with true by lia.
  rewrite !(drop_app_length' (le_bytes 4 (16 + len b))) by (by rewrite length_le_bytes).
  rewrite (take_app_length' i) by done.
  change 16%nat with (4 + (8 + 4))%nat. change 12%nat with (4 + 8)%nat.
  rewrite <- !drop_drop. rewrite !(drop_app_length' (le_bytes 4 (16 + len b))) by (by rewrite length_le_bytes).
  rewrite !(drop_app_length' i) by done.
  rewrite (take_app_length' (le_bytes 4 o)), (drop_app_length' (le_bytes 4 o)) by (by rewrite length_le_bytes).
  rewrite le_uint_le_bytes by lia.
  replace (16 + len b - 16) with (len b) by lia.
  rewrite (take_app_length' b) by (unfold len; lia).
  do 2 f_equal. rewrite !app_assoc. apply drop_app_length'.
  rewrite !length_app, !length_le_bytes, Hi. unfold len. lia.
Qed.

(** ** The events of messages, read off their bytes *)

(** The key of the first element of a BSON document, and its value when it is a
    string. *)
Definition first_value (elemType : byte) (valData : bytes) : bytes :=
  let strLen := le_uint (take 4 valData) in
  if (u8 elemType =? 0x02) && (4 <=? len valData) && (0 <? strLen) && (strLen - 1 <=? len valData - 4)
  then take (Z.to_nat (strLen - 1)) (drop 4 valData) else [].

Definition first_key (data : bytes) : bytes * bytes :=
  match drop 4 data with
  | elemType :: elem =>
      let docLen := le_uint (take 4 data) in
      let key := readCString elem in
      if (5 <=? docLen) && (docLen <=? len data) && negb (bool_decide (key = []))
      then (key, first_value elemType (drop (S (length key)) elem)) else ([], [])
  | [] => ([], [])
  end.

Definition message_event (meta : ConnMeta) (isFromClient : bool) (m : message) (now : Z)
    : option ProtocolEvent :=
  if opCode m =? opMsg then
    match drop 4 (body m) with
    | kind :: doc =>
        if (u8 kind =? 0) && negb (bool_decide (fst (first_key doc) = [])) then
          Some (db_event now (side_dir isFromClient) meta (fst (first_key doc)) (snd (first_key doc)))
        else None
    | [] => None
    end
  else if opCode m =? opQuery then
    let coll := readCString (drop 4 (body m)) in
    if bool_decide (coll = []) then None
    else Some (db_event now DirectionRequest meta (str "query") coll)
  else None.

(** ** The code computes the specification *)

Lemma extractFirstKey_ret data : extractFirstKey data = Ret (first_key data).
Proof.
  unfold extractFirstKey, first_key.
  destruct (len data <? 5) eqn:E5.
  { destruct (drop 4 data) as [|et elem] eqn:Ed; [done|].
    apply (f_equal length) in Ed. rewrite length_drop in Ed. simpl in Ed.
    assert (elem = []) as -> by (destruct elem; simpl in *; [done|unfold len in E5; lia]).
    by rewrite bool_decide_true, andb_false_r by done. }
  unfold le32. rewrite (bind_slice_le 4) by lia. change (drop (Z.to_nat 0) data) with data.
  remember (le_uint (take 4 data)) as docLen eqn:Hdoc.
  destruct (drop 4 data) as [|et elem] eqn:Ed.
  { apply (f_equal length) in Ed. rewrite length_drop in Ed. simpl in Ed. unfold len in *. lia. }
  assert (Hlen : len data = 5 + len elem).
  { apply (f_equal length) in Ed. rewrite length_drop in Ed. simpl in Ed. unfold len in *. lia. }
  cbv zeta.
  destruct ((docLen <? 5) || (len data <? docLen)) eqn:Eb.
  { by replace ((5 <=? docLen) && (docLen <=? len data)) with false by lia. }
  replace ((5 <=? docLen) && (docLen <=? len data)) with true by lia. simpl.
  rewrite slice_from_ret by lia. change (drop (Z.to_nat 4) data) with (drop 4 data). rewrite Ed.
  cbn [mbind outcome_bind]. rewrite len_cons.
  destruct elem as [|e0 elem']; [done|].
  replace (1 + len (e0 :: elem') <? 2) with false by lens.
  change (index (et :: _) 0) with (Ret et). cbn [mbind outcome_bind].
  rewrite slice_from_ret by lens. cbn [mbind outcome_bind].
  change (drop (Z.to_nat 1) (et :: e0 :: elem')) with (e0 :: elem').
  remember (e0 :: elem') as elem eqn:He. clear He e0 elem' Ed.
  destruct (bool_decide (readCString elem = [])) eqn:Ek; simpl; [done|].
  apply bool_decide_eq_false in Ek.
  assert (Hk : (length (readCString elem) < length elem)%nat).
  { unfold readCString in *. destruct (IndexByte elem x00) as [i|] eqn:Ei; [|done].
    apply IndexByte_Some in Ei as (? & _). rewrite length_take. lia. }
  unfold first_value. cbv zeta.
  destruct (len elem <=? len (readCString elem) + 1) eqn:El.
  { rewrite drop_ge by (unfold len in *; lia). by rewrite andb_false_r. }
  rewrite slice_from_ret by lens. cbn [mbind outcome_bind].
  replace (Z.to_nat (len (readCString elem) + 1)) with (S (length (readCString elem))) by lens.
  remember (drop (S (length (readCString elem))) elem) as val eqn:Hv. clear Hv.
  destruct ((u8 et =? 2) && (4 <=? len val)) eqn:E4; [|done].
  rewrite (bind_slice_le 4) by lia. change (drop (Z.to_nat 0) val) with val. simpl.
  destruct ((0 <? _) && _) eqn:E6; [|done].
  rewrite slice_ret by lia. simpl. do 4 f_equal. lia.
Qed.

Lemma mongodb_decodeMessage_ret now m meta isFromClient :
  decodeMessage now (opCode m) (body m) meta isFromClient = Ret (message_event meta isFromClient m now).
Proof.
  unfold decodeMessage, message_event. destruct m as [i o b]; cbn [opCode body].
  destruct (o =? opMsg).
  { unfold decodeOpMsg. destruct (len b <? 5) eqn:E5.
    { destruct (drop 4 b) as [|k doc] eqn:Ed; [done|].
      apply (f_equal length) in Ed. rewrite length_drop in Ed. simpl in Ed. unfold len in *. lia. }
    rewrite slice_from_ret by lia. cbn [mbind outcome_bind].
    change (drop (Z.to_nat 4) b) with (drop 4 b).
    destruct (drop 4 b) as [|k doc] eqn:Ed; [done|].
    replace (len (k :: doc) <? 1) with false by lens.
    change (index (k :: doc) 0) with (Ret k). cbn [mbind outcome_bind].
    destruct (u8 k =? 0); simpl; [|done].
    rewrite slice_from_ret by lens. cbn [mbind outcome_bind].
    change (drop (Z.to_nat 1) (k :: doc)) with doc.
    rewrite extractFirstKey_ret. cbn [mbind outcome_bind].
    destruct (first_key doc) as [key val]; simpl. by destruct (bool_decide (key = [])). }
  destruct (o =? opQuery); [|done].
  unfold decodeOpQuery. destruct (len b <? 4) eqn:E4.
  { rewrite drop_ge by (unfold len in *; lia). done. }
  rewrite slice_from_ret by lia. simpl. change (drop (Pos.to_nat 4) b) with (drop 4 b).
  by destruct (bool_decide _).
Qed.

Lemma mongodb_message_event_untimed meta isFromClient m now :
  untimed <$> message_event meta isFromClient m now = message_event meta isFromClient m 0.
Proof. unfold message_event. by repeat case_match. Qed.

Lemma mongodb_Parse_step_next clk meta isFromClient d evs :
  Parse_step clk meta isFromClient (d, evs) =
  match next d with
  | Some (f, r) => Ret (inl (r, append_event clk (message_event meta isFromClient f) evs))
  | None => Ret (inr evs)
  end.
Proof.
  unfold Parse_step. cbn [next message_framed]. unfold next_message, headerSize. cbv zeta.
  destruct (16 <=? len d) eqn:E16; [|done].
  unfold le32. rewrite (bind_slice_le 4) by lia. change (drop (Z.to_nat 0) d) with d.
  remember (le_uint (take 4 d)) as n eqn:Hn. clear Hn.
  destruct ((n <? 16) || (len d <? n)) eqn:E; simpl.
  { by replace ((16 <=? n) && (n <=? len d)) with false by lia. }
  replace ((16 <=? n) && (n <=? len d)) with true by lia.
  rewrite (bind_slice_le 4) by lia. change (drop (Z.to_nat 12) d) with (drop 12 d).
  rewrite slice_ret by lia. rewrite slice_from_ret by lia. cbn [mbind outcome_bind].
  change (drop (Z.to_nat 16) d) with (drop 16 d).
  pose proof (mongodb_decodeMessage_ret (clk (length evs))
    {| ids := take 8 (drop 4 d); opCode := le_uint (take 4 (drop 12 d));
       body := take (Z.to_nat (n - 16)) (drop 16 d) |} meta isFromClient) as Hd.
  cbn [opCode body] in Hd. by rewrite Hd.
Qed.

Lemma mongodb_Parse_ret p clk data meta isFromClient :
  Parse p clk data meta isFromClient =
  Ret (OkR (collect clk (message_event meta isFromClient) (fst (frames data)) [])).
Proof.
  unfold Parse. rewrite (frames_loop clk (message_event meta isFromClient))
    by (apply mongodb_Parse_step_next || lia). done.
Qed.

(** Every call of [Parse] returns, without a panic, a nil error and the
    events of the complete messages of its input. *)
Theorem mongodb_Parse_frames p clk data meta isFromClient :
  Parse p clk data meta isFromClient =
  Ret (OkR (collect clk (message_event meta isFromClient) (fst (frames data)) [])).
Proof. apply mongodb_Parse_ret. Qed.

(** An encoded message sequence is read back in order, followed by whatever
    incomplete message ends the stream. *)
Theorem mongodb_Parse_encoded p clk meta isFromClient msgs t :
  Forall encodable msgs -> next_message t = None ->
  exists evs,
    Parse p clk (concat (map encode msgs) ++ t) meta isFromClient = Ret (OkR evs)
    /\ untimed <$> evs = omap (fun f => message_event meta isFromClient f 0) msgs.
Proof.
  intros Hf Ht.
  apply (framed_parse_encoded (F := message) clk (message_event meta isFromClient)
    (fun d => Parse p clk d meta isFromClient)); auto using mongodb_message_event_untimed, mongodb_Parse_ret.
Qed.

(** A BSON document whose first element is the string [val] under [key]. *)
Definition bson_string_doc (key val rest : bytes) : bytes :=
  let elems := x02 :: key ++ x00 :: le_bytes 4 (len val + 1) ++ val ++ x00 :: rest in
  le_bytes 4 (4 + len elems) ++ elems.

(** The command name and the collection name that start a BSON command
    document are read back. *)
Theorem mongodb_first_key key val rest :
  key <> [] -> x00 ∉ key -> len (bson_string_doc key val rest) < 2 ^ 32 ->
  extractFirstKey (bson_string_doc key val rest) = Ret (key, val).
Proof.
  intros Hk H0 Hlen. rewrite extractFirstKey_ret. f_equal.
  unfold bson_string_doc in *.
  set (elems := x02 :: key ++ x00 :: le_bytes 4 (len val + 1) ++ val ++ x00 :: rest) in *.
  rewrite len_app, len_le_bytes in Hlen. pose proof (len_nonneg elems). pose proof (len_nonneg val).
  assert (Hel : len elems = 7 + len key + len val + len rest).
  { unfold elems. rewrite len_cons, len_app, len_cons, len_app, len_le_bytes, len_app, len_cons. lia. }
  pose proof (len_nonneg rest). pose proof (len_nonneg key).
  unfold first_key. rewrite drop_app_length' by (by rewrite length_le_bytes).
  rewrite take_app_length' by (by rewrite length_le_bytes).
  rewrite le_uint_le_bytes by lia. unfold elems at 1. cbv zeta.
  assert (Hkey : readCString (key ++ x00 :: le_bytes 4 (len val + 1) ++ val ++ x00 :: rest) = key).
  { unfold readCString. by rewrite IndexByte_app, take_app_length by done. }
  rewrite Hkey, len_app, len_le_bytes, bool_decide_false by done.
  replace (_ && _ && _) with true by lia. f_equal.
  rewrite <- (Nat.add_1_r (length key)), <- drop_drop, drop_app_length. change (drop 1 (x00 :: ?l)) with l.
  unfold first_value. rewrite take_app_length', drop_app_length' by (by rewrite length_le_bytes).
  rewrite le_uint_le_bytes by lia. rewrite !len_app, len_le_bytes, len_cons. cbv zeta.
  replace (_ && _ && _ && _) with true by (change (u8 x02) with 2; lia).
  apply take_app_length'. unfold len. lia.
Qed.
Lemma mongodb_Parse_encoded_witness :
  let msgs := [{| ids := repeat x00 8; opCode := 2013;
                  body := repeat x00 5 ++ bson_string_doc (str "find") (str "users") [x00] |}] in
  exists evs,
    Parse (NewParser 0) (fun _ => 7) (concat (map encode msgs) ++ [x45])
      {| m_SrcIP := []; m_DstIP := []; m_SrcPort := 1; m_DstPort := 27017; m_ConnID := 2 |} true = Ret (OkR evs)
    /\ untimed <$> evs = omap (fun f => message_event
      {| m_SrcIP := []; m_DstIP := []; m_SrcPort := 1; m_DstPort := 27017; m_ConnID := 2 |} true f 0) msgs.
Proof.
  intros msgs. apply (mongodb_Parse_encoded (NewParser 0) (fun _ => 7) _ true msgs [x45]).
  - constructor; [|constructor]. repeat split; vm_compute; done.
  - reflexivity.
Defined.

Lemma mongodb_first_key_witness :
  extractFirstKey (bson_string_doc (str "find") (str "users") [x00]) = Ret (str "find", str "users").
Proof.
  apply (mongodb_first_key (str "find") (str "users") [x00]).
  - done.
  - apply (bool_decide_unpack _); vm_compute; done.
  - reflexivity.
Defined.

End Mongodb.
