(* ===== verification/Mqtt.v ===== *)
(** * The MQTT parser ([internal/protocol/mqtt/parser.go])

    Packets have a fixed header (type, flags and a variable-length remaining
    length) and a payload. The parser reads the client id of CONNECT packets and
    the topic of PUBLISH packets. *)

From S2P Require Import Prelude.
From S2P Require Import GoStrings.
From S2P Require Import Event.
From S2P Require Import Framing.

Module Mqtt.

Definition pktCONNECT : Z := 1.
Definition pktPUBLISH : Z := 3.

(** [pktNames] *)
Definition pktNames (t : Z) : bytes :=
  match t with
  | 1 => str "CONNECT" | 2 => str "CONNACK" | 3 => str "PUBLISH" | 4 => str "PUBACK"
  | 5 => str "PUBREC" | 6 => str "PUBREL" | 7 => str "PUBCOMP" | 8 => str "SUBSCRIBE"
  | 9 => str "SUBACK" | 10 => str "UNSUBSCRIBE" | 11 => str "UNSUBACK"
  | 12 => str "PINGREQ" | 13 => str "PINGRESP" | 14 => str "DISCONNECT"
  | _ => []
  end.

Definition Name : bytes := str "mqtt".
Definition Ports : list Z := [1883; 8883].

(** The loop of [decodeRemainingLength]: [(i, multiplier, value)]. *)
Definition remaining_step (data : bytes) (s : Z * Z * Z) : outcome (Z * Z * Z + Z * Z) :=
  let '(i, multiplier, value) := s in
  if (i <? 4) && (i <? len data) then
    b ← index data i;
    let value := value + Z.land (u8 b) 0x7F * multiplier in
    if Z.land (u8 b) 0x80 =? 0 then Ret (inr (value, i + 1))
    else Ret (inl (i + 1, multiplier * 128, value))
  else Ret (inr (0, -1)).

Definition decodeRemainingLength (data : bytes) : outcome (Z * Z) :=
  for_loop 5 (remaining_step data) (0, 1, 0).

Definition Probe (data : bytes) (isFromClient : bool) : outcome Z :=
  if len data <? 2 then Ret 0 else
  b0 ← index data 0;
  let pktType := Z.shiftr (u8 b0) 4 in
  if (pktType <? 1) || (14 <? pktType) then Ret 0 else
  d ← slice_from data 1;
  '(_, n) ← decodeRemainingLength d;
  if n <=? 0 then Ret 0
  else if (pktType =? pktCONNECT) && isFromClient then Ret 95 else Ret 70.

Definition extractConnectClientID (payload : bytes) : outcome bytes :=
  if len payload <? 10 then Ret [] else
  p ← slice payload 0 2; protoNameLen ← be16 p;
  let offset := 2 + protoNameLen + 1 + 1 + 2 in
  if len payload <? offset + 2 then Ret [] else
  c ← slice payload offset (offset + 2); clientIDLen ← be16 c;
  let offset := offset + 2 in
  if len payload <? offset + clientIDLen then Ret [] else
  slice payload offset (offset + clientIDLen).

Definition extractPublishTopic (firstByte : byte) (payload : bytes) : outcome bytes :=
  if len payload <? 2 then Ret [] else
  t ← slice payload 0 2; topicLen ← be16 t;
  if len payload <? 2 + topicLen then Ret [] else
  slice payload 2 (2 + topicLen).

Definition packet_metadata (pktType : Z) (b0 : byte) (payload : bytes) : outcome string_map :=
  let m := {[str "packet_type" := pktNames pktType]} in
  if pktType =? pktCONNECT then
    clientID ← extractConnectClientID payload;
    Ret (if bool_decide (clientID = []) then m else <[str "client_id" := clientID]> m)
  else if pktType =? pktPUBLISH then
    topic ← extractPublishTopic b0 payload;
    Ret (if bool_decide (topic = []) then m else <[str "topic" := topic]> m)
  else Ret m.

Definition Parse_step (clk : clock) (meta : ConnMeta) (isFromClient : bool)
    (s : bytes * list ProtocolEvent) : outcome (bytes * list ProtocolEvent + list ProtocolEvent) :=
  let '(data, events) := s in
  if 2 <=? len data then
    b0 ← index data 0;
    let pktType := Z.shiftr (u8 b0) 4 in
    if (pktType <? 1) || (14 <? pktType) then Ret (inr events) else
    d ← slice_from data 1;
    '(remLen, lenBytes) ← decodeRemainingLength d;
    if lenBytes <=? 0 then Ret (inr events) else
    let headerSize := 1 + lenBytes in
    let totalSize := headerSize + remLen in
    if len data <? totalSize then Ret (inr events) else
    payload ← slice data headerSize totalSize;
    m ← packet_metadata pktType b0 payload;
    let ev := set_Metadata (fillMeta (NewEvent (clk (length events)) Name (side_dir isFromClient)) meta) m in
    data' ← slice_from data totalSize;
    Ret (inl (data', events ++ [ev]))
  else Ret (inr events).

Definition Parse (clk : clock) (data : bytes) (meta : ConnMeta) (isFromClient : bool)
    : outcome (result (list ProtocolEvent)) :=
  events ← for_loop (S (length data)) (Parse_step clk meta isFromClient) (data, []);
  Ret (OkR events).

(** ** The remaining length: reference decoder and encoder *)

(** At most [k] bytes, 7 bits each, low bits first: the value and the bytes read. *)
Fixpoint varint (k : nat) (l : bytes) : option (Z * nat) :=
  match k, l with
  | S k', b :: l' =>
      if u8 b <? 128 then Some (u8 b, 1%nat)
      else match varint k' l' with
           | Some (v, n) => Some (u8 b - 128 + 128 * v, S n)
           | None => None
           end
  | _, _ => None
  end.

(** The encoder of the MQTT specification. *)
Fixpoint encode_varint (k : nat) (n : Z) : bytes :=
  match k with
  | O => []
  | S k' => if n <? 128 then [byte_of n]
            else byte_of (128 + n mod 128) :: encode_varint k' (n / 128)
  end.

Lemma varint_bounds k l v n :
  varint k l = Some (v, n) ->
  0 <= v < 128 ^ Z.of_nat k /\ (1 <= n <= k)%nat /\ (n <= length l)%nat.
Proof.
  revert l v n. induction k as [|k IH]; intros l v n; [done|].
  destruct l as [|b l]; [done|]. cbn [varint]. pose proof (u8_range b).
  rewrite Nat2Z.inj_succ, Z.pow_succ_r by lia.
  pose proof (Z.pow_pos_nonneg 128 (Z.of_nat k) ltac:(lia) ltac:(lia)).
  destruct (u8 b <? 128) eqn:E.
  - intros [= <- <-]. simpl. nia.
  - destruct (varint k l) as [[v' n']|] eqn:Ev; [|done]. intros [= <- <-].
    destruct (IH _ _ _ Ev) as (? & ? & ?). simpl. nia.
Qed.

Lemma varint_app k l t v n : varint k l = Some (v, n) -> varint k (l ++ t) = Some (v, n).
Proof.
  revert l v n. induction k as [|k IH]; intros l v n; [done|].
  destruct l as [|b l]; [done|]. cbn [varint app].
  destruct (u8 b <? 128); [done|].
  destruct (varint k l) as [[v' n']|] eqn:Ev; [|done]. by rewrite (IH _ _ _ Ev).
Qed.

Lemma varint_encode k n t :
  (0 < k)%nat -> 0 <= n < 128 ^ Z.of_nat k ->
  varint k (encode_varint k n ++ t) = Some (n, length (encode_varint k n)).
Proof.
  revert n. induction k as [|k IH]; intros n Hk Hn; [lia|].
  rewrite Nat2Z.inj_succ, Z.pow_succ_r in Hn by lia. cbn [encode_varint].
  pose proof (Z.mod_pos_bound n 128 ltac:(lia)). pose proof (Z.div_mod n 128 ltac:(lia)).
  destruct (n <? 128) eqn:E; cbn [app varint length].
  - rewrite u8_byte_of_small by lia. by rewrite E.
  - rewrite u8_byte_of_small by lia. replace (128 + n mod 128 <? 128) with false by lia.
    assert (0 < k)%nat by (destruct k; [simpl in Hn; lia | lia]).
    assert (0 <= n / 128 < 128 ^ Z.of_nat k)
      by (split; [apply Z.div_pos | apply Z.div_lt_upper_bound]; lia).
    rewrite IH by done.
    do 2 f_equal. lia.
Qed.

(** The bit tests of the code, on a byte. *)
Lemma land_7F b : Z.land (u8 b) 0x7F = u8 b mod 128.
Proof. by destruct b. Qed.

Lemma land_80 b : (Z.land (u8 b) 0x80 =? 0) = (u8 b <? 128).
Proof. by destruct b. Qed.

Lemma remaining_loop data k i m v :
  (i + k = 4)%nat ->
  for_loop (S k) (remaining_step data) (Z.of_nat i, m, v) =
  Ret (match varint k (drop i data) with
       | Some (x, n) => (v + m * x, Z.of_nat (i + n))
       | None => (0, -1)
       end).
Proof.
  revert i m v. induction k as [|k IH]; intros i m v Hi.
  { replace i with 4%nat by lia. done. }
  rewrite for_loop_S. cbn [remaining_step].
  replace (Z.of_nat i <? 4) with true by lia. cbn [andb].
  destruct (Z.of_nat i <? len data) eqn:E.
  - destruct (lookup_lt_is_Some_2 data i) as [b Hb]; [unfold len in E; lia|].
    rewrite (drop_S _ b i Hb).
    rewrite (index_ret data (Z.of_nat i) b) by (rewrite ?Nat2Z.id; done || lia).
    cbn [mbind outcome_bind varint]. rewrite land_7F, land_80. pose proof (u8_range b).
    destruct (u8 b <? 128) eqn:Eb; cbn [mbind outcome_bind].
    + rewrite Z.mod_small by lia. do 2 f_equal; lia.
    + replace (Z.of_nat i + 1) with (Z.of_nat (S i)) by lia.
      rewrite IH by lia. f_equal.
      assert (u8 b mod 128 = u8 b - 128) as -> by (Z.div_mod_to_equations; lia).
      destruct (varint k (drop (S i) data)) as [[x n]|]; [|done]. f_equal; lia.
  - rewrite drop_ge by (unfold len in E; lia). done.
Qed.

Lemma decodeRemainingLength_varint data :
  decodeRemainingLength data =
  Ret (match varint 4 data with Some (x, n) => (x, Z.of_nat n) | None => (0, -1) end).
Proof.
  unfold decodeRemainingLength.
  pose proof (remaining_loop data 4 0 1 0 eq_refl) as H. change (Z.of_nat 0) with 0 in H. rewrite H.
  rewrite drop_0. destruct (varint 4 data) as [[x n]|]; [|done]. do 2 f_equal. lia.
Qed.

(** C40: [decodeRemainingLength] inverts the specification's encoder on every
    length it can carry, and reports how many bytes it read. *)
Theorem mqtt_remaining_length_roundtrip n t :
  0 <= n < 2 ^ 28 ->
  decodeRemainingLength (encode_varint 4 n ++ t) = Ret (n, len (encode_varint 4 n)).
Proof.
  intros Hn. rewrite decodeRemainingLength_varint, varint_encode by (done || lia). done.
Qed.

(** ** The wire format *)

(** A packet: its first byte (type and flags) and its payload. *)
Record packet := { first : byte; payload : bytes }.

Definition pkt_type (b : byte) : Z := Z.shiftr (u8 b) 4.

Definition next_packet (d : bytes) : option (packet * bytes) :=
  match d with
  | b0 :: rest =>
      if (1 <=? pkt_type b0) && (pkt_type b0 <=? 14) then
        match varint 4 rest with
        | Some (n, k) =>
            let rest' := drop k rest in
            if n <=? len rest'
            then Some ({| first := b0; payload := take (Z.to_nat n) rest' |}, drop (Z.to_nat n) rest')
            else None
        | None => None
        end
      else None
  | [] => None
  end.

#[export, program] Instance packet_framed : Framed packet := {| next := next_packet |}.
Next Obligation.
  intros d f r. unfold next_packet. destruct d as [|b0 rest]; [done|].
  case_match; [|done]. destruct (varint 4 rest) as [[n k]|] eqn:Ev; [|done]. cbv zeta.
  case_match; [|done]. intros [= _ <-]. rewrite !length_drop. simpl. lia.
Qed.

#[export, program] Instance packet_stable : StableFramed packet.
Next Obligation.
  intros d f r t. unfold next, packet_framed, next_packet. destruct d as [|b0 rest]; [done|].
  cbn [app]. case_match; [|done]. destruct (varint 4 rest) as [[n k]|] eqn:Ev; [|done].
  rewrite (varint_app _ _ t _ _ Ev). apply varint_bounds in Ev as (? & ? & ?). cbv zeta.
  rewrite drop_app_le by lia.
  destruct (n <=? len (drop k rest)) eqn:E; [|done]. intros [= <- <-].
  rewrite len_app. pose proof (len_nonneg t). unfold len in *.
  replace (_ <=? _) with true by lia.
  rewrite take_app_le, drop_app_le by lia. done.
Qed.

#[export, program] Instance packet_encoder : FrameEncoder packet := {|
  encode p := first p :: encode_varint 4 (len (payload p)) ++ payload p;
  encodable p := 1 <= pkt_type (first p) <= 14 /\ len (payload p) < 2 ^ 28;
|}.
Next Obligation.
  intros [b p] t [Hb Hp]. cbn [first payload] in *. unfold next, packet_framed, next_packet.
  cbn [app]. replace (_ && _) with true by lia. pose proof (len_nonneg p). pose proof (len_nonneg t).
  rewrite <- app_assoc, varint_encode by (change (128 ^ Z.of_nat 4) with (2 ^ 28); lia). cbv zeta.
  rewrite drop_app_length, len_app.
  replace (_ <=? _) with true by lia. unfold len.
  rewrite Nat2Z.id, take_app_length, drop_app_length. done.
Qed.

(** ** The events of packets, read off their bytes *)

(** A 2-byte length and that many bytes. *)
Definition prefixed (l : bytes) : bytes :=
  let n := be_uint (take 2 l) in
  if (2 <=? len l) && (2 + n <=? len l) then take (Z.to_nat n) (drop 2 l) else [].

(** The client id follows the protocol name, its level, the flags and the
    keep-alive time. *)
Definition client_id (payload : bytes) : bytes :=
  if 10 <=? len payload
  then prefixed (drop (2 + Z.to_nat (be_uint (take 2 payload)) + 4) payload) else [].

Definition metadata (f : packet) : string_map :=
  let t := pkt_type (first f) in
  let m : string_map := {[str "packet_type" := pktNames t]} in
  let field k v := if bool_decide (v = []) then m else <[str k := v]> m in
  if t =? pktCONNECT then field "client_id" (client_id (payload f))
  else if t =? pktPUBLISH then field "topic" (prefixed (payload f))
  else m.

Definition packet_event (meta : ConnMeta) (isFromClient : bool) (f : packet) (now : Z)
    : option ProtocolEvent :=
  Some (set_Metadata (fillMeta (NewEvent now Name (side_dir isFromClient)) meta) (metadata f)).

(** ** The code computes the specification *)

Lemma extractPublishTopic_ret b l : extractPublishTopic b l = Ret (prefixed l).
Proof.
  unfold extractPublishTopic, prefixed. destruct (len l <? 2) eqn:E2.
  { by replace (2 <=? len l) with false by lia. }
  unfold be16. rewrite (bind_slice_be 2) by lia. change (drop (Z.to_nat 0) l) with l. cbv zeta.
  pose proof (be_uint_range (take 2 l)).
  destruct (len l <? 2 + be_uint (take 2 l)) eqn:E.
  - by replace (_ && _) with false by lia.
  - replace (_ && _) with true by lia. rewrite slice_ret by lia. f_equal. f_equal. lia.
Qed.

Lemma extractConnectClientID_ret l : extractConnectClientID l = Ret (client_id l).
Proof.
  unfold extractConnectClientID, client_id, prefixed. destruct (len l <? 10) eqn:E10.
  { by replace (10 <=? len l) with false by lia. }
  replace (10 <=? len l) with true by lia.
  unfold be16. rewrite (bind_slice_be 2) by lia. change (drop (Z.to_nat 0) l) with l. cbv zeta.
  pose proof (be_uint_range (take 2 l)). remember (be_uint (take 2 l)) as n eqn:Hn. clear Hn.
  rewrite drop_drop, len_drop.
  destruct (len l <? 2 + n + 1 + 1 + 2 + 2) eqn:E.
  { by replace (2 <=? _) with false by lia. }
  rewrite (bind_slice_be 2) by lia.
  replace (Z.to_nat (2 + n + 1 + 1 + 2)) with (2 + Z.to_nat n + 4)%nat by lia.
  set (off := (2 + Z.to_nat n + 4)%nat). pose proof (be_uint_range (take 2 (drop off l))).
  destruct (len l <? 2 + n + 1 + 1 + 2 + 2 + be_uint (take 2 (drop off l))) eqn:E3.
  - by replace (_ && _) with false by lia.
  - replace (_ && _) with true by lia. rewrite slice_ret by lia. f_equal. f_equal; [lia|].
    f_equal. lia.
Qed.

Lemma packet_metadata_ret f :
  packet_metadata (pkt_type (first f)) (first f) (payload f) = Ret (metadata f).
Proof.
  unfold packet_metadata, metadata. cbv zeta.
  destruct (_ =? pktCONNECT); [by rewrite extractConnectClientID_ret|].
  destruct (_ =? pktPUBLISH); [by rewrite extractPublishTopic_ret|done].
Qed.

Lemma mqtt_Parse_step_next clk meta isFromClient d evs :
  Parse_step clk meta isFromClient (d, evs) =
  match next d with
  | Some (f, r) => Ret (inl (r, append_event clk (packet_event meta isFromClient f) evs))
  | None => Ret (inr evs)
  end.
Proof.
  unfold Parse_step. cbn [next packet_framed]. unfold next_packet.
  destruct d as [|b0 rest]; [done|].
  destruct (2 <=? len (b0 :: rest)) eqn:E2.
  2: { destruct rest; [by destruct ((1 <=? pkt_type b0) && (pkt_type b0 <=? 14)) | lens]. }
  change (index (b0 :: rest) 0) with (Ret b0). cbn [mbind outcome_bind]. cbv zeta.
  change (Z.shiftr (u8 b0) 4) with (pkt_type b0).
  destruct ((pkt_type b0 <? 1) || (14 <? pkt_type b0)) eqn:Et.
  { by replace ((1 <=? pkt_type b0) && (pkt_type b0 <=? 14)) with false by lia. }
  replace ((1 <=? pkt_type b0) && (pkt_type b0 <=? 14)) with true by lia.
  rewrite slice_from_ret by lens. cbn [mbind outcome_bind].
  change (drop (Z.to_nat 1) (b0 :: rest)) with rest. rewrite decodeRemainingLength_varint.
  destruct (varint 4 rest) as [[n k]|] eqn:Ev; [|done]. cbn [mbind outcome_bind].
  apply varint_bounds in Ev as (Hn & Hk & Hkl).
  replace (Z.of_nat k <=? 0) with false by lia. rewrite len_cons, len_drop.
  destruct (n <=? Z.max 0 (len rest - Z.of_nat k)) eqn:E.
  - replace (1 + len rest <? _) with false by (unfold len in *; lia).
    rewrite slice_ret, slice_from_ret by (rewrite ?len_cons; unfold len in *; lia).
    replace (Z.to_nat (1 + Z.of_nat k)) with (S k) by lia.
    replace (Z.to_nat (1 + Z.of_nat k + n)) with (S (k + Z.to_nat n)) by lia.
    replace (1 + Z.of_nat k + n - (1 + Z.of_nat k)) with n by lia.
    change (drop (S ?m) (b0 :: rest)) with (drop m rest).
    rewrite <- drop_drop. cbn [mbind outcome_bind].
    pose proof (packet_metadata_ret {| first := b0; payload := take (Z.to_nat n) (drop k rest) |}) as Hm.
    cbn [first payload] in Hm. by rewrite Hm.
  - by replace (1 + len rest <? _) with true by (unfold len in *; lia).
Qed.

Lemma mqtt_Parse_ret clk data meta isFromClient :
  Parse clk data meta isFromClient =
  Ret (OkR (collect clk (packet_event meta isFromClient) (fst (frames data)) [])).
Proof.
  unfold Parse. rewrite (frames_loop clk (packet_event meta isFromClient))
    by (apply mqtt_Parse_step_next || lia). done.
Qed.

(** Every call of [Parse] returns, without a panic, a nil error and the
    events of the complete packets of its input. *)
Theorem mqtt_Parse_frames clk data meta isFromClient :
  Parse clk data meta isFromClient =
  Ret (OkR (collect clk (packet_event meta isFromClient) (fst (frames data)) [])).
Proof. apply mqtt_Parse_ret. Qed.

(** An encoded packet sequence gives one event per packet, in order, with
    the packet's type, client id or topic. *)
Theorem mqtt_Parse_encoded clk meta isFromClient pkts t :
  Forall encodable pkts -> next_packet t = None ->
  exists evs,
    Parse clk (concat (map encode pkts) ++ t) meta isFromClient = Ret (OkR evs)
    /\ length evs = length pkts
    /\ Metadata <$> evs = (fun f => Some (metadata f)) <$> pkts.
Proof.
  intros Hf Ht.
  destruct (framed_parse_encoded (F := packet) clk (packet_event meta isFromClient)
    (fun d => Parse clk d meta isFromClient)
    (fun d => mqtt_Parse_ret clk d meta isFromClient) (fun f now => eq_refl) pkts t Hf Ht)
    as (evs & HP & He).
  exists evs. split; [done|].
  assert (HM : Metadata <$> (untimed <$> evs) = (fun f => Some (metadata f)) <$> pkts).
  { rewrite He. clear. induction pkts; simpl; [done|]. by f_equal. }
  rewrite <- list_fmap_compose in HM. split; [|exact HM].
  apply (f_equal length) in HM. by rewrite !length_fmap in HM.
Qed.
Lemma mqtt_remaining_length_roundtrip_witness :
  decodeRemainingLength (encode_varint 4 321 ++ [x00]) = Ret (321, 2).
Proof. apply (mqtt_remaining_length_roundtrip 321 [x00]). lia. Defined.

Lemma mqtt_Parse_encoded_witness :
  let pkts := [{| first := x30; payload := x00 :: x01 :: str "t" ++ str "hello" |};
               {| first := xc0; payload := [] |}] in
  exists evs,
    Parse (fun _ => 7) (concat (map encode pkts) ++ [x30; x80])
      {| m_SrcIP := []; m_DstIP := []; m_SrcPort := 1; m_DstPort := 1883; m_ConnID := 2 |} true = Ret (OkR evs)
    /\ length evs = 2%nat
    /\ Metadata <$> evs = (fun f => Some (metadata f)) <$> pkts.
Proof.
  intros pkts. apply (mqtt_Parse_encoded (fun _ => 7) _ true pkts [x30; x80]).
  - do 2 (constructor; [vm_compute; repeat split; done|]). constructor.
  - reflexivity.
Defined.

End Mqtt.
