(* ===== verification/Redis.v ===== *)
(** * The Redis parser ([internal/protocol/redis/parser.go])

    RESP values are read by a recursive function; a client command is an array
    of values. Go's [int] is 64 bits wide and the length of a bulk string comes
    from the wire, so the sums on it are taken modulo 2^64 here. *)

From S2P Require Import Prelude.
From S2P Require Import GoStrings.
From S2P Require Import Event.

#[local] Set Warnings "-register-all".

Module Redis.

(** RESP type prefixes: + - : $ * *)
Definition respSimpleString : byte := x2b.
Definition respError : byte := x2d.
Definition respInteger : byte := x3a.
Definition respBulkString : byte := x24.
Definition respArray : byte := x2a.

Record Parser := { maxQueryLength : Z }.

Definition NewParser (n : Z) : Parser := {| maxQueryLength := n |}.

Definition Name : bytes := str "redis".
Definition Ports : list Z := [6379; 6380].

Definition Probe (data : bytes) (isFromClient : bool) : outcome Z :=
  if len data <? 3 then Ret 0 else
  first ← index data 0;
  if existsb (Byte.eqb first)
       [respArray; respBulkString; respSimpleString; respError; respInteger]
  then if Contains (clip data 64) CRLF then Ret 85 else Ret 50
  else Ret 0.

(** [readLine]: the bytes before the first CRLF and the position after it, or
    the position -1. *)
Definition readLine (data : bytes) : bytes * Z :=
  match Index data CRLF with
  | Some idx => (take idx data, Z.of_nat idx + 2)
  | None => ([], -1)
  end.

(** The loop over the elements of an array: [(i, cursor, args)]. The loop of a
    nested array is the same, without the list of the values. *)
Definition elements_step (read : bytes -> outcome (bytes * Z)) (data : bytes) (count : Z)
    (s : Z * Z * list bytes) : outcome (Z * Z * list bytes + option (Z * list bytes)) :=
  let '(i, cursor, args) := s in
  if i <? count then
    d ← slice_from data cursor;
    '(val, n) ← read d;
    if n <=? 0 then Ret (inr None) else Ret (inl (i + 1, cursor + n, args ++ [val]))
  else Ret (inr (Some (cursor, args))).

Fixpoint readRESPValue_fuel (fuel : nat) (data : bytes) : outcome (bytes * Z) :=
  match fuel with
  | O => NoFuel
  | S fuel' =>
      if len data =? 0 then Ret ([], 0) else
      b ← index data 0;
      let '(line, pos) := readLine data in
      if existsb (Byte.eqb b) [respSimpleString; respError; respInteger] then
        if pos <? 0 then Ret ([], 0) else
        v ← slice_from line 1; Ret (v, pos)
      else if Byte.eqb b respBulkString then
        if pos <? 0 then Ret ([], 0) else
        l ← slice_from line 1;
        match Atoi l with
        | None => Ret ([], 0)
        | Some length =>
            if length <? 0 then Ret (str "(nil)", pos) else
            let end_ := int64 (int64 (pos + length) + 2) in
            if len data <? end_ then Ret ([], 0) else
            v ← slice data pos (int64 (pos + length)); Ret (v, end_)
        end
      else if Byte.eqb b respArray then
        if pos <? 0 then Ret ([], 0) else
        l ← slice_from line 1;
        match Atoi l with
        | None => Ret ([], 0)
        | Some count =>
            if count <? 0 then Ret ([], 0) else
            r ← for_loop (S (List.length data))
                  (elements_step (readRESPValue_fuel fuel') data count) (0, pos, []);
            match r with
            | None => Ret ([], 0)
            | Some (cursor, _) => Ret (str "(array)", cursor)
            end
        end
      else
        if pos <? 0 then Ret ([], 0) else Ret (line, pos)
  end.

(** A nested value is strictly shorter than the array that holds it. *)
Definition readRESPValue (data : bytes) : outcome (bytes * Z) :=
  readRESPValue_fuel (S (length data)) data.

Section Decode.
Context `{Unicode}.

Definition truncate (p : Parser) (fullCmd : bytes) : outcome bytes :=
  if (0 <? maxQueryLength p) && (maxQueryLength p <? len fullCmd)
  then slice_to fullCmd (maxQueryLength p) else Ret fullCmd.

Definition db_event (now : Z) (dir : Direction) (meta : ConnMeta) (op stmt msg : bytes)
    : ProtocolEvent :=
  set_DB (fillMeta (NewEvent now Name dir) meta)
    {| db_System := Name; db_Operation := op; db_Statement := stmt; db_Database := [];
       db_Table := []; db_ErrorCode := 0; db_ErrorMsg := msg;
       db_Latency := 0; db_RowCount := 0 |}.

Definition decodeArray (p : Parser) (now : Z) (data : bytes) (meta : ConnMeta)
    (isFromClient : bool) : outcome (option ProtocolEvent * Z) :=
  let '(line, pos) := readLine data in
  if pos <? 0 then Ret (None, 0) else
  l ← slice_from line 1;
  match Atoi l with
  | None => Ret (None, 0)
  | Some count =>
      if count <? 0 then Ret (None, 0) else
      r ← for_loop (S (length data)) (elements_step readRESPValue data count) (0, pos, []);
      match r with
      | None => Ret (None, 0)
      | Some (cursor, args) =>
          match args with
          | [] => Ret (None, cursor)
          | cmd :: _ =>
              stmt ← truncate p (Join args (str " "));
              Ret (Some (db_event now (side_dir isFromClient) meta (ToUpper cmd) stmt []), cursor)
          end
      end
  end.

Definition decodeError (now : Z) (data : bytes) (meta : ConnMeta)
    : outcome (option ProtocolEvent * Z) :=
  let '(line, pos) := readLine data in
  if pos <? 0 then Ret (None, 0) else
  msg ← slice_from line 1;
  Ret (Some (db_event now DirectionResponse meta (str "ERR") [] msg), pos).

Definition decodeOne (p : Parser) (now : Z) (data : bytes) (meta : ConnMeta)
    (isFromClient : bool) : outcome (option ProtocolEvent * Z) :=
  if len data =? 0 then Ret (None, 0) else
  b ← index data 0;
  if Byte.eqb b respArray then decodeArray p now data meta isFromClient
  else if Byte.eqb b respError then decodeError now data meta
  else '(_, n) ← readRESPValue data; Ret (None, n).

Definition Parse_step (p : Parser) (clk : clock) (meta : ConnMeta) (isFromClient : bool)
    (s : bytes * list ProtocolEvent) : outcome (bytes * list ProtocolEvent + list ProtocolEvent) :=
  let '(data, events) := s in
  if 0 <? len data then
    '(ev, consumed) ← decodeOne p (clk (length events)) data meta isFromClient;
    if consumed <=? 0 then Ret (inr events) else
    let events' := match ev with Some e => events ++ [e] | None => events end in
    data' ← slice_from data consumed;
    Ret (inl (data', events'))
  else Ret (inr events).

Definition Parse (p : Parser) (clk : clock) (data : bytes) (meta : ConnMeta)
    (isFromClient : bool) : outcome (result (list ProtocolEvent)) :=
  events ← for_loop (S (length data)) (Parse_step p clk meta isFromClient) (data, []);
  Ret (OkR events).
End Decode.

(** ** When the code panics *)

(** A bulk string header whose declared length makes [pos + length + 2] exceed
    the largest [int]. *)
Definition bulk_overflow (data : bytes) : bool :=
  match data with
  | b :: _ =>
      let '(line, pos) := readLine data in
      Byte.eqb b respBulkString && (0 <=? pos) &&
      match Atoi (drop 1 line) with
      | Some length => (0 <=? length) && (max_int64 <? pos + length + 2)
      | None => false
      end
  | [] => false
  end.

(** No position of the data starts such a header. *)
Definition no_overflow (data : bytes) : Prop :=
  forall k, bulk_overflow (drop k data) = false.

(** ... which can be computed. *)
Lemma no_overflow_computed data :
  forallb (fun k => negb (bulk_overflow (drop k data))) (seq 0 (length data)) = true ->
  no_overflow data.
Proof.
  rewrite forallb_forall. intros Hall k. destruct (decide (k < length data)%nat) as [Hk|Hk].
  - specialize (Hall k). rewrite in_seq in Hall. specialize (Hall ltac:(lia)).
    by apply negb_true_iff in Hall.
  - by rewrite drop_ge by lia.
Qed.

Lemma no_overflow_drop k data : no_overflow data -> no_overflow (drop k data).
Proof. intros H j. rewrite drop_drop. apply H. Qed.

Lemma no_overflow_self data : no_overflow data -> bulk_overflow data = false.
Proof. intros H. apply (H 0%nat). Qed.

Lemma readLine_spec data :
  readLine data = ([], -1) \/
  exists i, readLine data = (take i data, Z.of_nat i + 2) /\ (i + 2 <= length data)%nat
    /\ Index data CRLF = Some i.
Proof.
  unfold readLine. destruct (Index data CRLF) as [i|] eqn:E; [right|by left].
  exists i. destruct (Index_Some _ _ _ E) as [Hl _]. done.
Qed.

(** A line that does not start with CR is not empty. *)
Lemma readLine_nonempty b data i :
  b <> x0d -> Index (b :: data) CRLF = Some i -> (0 < i)%nat.
Proof.
  intros Hb H. destruct i as [|i]; [|lia].
  apply Index_Some in H as [_ [t Ht]]. simpl in Ht. by injection Ht as -> _.
Qed.

Lemma existsb_byte b l : existsb (Byte.eqb b) l = true -> b ∈ l.
Proof.
  induction l as [|c l IH]; simpl; [done|]. rewrite orb_true_iff, byte_eqb_true.
  intros [->|?]; [left | right; auto].
Qed.

(** Array elements: the cursor stays in the data and every element moves it. *)
Lemma elements_wp read data count pos :
  0 <= pos <= len data ->
  (forall k, (Z.to_nat pos <= k)%nat -> wp (read (drop k data)) (fun r => 0 <= snd r <= len (drop k data))) ->
  wp (for_loop (S (length data)) (elements_step read data count) (0, pos, []))
     (fun r => match r with None => True | Some (cursor, _) => pos <= cursor <= len data end).
Proof.
  intros Hpos Hread.
  apply (wp_for_loop (fun '(_, cursor, _) => pos <= cursor <= len data)
           (fun '(_, cursor, _) => Z.to_nat (len data - cursor)));
    [|lia | unfold len; lia].
  intros [[i cursor] args] Hc. unfold elements_step. go_step; [|by apply wp_ret].
  apply wp_bind, wp_slice_from; [lia|]. apply wp_bind.
  eapply wp_mono; [apply Hread; lia|]. intros [val n]. simpl. rewrite len_drop.
  intros Hn. go_step; apply wp_ret; [done | lia].
Qed.

Lemma readRESPValue_fuel_wp fuel data :
  (length data < fuel)%nat -> no_overflow data ->
  wp (readRESPValue_fuel fuel data) (fun r => 0 <= snd r <= len data).
Proof.
  revert data. induction fuel as [|fuel IH]; intros data Hf Hno; [lia|].
  cbn [readRESPValue_fuel]. pose proof (len_nonneg data).
  destruct data as [|b data]; [simpl; lia|].
  replace (len (b :: data) =? 0) with false by lens.
  change (index (b :: data) 0) with (Ret b). cbn [mbind outcome_bind].
  pose proof (no_overflow_self _ Hno) as Hov. unfold bulk_overflow in Hov.
  destruct (readLine_spec (b :: data)) as [Hl|(i & Hl & Hi & Hix)]; rewrite Hl in *.
  { replace (-1 <? 0) with true by done. by repeat case_match; simpl. }
  replace (Z.of_nat i + 2 <? 0) with false by lia.
  assert (Hpos : 0 <= Z.of_nat i + 2 <= len (b :: data)) by (unfold len; lia).
  assert (Hline : b <> x0d -> exists l, slice_from (take i (b :: data)) 1 = Ret l
             /\ l = drop 1 (take i (b :: data))).
  { intros Hb. pose proof (readLine_nonempty _ _ _ Hb Hix). eexists. split; [|done].
    apply slice_from_ret. rewrite len_take. unfold len. simpl length. lia. }
  destruct (existsb _ _) eqn:Es.
  { apply existsb_byte in Es. destruct Hline as (l & -> & _); [set_solver|]. simpl. lia. }
  destruct (Byte.eqb b respBulkString) eqn:Eb.
  { apply byte_eqb_true in Eb as ->. destruct Hline as (l & -> & ->); [done|].
    cbn [mbind outcome_bind]. destruct (Atoi _) as [n|] in Hov |- *; [|simpl; lia].
    change (Byte.eqb respBulkString respBulkString) with true in Hov.
    destruct (n <? 0) eqn:En; [simpl; lia|].
    assert (Hn : Z.of_nat i + 2 + n + 2 <= max_int64) by lia. clear Hov.
    rewrite (int64_small (Z.of_nat i + 2 + n)) by (unfold min_int64, max_int64 in *; lia).
    rewrite int64_small by (unfold min_int64, max_int64 in *; lia). cbv zeta.
    destruct (len _ <? _) eqn:El; [simpl; lia|].
    apply wp_bind, wp_slice; [lia|lia|]. simpl. lia. }
  clear Hov. destruct (Byte.eqb b respArray) eqn:Ea; [|simpl; lia].
  apply byte_eqb_true in Ea as ->. destruct Hline as (l & -> & _); [done|].
  cbn [mbind outcome_bind]. destruct (Atoi _) as [n|]; [|simpl; lia].
  destruct (n <? 0); [simpl; lia|]. apply wp_bind.
  eapply wp_mono; [apply elements_wp; [done|]|].
  - intros k Hk. apply IH; [|by apply no_overflow_drop].
    rewrite length_drop. simpl length in *. lia.
  - intros [[cursor args]|]; simpl; lia.
Qed.

Lemma readRESPValue_wp data :
  no_overflow data -> wp (readRESPValue data) (fun r => 0 <= snd r <= len data).
Proof. intros. apply readRESPValue_fuel_wp; [lia|done]. Qed.

(** Elements whose values are read in one call each; the loop of the code
    collects the values. *)
Lemma elements_run {A} (read : bytes -> outcome (bytes * Z)) (enc shown : A -> bytes) data vs t :
  (forall v u, v ∈ vs -> read (enc v ++ u) = Ret (shown v, len (enc v)) /\ 0 < len (enc v)) ->
  forall fuel i cursor acc,
    (length vs < fuel)%nat -> 0 <= cursor <= len data ->
    drop (Z.to_nat cursor) data = concat (map enc vs) ++ t ->
    for_loop fuel (elements_step read data (i + len vs)) (i, cursor, acc) =
    Ret (Some (cursor + len (concat (map enc vs)), acc ++ map shown vs)).
Proof.
  intros Hread. induction vs as [|v vs IH]; intros fuel i cursor acc Hf Hc Hd;
    (destruct fuel as [|fuel]; [simpl in Hf; lia|]); rewrite for_loop_S; unfold elements_step.
  - rewrite len_nil, Z.add_0_r, Z.ltb_irrefl. cbn. by rewrite Z.add_0_r, app_nil_r.
  - rewrite len_cons. pose proof (len_nonneg vs).
    replace (i <? i + (1 + len vs)) with true by lia. rewrite slice_from_ret by done.
    cbn [mbind outcome_bind]. rewrite Hd. cbn [map concat]. rewrite <- app_assoc.
    destruct (Hread v (concat (map enc vs) ++ t)) as [-> Hpos]; [left|].
    cbn [mbind outcome_bind]. replace (len (enc v) <=? 0) with false by lia.
    cbn [mbind outcome_bind].
    assert (Hlen : len (drop (Z.to_nat cursor) data) = len (enc v ++ concat (map enc vs) ++ t))
      by (rewrite Hd; cbn [map concat]; by rewrite <- app_assoc).
    rewrite len_drop, !len_app in Hlen. pose proof (len_nonneg (concat (map enc vs))).
    pose proof (len_nonneg t).
    replace (i + (1 + len vs)) with (i + 1 + len vs) by lia.
    fold (elements_step read data (i + 1 + len vs)).
    rewrite IH; [| intros; apply Hread; by right | simpl in Hf; lia | lia |].
    + rewrite len_app, <- app_assoc. do 3 f_equal. lia.
    + rewrite Z2Nat.inj_add by lia. rewrite <- drop_drop, Hd. cbn [map concat].
      rewrite <- app_assoc. unfold len at 1. by rewrite Nat2Z.id, drop_app_length.
Qed.

(** ** RESP values and their encoder *)

Inductive value :=
| VSimple (s : bytes)
| VError (s : bytes)
| VInteger (s : bytes)
| VBulk (a : bytes)
| VNull
| VInline (line : bytes)
| VArray (vs : list value).

Definition encode_bulk (a : bytes) : bytes := x24 :: Itoa (len a) ++ CRLF ++ a ++ CRLF.

Fixpoint encode (v : value) : bytes :=
  match v with
  | VSimple s => respSimpleString :: s ++ CRLF
  | VError s => respError :: s ++ CRLF
  | VInteger s => respInteger :: s ++ CRLF
  | VBulk a => encode_bulk a
  | VNull => str "$-1" ++ CRLF
  | VInline line => line ++ CRLF
  | VArray vs => respArray :: Itoa (len vs) ++ CRLF ++ concat (map encode vs)
  end.

(** A command is an array of bulk strings. *)
Definition command (args : list bytes) : value := VArray (map VBulk args).

Definition type_bytes : list byte :=
  [respArray; respBulkString; respSimpleString; respError; respInteger].

(** A line holds no CRLF, an inline command starts with no type byte, and
    lengths are below [2^62], so that positions do not overflow. *)
Fixpoint value_ok (v : value) : bool :=
  match v with
  | VSimple s | VError s | VInteger s => bool_decide (Index s CRLF = None)
  | VBulk a => len a <=? 2 ^ 62
  | VNull => true
  | VInline line => bool_decide (Index line CRLF = None)
      && match line with b :: _ => negb (existsb (Byte.eqb b) type_bytes) | [] => true end
  | VArray vs => (len vs <=? 2 ^ 62) && forallb value_ok vs
  end.

(** The text of a value in the statement of a command. *)
Definition shown (v : value) : bytes :=
  match v with
  | VSimple s | VError s | VInteger s | VBulk s | VInline s => s
  | VNull => str "(nil)"
  | VArray _ => str "(array)"
  end.

Lemma encode_pos v : 0 < len (encode v).
Proof.
  assert (Hne : encode v <> []) by (destruct v as [| | | | |line|]; try done; by destruct line).
  destruct (encode v); [done|lens].
Qed.

Lemma length_encoded vs : (length vs <= length (concat (map encode vs)))%nat.
Proof. apply length_concat_map. intros v Hv. pose proof (encode_pos v). by rewrite Hv in *. Qed.

Lemma readLine_line l u :
  Index l CRLF = None -> readLine (l ++ CRLF ++ u) = (l, len l + 2).
Proof.
  intros Hl. unfold readLine. change CRLF with (x0d :: [x0a]) in *.
  by rewrite Index_app, take_app_length by (done || set_solver).
Qed.

Lemma Index_cons_line b s : b <> x0d -> Index s CRLF = None -> Index (b :: s) CRLF = None.
Proof.
  intros Hb Hs. change CRLF with [x0d; x0a] in *. cbn [Index HasPrefix].
  by rewrite byte_eqb_neq, Hs by done.
Qed.

(** A line made of a type byte and a text, or a length. *)
Lemma readLine_typed b s u :
  b <> x0d -> Index s CRLF = None -> readLine (b :: s ++ CRLF ++ u) = (b :: s, len s + 3).
Proof.
  intros Hb Hs. etrans; [apply (readLine_line (b :: s) u), Index_cons_line; done|].
  f_equal. rewrite len_cons. lia.
Qed.

Lemma readLine_header b n t :
  b <> x0d -> 0 <= n ->
  readLine (b :: Itoa n ++ CRLF ++ t) = (b :: Itoa n, len (Itoa n) + 3).
Proof. intros Hb Hn. apply readLine_typed; [done|]. apply Index_no_head. by apply Itoa_no_byte. Qed.

Lemma len_encode_bulk a : len (encode_bulk a) = len (Itoa (len a)) + 3 + len a + 2.
Proof. unfold encode_bulk. rewrite len_cons, !len_app. change (len CRLF) with 2. lia. Qed.

Lemma readRESPValue_bulk fuel a u :
  len a <= 2 ^ 62 ->
  readRESPValue_fuel (S fuel) (encode_bulk a ++ u) = Ret (a, len (encode_bulk a)).
Proof.
  intros Ha. pose proof (len_nonneg a). pose proof (Itoa_short (len a) ltac:(done) Ha). pose proof (len_nonneg u).
  rewrite len_encode_bulk. set (n := len (Itoa (len a))) in *.
  assert (Hd : encode_bulk a ++ u = x24 :: Itoa (len a) ++ CRLF ++ a ++ CRLF ++ u).
  { unfold encode_bulk. cbn [app]. by rewrite <- !app_assoc. }
  assert (Hlen : len (encode_bulk a ++ u) = n + 3 + len a + 2 + len u).
  { by rewrite len_app, len_encode_bulk. }
  cbn [readRESPValue_fuel]. rewrite Hlen. replace (_ =? 0) with false by lia.
  rewrite Hd at 1. change (index (x24 :: ?l) 0) with (Ret x24). cbn [mbind outcome_bind].
  rewrite Hd at 1. rewrite readLine_header by done. fold n.
  change (existsb _ _) with false. change (Byte.eqb x24 respBulkString) with true. cbn match.
  replace (n + 3 <? 0) with false by lia. rewrite slice_from_ret by (rewrite len_cons; fold n; lia).
  change (drop (Z.to_nat 1) (x24 :: ?l)) with l. cbn [mbind outcome_bind].
  rewrite Atoi_Itoa by (unfold min_int64, max_int64; lia).
  replace (len a <? 0) with false by lia. cbv zeta.
  rewrite (int64_small (n + 3 + len a)) by (unfold min_int64, max_int64; lia).
  rewrite int64_small by (unfold min_int64, max_int64; lia).
  replace (_ <? n + 3 + len a + 2) with false by lia.
  rewrite slice_ret by lia. replace (n + 3 + len a - (n + 3)) with (len a) by lia.
  cbn [mbind outcome_bind]. f_equal. f_equal.
  replace (encode_bulk a ++ u) with ((x24 :: Itoa (len a) ++ CRLF) ++ a ++ CRLF ++ u)
    by (rewrite Hd; cbn [app]; by rewrite <- app_assoc).
  replace (Z.to_nat (n + 3)) with (length (x24 :: Itoa (len a) ++ CRLF))
    by (unfold n, len; rewrite length_cons, length_app; change (length CRLF) with 2%nat; lia).
  unfold len. by rewrite drop_app_length, Nat2Z.id, take_app_length.
Qed.

Lemma readRESPValue_line fuel b s u :
  b ∈ [respSimpleString; respError; respInteger] -> Index s CRLF = None ->
  readRESPValue_fuel (S fuel) ((b :: s ++ CRLF) ++ u) = Ret (s, len (b :: s ++ CRLF)).
Proof.
  intros Hb Hs. assert (Hx : b <> x0d) by set_solver. cbn [readRESPValue_fuel app].
  rewrite <- app_assoc. replace (len (b :: _) =? 0) with false by lens.
  change (index (b :: ?l) 0) with (Ret b). cbn [mbind outcome_bind].
  rewrite readLine_typed by done.
  replace (existsb _ _) with true by (symmetry; apply existsb_exists; exists b; split;
    [by apply list_elem_of_In|by apply byte_eqb_true]).
  replace (len s + 3 <? 0) with false by lens. rewrite slice_from_ret by lens.
  cbn [mbind outcome_bind]. do 2 f_equal. rewrite len_cons, len_app. change (len CRLF) with 2. lia.
Qed.

Lemma readRESPValue_null fuel u :
  readRESPValue_fuel (S fuel) (encode VNull ++ u) = Ret (str "(nil)", len (encode VNull)).
Proof.
  change (encode VNull ++ u) with (respBulkString :: str "-1" ++ CRLF ++ u). cbn [readRESPValue_fuel].
  rewrite readLine_typed by done. replace (len (respBulkString :: _) =? 0) with false by lens.
  change (index (respBulkString :: ?l) 0) with (Ret respBulkString). cbn [mbind outcome_bind].
  change (existsb _ _) with false. change (Byte.eqb respBulkString respBulkString) with true. cbn match.
  by rewrite slice_from_ret by lens.
Qed.

(** The loop over the elements of an array, for any reader of its elements. *)
Lemma elements_values read vs u :
  (forall v w, v ∈ vs -> read (encode v ++ w) = Ret (shown v, len (encode v))) ->
  for_loop (S (length (encode (VArray vs) ++ u))) (elements_step read (encode (VArray vs) ++ u) (len vs))
    (0, len (Itoa (len vs)) + 3, [])
  = Ret (Some (len (encode (VArray vs)), map shown vs)).
Proof.
  intros Hread. set (body := concat (map encode vs)). set (h := x2a :: Itoa (len vs) ++ CRLF).
  assert (Hd : encode (VArray vs) = h ++ body) by (unfold h; cbn [encode app]; by rewrite <- app_assoc).
  assert (Hh : len (Itoa (len vs)) + 3 = len h).
  { unfold h. rewrite len_cons, len_app. change (len CRLF) with 2. lia. }
  rewrite Hh, Hd, <- app_assoc, len_app.
  refine (elements_run read encode shown _ vs u _ _ 0 (len h) [] _ _ _).
  - intros v w Hv. split; [by apply Hread|apply encode_pos].
  - rewrite !length_app. pose proof (length_encoded vs). unfold body. lia.
  - rewrite len_app. pose proof (len_nonneg (body ++ u)). pose proof (len_nonneg h). lia.
  - unfold len. by rewrite Nat2Z.id, drop_app_length.
Qed.

(** The header of an array, up to the call of its loop. *)
Lemma array_header vs u :
  len vs <= 2 ^ 62 ->
  readLine (encode (VArray vs) ++ u) = (respArray :: Itoa (len vs), len (Itoa (len vs)) + 3) /\
  slice_from (respArray :: Itoa (len vs)) 1 = Ret (Itoa (len vs)) /\
  Atoi (Itoa (len vs)) = Some (len vs) /\
  (len (Itoa (len vs)) + 3 <? 0) = false /\ (len vs <? 0) = false.
Proof.
  intros Hn. pose proof (len_nonneg vs). pose proof (len_nonneg (Itoa (len vs))).
  repeat split; [| | |lia|lia].
  - cbn [encode app]. rewrite <- !app_assoc. by apply readLine_header.
  - by rewrite slice_from_ret by (rewrite len_cons; pose proof (len_nonneg (Itoa (len vs))); lia).
  - apply Atoi_Itoa. unfold min_int64, max_int64. lia.
Qed.

Lemma length_concat_elem {A B} (f : A -> list B) x l :
  x ∈ l -> (length (f x) <= length (concat (map f l)))%nat.
Proof.
  induction 1; cbn [map concat]; rewrite length_app; lia.
Qed.

(** Reading an encoded value gives its text and its length, whatever follows. *)
Lemma readRESPValue_encode fuel v u :
  value_ok v = true -> (length (encode v) <= fuel)%nat ->
  readRESPValue_fuel fuel (encode v ++ u) = Ret (shown v, len (encode v)).
Proof.
  revert v u. induction fuel as [|fuel IH]; intros v u Hok Hf.
  { pose proof (encode_pos v). unfold len in *. lia. }
  destruct v as [s|s|s|a| |line|vs]; cbn [value_ok] in Hok.
  1-3: apply readRESPValue_line; [set_solver|by apply bool_decide_eq_true in Hok].
  - apply readRESPValue_bulk. by apply Z.leb_le.
  - apply readRESPValue_null.
  - apply andb_true_iff in Hok as [Hl%bool_decide_eq_true Hb].
    cbn [readRESPValue_fuel encode shown]. rewrite <- app_assoc.
    replace (len (line ++ CRLF ++ u) =? 0) with false by (rewrite !len_app; change (len CRLF) with 2; lens).
    rewrite readLine_line by done. replace (len line + 2 <? 0) with false by lens.
    destruct line as [|b line]; [done|].
    change (index ((b :: line) ++ ?l) 0) with (Ret b). cbn [mbind outcome_bind].
    apply negb_true_iff in Hb. unfold type_bytes in Hb. cbn [existsb] in Hb |- *.
    rewrite !orb_false_iff in Hb. destruct Hb as (-> & -> & -> & -> & -> & _).
    by rewrite len_app.
  - apply andb_true_iff in Hok as [Hn Hvs]. destruct (array_header vs u ltac:(lia)) as (E1 & E2 & E3 & E4 & E5).
    cbn [readRESPValue_fuel]. pose proof (encode_pos (VArray vs)). pose proof (len_nonneg u).
    replace (len (encode (VArray vs) ++ u) =? 0) with false by (rewrite len_app; lia).
    change (index (encode (VArray vs) ++ u) 0) with (Ret respArray). cbn [mbind outcome_bind]. rewrite E1.
    change (existsb _ _) with false. change (Byte.eqb respArray respBulkString) with false.
    change (Byte.eqb respArray respArray) with true. cbn match. rewrite E4, E2. cbn [mbind outcome_bind].
    rewrite E3, E5, elements_values; [done|]. intros v w Hv. apply IH.
    + rewrite forallb_forall in Hvs. by apply Hvs, list_elem_of_In.
    + pose proof (length_concat_elem encode v vs Hv). cbn [encode length] in Hf. rewrite !length_app in Hf. lia.
Qed.

Lemma bulk_overflow_panics data :
  bulk_overflow data = true -> len data < 2 ^ 62 ->
  readRESPValue data = Panic SliceOutOfRange.
Proof.
  intros Hb Hlen. destruct data as [|b data]; [done|]. unfold bulk_overflow in Hb.
  destruct (readLine_spec (b :: data)) as [Hl|(i & Hl & Hi & Hix)]; rewrite Hl in Hb.
  { by rewrite andb_false_r in Hb. }
  apply andb_true_iff in Hb as [Hb Hov]. apply andb_true_iff in Hb as [Hb _].
  apply byte_eqb_true in Hb as ->. unfold readRESPValue. cbn [readRESPValue_fuel].
  replace (len (respBulkString :: data) =? 0) with false by lens.
  change (index (respBulkString :: data) 0) with (Ret respBulkString). cbn [mbind outcome_bind].
  rewrite Hl. change (existsb _ _) with false.
  change (Byte.eqb respBulkString respBulkString) with true. cbn match.
  replace (Z.of_nat i + 2 <? 0) with false by lia.
  pose proof (readLine_nonempty respBulkString data i ltac:(done) Hix) as Hi0.
  rewrite slice_from_ret by (rewrite len_take; unfold len; simpl length; lia).
  cbn [mbind outcome_bind]. change (Z.to_nat 1) with 1%nat.
  destruct (Atoi _) as [n|] eqn:En; [|done]. apply andb_true_iff in Hov as [Hn Hov].
  replace (n <? 0) with false by lia. cbv zeta.
  assert (Hnm : n <= max_int64) by (apply Atoi_range in En; lia).
  assert (Hil : Z.of_nat i + 2 <= len (respBulkString :: data)) by (unfold len; lia).
  assert (Hend : int64 (int64 (Z.of_nat i + 2 + n) + 2) < 0).
  { unfold int64, max_int64 in *. Z.div_mod_to_equations. lia. }
  replace (_ <? int64 _) with false by (pose proof (len_nonneg (respBulkString :: data)); lia).
  rewrite slice_panic; [done|]. intros [H1 H2].
  unfold int64, max_int64 in *. Z.div_mod_to_equations. lia.
Qed.

Section Theorems.
Context `{Unicode}.
Variables (p : Parser) (clk : clock) (meta : ConnMeta) (isFromClient : bool).

(** The statement of a command, cut at the configured length. *)
Definition statement (args : list bytes) : bytes :=
  let s := Join args (str " ") in
  if 0 <? maxQueryLength p then take (Z.to_nat (maxQueryLength p)) s else s.

Definition command_event (args : list bytes) (now : Z) : option ProtocolEvent :=
  match args with
  | [] => None
  | cmd :: _ =>
      Some (db_event now (side_dir isFromClient) meta (ToUpper cmd) (statement args) [])
  end.

(** The event of a value: none for the replies that are not errors. *)
Definition value_event (v : value) (now : Z) : option ProtocolEvent :=
  match v with
  | VArray vs => command_event (map shown vs) now
  | VError s => Some (db_event now DirectionResponse meta (str "ERR") [] s)
  | _ => None
  end.

(** A null array: the reply to a command that times out or is aborted. *)
Definition null_array : bytes := str "*-1" ++ CRLF.

Lemma redis_truncate_ret s :
  truncate p s = Ret (if 0 <? maxQueryLength p then take (Z.to_nat (maxQueryLength p)) s else s).
Proof.
  unfold truncate. destruct (0 <? maxQueryLength p) eqn:E; [|done]. cbn [andb].
  destruct (_ <? len s) eqn:E2; [apply slice_to_ret; lia|].
  rewrite take_ge; [done | unfold len in *; lia].
Qed.

(** The first byte of a value, and that it is not one that [decodeOne] tests. *)
Ltac not_command :=
  match goal with |- context [index (encode ?v ++ ?t) 0] =>
    let b := eval cbn in (default x00 (head (encode v))) in change (index (encode v ++ t) 0) with (Ret b) end;
  cbn [mbind outcome_bind];
  repeat match goal with |- context [Byte.eqb ?a ?b] => change (Byte.eqb a b) with false end; cbn match.

Lemma decodeOne_value v t now :
  value_ok v = true ->
  decodeOne p now (encode v ++ t) meta isFromClient = Ret (value_event v now, len (encode v)).
Proof.
  intros Hok. unfold decodeOne. pose proof (encode_pos v). pose proof (len_nonneg t).
  replace (len (encode v ++ t) =? 0) with false by (rewrite len_app; lia).
  assert (Hread : readRESPValue (encode v ++ t) = Ret (shown v, len (encode v))).
  { apply readRESPValue_encode; [done|]. rewrite length_app. lia. }
  destruct v as [s|s|s|a| |line|vs]; cbn [value_ok value_event] in *.
  1,3,4,5: by not_command; rewrite Hread.
  - change (index (encode (VError s) ++ t) 0) with (Ret respError). cbn [mbind outcome_bind].
    change (Byte.eqb respError respArray) with false. change (Byte.eqb respError respError) with true. cbn match.
    apply bool_decide_eq_true in Hok. unfold decodeError. cbn [encode app]. rewrite <- app_assoc.
    rewrite readLine_typed by done.
    replace (len s + 3 <? 0) with false by lens. rewrite slice_from_ret by lens.
    cbn [mbind outcome_bind]. do 2 f_equal. rewrite len_cons, len_app. change (len CRLF) with 2. lia.
  - destruct line as [|b line].
    { by not_command; rewrite Hread. }
    apply andb_true_iff in Hok as [_ Hb%negb_true_iff]. unfold type_bytes in Hb. cbn [existsb] in Hb.
    rewrite !orb_false_iff in Hb. destruct Hb as (Ha & _ & _ & He & _).
    change (index (encode (VInline (b :: line)) ++ t) 0) with (Ret b). cbn [mbind outcome_bind].
    by rewrite Ha, He, Hread.
  - apply andb_true_iff in Hok as [Hn Hvs]. destruct (array_header vs t ltac:(lia)) as (E1 & E2 & E3 & E4 & E5).
    change (index (encode (VArray vs) ++ t) 0) with (Ret respArray). cbn [mbind outcome_bind].
    change (Byte.eqb respArray respArray) with true. cbn match. unfold decodeArray. rewrite E1, E4, E2.
    cbn [mbind outcome_bind]. rewrite E3, E5, elements_values.
    + cbn [mbind outcome_bind]. unfold command_event, statement.
      destruct (map shown vs); [done|]. by rewrite redis_truncate_ret.
    + intros v w Hv. apply readRESPValue_encode; [|rewrite length_app; lia].
      rewrite forallb_forall in Hvs. by apply Hvs, list_elem_of_In.
Qed.

Lemma Parse_step_value v t events :
  value_ok v = true ->
  Parse_step p clk meta isFromClient (encode v ++ t, events) =
  Ret (inl (t, append_event clk (value_event v) events)).
Proof.
  intros Hok. unfold Parse_step. pose proof (len_nonneg t). pose proof (encode_pos v).
  rewrite len_app. replace (0 <? _) with true by lia. rewrite decodeOne_value by done.
  cbn [mbind outcome_bind]. replace (_ <=? 0) with false by lia.
  rewrite slice_from_ret by (rewrite len_app; lia). cbn [mbind outcome_bind].
  unfold len. rewrite Nat2Z.id, drop_app_length. unfold append_event.
  by destruct (value_event v _).
Qed.

Lemma Parse_step_stops t events :
  t = [] \/ HasPrefix t null_array = true ->
  Parse_step p clk meta isFromClient (t, events) = Ret (inr events).
Proof.
  intros [->|Ht]; [done|]. apply HasPrefix_spec in Ht as [rest ->]. unfold Parse_step.
  replace (0 <? len (null_array ++ rest)) with true by (rewrite len_app; change (len null_array) with 5; lens).
  unfold decodeOne. replace (len (null_array ++ rest) =? 0) with false
    by (rewrite len_app; change (len null_array) with 5; lens).
  change (index (null_array ++ rest) 0) with (Ret respArray). cbn [mbind outcome_bind].
  change (Byte.eqb respArray respArray) with true. cbn match. unfold decodeArray, null_array.
  rewrite <- app_assoc, readLine_line by done. done.
Qed.

(** The loop over encoded values, whatever follows them. *)
Lemma Parse_values_prefix vs t :
  forallb value_ok vs = true ->
  forall fuel events, for_loop (length vs + fuel) (Parse_step p clk meta isFromClient) (concat (map encode vs) ++ t, events) =
  for_loop fuel (Parse_step p clk meta isFromClient)
    (t, fold_left (fun evs v => append_event clk (value_event v) evs) vs events).
Proof.
  intros Hall. induction vs as [|v vs IH]; intros fuel events; [done|].
  cbn [forallb] in Hall. apply andb_true_iff in Hall as [Hok Hall]. cbn [length Nat.add]. rewrite for_loop_S.
  cbn [map concat fold_left]. rewrite <- app_assoc, Parse_step_value by done. cbn [mbind outcome_bind]. by apply IH.
Qed.

(** The fuel of [Parse] is enough for the values. *)
Lemma Parse_values_fuel vs t :
  exists fuel, S (length (concat (map encode vs) ++ t)) = (length vs + S fuel)%nat.
Proof.
  pose proof (length_encoded vs). exists (length (concat (map encode vs) ++ t) - length vs)%nat.
  rewrite length_app. lia.
Qed.

Lemma value_untimed v now : untimed <$> value_event v now = value_event v 0.
Proof. destruct v as [| | | | | |[|v vs]]; done. Qed.

Lemma fold_untimed vs events :
  untimed <$> fold_left (fun evs v => append_event clk (value_event v) evs) vs events =
  (untimed <$> events) ++ omap (fun v => value_event v 0) vs.
Proof.
  revert events. induction vs as [|v vs IH]; intros events; simpl; [by rewrite app_nil_r|].
  rewrite IH. unfold append_event. rewrite <- (value_untimed v (clk (length events))).
  destruct (value_event v (clk _)); simpl; [by rewrite fmap_app, <- app_assoc|done].
Qed.

Lemma Parse_values vs t :
  forallb value_ok vs = true -> t = [] \/ HasPrefix t null_array = true ->
  exists evs, Parse p clk (concat (map encode vs) ++ t) meta isFromClient = Ret (OkR evs)
    /\ untimed <$> evs = omap (fun v => value_event v 0) vs.
Proof.
  intros Hok Ht. unfold Parse. destruct (Parse_values_fuel vs t) as [fuel ->].
  rewrite Parse_values_prefix, for_loop_S, Parse_step_stops by done. cbn [mbind outcome_bind].
  eexists. split; [done|]. by rewrite fold_untimed.
Qed.

(** A step adds to the events, if anything. *)
Lemma Parse_step_prefix evs s :
  evs `prefix_of` untimed <$> snd s ->
  yields (Parse_step p clk meta isFromClient s) (fun x =>
    match x with inl s' => evs `prefix_of` untimed <$> snd s' | inr r => evs `prefix_of` untimed <$> r end).
Proof.
  destruct s as [data events]. intros Hp. unfold Parse_step. destruct (0 <? len data); [|done].
  apply yields_seq. intros [ev consumed]. destruct (consumed <=? 0); [done|]. apply yields_seq. intros data'.
  cbn [yields snd]. destruct ev; [|done]. rewrite fmap_app. by apply prefix_app_r.
Qed.

(** The events of the values a buffer starts with, whatever follows them, when
    the parser does not panic there. *)
Lemma Parse_prefix vs t :
  forallb value_ok vs = true ->
  yields (Parse p clk (concat (map encode vs) ++ t) meta isFromClient) (fun r =>
    exists evs, r = OkR evs /\ omap (fun v => value_event v 0) vs `prefix_of` untimed <$> evs).
Proof.
  intros Hok. unfold Parse. destruct (Parse_values_fuel vs t) as [fuel ->]. rewrite Parse_values_prefix by done.
  eapply yields_bind; [|intros evs Hevs; cbn; exists evs; split; [reflexivity|exact Hevs]].
  apply (yields_for_loop (fun s => omap (fun v => value_event v 0) vs `prefix_of` untimed <$> snd s)).
  - intros s. apply Parse_step_prefix.
  - cbn [snd]. rewrite fold_untimed. done.
Qed.

(** C39: RESP values, whatever their nesting and whatever bytes their bulk
    strings hold: each array gives the event of a command, with the upper-case
    first element as operation and the elements joined by spaces and cut at
    the configured length as statement; each error gives its message; the
    others give nothing. A null array ends the parse: what follows it in the
    buffer is lost. *)
Theorem redis_values_roundtrip vs t :
  forallb value_ok vs = true -> t = [] \/ HasPrefix t null_array = true ->
  exists evs, Parse p clk (concat (map encode vs) ++ t) meta isFromClient = Ret (OkR evs)
    /\ untimed <$> evs = omap (fun v => value_event v 0) vs.
Proof. apply Parse_values. Qed.

Lemma decodeOne_wp now data :
  no_overflow data ->
  wp (decodeOne p now data meta isFromClient) (fun r => 0 <= snd r <= len data).
Proof.
  intros Hno. pose proof (len_nonneg data). unfold decodeOne.
  destruct data as [|b data]; [done|]. replace (len (b :: data) =? 0) with false by lens.
  change (index (b :: data) 0) with (Ret b). cbn [mbind outcome_bind].
  assert (Hline : b <> x0d -> forall i, Index (b :: data) CRLF = Some i -> (i + 2 <= length (b :: data))%nat ->
            exists l, slice_from (take i (b :: data)) 1 = Ret l).
  { intros Hb i Hix Hi. pose proof (readLine_nonempty _ _ _ Hb Hix). eexists.
    apply slice_from_ret. rewrite len_take. unfold len. simpl length in *. lia. }
  destruct (Byte.eqb b respArray) eqn:Ea; [|destruct (Byte.eqb b respError) eqn:Ee].
  - apply byte_eqb_true in Ea as ->. unfold decodeArray.
    destruct (readLine_spec (respArray :: data)) as [Hl|(i & Hl & Hi & Hix)]; rewrite Hl.
    { done. }
    replace (Z.of_nat i + 2 <? 0) with false by lia.
    destruct (Hline ltac:(done) i Hix Hi) as [l ->]. cbn [mbind outcome_bind].
    destruct (Atoi l) as [n|]; [|simpl; lia]. destruct (n <? 0); [simpl; lia|].
    apply wp_bind. eapply wp_mono; [apply elements_wp|].
    + unfold len. lia.
    + intros k _. by apply readRESPValue_wp, no_overflow_drop.
    + intros [[cursor [|cmd args]]|]; simpl; [lia| |lia].
      rewrite redis_truncate_ret. simpl. lia.
  - apply byte_eqb_true in Ee as ->. unfold decodeError.
    destruct (readLine_spec (respError :: data)) as [Hl|(i & Hl & Hi & Hix)]; rewrite Hl.
    { done. }
    replace (Z.of_nat i + 2 <? 0) with false by lia.
    destruct (Hline ltac:(done) i Hix Hi) as [l ->]. simpl. unfold len. simpl length in *. lia.
  - apply wp_bind. eapply wp_mono; [by apply readRESPValue_wp|]. by intros [v n].
Qed.

Lemma Parse_no_overflow data :
  no_overflow data -> exists evs, Parse p clk data meta isFromClient = Ret (OkR evs).
Proof.
  intros Hno. unfold Parse.
  assert (Hw : wp (for_loop (S (length data)) (Parse_step p clk meta isFromClient) (data, []))
                  (fun _ => True)).
  { apply (wp_for_loop (fun '(d, _) => no_overflow d) (fun '(d, _) => length d)); [|done|lia].
    intros [d evs] Hd. unfold Parse_step. destruct (0 <? len d) eqn:El; [|done].
    apply wp_bind. eapply wp_mono; [by apply decodeOne_wp|]. intros [ev n]. simpl. intros Hn.
    destruct (n <=? 0) eqn:En; [done|]. apply wp_bind, wp_slice_from; [lia|]. simpl.
    split; [by apply no_overflow_drop|]. rewrite length_drop. unfold len in *. lia. }
  apply wp_returns in Hw as (evs & -> & _). by eexists.
Qed.

(** On input without a bulk-string header of overflowing length, every
    call of [Parse] returns, without a panic, a nil error. *)
Theorem redis_Parse_total data :
  no_overflow data -> exists evs, Parse p clk data meta isFromClient = Ret (OkR evs).
Proof. apply Parse_no_overflow. Qed.

Lemma Parse_bulk_overflow data :
  bulk_overflow data = true -> len data < 2 ^ 62 ->
  Parse p clk data meta isFromClient = Panic SliceOutOfRange.
Proof.
  intros Hb Hlen. unfold Parse. rewrite for_loop_S.
  assert (Hstep : Parse_step p clk meta isFromClient (data, []) = Panic SliceOutOfRange);
    [|by rewrite Hstep].
  pose proof (bulk_overflow_panics data Hb Hlen) as Hr.
  destruct data as [|b data]; [done|]. unfold Parse_step, decodeOne.
  replace (0 <? len (b :: data)) with true by lens.
  replace (len (b :: data) =? 0) with false by lens.
  change (index (b :: data) 0) with (Ret b). cbn [mbind outcome_bind].
  unfold bulk_overflow in Hb. destruct (readLine (b :: data)).
  destruct (Byte.eqb b respBulkString) eqn:Eb; [|done]. apply byte_eqb_true in Eb as ->.
  change (Byte.eqb respBulkString respArray) with false.
  change (Byte.eqb respBulkString respError) with false. cbn match. by rewrite Hr.
Qed.

(** A bulk-string header whose length makes the end position exceed the
    largest [int] gets past the check [end > len(data)], and the slice
    expression after it panics. *)
Theorem redis_bulk_length_panics data :
  bulk_overflow data = true -> len data < 2 ^ 62 ->
  Parse p clk data meta isFromClient = Panic SliceOutOfRange.
Proof. apply Parse_bulk_overflow. Qed.
End Theorems.

Lemma redis_values_roundtrip_witness :
  let vs := [command [str "set"; str "k"; CRLF ++ [x00]]; VSimple (str "OK"); VArray [];
             VArray [VBulk (str "mget"); VArray [VInteger (str "1"); VNull]]; VError (str "WRONGTYPE"); VInline (str "PING")] in
  let t := null_array ++ encode (VError (str "lost")) in
  let meta := {| m_SrcIP := []; m_DstIP := []; m_SrcPort := 1; m_DstPort := 6379; m_ConnID := 2 |} in
  exists evs,
    @Parse ascii_unicode (NewParser 0) (fun _ => 7) (concat (map encode vs) ++ t) meta true = Ret (OkR evs)
    /\ untimed <$> evs = omap (fun v => @value_event ascii_unicode (NewParser 0) meta true v 0) vs.
Proof.
  intros vs t meta.
  apply (@redis_values_roundtrip ascii_unicode (NewParser 0) (fun _ => 7) meta true vs t);
    [vm_compute; reflexivity|right; vm_compute; reflexivity].
Defined.

End Redis.
