(* ===== verification/Dns.v ===== *)
(** * The DNS parser ([internal/protocol/dns/parser.go])

    A message is a header, questions and answers; names are label sequences with
    compression pointers. [decodeName] follows pointers in a loop that only the
    set of visited targets bounds: its termination, the range of the offset it
    returns and its result on names whose pointers go backwards are proved for
    every packet. [Parse] panics on the packets with an NS, CNAME or PTR answer
    that it reaches ([name_answer], which can be computed) and on no others; the
    packets of a message ([message_at]), compressed or not, are read back. *)

From S2P Require Import Prelude.
From S2P Require Import GoStrings.
From S2P Require Import Event.

Module Dns.

Definition Name : bytes := str "dns".
Definition Ports : list Z := [53; 5353].

Definition Probe (data : bytes) (isFromClient : bool) : outcome Z :=
  if len data <? 12 then Ret 0 else
  q ← slice data 4 6; qdCount ← be16 q;
  if (qdCount =? 0) || (10 <? qdCount) then Ret 0 else
  b2 ← index data 2;
  let opcode := Z.land (Z.shiftr (u8 b2) 3) 0x0F in
  if 5 <? opcode then Ret 0 else Ret 80.

(** ** Names *)

Record name_state := {
  visited : gset Z;
  newOffset : Z;
  cur : Z;
  parts : list bytes;
}.

(** One iteration of the loop of [decodeName]. *)
Definition decodeName_step (data : bytes) (s : name_state)
    : outcome (name_state + result (bytes * Z)) :=
  let c := cur s in
  if len data <=? c then
    Ret (inr (ErrR (str "offset " ++ Itoa c ++ str " out of bounds")))
  else
  b ← index data c;
  let length := u8 b in
  if length =? 0 then
    let off := if newOffset s <? 0 then c + 1 else newOffset s in
    Ret (inr (OkR (Join (parts s) (str "."), off)))
  else if Z.land length 0xC0 =? 0xC0 then
    if len data <=? c + 1 then
      Ret (inr (ErrR (str "pointer truncated at " ++ Itoa c)))
    else
    w ← slice data c (c + 2); v ← be16 w;
    let ptr := Z.land v 0x3FFF in
    if bool_decide (ptr ∈ visited s) then
      Ret (inr (ErrR (str "compression loop at " ++ Itoa ptr)))
    else
    Ret (inl {| visited := {[ptr]} ∪ visited s;
                newOffset := if newOffset s <? 0 then c + 2 else newOffset s;
                cur := ptr; parts := parts s |})
  else
    let c := c + 1 in
    let end_ := c + length in
    if len data <? end_ then
      Ret (inr (ErrR (str "label extends past packet at " ++ Itoa c)))
    else
    p ← slice data c end_;
    Ret (inl {| visited := visited s; newOffset := newOffset s; cur := end_;
                parts := parts s ++ [p] |}).

(** Each offset is the target of at most one jump, and between two jumps the
    cursor only moves forward: (len + 2)^2 iterations are enough. *)
Definition decodeName (data : bytes) (offset : Z) : outcome (result (bytes * Z)) :=
  for_loop ((length data + 2) * (length data + 2)) (decodeName_step data)
    {| visited := ∅; newOffset := -1; cur := offset; parts := [] |}.

(** ** Types and classes *)

Definition rrTypeName (t : Z) : bytes :=
  match t with
  | 1 => str "A" | 2 => str "NS" | 5 => str "CNAME" | 6 => str "SOA" | 12 => str "PTR"
  | 15 => str "MX" | 16 => str "TXT" | 28 => str "AAAA" | 33 => str "SRV" | 65 => str "HTTPS"
  | _ => str "TYPE" ++ Itoa t
  end.

Definition rrClassName (c : Z) : bytes :=
  match c with
  | 1 => str "IN" | 3 => str "CH" | 255 => str "ANY"
  | _ => str "CLASS" ++ Itoa c
  end.

(** ** [net.IP.String] on addresses of 4 and 16 bytes *)

Definition ipv4_text (l : bytes) : bytes := Join (map (fun b => Itoa (u8 b)) l) (str ".").

(** A 16-bit group in hexadecimal without leading zeros. *)
Definition hex16_text (g : Z) : bytes :=
  let h := hex_encode (be_bytes 2 g) in
  let fix strip (n : nat) (s : bytes) :=
    match n, s with
    | S n', b :: s' => if Byte.eqb b x30 then strip n' s' else s
    | _, _ => s
    end in
  strip 3%nat h.

Fixpoint groups16 (l : bytes) : list Z :=
  match l with
  | a :: b :: l' => (256 * u8 a + u8 b) :: groups16 l'
  | _ => []
  end.

Fixpoint zero_run (gs : list Z) : nat :=
  match gs with
  | g :: gs' => if g =? 0 then S (zero_run gs') else O
  | [] => O
  end.

(** The start and end of the first longest run of at least two zero groups. *)
Definition best_zero_run (gs : list Z) : nat * nat :=
  fold_left (fun '(s, e) i =>
      let l := zero_run (drop i gs) in
      if (2 <=? l)%nat && (e - s <? l)%nat then (i, (i + l)%nat) else (s, e))
    (seq 0 (length gs)) (0%nat, 0%nat).

Definition ipv6_text (l : bytes) : bytes :=
  let gs := groups16 l in
  let '(s, e) := best_zero_run gs in
  let text gs := Join (map hex16_text gs) (str ":") in
  if (s =? e)%nat then text gs
  else text (take s gs) ++ str "::" ++ text (drop e gs).

(** An IPv4-mapped IPv6 address is printed as an IPv4 address. *)
Definition IP_String (l : bytes) : bytes :=
  if len l =? 4 then ipv4_text l
  else if bool_decide (take 12 l = repeat x00 10 ++ [xff; xff]) then ipv4_text (drop 12 l)
  else ipv6_text l.

(** ** Resource data *)

(** [rdata] is the part of the packet from [sub_off] on, [sub_len] bytes long.
    The code passes it on as a slice of the packet's array and recovers its
    position by comparing addresses: [&pkt[i] == &sub[0]] is [i = sub_off]. *)
Record subslice := { sub_off : Z; sub_len : Z }.

Definition sub_bytes (pkt : bytes) (r : subslice) : bytes :=
  take (Z.to_nat (sub_len r)) (drop (Z.to_nat (sub_off r)) pkt).

Definition findOffset_step (pkt : bytes) (sub : subslice) (i : Z) : outcome (Z + Z) :=
  if i + sub_len sub <=? len pkt then
    if i =? sub_off sub then Ret (inr i) else Ret (inl (i + 1))
  else Ret (inr (-1)).

Definition findOffset (pkt : bytes) (sub : subslice) : outcome Z :=
  if (sub_len sub =? 0) || (len pkt =? 0) then Ret (-1)
  else for_loop (S (S (length pkt))) (findOffset_step pkt sub) 0.

Definition txt_step (rdata : bytes) (s : Z * list bytes)
    : outcome (Z * list bytes + list bytes) :=
  let '(off, texts) := s in
  if off <? len rdata then
    b ← index rdata off;
    let tlen := u8 b in
    let off := off + 1 in
    if len rdata <? off + tlen then Ret (inr texts) else
    t ← slice rdata off (off + tlen);
    Ret (inl (off + tlen, texts ++ [t]))
  else Ret (inr texts).

Definition formatRData (rtype : Z) (sub : subslice) (pkt : bytes) : outcome bytes :=
  let rdata := sub_bytes pkt sub in
  if rtype =? 1 then
    Ret (if len rdata =? 4 then IP_String rdata else hex_encode rdata)
  else if rtype =? 28 then
    Ret (if len rdata =? 16 then IP_String rdata else hex_encode rdata)
  else if (rtype =? 5) || (rtype =? 2) || (rtype =? 12) then
    _ ← decodeName pkt (-1);
    if (0 <? len pkt) && (0 <? len rdata) then
      rdataStart ← findOffset pkt sub;
      if 0 <=? rdataStart then
        n ← decodeName pkt rdataStart;
        match n with
        | OkR (name, _) => Ret name
        | ErrR _ => Ret (hex_encode rdata)
        end
      else Ret (hex_encode rdata)
    else Ret (hex_encode rdata)
  else if rtype =? 15 then
    if 3 <=? len rdata then
      w ← slice rdata 0 2; pref ← be16 w;
      rdataStart ← findOffset pkt sub;
      if 0 <=? rdataStart then
        n ← decodeName pkt (rdataStart + 2);
        match n with
        | OkR (name, _) => Ret (Itoa pref ++ str " " ++ name)
        | ErrR _ => Ret (hex_encode rdata)
        end
      else Ret (hex_encode rdata)
    else Ret (hex_encode rdata)
  else if rtype =? 16 then
    if 0 <? len rdata then
      texts ← for_loop (S (length rdata)) (txt_step rdata) (0, []);
      Ret (Join texts (str " "))
    else Ret (hex_encode rdata)
  else Ret (hex_encode rdata).

(** ** Messages *)

(** A loop over a section: [(i, offset, items)]; an error ends [Parse]. *)
Definition questions_step (data : bytes) (qdCount : Z) (s : Z * Z * list DNSQuestion)
    : outcome (Z * Z * list DNSQuestion + result (Z * list DNSQuestion)) :=
  let '(i, offset, qs) := s in
  if i <? qdCount then
    r ← decodeName data offset;
    match r with
    | ErrR e => Ret (inr (ErrR (str "dns: question name: " ++ e)))
    | OkR (name, offset) =>
        if len data <? offset + 4 then Ret (inr (ErrR (str "dns: question truncated"))) else
        w ← slice data offset (offset + 2); qtype ← be16 w;
        w ← slice data (offset + 2) (offset + 4); qclass ← be16 w;
        Ret (inl (i + 1, offset + 4,
          qs ++ [{| q_Name := name; q_Type := rrTypeName qtype; q_Class := rrClassName qclass |}]))
    end
  else Ret (inr (OkR (offset, qs))).

Definition answers_step (data : bytes) (anCount : Z) (s : Z * Z * list DNSAnswer)
    : outcome (Z * Z * list DNSAnswer + result (list DNSAnswer)) :=
  let '(i, offset, ans) := s in
  if i <? anCount then
    r ← decodeName data offset;
    match r with
    | ErrR e => Ret (inr (ErrR (str "dns: answer name: " ++ e)))
    | OkR (name, offset) =>
        if len data <? offset + 10 then Ret (inr (ErrR (str "dns: answer truncated"))) else
        w ← slice data offset (offset + 2); rtype ← be16 w;
        w ← slice data (offset + 2) (offset + 4); rclass ← be16 w;
        w ← slice data (offset + 4) (offset + 8); ttl ← be32 w;
        w ← slice data (offset + 8) (offset + 10); rdLength ← be16 w;
        let offset := offset + 10 in
        if len data <? offset + rdLength then Ret (inr (ErrR (str "dns: rdata truncated"))) else
        _ ← slice data offset (offset + rdLength);
        text ← formatRData rtype {| sub_off := offset; sub_len := rdLength |} data;
        Ret (inl (i + 1, offset + rdLength,
          ans ++ [{| a_Name := name; a_Type := rrTypeName rtype; a_Class := rrClassName rclass;
                     a_TTL := ttl; a_Data := text |}]))
    end
  else Ret (inr (OkR ans)).

Definition header_dir (flags : Z) : Direction :=
  if Z.land flags 0x8000 =? 0 then DirectionRequest else DirectionResponse.

Definition message_event (now : Z) (meta : ConnMeta) (txID flags : Z)
    (qs : list DNSQuestion) (ans : list DNSAnswer) : ProtocolEvent :=
  set_DNS (fillMeta (NewEvent now Name (header_dir flags)) meta)
    {| dns_TransactionID := txID;
       dns_OpCode := Z.land (Z.shiftr flags 11) 0x0F;
       dns_ResponseCode := Z.land flags 0x0F;
       dns_Questions := qs; dns_Answers := ans |}.

Definition Parse (clk : clock) (data : bytes) (meta : ConnMeta) (isFromClient : bool)
    : outcome (result (list ProtocolEvent)) :=
  if len data <? 12 then
    Ret (ErrR (str "dns: packet too short (" ++ Itoa (len data) ++ str " bytes)"))
  else
  w ← slice data 0 2; txID ← be16 w;
  w ← slice data 2 4; flags ← be16 w;
  w ← slice data 4 6; qdCount ← be16 w;
  w ← slice data 6 8; anCount ← be16 w;
  q ← for_loop (S (Z.to_nat qdCount)) (questions_step data qdCount) (0, 12, []);
  match q with
  | ErrR e => Ret (ErrR e)
  | OkR (offset, qs) =>
      a ← for_loop (S (Z.to_nat anCount)) (answers_step data anCount) (0, offset, []);
      match a with
      | ErrR e => Ret (ErrR e)
      | OkR ans => Ret (OkR [message_event (clk 0%nat) meta txID flags qs ans])
      end
  end.

(** ** Termination and bounds of [decodeName] *)

(** The offsets of the packet that no jump has reached. *)
Definition unvisited (data : bytes) (v : gset Z) : nat :=
  size ((list_to_set (seqZ 0 (len data)) : gset Z) ∖ v).

Lemma unvisited_insert data v p :
  0 <= p < len data -> p ∉ v -> (unvisited data ({[p]} ∪ v) < unvisited data v)%nat.
Proof.
  intros Hp Hv. unfold unvisited. apply subset_size.
  assert (p ∈ (list_to_set (seqZ 0 (len data)) : gset Z)).
  { apply elem_of_list_to_set, elem_of_seqZ. lia. }
  set_solver.
Qed.

Lemma unvisited_mono data v p : (unvisited data ({[p]} ∪ v) <= unvisited data v)%nat.
Proof. unfold unvisited. apply subseteq_size. set_solver. Qed.

Lemma unvisited_le data : (unvisited data ∅ <= length data)%nat.
Proof.
  unfold unvisited. rewrite difference_empty_L.
  rewrite size_list_to_set by apply NoDup_seqZ. rewrite length_seqZ. unfold len. lia.
Qed.

(** Decreases with every iteration that continues. *)
Definition name_measure (data : bytes) (s : name_state) : nat :=
  unvisited data (visited s) * (length data + 2) + (S (length data) - Z.to_nat (cur s)).

(** The cursor is in range, and the offset to return is past the name. *)
Definition name_inv (data : bytes) (offset : Z) (s : name_state) : Prop :=
  0 <= cur s /\
  (newOffset s < 0 /\ offset <= cur s \/ offset < newOffset s <= len data).

Definition name_post (data : bytes) (offset : Z) (r : result (bytes * Z)) : Prop :=
  match r with OkR (_, off) => offset < off <= len data | ErrR _ => True end.

Lemma decodeName_step_wp data offset s :
  0 <= offset -> name_inv data offset s ->
  wp (decodeName_step data s) (fun x => match x with
    | inl s' => name_inv data offset s' /\ (name_measure data s' < name_measure data s)%nat
    | inr r => name_post data offset r
    end).
Proof.
  intros Hoff [Hc Hn]. unfold decodeName_step. cbv zeta.
  destruct (len data <=? cur s) eqn:E1; [done|]. go_step. go_step.
  pose proof (u8_range x). destruct (u8 x =? 0) eqn:E0.
  { simpl. destruct (newOffset s <? 0) eqn:En; lia. }
  destruct (_ =? 0xC0).
  - destruct (len data <=? cur s + 1) eqn:E2; [done|]. repeat go_step; [done|].
    set (ptr := Z.land _ 0x3FFF) in *.
    assert (0 <= ptr) by (apply Z.land_nonneg; right; done).
    apply bool_decide_eq_false in Heqb.
    split; [split; simpl; [done|destruct (newOffset s <? 0) eqn:?; lia]|].
    unfold name_measure. cbn [visited cur].
    destruct (decide (ptr < len data)) as [Hp|Hp].
    + pose proof (unvisited_insert data (visited s) ptr ltac:(done) Heqb). nia.
    + pose proof (unvisited_mono data (visited s) ptr). unfold len in *. nia.
  - destruct (len data <? _) eqn:E3; [done|]. repeat go_step.
    unfold name_inv, name_measure. simpl. split; [lia|]. unfold len in *. lia.
Qed.

Lemma decodeName_wp data offset :
  0 <= offset -> wp (decodeName data offset) (name_post data offset).
Proof.
  intros Hoff. unfold decodeName.
  apply (wp_for_loop (name_inv data offset) (name_measure data)).
  - intros s Hs. by apply decodeName_step_wp.
  - split; simpl; [done|lia].
  - unfold name_measure. cbn [visited cur]. pose proof (unvisited_le data). nia.
Qed.

(** C35: from every offset of every packet, [decodeName] terminates without a
    panic, whatever compression pointers it meets; when it succeeds, the new
    offset is after the old one and inside the packet. *)
Theorem dns_decodeName_total data offset :
  0 <= offset ->
  exists r, decodeName data offset = Ret r /\
    forall name off, r = OkR (name, off) -> offset < off <= len data.
Proof.
  intros Hoff. destruct (proj1 (wp_returns _ _) (decodeName_wp data offset Hoff)) as (r & Hr & Hp).
  exists r. split; [done|]. by intros name off ->.
Qed.

(** ** Names whose pointers go backwards *)

(** [name_at data start cur labels next]: the name read at [cur] is [labels],
    and [next] is the offset after it. Every pointer leads to an offset before
    [start], where the name part being read began; this is what RFC 1035 asks
    of a pointer: a prior occurrence. *)
Inductive name_at (data : bytes) : Z -> Z -> list bytes -> Z -> Prop :=
| name_end start cur :
    0 <= cur -> data !! Z.to_nat cur = Some x00 ->
    name_at data start cur [] (cur + 1)
| name_label start cur b labels next :
    0 <= cur -> data !! Z.to_nat cur = Some b ->
    0 < u8 b < 192 -> cur + 1 + u8 b <= len data ->
    name_at data start (cur + 1 + u8 b) labels next ->
    name_at data start cur
      (take (Z.to_nat (u8 b)) (drop (Z.to_nat (cur + 1)) data) :: labels) next
| name_pointer start cur b c labels next :
    0 <= cur -> data !! Z.to_nat cur = Some b -> data !! Z.to_nat (cur + 1) = Some c ->
    192 <= u8 b ->
    let target := (u8 b - 192) * 256 + u8 c in
    target < start ->
    name_at data target target labels next ->
    name_at data start cur labels (cur + 2).

Lemma land_C0 b : (Z.land (u8 b) 0xC0 =? 0xC0) = (192 <=? u8 b).
Proof. by destruct b. Qed.

Lemma land_3FFF b c : 192 <= u8 b -> Z.land (256 * u8 b + u8 c) 0x3FFF = (u8 b - 192) * 256 + u8 c.
Proof.
  intros Hb. pose proof (u8_range b). pose proof (u8_range c).
  change 0x3FFF with (Z.ones 14). rewrite Z.land_ones by lia. change (2 ^ 14) with 16384.
  Z.div_mod_to_equations. lia.
Qed.

Lemma drop_two {A} (l : list A) n a b :
  l !! n = Some a -> l !! S n = Some b -> drop n l = a :: b :: drop (S (S n)) l.
Proof. intros Ha Hb. by rewrite (drop_S _ a n Ha), (drop_S _ b (S n) Hb). Qed.

Lemma be16_pair data cur b c (f : Z -> outcome (name_state + result (bytes * Z))) :
  0 <= cur -> data !! Z.to_nat cur = Some b -> data !! Z.to_nat (cur + 1) = Some c ->
  (w ← slice data cur (cur + 2); v ← be16 w; f v) = f (256 * u8 b + u8 c).
Proof.
  intros Hc Hb Hd. replace (Z.to_nat (cur + 1)) with (S (Z.to_nat cur)) in Hd by lia.
  pose proof (lookup_lt_Some _ _ _ Hd) as Hl. unfold be16.
  rewrite (bind_slice_be 2) by (unfold len; lia). f_equal.
  rewrite (drop_two _ _ _ _ Hb Hd). change (u8 b * 256 ^ 1 + (u8 c * 256 ^ 0 + 0) = 256 * u8 b + u8 c). lia.
Qed.

(** The three kinds of iteration. *)
Section Steps.
Variables (data : bytes) (v : gset Z) (no c : Z) (ps : list bytes) (b : byte).
Hypotheses (Hc : 0 <= c) (Hb : data !! Z.to_nat c = Some b).

Let st := {| visited := v; newOffset := no; cur := c; parts := ps |}.

Ltac enter := unfold decodeName_step, st; cbn [cur newOffset parts visited]; cbv zeta;
  pose proof (lookup_lt_Some _ _ _ Hb);
  replace (len data <=? c) with false by (unfold len; lia);
  rewrite (index_ret _ _ _ Hc Hb); cbn [mbind outcome_bind].

Lemma step_end :
  b = x00 -> decodeName_step data st =
  Ret (inr (OkR (Join ps (str "."), if no <? 0 then c + 1 else no))).
Proof. enter. by intros ->. Qed.

Lemma step_label :
  0 < u8 b < 192 -> c + 1 + u8 b <= len data ->
  decodeName_step data st =
  Ret (inl {| visited := v; newOffset := no; cur := c + 1 + u8 b;
              parts := ps ++ [take (Z.to_nat (u8 b)) (drop (Z.to_nat (c + 1)) data)] |}).
Proof.
  intros Hr Hle. enter. replace (u8 b =? 0) with false by lia. rewrite land_C0.
  replace (192 <=? u8 b) with false by lia.
  replace (len data <? c + 1 + u8 b) with false by lia. rewrite slice_ret by lia.
  by replace (c + 1 + u8 b - (c + 1)) with (u8 b) by lia.
Qed.

Lemma step_pointer d :
  192 <= u8 b -> data !! Z.to_nat (c + 1) = Some d ->
  let target := (u8 b - 192) * 256 + u8 d in
  target ∉ v -> decodeName_step data st =
  Ret (inl {| visited := {[target]} ∪ v; newOffset := if no <? 0 then c + 2 else no;
              cur := target; parts := ps |}).
Proof.
  intros Hr Hd target Hnv. enter. pose proof (lookup_lt_Some _ _ _ Hd).
  replace (u8 b =? 0) with false by lia. rewrite land_C0.
  replace (192 <=? u8 b) with true by lia.
  replace (len data <=? c + 1) with false by (unfold len; lia).
  rewrite (be16_pair _ _ b d) by done. rewrite land_3FFF by done. fold target.
  by rewrite bool_decide_eq_false_2.
Qed.
End Steps.

(** The loop reads such a name: it appends the labels and returns. *)
Lemma decodeName_loop data start c labels next :
  name_at data start c labels next ->
  forall v no ps,
    (forall p, p ∈ v -> start <= p) ->
    exists n, for_loop n (decodeName_step data)
                {| visited := v; newOffset := no; cur := c; parts := ps |} =
              Ret (OkR (Join (ps ++ labels) (str "."), if no <? 0 then next else no)).
Proof.
  intros Hname. induction Hname as [start c H0 Hb | start c b labels next H0 Hb Hr Hle _ IH
    | start c b d labels next H0 Hb Hd Hr target Ht _ IH]; intros v no ps Hv.
  - exists 1%nat. cbn [for_loop]. rewrite (step_end _ _ _ _ _ x00) by done.
    cbn. by rewrite app_nil_r.
  - destruct (IH v no (ps ++ [take (Z.to_nat (u8 b)) (drop (Z.to_nat (c + 1)) data)]) Hv) as [n Hn].
    exists (S n). rewrite for_loop_S, (step_label _ _ _ _ _ b) by done.
    cbn [mbind outcome_bind]. by rewrite Hn, <- app_assoc.
  - assert (Hnv : target ∉ v) by (intros Hin; apply Hv in Hin; lia).
    destruct (IH ({[target]} ∪ v) (if no <? 0 then c + 2 else no) ps) as [n Hn].
    { intros p. rewrite elem_of_union, elem_of_singleton. intros [->|Hin]; [lia|].
      apply Hv in Hin. lia. }
    exists (S n). rewrite for_loop_S, (step_pointer _ _ _ _ _ b) with (d := d) by done.
    cbn [mbind outcome_bind]. fold target. rewrite Hn. do 3 f_equal.
    destruct (no <? 0) eqn:En; [|by rewrite En]. by replace (c + 2 <? 0) with false by lia.
Qed.

Lemma decodeName_backward data off labels next :
  0 <= off -> name_at data off off labels next ->
  decodeName data off = Ret (OkR (Join labels (str "."), next)).
Proof.
  intros Hoff Hname.
  destruct (decodeName_loop data off off labels next Hname ∅ (-1) []) as [n Hn]; [set_solver|].
  eapply for_loop_det; [exact Hn|]. pose proof (decodeName_wp data off Hoff) as Hw.
  unfold decodeName in Hw. intros E; by rewrite E in Hw.
Qed.

(** C34: [decodeName] decodes every compressed name whose pointers go backwards,
    as RFC 1035 requires, to its labels joined by dots and the offset after the
    name field. *)
Theorem dns_decodeName_backward data off labels next :
  0 <= off -> name_at data off off labels next ->
  decodeName data off = Ret (OkR (Join labels (str "."), next)).
Proof. apply decodeName_backward. Qed.

(** ** When [Parse] panics *)

(** [decodeName(pkt, -1)] indexes the packet at -1. *)
Lemma decodeName_negative data offset :
  offset < 0 -> decodeName data offset = Panic IndexOutOfRange.
Proof.
  intros Ho. unfold decodeName. pose proof (len_nonneg data).
  replace ((length data + 2) * (length data + 2))%nat
    with (S (length data * length data + 4 * length data + 3)) by lia.
  apply for_loop_panic. unfold decodeName_step. cbn [cur]. cbv zeta.
  replace (len data <=? offset) with false by lia. by rewrite index_panic by lia.
Qed.

Definition name_type (t : Z) : bool := (t =? 5) || (t =? 2) || (t =? 12).

Lemma formatRData_name rtype sub pkt :
  name_type rtype = true -> formatRData rtype sub pkt = Panic IndexOutOfRange.
Proof.
  unfold name_type. intros H. unfold formatRData. cbv zeta. rewrite H.
  replace (rtype =? 1) with false by lia. replace (rtype =? 28) with false by lia.
  by rewrite decodeName_negative.
Qed.

Lemma findOffset_ret pkt sub :
  0 < sub_len sub -> 0 <= sub_off sub -> sub_off sub + sub_len sub <= len pkt ->
  findOffset pkt sub = Ret (sub_off sub).
Proof.
  intros Hl Ho Hb. unfold findOffset. replace (_ || _) with false by lia.
  assert (Hloop : forall k fuel i, 0 <= i -> i + Z.of_nat k = sub_off sub -> (k < fuel)%nat ->
            for_loop fuel (findOffset_step pkt sub) i = Ret (sub_off sub)).
  { intros k. induction k as [|k IH]; intros fuel i Hi Hk Hf; (destruct fuel as [|fuel]; [lia|]).
    - apply for_loop_done. unfold findOffset_step. replace (i + _ <=? _) with true by lia.
      replace (i =? sub_off sub) with true by lia. do 2 f_equal. lia.
    - rewrite (for_loop_cont _ _ _ (i + 1)); [apply IH; lia|]. unfold findOffset_step.
      replace (i + _ <=? _) with true by lia. by replace (i =? sub_off sub) with false by lia. }
  apply (Hloop (Z.to_nat (sub_off sub))); unfold len in *; lia.
Qed.

Lemma txt_wp rdata :
  wp (for_loop (S (length rdata)) (txt_step rdata) (0, [])) (fun _ => True).
Proof.
  apply (wp_for_loop (fun '(off, _) => 0 <= off <= len rdata)
           (fun '(off, _) => (length rdata - Z.to_nat off)%nat)); [|lens|lia].
  intros [off texts] Ho. unfold txt_step. go_step; [|done]. go_step. go_step.
  pose proof (u8_range x). go; [done|]. split; [lia|]. lens.
Qed.

Lemma formatRData_wp rtype sub pkt :
  name_type rtype = false ->
  0 <= sub_len sub -> 0 <= sub_off sub -> sub_off sub + sub_len sub <= len pkt ->
  wp (formatRData rtype sub pkt) (fun _ => True).
Proof.
  unfold name_type. intros Ht Hl Ho Hb. unfold formatRData. cbv zeta. rewrite Ht.
  assert (Hlen : len (sub_bytes pkt sub) = sub_len sub).
  { unfold sub_bytes. rewrite len_take, len_drop. lia. }
  destruct (rtype =? 1); [done|]. destruct (rtype =? 28); [done|]. destruct (rtype =? 15).
  - destruct (3 <=? _) eqn:E3; [|done]. rewrite Hlen in E3. go_step. go_step. go_step. go_step.
    rewrite findOffset_ret by lia. cbn [mbind outcome_bind].
    replace (0 <=? sub_off sub) with true by lia. go_step.
    eapply wp_mono; [apply decodeName_wp; lia|]. by intros [[name off]|e].
  - destruct (rtype =? 16); [|done]. go_step; [|done]. go_step.
    eapply wp_mono; [apply txt_wp|done].
Qed.

(** One record of a section: what the step reads when the record is complete. *)
Definition field32 (data : bytes) (o : Z) : Z := be_uint (take 4 (drop (Z.to_nat o) data)).

Lemma questions_step_read data n i off qs name o :
  i < n -> decodeName data off = Ret (OkR (name, o)) -> 0 <= o -> o + 4 <= len data ->
  questions_step data n (i, off, qs) =
  Ret (inl (i + 1, o + 4,
    qs ++ [{| q_Name := name; q_Type := rrTypeName (field16 data o);
              q_Class := rrClassName (field16 data (o + 2)) |}])).
Proof.
  intros Hi Hd Ho Hl. unfold questions_step. replace (i <? n) with true by lia. rewrite Hd.
  cbn [mbind outcome_bind]. replace (len data <? o + 4) with false by lia.
  by rewrite !bind_slice_be16 by lia.
Qed.

Lemma answers_step_read data n i off ans name o :
  let l := field16 data (o + 8) in
  i < n -> decodeName data off = Ret (OkR (name, o)) -> 0 <= o -> o + 10 + l <= len data ->
  answers_step data n (i, off, ans) =
  (text ← formatRData (field16 data o) {| sub_off := o + 10; sub_len := l |} data;
   Ret (inl (i + 1, o + 10 + l,
     ans ++ [{| a_Name := name; a_Type := rrTypeName (field16 data o);
                a_Class := rrClassName (field16 data (o + 2)); a_TTL := field32 data (o + 4);
                a_Data := text |}]))).
Proof.
  intros l Hi Hd Ho Hl. assert (0 <= l < 65536) by apply field16_range.
  unfold answers_step. replace (i <? n) with true by lia. rewrite Hd.
  cbn [mbind outcome_bind]. replace (len data <? o + 10) with false by lia.
  rewrite !bind_slice_be16 by lia. unfold be32. rewrite (bind_slice_be 4) by lia.
  rewrite bind_slice_be16 by lia. fold l. cbv zeta.
  replace (len data <? o + 10 + l) with false by lia.
  by rewrite slice_ret by lia.
Qed.

(** The offset after the name field at [off]. *)
Definition after_name (data : bytes) (off : Z) : option Z :=
  match decodeName data off with Ret (OkR (_, o)) => Some o | _ => None end.

Lemma after_name_cases data off :
  0 <= off ->
  (exists name o, decodeName data off = Ret (OkR (name, o)) /\
     after_name data off = Some o /\ off < o <= len data) \/
  (exists e, decodeName data off = Ret (ErrR e) /\ after_name data off = None).
Proof.
  intros Ho. destruct (proj1 (wp_returns _ _) (decodeName_wp data off Ho)) as ([[name o]|e] & Hr & Hp);
    unfold after_name; rewrite Hr; [left|right]; eauto.
Qed.

(** The offset after [n] questions from [off] on, if they are complete. *)
Fixpoint skip_questions (data : bytes) (n : nat) (off : Z) : option Z :=
  match n with
  | O => Some off
  | S n =>
      match after_name data off with
      | Some o => if o + 4 <=? len data then skip_questions data n (o + 4) else None
      | None => None
      end
  end.

(** Among [n] answers from [off] on there is one whose data is a name, and
    that one and the ones before it are complete. *)
Fixpoint reaches_name (data : bytes) (n : nat) (off : Z) : bool :=
  match n with
  | O => false
  | S n =>
      match after_name data off with
      | Some o =>
          let next := o + 10 + field16 data (o + 8) in
          (o + 10 <=? len data) && (next <=? len data)
            && (name_type (field16 data o) || reaches_name data n next)
      | None => false
      end
  end.

(** [data] has complete questions and, after them, an NS, CNAME or PTR answer
    that no broken answer precedes. *)
Definition name_answer (data : bytes) : bool :=
  (12 <=? len data) &&
  match skip_questions data (Z.to_nat (field16 data 4)) 12 with
  | Some off => reaches_name data (Z.to_nat (field16 data 6)) off
  | None => false
  end.

Lemma questions_outcome data qd n :
  forall fuel i off qs,
    0 <= off <= len data -> i + Z.of_nat n = qd -> (n < fuel)%nat ->
    match skip_questions data n off with
    | Some o => 0 <= o <= len data /\
        exists qs', for_loop fuel (questions_step data qd) (i, off, qs) = Ret (OkR (o, qs'))
    | None => exists e, for_loop fuel (questions_step data qd) (i, off, qs) = Ret (ErrR e)
    end.
Proof.
  induction n as [|n IH]; intros fuel i off qs Ho Hi Hf; (destruct fuel as [|fuel]; [lia|]);
    cbn [skip_questions].
  - split; [done|]. exists qs. apply for_loop_done. unfold questions_step.
    by replace (i <? qd) with false by lia.
  - destruct (after_name_cases data off) as [(name & o & Hd & -> & Ho')|(e & Hd & ->)]; [lia| |].
    + destruct (o + 4 <=? len data) eqn:El.
      * rewrite (for_loop_cont _ _ _ _ (questions_step_read data qd i off qs name o
          ltac:(lia) Hd ltac:(lia) ltac:(lia))).
        apply IH; lia.
      * eexists. apply for_loop_done. unfold questions_step. replace (i <? qd) with true by lia.
        rewrite Hd. cbn [mbind outcome_bind]. by replace (len data <? o + 4) with true by lia.
    + eexists. apply for_loop_done. unfold questions_step. replace (i <? qd) with true by lia.
      by rewrite Hd.
Qed.

Lemma answers_outcome data an n :
  forall fuel i off ans,
    0 <= off <= len data -> i + Z.of_nat n = an -> (n < fuel)%nat ->
    if reaches_name data n off
    then for_loop fuel (answers_step data an) (i, off, ans) = Panic IndexOutOfRange
    else exists r, for_loop fuel (answers_step data an) (i, off, ans) = Ret r.
Proof.
  induction n as [|n IH]; intros fuel i off ans Ho Hi Hf; (destruct fuel as [|fuel]; [lia|]);
    cbn [reaches_name].
  { eexists. apply for_loop_done. unfold answers_step. by replace (i <? an) with false by lia. }
  destruct (after_name_cases data off) as [(name & o & Hd & -> & Ho')|(e & Hd & ->)]; [lia| |].
  2: { eexists. apply for_loop_done. unfold answers_step. replace (i <? an) with true by lia. by rewrite Hd. }
  pose proof (field16_range data (o + 8)) as Hl.
  destruct ((o + 10 <=? len data) && (_ <=? _)) eqn:El.
  - pose proof (answers_step_read data an i off ans name o ltac:(lia) Hd ltac:(lia) ltac:(lia)) as Hs.
    cbn [andb]. destruct (name_type (field16 data o)) eqn:En.
    + rewrite formatRData_name in Hs by done. by apply for_loop_panic.
    + cbn [orb]. destruct (proj1 (wp_returns _ _) (formatRData_wp (field16 data o)
        {| sub_off := o + 10; sub_len := field16 data (o + 8) |} data En
        ltac:(simpl; lia) ltac:(simpl; lia) ltac:(simpl; lia))) as (text & Ht & _).
      rewrite Ht in Hs. rewrite (for_loop_cont _ _ _ _ Hs). apply IH; lia.
  - enough (exists r, answers_step data an (i, off, ans) = Ret (inr r)) as [r Hr]
      by (exists r; by apply for_loop_done).
    unfold answers_step. replace (i <? an) with true by lia. rewrite Hd. cbn [mbind outcome_bind].
    destruct (len data <? o + 10) eqn:E10; [by eexists|].
    rewrite !bind_slice_be16 by lia. unfold be32. rewrite (bind_slice_be 4) by lia.
    rewrite bind_slice_be16 by lia. cbv zeta.
    replace (len data <? o + 10 + field16 data (o + 8)) with true by lia. by eexists.
Qed.

(** [Parse] panics on the messages with such an answer and on no others. *)
Lemma Parse_returns_iff clk data meta isFromClient :
  if name_answer data then Parse clk data meta isFromClient = Panic IndexOutOfRange
  else exists r, Parse clk data meta isFromClient = Ret r.
Proof.
  unfold name_answer, Parse. destruct (len data <? 12) eqn:E.
  { replace (12 <=? len data) with false by lia. by eexists. }
  replace (12 <=? len data) with true by lia. cbn [andb]. rewrite !bind_slice_be16 by lia.
  pose proof (field16_range data 4). pose proof (field16_range data 6).
  pose proof (questions_outcome data (field16 data 4) (Z.to_nat (field16 data 4))
    (S (Z.to_nat (field16 data 4))) 0 12 [] ltac:(lia) ltac:(lia) ltac:(lia)) as Hq.
  destruct (skip_questions _ _ _) as [off|]; [|destruct Hq as [e ->]; by eexists].
  destruct Hq as (Ho & qs & ->). cbn [mbind outcome_bind].
  pose proof (answers_outcome data (field16 data 6) (Z.to_nat (field16 data 6))
    (S (Z.to_nat (field16 data 6))) 0 off [] Ho ltac:(lia) ltac:(lia)) as Ha.
  destruct (reaches_name _ _ _); [by rewrite Ha|].
  destruct Ha as [[ans|e] ->]; by eexists.
Qed.

(** Every call of [Parse] terminates; it panics exactly on the messages whose
    questions are complete and that have an NS, CNAME or PTR answer which no
    broken answer precedes. *)
Theorem dns_Parse_outcome clk data meta isFromClient :
  if name_answer data then Parse clk data meta isFromClient = Panic IndexOutOfRange
  else exists r, Parse clk data meta isFromClient = Ret r.
Proof. apply Parse_returns_iff. Qed.

(** ** The encoder of messages *)

(** Length-prefixed strings: labels of a name, strings of a TXT record. *)
Definition prefixed (l : bytes) : bytes := byte_of (len l) :: l.

Definition encode_name (labels : list bytes) : bytes := concat (map prefixed labels) ++ [x00].

Definition label_ok (l : bytes) : Prop := 0 < len l < 64.

Record question := { qname : list bytes; qtype : Z; qclass : Z }.

Definition encode_question (q : question) : bytes :=
  encode_name (qname q) ++ be_bytes 2 (qtype q) ++ be_bytes 2 (qclass q).

Definition question_ok (q : question) : Prop :=
  Forall label_ok (qname q) /\ 0 <= qtype q < 65536 /\ 0 <= qclass q < 65536.

Definition question_detail (q : question) : DNSQuestion :=
  {| q_Name := Join (qname q) (str "."); q_Type := rrTypeName (qtype q);
     q_Class := rrClassName (qclass q) |}.

(** Resource data by type; [RD_name] is the data of an NS, CNAME or PTR record. *)
Inductive resource :=
| RD_A (ip : bytes)
| RD_AAAA (ip : bytes)
| RD_MX (pref : Z) (host : list bytes)
| RD_TXT (texts : list bytes)
| RD_name (type : Z) (host : list bytes)
| RD_other (type : Z) (raw : bytes).

Definition rd_type (r : resource) : Z :=
  match r with
  | RD_A _ => 1 | RD_AAAA _ => 28 | RD_MX _ _ => 15 | RD_TXT _ => 16
  | RD_name t _ => t | RD_other t _ => t
  end.

Definition rd_bytes (r : resource) : bytes :=
  match r with
  | RD_A ip => ip | RD_AAAA ip => ip
  | RD_MX pref host => be_bytes 2 pref ++ encode_name host
  | RD_TXT texts => concat (map prefixed texts)
  | RD_name _ host => encode_name host
  | RD_other _ raw => raw
  end.

(** The text of an event for such data. *)
Definition rd_text (r : resource) : bytes :=
  match r with
  | RD_A ip => ipv4_text ip
  | RD_AAAA ip => IP_String ip
  | RD_MX pref host => Itoa pref ++ str " " ++ Join host (str ".")
  | RD_TXT texts => Join texts (str " ")
  | RD_name _ host => Join host (str ".")
  | RD_other _ raw => hex_encode raw
  end.

Definition rd_ok (r : resource) : Prop :=
  len (rd_bytes r) < 65536 /\
  match r with
  | RD_A ip => len ip = 4
  | RD_AAAA ip => len ip = 16
  | RD_MX pref host => 0 <= pref < 65536 /\ Forall label_ok host
  | RD_TXT texts => Forall (fun t : bytes => len t < 256) texts
  | RD_name t host => name_type t = true /\ Forall label_ok host
  | RD_other t _ => 0 <= t < 65536 /\ t ∉ [1; 28; 5; 2; 12; 15; 16]
  end.

Definition is_name (r : resource) : bool := name_type (rd_type r).

Record answer := { aname : list bytes; aclass : Z; attl : Z; ares : resource }.

Definition encode_answer (a : answer) : bytes :=
  encode_name (aname a) ++ be_bytes 2 (rd_type (ares a)) ++ be_bytes 2 (aclass a)
  ++ be_bytes 4 (attl a) ++ be_bytes 2 (len (rd_bytes (ares a))) ++ rd_bytes (ares a).

Definition answer_ok (a : answer) : Prop :=
  Forall label_ok (aname a) /\ 0 <= aclass a < 65536 /\ 0 <= attl a < 2 ^ 32 /\ rd_ok (ares a).

Definition answer_detail (a : answer) : DNSAnswer :=
  {| a_Name := Join (aname a) (str "."); a_Type := rrTypeName (rd_type (ares a));
     a_Class := rrClassName (aclass a); a_TTL := attl a; a_Data := rd_text (ares a) |}.

(** A message; [rest] is its authority and additional sections. *)
Record message := {
  txid : Z; mflags : Z;
  questions : list question; answers : list answer;
  nscount : Z; arcount : Z; rest : bytes;
}.

Definition encode_message (m : message) : bytes :=
  be_bytes 2 (txid m) ++ be_bytes 2 (mflags m)
  ++ be_bytes 2 (len (questions m)) ++ be_bytes 2 (len (answers m))
  ++ be_bytes 2 (nscount m) ++ be_bytes 2 (arcount m)
  ++ concat (map encode_question (questions m))
  ++ concat (map encode_answer (answers m)) ++ rest m.

Definition message_ok (m : message) : Prop :=
  0 <= txid m < 65536 /\ 0 <= mflags m < 65536 /\
  len (questions m) < 65536 /\ len (answers m) < 65536 /\
  Forall question_ok (questions m) /\ Forall answer_ok (answers m).

(** ** Encoded names are read back *)

Lemma u8_prefix (l : bytes) : len l < 256 -> u8 (byte_of (len l)) = len l.
Proof. intros. apply u8_byte_of_small. split; [apply len_nonneg|done]. Qed.

Lemma lookup_at {A} (data pre post : list A) x o :
  data = pre ++ x :: post -> o = len pre -> data !! Z.to_nat o = Some x.
Proof. intros -> ->. unfold len. rewrite Nat2Z.id. by rewrite list_lookup_middle. Qed.

Lemma name_at_encoded data start labels pre post :
  Forall label_ok labels -> data = pre ++ encode_name labels ++ post ->
  name_at data start (len pre) labels (len pre + len (encode_name labels)).
Proof.
  intros Hl. revert pre. induction Hl as [|l labels Hl _ IH]; intros pre Hd.
  - apply name_end; [apply len_nonneg|]. eapply lookup_at; [exact Hd|done].
  - assert (Hb : data !! Z.to_nat (len pre) = Some (byte_of (len l))).
    { eapply lookup_at; [|done]. rewrite Hd. done. }
    assert (Hd' : data = (pre ++ prefixed l) ++ encode_name labels ++ post).
    { rewrite Hd. unfold encode_name. cbn [map concat]. by rewrite <- !app_assoc. }
    assert (Hu : u8 (byte_of (len l)) = len l) by (apply u8_prefix; unfold label_ok in *; lia).
    assert (Hlen : len (pre ++ prefixed l) = len pre + 1 + len l).
    { rewrite len_app. unfold prefixed. rewrite len_cons. lia. }
    specialize (IH _ Hd'). rewrite Hlen in IH.
    assert (Htake : take (Z.to_nat (len l)) (drop (Z.to_nat (len pre + 1)) data) = l).
    { rewrite Hd'. unfold prefixed. replace (pre ++ byte_of (len l) :: l) with ((pre ++ [byte_of (len l)]) ++ l)
        by (by rewrite <- app_assoc).
      rewrite <- app_assoc.
      replace (Z.to_nat (len pre + 1)) with (length (pre ++ [byte_of (len l)]))
        by (rewrite length_app; unfold len; simpl; lia).
      unfold len. by rewrite drop_app_length, Nat2Z.id, take_app_length. }
    rewrite <- Htake at 1.
    replace (len pre + len (encode_name (l :: labels)))
      with (len pre + 1 + len l + len (encode_name labels))
      by (unfold encode_name; cbn [map concat]; unfold prefixed; rewrite !len_app, !len_cons; lia).
    pose proof (name_label data start (len pre) (byte_of (len l)) labels
      (len pre + 1 + len l + len (encode_name labels)) (len_nonneg pre) Hb) as Hn.
    rewrite Hu in Hn. apply Hn; [unfold label_ok in Hl; lia| |done].
    rewrite Hd', len_app, Hlen. pose proof (len_nonneg (encode_name labels ++ post)). lia.
Qed.

(** ** Messages in a packet *)

(** The records of a section lie one after the other. *)
Inductive records_at {A} (R : Z -> A -> Z -> Prop) : Z -> list A -> Z -> Prop :=
| records_end off : records_at R off [] off
| records_next off x mid xs next :
    R off x mid -> records_at R mid xs next -> records_at R off (x :: xs) next.

(** The question that begins at [off] and ends before [next]. *)
Definition question_at (data : bytes) (off : Z) (q : question) (next : Z) : Prop :=
  exists o, name_at data off off (qname q) o /\ next = o + 4 /\ next <= len data /\
    field16 data o = qtype q /\ field16 data (o + 2) = qclass q.

(** The [l] bytes at [o] are this resource data. The host of an MX record and
    the name of an NS, CNAME or PTR record may be compressed. *)
Definition resource_at (data : bytes) (o l : Z) (r : resource) : Prop :=
  let raw := sub_bytes data {| sub_off := o; sub_len := l |} in
  match r with
  | RD_A ip => l = 4 /\ ip = raw
  | RD_AAAA ip => l = 16 /\ ip = raw
  | RD_MX pref host => field16 data o = pref /\ name_at data (o + 2) (o + 2) host (o + l)
  | RD_TXT texts => Forall (fun t : bytes => len t < 256) texts /\ raw = concat (map prefixed texts)
  | RD_name t host => name_type t = true /\ name_at data o o host (o + l)
  | RD_other t d => (t ∉ [1; 28; 5; 2; 12; 15; 16]) /\ d = raw
  end.

Definition answer_at (data : bytes) (off : Z) (a : answer) (next : Z) : Prop :=
  exists o, name_at data off off (aname a) o /\
    field16 data o = rd_type (ares a) /\ field16 data (o + 2) = aclass a /\
    field32 data (o + 4) = attl a /\
    next = o + 10 + field16 data (o + 8) /\ next <= len data /\
    resource_at data (o + 10) (field16 data (o + 8)) (ares a).

(** [data] is the message [m] as RFC 1035 lays it out: its header, and its
    questions and answers, whose names may be compressed, every pointer leading
    backwards. What follows the answers is left open: the authority and
    additional sections and their counts. *)
Definition message_at (data : bytes) (m : message) : Prop :=
  12 <= len data /\ field16 data 0 = txid m /\ field16 data 2 = mflags m /\
  field16 data 4 = len (questions m) /\ field16 data 6 = len (answers m) /\
  exists mid next, records_at (question_at data) 12 (questions m) mid /\
    records_at (answer_at data) mid (answers m) next.

Lemma name_at_next data start c labels next : name_at data start c labels next -> c < next.
Proof. induction 1; lia. Qed.

Lemma name_at_nonneg data start c labels next : name_at data start c labels next -> 0 <= c.
Proof. by destruct 1. Qed.

(** ** Questions, resource data and answers are read *)

Lemma questions_read data n off qs next :
  records_at (question_at data) off qs next ->
  forall fuel i acc, i + len qs = n -> (length qs < fuel)%nat ->
    for_loop fuel (questions_step data n) (i, off, acc) =
    Ret (OkR (next, acc ++ map question_detail qs)).
Proof.
  induction 1 as [off|off q mid qs next (o & Hn & -> & Hle & Ht & Hc) _ IH]; intros fuel i acc Hi Hf;
    (destruct fuel as [|fuel]; [lia|]).
  - apply for_loop_done. unfold questions_step. rewrite len_nil in Hi.
    replace (i <? n) with false by lia. cbn [map]. by rewrite app_nil_r.
  - rewrite len_cons in Hi. pose proof (len_nonneg qs).
    pose proof (name_at_nonneg _ _ _ _ _ Hn). pose proof (name_at_next _ _ _ _ _ Hn).
    rewrite (for_loop_cont _ _ _ _ (questions_step_read data n i off acc _ o ltac:(lia)
      (decodeName_backward data off _ o ltac:(done) Hn) ltac:(lia) Hle)).
    rewrite IH by (simpl in Hf; lia). rewrite Ht, Hc. cbn [map]. by rewrite <- app_assoc.
Qed.

Lemma txt_encoded (texts : list bytes) :
  Forall (fun t : bytes => len t < 256) texts ->
  forall rdata pre fuel acc,
    rdata = pre ++ concat (map prefixed texts) -> (length texts < fuel)%nat ->
    for_loop fuel (txt_step rdata) (len pre, acc) = Ret (acc ++ texts).
Proof.
  intros Ht. induction Ht as [|t texts Ht _ IH]; intros rdata pre fuel acc Hr Hf;
    (destruct fuel as [|fuel]; [simpl in Hf; lia|]).
  - apply for_loop_done. unfold txt_step. cbn [map concat] in Hr. rewrite app_nil_r in Hr. subst.
    rewrite Z.ltb_irrefl. by rewrite app_nil_r.
  - cbn [map concat] in Hr.
    assert (Hr' : rdata = (pre ++ prefixed t) ++ concat (map prefixed texts)).
    { rewrite Hr. by rewrite <- !app_assoc. }
    assert (Hlen : len (pre ++ prefixed t) = len pre + 1 + len t).
    { rewrite len_app. unfold prefixed. rewrite len_cons. lia. }
    rewrite (for_loop_cont _ _ _ (len (pre ++ prefixed t), acc ++ [t])).
    + rewrite (IH _ _ fuel _ Hr') by (simpl in Hf; lia). by rewrite <- app_assoc.
    + unfold txt_step. pose proof (len_nonneg (concat (map prefixed texts))). pose proof (len_nonneg t).
      assert (Hlr : len rdata = len pre + 1 + len t + len (concat (map prefixed texts)))
        by (rewrite Hr', len_app, Hlen; lia).
      replace (len pre <? len rdata) with true by lia.
      rewrite (index_ret _ _ (byte_of (len t))) by (apply len_nonneg || (eapply lookup_at; [exact Hr|done])).
      cbn [mbind outcome_bind]. rewrite u8_prefix by done. cbv zeta.
      replace (len rdata <? _) with false by lia.
      rewrite (slice_field rdata (pre ++ [byte_of (len t)]) t (concat (map prefixed texts)));
        [by rewrite Hlen | by rewrite Hr', <- !app_assoc | by rewrite len_app | done].
Qed.

Lemma formatRData_at data o l r :
  0 <= o -> 0 <= l -> o + l <= len data -> resource_at data o l r -> is_name r = false ->
  formatRData (rd_type r) {| sub_off := o; sub_len := l |} data = Ret (rd_text r).
Proof.
  intros Ho Hl Hle Hr Hn. unfold resource_at in Hr. cbv zeta in Hr.
  set (raw := sub_bytes data _) in Hr.
  assert (Hraw : len raw = l) by (unfold raw, sub_bytes; cbn [sub_off sub_len]; rewrite len_take, len_drop; lia).
  unfold formatRData. fold raw. cbv zeta.
  destruct r as [ip|ip|pref host|texts|t host|t d]; cbn [rd_type rd_text] in *; cbn [Z.eqb Pos.eqb orb].
  - destruct Hr as [-> ->]. rewrite Hraw. unfold IP_String. by rewrite Hraw.
  - destruct Hr as [-> ->]. by rewrite Hraw.
  - destruct Hr as [<- Hh]. pose proof (name_at_next _ _ _ _ _ Hh).
    rewrite Hraw. replace (3 <=? l) with true by lia. rewrite bind_slice_be16 by lia.
    rewrite findOffset_ret by (cbn [sub_len sub_off]; lia). cbn [mbind outcome_bind sub_off].
    replace (0 <=? o) with true by lia. rewrite (decodeName_backward data (o + 2) host (o + l)) by (done || lia).
    cbn [mbind outcome_bind]. do 2 f_equal. f_equal. unfold field16, raw, sub_bytes.
    cbn [sub_off sub_len]. rewrite drop_0, take_take. do 2 f_equal. lia.
  - destruct Hr as [Ht Hr]. destruct (0 <? len raw) eqn:E.
    + rewrite (txt_encoded texts Ht raw [] _ [] Hr); [done|]. rewrite Hr.
      pose proof (length_concat_map prefixed texts ltac:(done)). lia.
    + assert (raw = []) as E0 by (apply nil_length_inv; unfold len in *; lia).
      rewrite E0 in *. destruct texts; done.
  - unfold is_name in Hn. cbn [rd_type] in Hn. destruct Hr as [Hr _]. congruence.
  - destruct Hr as [Ht ->]. rewrite !not_elem_of_cons in Ht. destruct Ht as (? & ? & ? & ? & ? & ? & ? & _).
    replace (t =? 1) with false by lia. replace (t =? 28) with false by lia.
    replace (_ || _) with false by lia. replace (t =? 15) with false by lia.
    by replace (t =? 16) with false by lia.
Qed.

(** The answers: their event details, or the panic. *)
Lemma answers_read data n off ans next :
  records_at (answer_at data) off ans next ->
  forall fuel i acc, i + len ans = n -> (length ans < fuel)%nat ->
    for_loop fuel (answers_step data n) (i, off, acc) =
    if existsb (fun a => is_name (ares a)) ans then Panic IndexOutOfRange
    else Ret (OkR (acc ++ map answer_detail ans)).
Proof.
  induction 1 as [off|off a mid ans next (o & Hn & Hty & Hc & Httl & -> & Hle & Hr) _ IH];
    intros fuel i acc Hi Hf; (destruct fuel as [|fuel]; [lia|]).
  { apply for_loop_done. unfold answers_step. rewrite len_nil in Hi.
    replace (i <? n) with false by lia. cbn. by rewrite app_nil_r. }
  rewrite len_cons in Hi. pose proof (len_nonneg ans). pose proof (field16_range data (o + 8)).
  pose proof (name_at_nonneg _ _ _ _ _ Hn). pose proof (name_at_next _ _ _ _ _ Hn).
  pose proof (answers_step_read data n i off acc _ o ltac:(lia)
    (decodeName_backward data off _ o ltac:(done) Hn) ltac:(lia) Hle) as Hs.
  rewrite Hty, Hc, Httl in Hs. cbn [existsb]. destruct (is_name (ares a)) eqn:En; cbn [orb].
  - rewrite formatRData_name in Hs by exact En. by apply for_loop_panic.
  - rewrite formatRData_at in Hs by (done || lia).
    rewrite (for_loop_cont _ _ _ _ Hs), IH by (simpl in Hf; lia). cbn [map]. by rewrite <- app_assoc.
Qed.

Lemma Parse_message clk data m meta isFromClient :
  message_at data m ->
  Parse clk data meta isFromClient =
  if existsb (fun a => is_name (ares a)) (answers m) then Panic IndexOutOfRange
  else Ret (OkR [message_event (clk 0%nat) meta (txid m) (mflags m)
                   (map question_detail (questions m)) (map answer_detail (answers m))]).
Proof.
  intros (Hl & Htx & Hfl & Hnq & Hna & mid & next & Hq & Ha). unfold Parse.
  replace (len data <? 12) with false by lia. rewrite !bind_slice_be16 by lia. rewrite Htx, Hfl, Hnq, Hna.
  rewrite (questions_read data _ 12 _ mid Hq) by (unfold len; lia). cbn [mbind outcome_bind].
  rewrite (answers_read data _ mid _ next Ha) by (unfold len; lia). by destruct (existsb _ _).
Qed.

Lemma Parse_no_names clk data m meta isFromClient :
  message_at data m -> Forall (fun a => is_name (ares a) = false) (answers m) ->
  Parse clk data meta isFromClient =
  Ret (OkR [message_event (clk 0%nat) meta (txid m) (mflags m)
              (map question_detail (questions m)) (map answer_detail (answers m))]).
Proof.
  intros Hm Hn. rewrite (Parse_message _ _ m) by done.
  replace (existsb _ _) with false; [done|]. symmetry. clear Hm.
  induction Hn as [|a ans Ha _ IH]; [done|]. cbn [existsb]. by rewrite Ha.
Qed.

(** C36: a packet that holds a well-formed message with no NS, CNAME or PTR
    answer gives one event that carries the message's id, opcode, response
    code, questions and answers, with the text of A, AAAA, MX and TXT data.
    Any of its names may be compressed with pointers that lead backwards, as
    RFC 1035 has them, and authority and additional sections may follow. *)
Theorem dns_Parse_roundtrip clk data m meta isFromClient :
  message_at data m -> Forall (fun a => is_name (ares a) = false) (answers m) ->
  Parse clk data meta isFromClient =
  Ret (OkR [message_event (clk 0%nat) meta (txid m) (mflags m)
              (map question_detail (questions m)) (map answer_detail (answers m))]).
Proof. apply Parse_no_names. Qed.

(** ** Encoded messages are such packets *)

Lemma question_encoded data pre q post :
  question_ok q -> data = pre ++ encode_question q ++ post ->
  question_at data (len pre) q (len (pre ++ encode_question q)).
Proof.
  intros (Hn & Ht & Hc) Hd. unfold encode_question in *. set (nm := encode_name (qname q)) in *.
  assert (Hlen : len (pre ++ nm ++ be_bytes 2 (qtype q) ++ be_bytes 2 (qclass q)) = len pre + len nm + 4)
    by (rewrite !len_app, !len_be_bytes; lia).
  rewrite <- !app_assoc in Hd. pose proof (len_nonneg post).
  exists (len pre + len nm). repeat split.
  - eapply name_at_encoded; [done|]. exact Hd.
  - exact Hlen.
  - rewrite Hd, Hlen, !len_app, !len_be_bytes. lia.
  - apply (be_uint_field 2 _ (pre ++ nm) _ (be_bytes 2 (qclass q) ++ post)); [done| |by rewrite len_app].
    by rewrite Hd, <- !app_assoc.
  - apply (be_uint_field 2 _ (pre ++ nm ++ be_bytes 2 (qtype q)) _ post); [done| |].
    + by rewrite Hd, <- !app_assoc.
    + rewrite !len_app, len_be_bytes. lia.
Qed.

Lemma resource_encoded data pre r post :
  rd_ok r -> data = pre ++ rd_bytes r ++ post -> resource_at data (len pre) (len (rd_bytes r)) r.
Proof.
  intros [Hlen Hr] Hd.
  assert (Hb : sub_bytes data {| sub_off := len pre; sub_len := len (rd_bytes r) |} = rd_bytes r).
  { unfold sub_bytes. cbn [sub_off sub_len]. rewrite Hd. unfold len.
    by rewrite !Nat2Z.id, drop_app_length, take_app_length. }
  unfold resource_at. rewrite Hb. destruct r; cbn [rd_bytes] in *; try done.
  - destruct Hr as [Hp Hh]. split.
    + by apply (be_uint_field 2 _ pre _ (encode_name host ++ post)); [|rewrite Hd, <- !app_assoc|].
    + replace (len pre + 2) with (len (pre ++ be_bytes 2 pref)) by (by rewrite len_app, len_be_bytes).
      replace (len pre + _) with (len (pre ++ be_bytes 2 pref) + len (encode_name host))
        by (rewrite !len_app, !len_be_bytes; lia).
      apply (name_at_encoded _ _ _ _ post); [done|]. by rewrite Hd, <- !app_assoc.
  - destruct Hr as [Ht Hh]. split; [done|]. by apply (name_at_encoded _ _ _ _ post).
  - split; [by destruct Hr|done].
Qed.

Lemma answer_encoded data pre a post :
  answer_ok a -> data = pre ++ encode_answer a ++ post ->
  answer_at data (len pre) a (len (pre ++ encode_answer a)).
Proof.
  intros (Hn & Hc & Httl & Hr) Hd. pose proof (proj1 Hr) as Hrl.
  assert (Ht : 0 <= rd_type (ares a) < 65536).
  { destruct Hr as [_ Hr]. destruct (ares a); cbn; try lia. unfold name_type in Hr. lia. }
  pose proof (len_nonneg (rd_bytes (ares a))). pose proof (len_nonneg post).
  unfold encode_answer in *. set (nm := encode_name (aname a)) in *. set (ty := rd_type (ares a)) in *.
  set (rd := rd_bytes (ares a)) in *. rewrite <- !app_assoc in Hd.
  assert (Hl : field16 data (len pre + len nm + 8) = len rd).
  { apply (be_uint_field 2 _ (pre ++ nm ++ be_bytes 2 ty ++ be_bytes 2 (aclass a) ++ be_bytes 4 (attl a)) _ (rd ++ post));
      [lia|by rewrite Hd, <- !app_assoc|rewrite !len_app, !len_be_bytes; lia]. }
  exists (len pre + len nm). rewrite Hl. repeat split.
  - eapply name_at_encoded; [done|]. exact Hd.
  - apply (be_uint_field 2 _ (pre ++ nm) _ (be_bytes 2 (aclass a) ++ be_bytes 4 (attl a) ++ be_bytes 2 (len rd) ++ rd ++ post));
      [done|by rewrite Hd, <- !app_assoc|by rewrite len_app].
  - apply (be_uint_field 2 _ (pre ++ nm ++ be_bytes 2 ty) _ (be_bytes 4 (attl a) ++ be_bytes 2 (len rd) ++ rd ++ post));
      [done|by rewrite Hd, <- !app_assoc|rewrite !len_app, !len_be_bytes; lia].
  - apply (be_uint_field 4 _ (pre ++ nm ++ be_bytes 2 ty ++ be_bytes 2 (aclass a)) _ (be_bytes 2 (len rd) ++ rd ++ post));
      [done|by rewrite Hd, <- !app_assoc|rewrite !len_app, !len_be_bytes; lia].
  - rewrite !len_app, !len_be_bytes. lia.
  - rewrite Hd, !len_app, !len_be_bytes. lia.
  - replace (len pre + len nm + 10) with (len (pre ++ nm ++ be_bytes 2 ty ++ be_bytes 2 (aclass a) ++ be_bytes 4 (attl a) ++ be_bytes 2 (len rd)))
      by (rewrite !len_app, !len_be_bytes; lia).
    apply (resource_encoded _ _ _ post); [done|]. by rewrite Hd, <- !app_assoc.
Qed.

Lemma records_encoded {A} (R : Z -> A -> Z -> Prop) (enc : A -> bytes) (ok : A -> Prop) data xs post :
  (forall pre x post, ok x -> data = pre ++ enc x ++ post -> R (len pre) x (len (pre ++ enc x))) ->
  Forall ok xs -> forall pre, data = pre ++ concat (map enc xs) ++ post ->
  records_at R (len pre) xs (len (pre ++ concat (map enc xs))).
Proof.
  intros HR Hok. induction Hok as [|x xs Hx _ IH]; intros pre Hd; cbn [map concat] in *.
  - rewrite app_nil_r. constructor.
  - rewrite <- app_assoc in Hd. apply (records_next _ _ _ (len (pre ++ enc x))); [by eapply HR|].
    rewrite app_assoc. apply IH. by rewrite Hd, <- app_assoc.
Qed.

Lemma message_encoded m : message_ok m -> message_at (encode_message m) m.
Proof.
  intros (Htx & Hfl & Hnq & Hna & Hq & Ha). pose proof (len_nonneg (questions m)). pose proof (len_nonneg (answers m)).
  set (hdr := be_bytes 2 (txid m) ++ be_bytes 2 (mflags m) ++ be_bytes 2 (len (questions m))
    ++ be_bytes 2 (len (answers m)) ++ be_bytes 2 (nscount m) ++ be_bytes 2 (arcount m)).
  set (qb := concat (map encode_question (questions m))). set (ab := concat (map encode_answer (answers m))).
  assert (Hd : encode_message m = hdr ++ qb ++ ab ++ rest m)
    by (unfold encode_message, hdr; by rewrite <- !app_assoc).
  assert (Hh : len hdr = 12) by (unfold hdr; by rewrite !len_app, !len_be_bytes).
  assert (Hf : forall pre z post o, hdr = pre ++ be_bytes 2 z ++ post -> 0 <= z < 65536 -> o = len pre ->
    field16 (encode_message m) o = z).
  { intros pre z post o E Hz ->. apply (be_uint_field 2 _ pre _ (post ++ qb ++ ab ++ rest m)); [done| |done].
    by rewrite Hd, E, <- !app_assoc. }
  repeat split.
  - rewrite Hd, len_app. pose proof (len_nonneg (qb ++ ab ++ rest m)). lia.
  - by apply (Hf [] _ _ 0 eq_refl).
  - by apply (Hf (be_bytes 2 (txid m)) _ _ 2 eq_refl).
  - apply (Hf (be_bytes 2 (txid m) ++ be_bytes 2 (mflags m)) _ (be_bytes 2 (len (answers m)) ++ be_bytes 2 (nscount m)
      ++ be_bytes 2 (arcount m))); [done|lia|done].
  - apply (Hf (be_bytes 2 (txid m) ++ be_bytes 2 (mflags m) ++ be_bytes 2 (len (questions m))) _
      (be_bytes 2 (nscount m) ++ be_bytes 2 (arcount m))); [done|lia|done].
  - exists (len (hdr ++ qb)), (len ((hdr ++ qb) ++ ab)). split.
    + rewrite <- Hh. apply (records_encoded _ encode_question question_ok (encode_message m) _ (ab ++ rest m)); [|done|done].
      intros. by eapply question_encoded.
    + apply (records_encoded _ encode_answer answer_ok (encode_message m) _ (rest m)); [|done|by rewrite Hd, <- !app_assoc].
      intros. by eapply answer_encoded.
Qed.

Lemma Parse_name_answer clk m meta isFromClient :
  message_ok m -> Exists (fun a => is_name (ares a) = true) (answers m) ->
  Parse clk (encode_message m) meta isFromClient = Panic IndexOutOfRange.
Proof.
  intros Hm Hn. rewrite (Parse_message _ _ m) by (by apply message_encoded).
  replace (existsb _ _) with true; [done|]. symmetry. clear Hm.
  induction Hn as [a ans Ha|a ans _ IH]; cbn [existsb]; [by rewrite Ha|]. by rewrite IH, orb_true_r.
Qed.

(** A well-formed message with an NS, CNAME or PTR answer makes [Parse]
    panic: [formatRData] first calls [decodeName(pkt, -1)], which indexes the
    packet at -1. *)
Theorem dns_name_answer_panics clk m meta isFromClient :
  message_ok m -> Exists (fun a => is_name (ares a) = true) (answers m) ->
  Parse clk (encode_message m) meta isFromClient = Panic IndexOutOfRange.
Proof.
  apply Parse_name_answer.
Qed.
(** ** Concrete messages *)

(** "a.b", then "c" and a pointer to "b". *)
Definition sample_names : bytes := [x01; x61; x01; x62; x00; x01; x63; xc0; x02].

Lemma sample_backward : name_at sample_names 5 5 [str "c"; str "b"] 9.
Proof.
  apply (name_label sample_names 5 5 x01 [str "b"] 9); try done.
  apply (name_pointer sample_names 5 7 xc0 x02 [str "b"] 5); try done.
  apply (name_label sample_names 2 2 x01 [] 5); try done.
  by apply (name_end sample_names 2 4).
Defined.

Lemma dns_decodeName_backward_witness : decodeName sample_names 5 = Ret (OkR (str "c.b", 9)).
Proof.
  apply (dns_decodeName_backward sample_names 5 [str "c"; str "b"] 9); [done|apply sample_backward].
Defined.

(** A pointer to itself: an error, not a loop. *)
Lemma dns_decodeName_total_witness :
  exists r, decodeName [xc0; x00] 0 = Ret r /\
    forall name off, r = OkR (name, off) -> 0 < off <= 2.
Proof. apply (dns_decodeName_total [xc0; x00] 0). done. Defined.

Definition sample_message (r : resource) : message :=
  {| txid := 4660; mflags := 0x8180;
     questions := [{| qname := [str "example"; str "com"]; qtype := 15; qclass := 1 |}];
     answers := [{| aname := [str "example"; str "com"]; aclass := 1; attl := 300; ares := r |};
                 {| aname := []; aclass := 1; attl := 5; ares := RD_A [x7f; x00; x00; x01] |}];
     nscount := 0; arcount := 0; rest := [] |}.

(** A response as servers send it: the answers' names are pointers to the
    question's (offset 12) and the host of the MX record ends with one. *)
Definition compressed_message : message :=
  {| txid := 4660; mflags := 0x8180;
     questions := [{| qname := [str "example"; str "com"]; qtype := 15; qclass := 1 |}];
     answers := [{| aname := [str "example"; str "com"]; aclass := 1; attl := 300;
                    ares := RD_MX 10 [str "mail"; str "example"; str "com"] |};
                 {| aname := [str "com"]; aclass := 1; attl := 5; ares := RD_A [x7f; x00; x00; x01] |}];
     nscount := 0; arcount := 1; rest := [] |}.

Definition compressed_packet : bytes :=
  be_bytes 2 4660 ++ be_bytes 2 0x8180 ++ be_bytes 2 1 ++ be_bytes 2 2 ++ be_bytes 2 0 ++ be_bytes 2 1
  ++ encode_name [str "example"; str "com"] ++ be_bytes 2 15 ++ be_bytes 2 1
  ++ [xc0; x0c] ++ be_bytes 2 15 ++ be_bytes 2 1 ++ be_bytes 4 300
  ++ be_bytes 2 9 ++ be_bytes 2 10 ++ prefixed (str "mail") ++ [xc0; x0c]
  ++ [xc0; x14] ++ be_bytes 2 1 ++ be_bytes 2 1 ++ be_bytes 4 5 ++ be_bytes 2 4 ++ [x7f; x00; x00; x01]
  ++ [x00; x00; x29].

Lemma compressed_at : message_at compressed_packet compressed_message.
Proof.
  set (data := compressed_packet).
  assert (Hcom : forall s, name_at data s 20 [str "com"] 25).
  { intros s. apply (name_label data s 20 x03 [] 25); try done. by apply (name_end data s 24). }
  assert (Hname : forall s, name_at data s 12 [str "example"; str "com"] 25).
  { intros s. by apply (name_label data s 12 x07 [str "com"] 25). }
  repeat split; try done. exists 29, 66. split.
  - apply (records_next _ _ _ 29); [|constructor]. exists 25. split; [apply Hname|]. repeat split; done.
  - apply (records_next _ _ _ 50).
    + exists 31. split; [by apply (name_pointer data 29 29 xc0 x0c _ 25)|]. repeat split; try done.
      apply (name_label data 43 43 x04 _ 50); try done. by apply (name_pointer data 43 48 xc0 x0c _ 25).
    + apply (records_next _ _ _ 66); [|constructor].
      exists 52. split; [by apply (name_pointer data 50 50 xc0 x14 _ 25)|]. repeat split; done.
Qed.

Lemma dns_Parse_roundtrip_witness :
  let meta := {| m_SrcIP := []; m_DstIP := []; m_SrcPort := 53; m_DstPort := 4000; m_ConnID := 0 |} in
  Parse (fun _ => 7) compressed_packet meta true =
  Ret (OkR [message_event 7 meta 4660 0x8180
    [{| q_Name := str "example.com"; q_Type := str "MX"; q_Class := str "IN" |}]
    [{| a_Name := str "example.com"; a_Type := str "MX"; a_Class := str "IN"; a_TTL := 300;
        a_Data := str "10 mail.example.com" |};
     {| a_Name := str "com"; a_Type := str "A"; a_Class := str "IN"; a_TTL := 5; a_Data := str "127.0.0.1" |}]]).
Proof.
  intros meta. etransitivity.
  - apply (dns_Parse_roundtrip (fun _ => 7) _ compressed_message meta true).
    + exact compressed_at.
    + unfold compressed_message. ground.
  - vm_compute. reflexivity.
Defined.
End Dns.
