(* ===== verification/Md5.v ===== *)
(** * MD5 ([crypto/md5], RFC 1321)

    The standard-library hash the TLS parser applies to a JA3 string, written
    as the reference algorithm on 32-bit words and checked on the test suite of
    the RFC. *)

From S2P Require Import Prelude.
From S2P Require Import GoStrings.

Module Md5.

Definition md5_s : list Z :=
  [7; 12; 17; 22; 7; 12; 17; 22; 7; 12; 17; 22; 7; 12; 17; 22;
   5; 9; 14; 20; 5; 9; 14; 20; 5; 9; 14; 20; 5; 9; 14; 20;
   4; 11; 16; 23; 4; 11; 16; 23; 4; 11; 16; 23; 4; 11; 16; 23;
   6; 10; 15; 21; 6; 10; 15; 21; 6; 10; 15; 21; 6; 10; 15; 21].

Definition md5_K : list Z :=
  [0xd76aa478; 0xe8c7b756; 0x242070db; 0xc1bdceee; 0xf57c0faf; 0x4787c62a;
   0xa8304613; 0xfd469501; 0x698098d8; 0x8b44f7af; 0xffff5bb1; 0x895cd7be;
   0x6b901122; 0xfd987193; 0xa679438e; 0x49b40821; 0xf61e2562; 0xc040b340;
   0x265e5a51; 0xe9b6c7aa; 0xd62f105d; 0x2441453; 0xd8a1e681; 0xe7d3fbc8;
   0x21e1cde6; 0xc33707d6; 0xf4d50d87; 0x455a14ed; 0xa9e3e905; 0xfcefa3f8;
   0x676f02d9; 0x8d2a4c8a; 0xfffa3942; 0x8771f681; 0x6d9d6122; 0xfde5380c;
   0xa4beea44; 0x4bdecfa9; 0xf6bb4b60; 0xbebfbc70; 0x289b7ec6; 0xeaa127fa;
   0xd4ef3085; 0x4881d05; 0xd9d4d039; 0xe6db99e5; 0x1fa27cf8; 0xc4ac5665;
   0xf4292244; 0x432aff97; 0xab9423a7; 0xfc93a039; 0x655b59c3; 0x8f0ccc92;
   0xffeff47d; 0x85845dd1; 0x6fa87e4f; 0xfe2ce6e0; 0xa3014314; 0x4e0811a1;
   0xf7537e82; 0xbd3af235; 0x2ad7d2bb; 0xeb86d391].

Definition rotl32 (x n : Z) : Z :=
  Z.lor (uint32 (Z.shiftl x n)) (Z.shiftr x (32 - n)).

Definition not32 (x : Z) : Z := 2 ^ 32 - 1 - x.

Definition md5_state : Type := Z * Z * Z * Z.

(** The step of round [i] on a block of 16 words. *)
Definition md5_step (block : list Z) (st : md5_state) (i : nat) : md5_state :=
  let '(a, b, c, d) := st in
  let '(f, g) :=
    if (i <? 16)%nat then (Z.lor (Z.land b c) (Z.land (not32 b) d), i)
    else if (i <? 32)%nat then (Z.lor (Z.land d b) (Z.land (not32 d) c), (5 * i + 1) mod 16)%nat
    else if (i <? 48)%nat then (Z.lxor b (Z.lxor c d), (3 * i + 5) mod 16)%nat
    else (Z.lxor c (Z.lor b (not32 d)), (7 * i) mod 16)%nat in
  let f' := uint32 (f + a + nth i md5_K 0 + nth g block 0) in
  (d, uint32 (b + rotl32 f' (nth i md5_s 0)), b, c).

Definition md5_block (st : md5_state) (block : list Z) : md5_state :=
  let '(a, b, c, d) := st in
  let '(a', b', c', d') := fold_left (md5_step block) (seq 0 64) st in
  (uint32 (a + a'), uint32 (b + b'), uint32 (c + c'), uint32 (d + d')).

(** The 32-bit little-endian words of a byte string. *)
Fixpoint words32 (fuel : nat) (l : bytes) : list Z :=
  match fuel with
  | O => []
  | S n => match l with [] => [] | _ => le_uint (take 4 l) :: words32 n (drop 4 l) end
  end.

Fixpoint blocks (fuel : nat) (ws : list Z) (st : md5_state) : md5_state :=
  match fuel with
  | O => st
  | S n => match ws with [] => st | _ => blocks n (drop 16 ws) (md5_block st (take 16 ws)) end
  end.

(** A 1 bit, zeros up to 56 modulo 64 bytes, and the length in bits. *)
Definition md5_pad (l : bytes) : bytes :=
  l ++ [x80] ++ repeat x00 (Z.to_nat ((55 - len l) mod 64)) ++ le_bytes 8 (uint64 (8 * len l)).

(** [md5.Sum] *)
Definition Sum (l : bytes) : bytes :=
  let p := md5_pad l in
  let '(a, b, c, d) := blocks (length p) (words32 (length p) p)
    (0x67452301, 0xefcdab89, 0x98badcfe, 0x10325476) in
  le_bytes 4 a ++ le_bytes 4 b ++ le_bytes 4 c ++ le_bytes 4 d.

(** The RFC's test suite (some of it). *)
Lemma Sum_empty : hex_encode (Sum []) = str "d41d8cd98f00b204e9800998ecf8427e".
Proof. vm_compute. reflexivity. Qed.

Lemma Sum_abc : hex_encode (Sum (str "abc")) = str "900150983cd24fb0d6963f7d28e17f72".
Proof. vm_compute. reflexivity. Qed.

Lemma Sum_two_blocks :
  hex_encode (Sum (str "12345678901234567890123456789012345678901234567890123456789012345678901234567890"))
  = str "57edf4a22be3c955ac49da2e2107b67a".
Proof. vm_compute. reflexivity. Qed.

(** A digest has 16 bytes. *)
Lemma length_Sum l : length (Sum l) = 16%nat.
Proof.
  unfold Sum. destruct (blocks _ _ _) as [[[a b] c] d].
  by rewrite !length_app, !length_le_bytes.
Qed.
End Md5.
