(* ===== verification/Tls.v ===== *)
(** * The TLS parser ([internal/protocol/tls/parser.go])

    ClientHello records and their JA3 fingerprint. One slice expression of the
    code is checked by Go against the capacity of the slice, not its length, and
    the outcome of a call depends on it: a slice is here its bytes and the bytes
    [spare] that its array holds after them, up to the capacity. *)

From S2P Require Import Prelude.
From S2P Require Import GoStrings.
From S2P Require Import Event.
From S2P Require Import Md5.

Module Tls.

Definition Name : bytes := str "tls".
Definition Ports : list Z := [443; 8443; 993; 995; 465; 636].

Definition Probe (data : bytes) (isFromClient : bool) : outcome Z :=
  if (len data <? 6) && (3 <=? len data) then
    b0 ← index data 0; b1 ← index data 1;
    Ret (if (u8 b0 =? 0x16) && (u8 b1 =? 0x03) then 60 else 0)
  else if len data <? 6 then Ret 0 else
  b0 ← index data 0; b1 ← index data 1;
  Ret (if (u8 b0 =? 0x16) && (u8 b1 =? 0x03) then 85 else 0).

(** ** Extensions *)

Definition parseSNI (data : bytes) : outcome bytes :=
  if len data <? 5 then Ret [] else
  nameType ← index data 2;
  if negb (u8 nameType =? 0) then Ret [] else
  w ← slice data 3 5; nameLen ← be16 w;
  if len data <? 5 + nameLen then Ret [] else slice data 5 (5 + nameLen).

Definition alpn_step (data : bytes) (end_ : Z) (s : Z * list bytes)
    : outcome (Z * list bytes + list bytes) :=
  let '(off, protocols) := s in
  if off <? end_ then
    b ← index data off;
    let pLen := u8 b in
    let off := off + 1 in
    if end_ <? off + pLen then Ret (inr protocols) else
    p ← slice data off (off + pLen);
    Ret (inl (off + pLen, protocols ++ [p]))
  else Ret (inr protocols).

Definition parseALPN (data : bytes) : outcome (list bytes) :=
  if len data <? 2 then Ret [] else
  w ← slice data 0 2; listLen ← be16 w;
  let end_ := if len data <? 2 + listLen then len data else 2 + listLen in
  for_loop (S (length data)) (alpn_step data end_) (2, []).

Definition u16_step (data : bytes) (end_ : Z) (s : Z * list Z) : outcome (Z * list Z + list Z) :=
  let '(off, out) := s in
  if off + 2 <=? end_ then
    w ← slice data off (off + 2); v ← be16 w;
    Ret (inl (off + 2, out ++ [v]))
  else Ret (inr out).

Definition parseU16List (data : bytes) : outcome (list Z) :=
  if len data <? 2 then Ret [] else
  w ← slice data 0 2; listLen ← be16 w;
  let end_ := if len data <? 2 + listLen then len data else 2 + listLen in
  for_loop (S (length data)) (u16_step data end_) (2, []).

Definition u8_step (data : bytes) (end_ : Z) (s : Z * list Z) : outcome (Z * list Z + list Z) :=
  let '(off, out) := s in
  if off <? end_ then
    b ← index data off; Ret (inl (off + 1, out ++ [u8 b]))
  else Ret (inr out).

Definition parseU8List (data : bytes) : outcome (list Z) :=
  if len data <? 1 then Ret [] else
  b ← index data 0;
  let listLen := u8 b in
  let end_ := if len data <? 1 + listLen then len data else 1 + listLen in
  for_loop (S (length data)) (u8_step data end_) (1, []).

(** ** The JA3 fingerprint *)

Definition isGREASE (v : Z) : bool :=
  (Z.land v 0x0F0F =? 0x0A0A) && (Z.shiftr v 8 =? Z.land v 0xFF).

Definition filterGREASE (vals : list Z) : list Z :=
  List.filter (fun v => negb (isGREASE v)) vals.

Definition joinU16 (vals : list Z) : bytes := Join (map Itoa vals) (str "-").
Definition joinU8 (vals : list Z) : bytes := Join (map Itoa vals) (str "-").

Definition buildJA3 (version : Z) (ciphers extensions curves pointFmts : list Z) : bytes :=
  Itoa version ++ str ","
  ++ joinU16 (filterGREASE ciphers) ++ str ","
  ++ joinU16 (filterGREASE extensions) ++ str ","
  ++ joinU16 (filterGREASE curves) ++ str ","
  ++ joinU8 pointFmts.

Definition versionString (major minor : byte) : bytes :=
  if (u8 major =? 3) && (u8 minor =? 3) then str "TLS 1.2"
  else if (u8 major =? 3) && (u8 minor =? 1) then str "TLS 1.0"
  else if (u8 major =? 3) && (u8 minor =? 2) then str "TLS 1.1"
  else if (u8 major =? 3) && (u8 minor =? 4) then str "TLS 1.3"
  else if (u8 major =? 3) && (u8 minor =? 0) then str "SSL 3.0"
  else str "TLS 0x" ++ hex_byte major ++ hex_byte minor.

(** ** ClientHello *)

(** What the loop over the extensions collects. *)
Record extensions := {
  sni : bytes;
  alpn : list bytes;
  extTypes : list Z;
  ellipticCurves : list Z;
  ecPointFmts : list Z;
}.

Definition no_extensions : extensions :=
  {| sni := []; alpn := []; extTypes := []; ellipticCurves := []; ecPointFmts := [] |}.

(** The [switch] on the type of an extension. *)
Definition read_extension (extType : Z) (extData : bytes) (x : extensions) : outcome extensions :=
  let types := extTypes x ++ [extType] in
  if extType =? 0x0000 then
    s ← parseSNI extData;
    Ret {| sni := s; alpn := alpn x; extTypes := types;
           ellipticCurves := ellipticCurves x; ecPointFmts := ecPointFmts x |}
  else if extType =? 0x0010 then
    l ← parseALPN extData;
    Ret {| sni := sni x; alpn := l; extTypes := types;
           ellipticCurves := ellipticCurves x; ecPointFmts := ecPointFmts x |}
  else if extType =? 0x000A then
    l ← parseU16List extData;
    Ret {| sni := sni x; alpn := alpn x; extTypes := types;
           ellipticCurves := l; ecPointFmts := ecPointFmts x |}
  else if extType =? 0x000B then
    l ← parseU8List extData;
    Ret {| sni := sni x; alpn := alpn x; extTypes := types;
           ellipticCurves := ellipticCurves x; ecPointFmts := l |}
  else
    Ret {| sni := sni x; alpn := alpn x; extTypes := types;
           ellipticCurves := ellipticCurves x; ecPointFmts := ecPointFmts x |}.

Definition extensions_step (hs : bytes) (extEnd : Z) (s : Z * extensions)
    : outcome (Z * extensions + extensions) :=
  let '(off, x) := s in
  if off + 4 <=? extEnd then
    w ← slice hs off (off + 2); extType ← be16 w;
    w ← slice hs (off + 2) (off + 4); extLen ← be16 w;
    let off := off + 4 in
    d ← slice_from hs off;
    extData ← (if extLen <? len d then slice_to d extLen else Ret d);
    x ← read_extension extType extData x;
    Ret (inl (off + extLen, x))
  else Ret (inr x).

(** The extensions block, when there is one. *)
Definition parse_extensions (hs : bytes) (off : Z) : outcome extensions :=
  if off + 2 <=? len hs then
    w ← slice hs off (off + 2); extTotalLen ← be16 w;
    let off := off + 2 in
    let extEnd := if len hs <? off + extTotalLen then len hs else off + extTotalLen in
    for_loop (S (length hs)) (extensions_step hs extEnd) (off, no_extensions)
  else Ret no_extensions.

(** The loop over the cipher suites. Its slice [hs[off+i:off+i+2]] may reach one
    byte past [hs]. *)
Definition ciphers_step (hs spare : bytes) (off csLen : Z) (s : Z * list Z)
    : outcome (Z * list Z + list Z) :=
  let '(i, cipherSuites) := s in
  if i <? csLen then
    w ← slice_cap hs spare (off + i) (off + i + 2); cs ← be16 w;
    Ret (inl (i + 2, cipherSuites ++ [cs]))
  else Ret (inr cipherSuites).

Definition hello_event (now : Z) (meta : ConnMeta) (recMajor recMinor : byte) (chVersion : Z)
    (cipherSuites : list Z) (x : extensions) : ProtocolEvent :=
  let ja3Raw := buildJA3 chVersion cipherSuites (extTypes x) (ellipticCurves x) (ecPointFmts x) in
  let ja3Hash := hex_encode (Md5.Sum ja3Raw) in
  set_Metadata
    (set_TLS (fillMeta (NewEvent now Name DirectionRequest) meta)
      {| tls_Version := versionString recMajor recMinor; tls_CipherSuite := ja3Hash;
         tls_ServerName := sni x; tls_HandshakeType := 1; tls_CertificateChain := [];
         tls_ALPNProtocols := alpn x |})
    (<[str "ja3_raw" := ja3Raw]> {[str "ja3" := ja3Hash]}).

Definition parseClientHello (clk : clock) (hs spare : bytes) (recMajor recMinor : byte)
    (meta : ConnMeta) : outcome (result (list ProtocolEvent)) :=
  if len hs <? 38 then Ret (ErrR (str "tls: ClientHello too short")) else
  w ← slice hs 0 2; chVersion ← be16 w;
  let off := 34 in
  if len hs <=? off then Ret (ErrR (str "tls: session id length truncated")) else
  b ← index hs off; let sidLen := u8 b in
  let off := off + 1 + sidLen in
  if len hs <? off then Ret (ErrR (str "tls: session id truncated")) else
  if len hs <? off + 2 then Ret (ErrR (str "tls: cipher suites length truncated")) else
  w ← slice hs off (off + 2); csLen ← be16 w;
  let off := off + 2 in
  if len hs <? off + csLen then Ret (ErrR (str "tls: cipher suites truncated")) else
  cipherSuites ← for_loop (S (Z.to_nat csLen)) (ciphers_step hs spare off csLen) (0, []);
  let off := off + csLen in
  if len hs <=? off then Ret (ErrR (str "tls: compression length truncated")) else
  b ← index hs off; let compLen := u8 b in
  let off := off + 1 + compLen in
  if len hs <? off then Ret (ErrR (str "tls: compression truncated")) else
  x ← parse_extensions hs off;
  Ret (OkR [hello_event (clk 0%nat) meta recMajor recMinor chVersion cipherSuites x]).

(** [data] is the input and [spare] the rest of its array. *)
Definition Parse (clk : clock) (data spare : bytes) (meta : ConnMeta) (isFromClient : bool)
    : outcome (result (list ProtocolEvent)) :=
  if len data <? 5 then Ret (ErrR (str "tls: record too short")) else
  contentType ← index data 0;
  if negb (u8 contentType =? 0x16) then
    Ret (ErrR (str "tls: not a handshake record (type=0x" ++ hex_byte contentType ++ str ")"))
  else
  w ← slice data 3 5; recordLen ← be16 w;
  let recordLen := if len data <? 5 + recordLen then len data - 5 else recordLen in
  payload ← slice data 5 (5 + recordLen);
  let spare := drop (Z.to_nat (5 + recordLen)) data ++ spare in
  if len payload <? 4 then Ret (ErrR (str "tls: handshake header truncated")) else
  hsType ← index payload 0;
  major ← index data 1; minor ← index data 2;
  if negb (u8 hsType =? 0x01) then
    Ret (OkR [set_TLS (fillMeta (NewEvent (clk 0%nat) Name DirectionRequest) meta)
      {| tls_Version := versionString major minor; tls_CipherSuite := []; tls_ServerName := [];
         tls_HandshakeType := u8 hsType; tls_CertificateChain := []; tls_ALPNProtocols := [] |}])
  else
  b1 ← index payload 1; b2 ← index payload 2; b3 ← index payload 3;
  let hsLen := Z.lor (Z.lor (Z.shiftl (u8 b1) 16) (Z.shiftl (u8 b2) 8)) (u8 b3) in
  hs ← slice_from payload 4;
  if hsLen <? len hs then
    hs' ← slice_to hs hsLen;
    parseClientHello clk hs' (drop (Z.to_nat hsLen) hs ++ spare) major minor meta
  else parseClientHello clk hs spare major minor meta.

(** ** Totality of the helpers *)

Lemma parseSNI_wp data : wp (parseSNI data) (fun _ => True).
Proof. unfold parseSNI. go; done. Qed.

(** A list loop that reads forward from [off] to [end_]. *)
Lemma list_loop_wp {A} (data : bytes) (off end_ : Z)
    (step : Z * list A -> outcome (Z * list A + list A)) :
  0 <= off -> end_ <= len data ->
  (forall o out, 0 <= o -> wp (step (o, out)) (fun x => match x with
     | inl (o', _) => o < o' /\ o < end_ | inr _ => True end)) ->
  wp (for_loop (S (length data)) step (off, [])) (fun _ => True).
Proof.
  intros Ho He Hstep.
  apply (wp_for_loop (fun '(o, _) => 0 <= o) (fun '(o, _) => Z.to_nat (end_ - o)));
    [|done|unfold len in *; lia].
  intros [o out] Hoo. eapply wp_mono; [by apply Hstep|].
  intros [[o' out']|r]; [|done]. lia.
Qed.

Lemma parseALPN_wp data : wp (parseALPN data) (fun _ => True).
Proof.
  unfold parseALPN. go_step; [done|]. rewrite bind_slice_be16 by lia. cbv zeta.
  set (e := if _ <? _ then _ else _). assert (He : e <= len data) by (unfold e; case_match; lia).
  apply (list_loop_wp _ _ e); [done|done|]. intros o out Hoo. unfold alpn_step.
  go_step; [|done]. go_step. go_step. pose proof (u8_range x). go; [done|]. lia.
Qed.

Lemma parseU16List_wp data : wp (parseU16List data) (fun _ => True).
Proof.
  unfold parseU16List. go_step; [done|]. rewrite bind_slice_be16 by lia. cbv zeta.
  set (e := if _ <? _ then _ else _). assert (He : e <= len data) by (unfold e; case_match; lia).
  apply (list_loop_wp _ _ e); [done|done|]. intros o out Hoo. unfold u16_step.
  go_step; [|done]. rewrite bind_slice_be16 by lia. simpl. lia.
Qed.

Lemma parseU8List_wp data : wp (parseU8List data) (fun _ => True).
Proof.
  unfold parseU8List. go_step; [done|]. rewrite bind_index by lia. cbv zeta.
  set (e := if _ <? _ then _ else _). assert (He : e <= len data) by (unfold e; case_match; lia).
  apply (list_loop_wp _ _ e); [done|done|]. intros o out Hoo. unfold u8_step.
  go_step; [|done]. rewrite bind_index by lia. simpl. lia.
Qed.

Lemma read_extension_wp t d x : wp (read_extension t d x) (fun _ => True).
Proof.
  unfold read_extension. cbv zeta.
  destruct (t =? 0); [apply wp_bind; eapply wp_mono; [apply parseSNI_wp|done]|].
  destruct (t =? 16); [apply wp_bind; eapply wp_mono; [apply parseALPN_wp|done]|].
  destruct (t =? 10); [apply wp_bind; eapply wp_mono; [apply parseU16List_wp|done]|].
  destruct (t =? 11); [apply wp_bind; eapply wp_mono; [apply parseU8List_wp|done]|done].
Qed.

Lemma parse_extensions_wp hs off : 0 <= off -> wp (parse_extensions hs off) (fun _ => True).
Proof.
  intros Ho. unfold parse_extensions. go_step; [|done]. rewrite bind_slice_be16 by lia. cbv zeta.
  set (e := if _ <? _ then _ else _). assert (He : e <= len hs) by (unfold e; case_match; lia).
  apply (wp_for_loop (fun '(o, _) => 0 <= o) (fun '(o, _) => Z.to_nat (e - o)));
    [|lia|unfold len in *; lia].
  intros [o x] Hoo. unfold extensions_step. go_step; [|done].
  rewrite !bind_slice_be16 by lia. cbv zeta. pose proof (field16_range hs (o + 2)). go_step. go_step.
  apply wp_bind. go_step; [apply wp_slice_to; [lia|]|apply wp_ret];
    (apply wp_bind; eapply wp_mono; [apply read_extension_wp|]; intros ? _; simpl; lia).
Qed.

(** ** When [Parse] panics *)

(** The loop over the cipher suites reads past [hs ++ spare] exactly when the
    list has an odd length and ends where they end. *)
Lemma ciphers_wp hs spare off csLen :
  0 <= off -> 0 <= csLen -> off + csLen <= len hs ->
  Z.odd csLen && (off + csLen =? len (hs ++ spare)) = false ->
  wp (for_loop (S (Z.to_nat csLen)) (ciphers_step hs spare off csLen) (0, [])) (fun _ => True).
Proof.
  intros Ho Hc Hle Hov. apply (wp_for_loop (fun '(i, _) => 0 <= i /\ Z.even i = true)
    (fun '(i, _) => Z.to_nat (csLen - i))); [|done|lia].
  intros [i cs] [Hi He]. unfold ciphers_step, slice_cap. go_step; [|done].
  assert (off + i + 2 <= len (hs ++ spare)).
  { rewrite len_app in *. pose proof (len_nonneg spare).
    destruct (Z.odd csLen) eqn:E; [cbn [andb] in Hov; lia|].
    assert (i + 1 <> csLen) by (intros <-; rewrite Z.odd_add, <- Z.negb_even, He in E; done). lia. }
  rewrite bind_slice_be16 by lia. split; [|lia]. split; [lia|].
  by rewrite Z.even_add, He.
Qed.

Lemma ciphers_panic hs spare off csLen :
  0 <= off -> 0 <= csLen -> off + csLen = len (hs ++ spare) -> Z.odd csLen = true ->
  for_loop (S (Z.to_nat csLen)) (ciphers_step hs spare off csLen) (0, []) = Panic SliceOutOfRange.
Proof.
  intros Ho Hc Hend Hodd.
  assert (Hloop : forall k fuel i cs, 0 <= i -> i + 2 * Z.of_nat k + 1 = csLen -> (k < fuel)%nat ->
    for_loop fuel (ciphers_step hs spare off csLen) (i, cs) = Panic SliceOutOfRange).
  { intros k. induction k as [|k IH]; intros fuel i cs Hi Hk Hf; (destruct fuel as [|fuel]; [lia|]).
    - apply for_loop_panic. unfold ciphers_step, slice_cap. replace (i <? csLen) with true by lia.
      by rewrite slice_panic by lia.
    - rewrite (for_loop_cont _ _ _ (i + 2, cs ++ [field16 (hs ++ spare) (off + i)])).
      + apply IH; lia.
      + unfold ciphers_step, slice_cap. replace (i <? csLen) with true by lia.
        by rewrite bind_slice_be16 by lia. }
  apply Z.odd_spec in Hodd as [m Hm]. apply (Hloop (Z.to_nat m)); lia.
Qed.

(** The cipher-suite list of a ClientHello body has an odd length and ends at
    the end of the array. *)
Definition hello_overrun (hs spare : bytes) : bool :=
  let off := 35 + byte_at hs 34 in
  let csLen := field16 hs off in
  (38 <=? len hs) && (off + 2 <=? len hs) && (off + 2 + csLen <=? len hs)
  && Z.odd csLen && (off + 2 + csLen =? len (hs ++ spare)).

Lemma byte_at_range data o : 0 <= byte_at data o < 256.
Proof. apply u8_range. Qed.

Lemma parseClientHello_outcome clk hs spare major minor meta :
  if hello_overrun hs spare
  then parseClientHello clk hs spare major minor meta = Panic SliceOutOfRange
  else wp (parseClientHello clk hs spare major minor meta) (fun _ => True).
Proof.
  unfold hello_overrun, parseClientHello. cbv zeta.
  destruct (38 <=? len hs) eqn:E38; cbn [andb].
  2: { by replace (len hs <? 38) with true by lia. }
  replace (len hs <? 38) with false by lia. rewrite bind_slice_be16 by lia.
  replace (len hs <=? 34) with false by lia. rewrite bind_index by lia. fold (byte_at hs 34).
  pose proof (byte_at_range hs 34). set (sid := byte_at hs 34) in *.
  replace (34 + 1 + sid) with (35 + sid) by lia.
  destruct (35 + sid + 2 <=? len hs) eqn:E2; cbn [andb].
  2: { destruct (len hs <? 35 + sid); [done|]. by replace (len hs <? _) with true by lia. }
  replace (len hs <? 35 + sid) with false by lia. replace (len hs <? _) with false by lia.
  rewrite bind_slice_be16 by lia. pose proof (field16_range hs (35 + sid)).
  set (cs := field16 hs (35 + sid)) in *.
  destruct (35 + sid + 2 + cs <=? len hs) eqn:E3; cbn [andb].
  2: { by replace (len hs <? 35 + sid + 2 + cs) with true by lia. }
  replace (len hs <? 35 + sid + 2 + cs) with false by lia.
  destruct (Z.odd cs && _) eqn:Eo.
  - apply andb_true_iff in Eo as [Hodd Hend]. rewrite ciphers_panic by lia. done.
  - go_step. eapply wp_mono; [apply ciphers_wp; lia|]. intros suites _.
    go_step; [done|]. rewrite bind_index by lia. cbv zeta. fold (byte_at hs (35 + sid + 2 + cs)).
    pose proof (byte_at_range hs (35 + sid + 2 + cs)). go_step; [done|]. go_step.
    eapply wp_mono; [apply parse_extensions_wp; lia|done].
Qed.

(** The ClientHello body of a record, and what its array holds after it. *)
Definition client_hello (data spare : bytes) : option (bytes * bytes) :=
  let r := Z.min (field16 data 3) (len data - 5) in
  let payload := take (Z.to_nat r) (drop 5 data) in
  let body := drop 4 payload in
  let n := Z.to_nat (byte_at payload 1 * 65536 + byte_at payload 2 * 256 + byte_at payload 3) in
  if (5 <=? len data) && (byte_at data 0 =? 0x16) && (4 <=? len payload) && (byte_at payload 0 =? 1)
  then Some (take n body, drop n body ++ drop (Z.to_nat (5 + r)) data ++ spare)
  else None.

Lemma hs_len a b c :
  0 <= a < 256 -> 0 <= b < 256 -> 0 <= c < 256 ->
  Z.lor (Z.lor (Z.shiftl a 16) (Z.shiftl b 8)) c = a * 65536 + b * 256 + c.
Proof.
  intros Ha Hb Hc. rewrite (Z.lor_comm (Z.shiftl a 16)), Z.lor_comm, Z.lor_assoc.
  rewrite (lor_shift 8) by lia. rewrite (lor_shift 16) by lia. lia.
Qed.

Lemma Parse_client_hello clk data spare meta isFromClient :
  match client_hello data spare with
  | Some (hs, spare') =>
      Parse clk data spare meta isFromClient =
      parseClientHello clk hs spare' (default x00 (data !! 1%nat)) (default x00 (data !! 2%nat)) meta
  | None => wp (Parse clk data spare meta isFromClient) (fun _ => True)
  end.
Proof.
  unfold client_hello, Parse. cbv zeta. destruct (5 <=? len data) eqn:E5; cbn [andb].
  2: { by replace (len data <? 5) with true by lia. }
  replace (len data <? 5) with false by lia. rewrite bind_index by lia. fold (byte_at data 0).
  destruct (byte_at data 0 =? 22) eqn:Et; cbn [andb negb]; [|done].
  rewrite bind_slice_be16 by lia. pose proof (field16_range data 3).
  set (r := if len data <? 5 + field16 data 3 then _ else _).
  assert (Hr : Z.min (field16 data 3) (len data - 5) = r) by (unfold r; case_match; lia).
  rewrite Hr. assert (0 <= r <= len data - 5) by lia. clearbody r. clear Hr.
  rewrite slice_ret by lia. replace (5 + r - 5) with r by lia. change (Z.to_nat 5) with 5%nat.
  cbn [mbind outcome_bind]. set (payload := take (Z.to_nat r) (drop 5 data)).
  destruct (4 <=? len payload) eqn:E4; cbn [andb].
  2: { by replace (len payload <? 4) with true by lia. }
  replace (len payload <? 4) with false by lia. rewrite (bind_index payload 0) by lia.
  fold (byte_at payload 0). rewrite !(bind_index data) by lia.
  destruct (byte_at payload 0 =? 1) eqn:E1; cbn [andb negb]; [|done].
  rewrite !(bind_index payload) by lia.
  fold (byte_at payload 1) (byte_at payload 2) (byte_at payload 3).
  rewrite hs_len by apply byte_at_range. rewrite slice_from_ret by lia.
  change (Z.to_nat 4) with 4%nat. cbn [mbind outcome_bind]. set (body := drop 4 payload).
  pose proof (byte_at_range payload 1). pose proof (byte_at_range payload 2).
  pose proof (byte_at_range payload 3). set (n := byte_at payload 1 * 65536 + _ + _).
  assert (0 <= n) by (unfold n; lia).
  destruct (n <? len body) eqn:En.
  - rewrite slice_to_ret by lia. done.
  - rewrite (take_ge body), (drop_ge body) by (unfold len in *; lia). done.
Qed.

Definition overrun (data spare : bytes) : bool :=
  match client_hello data spare with
  | Some (hs, spare') => hello_overrun hs spare'
  | None => false
  end.

Lemma Parse_outcome clk data spare meta isFromClient :
  if overrun data spare
  then Parse clk data spare meta isFromClient = Panic SliceOutOfRange
  else exists r, Parse clk data spare meta isFromClient = Ret r.
Proof.
  unfold overrun. pose proof (Parse_client_hello clk data spare meta isFromClient) as HP.
  destruct (client_hello data spare) as [[hs spare']|].
  - rewrite HP. pose proof (parseClientHello_outcome clk hs spare' (default x00 (data !! 1%nat))
      (default x00 (data !! 2%nat)) meta) as Ho.
    destruct (hello_overrun hs spare'); [done|]. apply wp_returns in Ho as (r & -> & _). by eexists.
  - apply wp_returns in HP as (r & -> & _). by eexists.
Qed.

(** C33: a call of [Parse] panics exactly when the cipher-suite list of a
    ClientHello has an odd length and ends at the end of the input's array;
    every other call terminates without a panic. *)
Theorem tls_Parse_outcome clk data spare meta isFromClient :
  if overrun data spare
  then Parse clk data spare meta isFromClient = Panic SliceOutOfRange
  else exists r, Parse clk data spare meta isFromClient = Ret r.
Proof. apply Parse_outcome. Qed.

(** ** The JA3 string *)

(** The reserved values of RFC 8701. *)
Definition grease_values : list Z :=
  map (fun k => 0x0A0A + 0x1010 * k) (seqZ 0 16).

(** [isGREASE] holds for the sixteen GREASE values of RFC 8701 and for no
    other 16-bit value. *)
Theorem tls_isGREASE_rfc8701 v :
  0 <= v < 65536 -> isGREASE v = true <-> v ∈ grease_values.
Proof.
  intros Hv.
  assert (H : forallb (fun a => forallb (fun b => Bool.eqb (isGREASE (256 * a + b))
      (existsb (Z.eqb (256 * a + b)) grease_values)) (seqZ 0 256)) (seqZ 0 256) = true)
    by (vm_compute; reflexivity).
  rewrite forallb_forall in H. pose proof (Z.div_mod v 256 ltac:(done)) as Hdm.
  pose proof (Z.mod_pos_bound v 256 ltac:(done)).
  assert (0 <= v / 256 < 256) by (Z.div_mod_to_equations; lia).
  specialize (H (v / 256)). rewrite <- list_elem_of_In, forallb_forall in H.
  specialize (H ltac:(apply elem_of_seqZ; lia) (v mod 256)). rewrite <- list_elem_of_In in H.
  specialize (H ltac:(apply elem_of_seqZ; lia)). rewrite <- Hdm in H. apply eqb_prop in H. rewrite H.
  rewrite existsb_exists, list_elem_of_In. split.
  - intros (x & Hx & E). apply Z.eqb_eq in E as ->. done.
  - intros Hx. exists v. by rewrite Z.eqb_refl.
Qed.

Lemma cut_at (c : byte) x y r s :
  c ∉ x -> c ∉ y -> x ++ c :: r = y ++ c :: s -> x = y /\ r = s.
Proof.
  revert y. induction x as [|a x IH]; intros [|b y] Hx Hy H; cbn in H.
  - by injection H as ->.
  - injection H as -> _. set_solver.
  - injection H as -> _. set_solver.
  - injection H as -> H2. destruct (IH y ltac:(set_solver) ltac:(set_solver) H2) as [-> ->]. done.
Qed.

Lemma Join_no_byte c parts sep :
  c ∉ sep -> Forall (fun p => c ∉ p) parts -> c ∉ Join parts sep.
Proof.
  intros Hs Hall. induction Hall as [|p parts Hp Hall IH]; [by apply not_elem_of_nil|].
  destruct parts as [|q parts]; [done|]. rewrite Join_cons by done. rewrite !not_elem_of_app. auto.
Qed.

Lemma joinU16_no_comma l : Forall (Z.le 0) l -> x2c ∉ joinU16 l.
Proof.
  intros Hl. apply Join_no_byte; [set_solver|]. apply Forall_map. eapply Forall_impl; [|exact Hl].
  intros z Hz. by apply Itoa_no_byte.
Qed.

Lemma joinU16_inj l k : Forall (Z.le 0) l -> Forall (Z.le 0) k -> joinU16 l = joinU16 k -> l = k.
Proof.
  intros Hl Hk H.
  assert (Hsplit : forall m, m <> [] -> Forall (Z.le 0) m ->
            Split (joinU16 m) (str "-") = map Itoa m).
  { intros m Hne Hm. apply Split_Join; [by apply not_elem_of_nil|by destruct m|].
    apply Forall_map. eapply Forall_impl; [|exact Hm]. intros z Hz.
    apply Index_singleton_None. by apply Itoa_no_byte. }
  assert (Hnil : forall m, Forall (Z.le 0) m -> joinU16 m = [] -> m = []).
  { intros [|z m] Hm E; [done|]. exfalso. inversion Hm as [|? ? Hz _]; subst.
    destruct (Itoa_nonneg z Hz) as (_ & _ & Hne). unfold joinU16 in E. cbn [map] in E.
    destruct (map Itoa m) as [|q m'] eqn:Em; [done|]. rewrite Join_cons in E by done.
    by apply app_eq_nil in E as [? _]. }
  destruct (decide (l = [])) as [->|Hne]; [symmetry; by apply Hnil|].
  destruct (decide (k = [])) as [->|Hne']; [by apply Hnil|].
  assert (Hm : map Itoa l = map Itoa k) by (by rewrite <- !Hsplit, H by done).
  clear -Hl Hk Hm. revert k Hk Hm. induction Hl as [|a l Ha Hl IH]; intros [|b k] Hk Hm; try done.
  inversion Hk as [|? ? Hb Hk']; subst. cbn in Hm. injection Hm as H1 H2.
  apply Itoa_inj in H1 as ->; [|done|done]. f_equal. by apply IH.
Qed.

Lemma filterGREASE_nonneg l : Forall (Z.le 0) l -> Forall (Z.le 0) (filterGREASE l).
Proof.
  intros Hl. unfold filterGREASE. induction Hl as [|a l Ha Hl IH]; cbn [List.filter]; [done|].
  destruct (negb (isGREASE a)); [by constructor|done].
Qed.

(** The JA3 string determines the version, the cipher suites, extension
    types and curves without the GREASE values, and the point formats: two
    ClientHellos have the same string only when they agree on all of these. *)
Theorem tls_buildJA3_injective v cs ex cu pf v' cs' ex' cu' pf' :
  Forall (Z.le 0) (v :: cs ++ ex ++ cu ++ pf) ->
  Forall (Z.le 0) (v' :: cs' ++ ex' ++ cu' ++ pf') ->
  buildJA3 v cs ex cu pf = buildJA3 v' cs' ex' cu' pf' ->
  v = v' /\ filterGREASE cs = filterGREASE cs' /\ filterGREASE ex = filterGREASE ex'
  /\ filterGREASE cu = filterGREASE cu' /\ pf = pf'.
Proof.
  rewrite !Forall_cons_iff, !Forall_app. intros (Hv & Hcs & Hex & Hcu & Hpf) (Hv' & Hcs' & Hex' & Hcu' & Hpf').
  apply filterGREASE_nonneg in Hcs, Hex, Hcu, Hcs', Hex', Hcu'. intros H. unfold buildJA3 in H.
  apply cut_at in H as [H1 H]; [|by apply Itoa_no_byte|by apply Itoa_no_byte].
  apply cut_at in H as [H2 H]; [|by apply joinU16_no_comma|by apply joinU16_no_comma].
  apply cut_at in H as [H3 H]; [|by apply joinU16_no_comma|by apply joinU16_no_comma].
  apply cut_at in H as [H4 H]; [|by apply joinU16_no_comma|by apply joinU16_no_comma].
  repeat split; [by apply Itoa_inj|by apply joinU16_inj..].
Qed.

(** ** The encoder of ClientHello records *)

Definition prefixed (l : bytes) : bytes := byte_of (len l) :: l.
Definition u16s (l : list Z) : bytes := concat (map (be_bytes 2) l).
Definition u16_ok (z : Z) : Prop := 0 <= z < 65536.

Inductive ext :=
| E_SNI (host : bytes)
| E_ALPN (protocols : list bytes)
| E_groups (curves : list Z)
| E_formats (formats : list Z)
| E_other (type : Z) (data : bytes).

Definition ext_type (e : ext) : Z :=
  match e with
  | E_SNI _ => 0 | E_ALPN _ => 16 | E_groups _ => 10 | E_formats _ => 11 | E_other t _ => t
  end.

Definition ext_data (e : ext) : bytes :=
  match e with
  | E_SNI host => be_bytes 2 (len host + 3) ++ [x00] ++ be_bytes 2 (len host) ++ host
  | E_ALPN ps => be_bytes 2 (len (concat (map prefixed ps))) ++ concat (map prefixed ps)
  | E_groups l => be_bytes 2 (2 * len l) ++ u16s l
  | E_formats l => byte_of (len l) :: map byte_of l
  | E_other _ data => data
  end.

Definition ext_ok (e : ext) : Prop :=
  len (ext_data e) < 65536 /\
  match e with
  | E_SNI _ => True
  | E_ALPN ps => Forall (fun p : bytes => len p < 256) ps
  | E_groups l => Forall u16_ok l
  | E_formats l => len l < 256 /\ Forall (fun z => 0 <= z < 256) l
  | E_other t _ => u16_ok t /\ t ∉ [0; 16; 10; 11]
  end.

(** What the extension contributes; a later one of the same type wins. *)
Definition apply_ext (x : extensions) (e : ext) : extensions :=
  {| sni := match e with E_SNI host => host | _ => sni x end;
     alpn := match e with E_ALPN ps => ps | _ => alpn x end;
     extTypes := extTypes x ++ [ext_type e];
     ellipticCurves := match e with E_groups l => l | _ => ellipticCurves x end;
     ecPointFmts := match e with E_formats l => l | _ => ecPointFmts x end |}.

Definition encode_ext (e : ext) : bytes :=
  be_bytes 2 (ext_type e) ++ be_bytes 2 (len (ext_data e)) ++ ext_data e.

Record hello := {
  h_version : Z; h_random : bytes; h_session : bytes; h_suites : list Z;
  h_compression : bytes; h_exts : list ext;
}.

Definition encode_hello (h : hello) : bytes :=
  be_bytes 2 (h_version h) ++ h_random h ++ prefixed (h_session h)
  ++ be_bytes 2 (2 * len (h_suites h)) ++ u16s (h_suites h)
  ++ prefixed (h_compression h)
  ++ be_bytes 2 (len (concat (map encode_ext (h_exts h)))) ++ concat (map encode_ext (h_exts h)).

Definition hello_ok (h : hello) : Prop :=
  u16_ok (h_version h) /\ len (h_random h) = 32 /\ len (h_session h) < 256 /\
  Forall u16_ok (h_suites h) /\ len (h_compression h) < 256 /\ Forall ext_ok (h_exts h) /\
  len (encode_hello h) + 4 < 65536.

(** A handshake record that holds the ClientHello. *)
Definition encode_record (minor : byte) (h : hello) : bytes :=
  x16 :: x03 :: minor :: be_bytes 2 (4 + len (encode_hello h))
  ++ x01 :: be_bytes 3 (len (encode_hello h)) ++ encode_hello h.

(** ** The lists of the extensions are read back *)

Lemma len_u16s l : len (u16s l) = 2 * len l.
Proof.
  unfold u16s. induction l as [|z l IH]; [done|]. cbn [map concat].
  rewrite len_app, len_be_bytes, IH, len_cons. lia.
Qed.

Lemma field16_encoded data o pre z post :
  u16_ok z -> data = pre ++ be_bytes 2 z ++ post -> o = len pre -> field16 data o = z.
Proof. apply (be_uint_field 2). Qed.

Lemma byte_at_encoded data o (pre post : bytes) b :
  data = pre ++ b :: post -> o = len pre -> byte_at data o = u8 b.
Proof. intros -> ->. unfold byte_at, len. by rewrite Nat2Z.id, list_lookup_middle. Qed.

Lemma alpn_encoded ps :
  Forall (fun p : bytes => len p < 256) ps ->
  forall data pre fuel acc,
    data = pre ++ concat (map prefixed ps) -> (length ps < fuel)%nat ->
    for_loop fuel (alpn_step data (len data)) (len pre, acc) = Ret (acc ++ ps).
Proof.
  intros Hps. induction Hps as [|p ps Hp _ IH]; intros data pre fuel acc Hd Hf;
    (destruct fuel as [|fuel]; [simpl in Hf; lia|]).
  - apply for_loop_done. unfold alpn_step. cbn [map concat] in Hd. rewrite app_nil_r in Hd. subst.
    by rewrite Z.ltb_irrefl, app_nil_r.
  - cbn [map concat] in Hd.
    assert (Hd' : data = (pre ++ prefixed p) ++ concat (map prefixed ps)) by (by rewrite Hd, <- !app_assoc).
    assert (Hlen : len (pre ++ prefixed p) = len pre + 1 + len p)
      by (rewrite len_app; unfold prefixed; rewrite len_cons; lia).
    rewrite (for_loop_cont _ _ _ (len (pre ++ prefixed p), acc ++ [p])).
    + rewrite (IH _ _ fuel _ Hd') by (simpl in Hf; lia). by rewrite <- app_assoc.
    + unfold alpn_step. pose proof (len_nonneg (concat (map prefixed ps))). pose proof (len_nonneg p).
      pose proof (len_nonneg pre).
      assert (Hld : len data = len pre + 1 + len p + len (concat (map prefixed ps)))
        by (rewrite Hd', len_app, Hlen; lia).
      replace (len pre <? len data) with true by lia. rewrite bind_index by lia.
      fold (byte_at data (len pre)). rewrite (byte_at_encoded _ _ pre _ (byte_of (len p)) Hd eq_refl).
      rewrite u8_byte_of_small by lia. cbv zeta. replace (len data <? _) with false by lia.
      rewrite (slice_field data (pre ++ [byte_of (len p)]) p (concat (map prefixed ps)));
        [by rewrite Hlen | by rewrite Hd', <- !app_assoc | by rewrite len_app | done].
Qed.

Lemma u16_encoded l :
  Forall u16_ok l ->
  forall data pre fuel acc,
    data = pre ++ u16s l -> (length l < fuel)%nat ->
    for_loop fuel (u16_step data (len data)) (len pre, acc) = Ret (acc ++ l).
Proof.
  intros Hl. induction Hl as [|z l Hz _ IH]; intros data pre fuel acc Hd Hf;
    (destruct fuel as [|fuel]; [simpl in Hf; lia|]).
  - apply for_loop_done. unfold u16_step. unfold u16s in Hd. cbn [map concat] in Hd.
    rewrite app_nil_r in Hd. subst. replace (len pre + 2 <=? len pre) with false by lia.
    by rewrite app_nil_r.
  - change (u16s (z :: l)) with (be_bytes 2 z ++ u16s l) in Hd.
    assert (Hd' : data = (pre ++ be_bytes 2 z) ++ u16s l) by (by rewrite Hd, <- !app_assoc).
    assert (Hlen : len (pre ++ be_bytes 2 z) = len pre + 2) by (by rewrite len_app, len_be_bytes).
    rewrite (for_loop_cont _ _ _ (len pre + 2, acc ++ [z])).
    + rewrite <- Hlen, (IH _ _ fuel _ Hd') by (simpl in Hf; lia). by rewrite <- app_assoc.
    + unfold u16_step. pose proof (len_nonneg (u16s l)). pose proof (len_nonneg pre).
      assert (Hld : len data = len pre + 2 + len (u16s l)) by (rewrite Hd', len_app, Hlen; lia).
      replace (len pre + 2 <=? len data) with true by lia. rewrite bind_slice_be16 by lia.
      by rewrite (field16_encoded _ _ pre z (u16s l)).
Qed.

Lemma u8_encoded l :
  Forall (fun z => 0 <= z < 256) l ->
  forall data pre fuel acc,
    data = pre ++ map byte_of l -> (length l < fuel)%nat ->
    for_loop fuel (u8_step data (len data)) (len pre, acc) = Ret (acc ++ l).
Proof.
  intros Hl. induction Hl as [|z l Hz _ IH]; intros data pre fuel acc Hd Hf;
    (destruct fuel as [|fuel]; [simpl in Hf; lia|]).
  - apply for_loop_done. unfold u8_step. cbn [map] in Hd. rewrite app_nil_r in Hd. subst.
    by rewrite Z.ltb_irrefl, app_nil_r.
  - cbn [map] in Hd.
    assert (Hd' : data = (pre ++ [byte_of z]) ++ map byte_of l) by (by rewrite Hd, <- !app_assoc).
    assert (Hlen : len (pre ++ [byte_of z]) = len pre + 1) by (by rewrite len_app).
    rewrite (for_loop_cont _ _ _ (len pre + 1, acc ++ [z])).
    + rewrite <- Hlen, (IH _ _ fuel _ Hd') by (simpl in Hf; lia). by rewrite <- app_assoc.
    + unfold u8_step. pose proof (len_nonneg (map byte_of l)). pose proof (len_nonneg pre).
      assert (Hld : len data = len pre + 1 + len (map byte_of l)) by (rewrite Hd', len_app, Hlen; lia).
      replace (len pre <? len data) with true by lia. rewrite bind_index by lia.
      fold (byte_at data (len pre)). rewrite (byte_at_encoded _ _ pre _ (byte_of z) Hd eq_refl).
      by rewrite u8_byte_of_small.
Qed.

Lemma read_extension_encoded e x :
  ext_ok e -> read_extension (ext_type e) (ext_data e) x = Ret (apply_ext x e).
Proof.
  intros [Hlen He]. unfold read_extension. cbv zeta. unfold apply_ext.
  destruct e as [host|ps|l|l|t d]; cbn [ext_type ext_data] in *; cbn [Z.eqb Pos.eqb].
  - unfold parseSNI. pose proof (len_nonneg host). set (d := be_bytes 2 (len host + 3) ++ _) in *.
    assert (Hd : len d = len host + 5) by (unfold d; rewrite !len_app, !len_be_bytes; change (len [x00]) with 1; lia).
    replace (len d <? 5) with false by lia. rewrite bind_index by lia.
    fold (byte_at d 2). rewrite (byte_at_encoded d 2 (be_bytes 2 (len host + 3)) _ x00 eq_refl) by (by rewrite len_be_bytes).
    change (negb (u8 x00 =? 0)) with false. cbn match. rewrite bind_slice_be16 by lia.
    rewrite (field16_encoded d 3 (be_bytes 2 (len host + 3) ++ [x00]) (len host) host)
      by (done || (unfold u16_ok; lia) || by unfold d; rewrite <- app_assoc).
    replace (len d <? 5 + len host) with false by lia.
    rewrite (slice_field d (be_bytes 2 (len host + 3) ++ [x00] ++ be_bytes 2 (len host)) host [])
      by (try done; unfold d; by rewrite <- !app_assoc, app_nil_r). done.
  - unfold parseALPN. set (b := concat (map prefixed ps)) in *. pose proof (len_nonneg b).
    set (d := be_bytes 2 (len b) ++ b) in *.
    assert (Hd : len d = 2 + len b) by (unfold d; by rewrite len_app, len_be_bytes).
    replace (len d <? 2) with false by lia. rewrite bind_slice_be16 by lia. cbv zeta.
    rewrite (field16_encoded d 0 [] (len b) b) by (done || (unfold u16_ok; lia)).
    rewrite <- Hd, Z.ltb_irrefl.
    rewrite (alpn_encoded ps He d (be_bytes 2 (len b)) _ [] eq_refl); [done|].
    pose proof (length_concat_map prefixed ps ltac:(done)). unfold d, b. rewrite length_app. lia.
  - unfold parseU16List. pose proof (len_u16s l) as Hu. pose proof (len_nonneg l).
    set (d := be_bytes 2 (2 * len l) ++ u16s l) in *.
    assert (Hd : len d = 2 + 2 * len l) by (unfold d; by rewrite len_app, len_be_bytes, Hu).
    replace (len d <? 2) with false by lia. rewrite bind_slice_be16 by lia. cbv zeta.
    rewrite (field16_encoded d 0 [] (2 * len l) (u16s l)) by (done || (unfold u16_ok; lia)).
    rewrite <- Hd, Z.ltb_irrefl.
    rewrite (u16_encoded l He d (be_bytes 2 (2 * len l)) _ [] eq_refl); [done|]. unfold len in *. lia.
  - unfold parseU8List. destruct He as [Hl He]. pose proof (len_nonneg l).
    set (d := byte_of (len l) :: map byte_of l) in *.
    assert (Hd : len d = 1 + len l) by (unfold d; rewrite len_cons; unfold len; by rewrite length_map).
    replace (len d <? 1) with false by lia. rewrite bind_index by lia. fold (byte_at d 0). cbv zeta.
    rewrite (byte_at_encoded d 0 [] (map byte_of l) (byte_of (len l)) eq_refl eq_refl), u8_byte_of_small by lia.
    rewrite <- Hd, Z.ltb_irrefl.
    rewrite (u8_encoded l He d [byte_of (len l)] _ [] eq_refl); [done|]. unfold len in *. lia.
  - destruct He as [_ Ht]. rewrite !not_elem_of_cons in Ht. destruct Ht as (? & ? & ? & ? & _).
    replace (t =? 0) with false by lia. replace (t =? 16) with false by lia.
    replace (t =? 10) with false by lia. by replace (t =? 11) with false by lia.
Qed.

(** ** The whole record is read back *)

Lemma extensions_encoded exts :
  Forall ext_ok exts ->
  forall hs pre fuel x,
    hs = pre ++ concat (map encode_ext exts) -> (length exts < fuel)%nat ->
    for_loop fuel (extensions_step hs (len hs)) (len pre, x) = Ret (fold_left apply_ext exts x).
Proof.
  intros Hok. induction Hok as [|e exts He _ IH]; intros hs pre fuel x Hh Hf;
    (destruct fuel as [|fuel]; [simpl in Hf; lia|]).
  - apply for_loop_done. unfold extensions_step. cbn [map concat] in Hh. rewrite app_nil_r in Hh.
    subst. by replace (len pre + 4 <=? len pre) with false by lia.
  - cbn [map concat fold_left] in *. set (post := concat (map encode_ext exts)) in *.
    assert (Hh' : hs = (pre ++ encode_ext e) ++ post) by (by rewrite Hh, <- app_assoc).
    assert (Hlen : len (pre ++ encode_ext e) = len pre + 4 + len (ext_data e)).
    { unfold encode_ext. rewrite !len_app, !len_be_bytes. lia. }
    rewrite (for_loop_cont _ _ _ (len (pre ++ encode_ext e), apply_ext x e)).
    + rewrite (IH _ _ fuel _ Hh') by (simpl in Hf; lia). done.
    + unfold extensions_step. pose proof (len_nonneg post). pose proof (len_nonneg pre).
      pose proof (len_nonneg (ext_data e)). pose proof (proj1 He) as Hl.
      assert (Hlh : len hs = len pre + 4 + len (ext_data e) + len post) by (rewrite Hh', len_app, Hlen; lia).
      replace (len pre + 4 <=? len hs) with true by lia. rewrite !bind_slice_be16 by lia.
      rewrite (field16_encoded hs (len pre) pre (ext_type e) (be_bytes 2 (len (ext_data e)) ++ ext_data e ++ post));
        [| |by rewrite Hh; unfold encode_ext; rewrite <- !app_assoc|done].
      2: { destruct He as [_ He]. destruct e; cbn; try (unfold u16_ok; lia). apply He. }
      rewrite (field16_encoded hs _ (pre ++ be_bytes 2 (ext_type e)) (len (ext_data e)) (ext_data e ++ post));
        [|unfold u16_ok; lia|by rewrite Hh; unfold encode_ext; rewrite <- !app_assoc
         |by rewrite len_app, len_be_bytes].
      cbv zeta. rewrite slice_from_ret by lia. cbn [mbind outcome_bind].
      set (h := pre ++ be_bytes 2 (ext_type e) ++ be_bytes 2 (len (ext_data e))).
      assert (Hd : drop (Z.to_nat (len pre + 4)) hs = ext_data e ++ post).
      { replace (Z.to_nat (len pre + 4)) with (length h)
          by (unfold h; rewrite !length_app, !length_be_bytes; unfold len; lia).
        replace hs with (h ++ ext_data e ++ post); [by rewrite drop_app_length|].
        rewrite Hh. unfold h, encode_ext. by rewrite <- !app_assoc. }
      rewrite Hd.
      assert (Hext : (if len (ext_data e) <? len (ext_data e ++ post)
                      then slice_to (ext_data e ++ post) (len (ext_data e))
                      else Ret (ext_data e ++ post)) = Ret (ext_data e)).
      { rewrite len_app. destruct (_ <? _) eqn:E.
        - rewrite slice_to_ret by (rewrite len_app; lia). unfold len. by rewrite Nat2Z.id, take_app_length.
        - destruct post; [by rewrite app_nil_r|lens]. }
      rewrite Hext. cbn [mbind outcome_bind]. rewrite read_extension_encoded by done.
      cbn [mbind outcome_bind]. by rewrite Hlen.
Qed.

Lemma parse_extensions_encoded exts pre hs :
  Forall ext_ok exts -> len (concat (map encode_ext exts)) < 65536 ->
  hs = pre ++ be_bytes 2 (len (concat (map encode_ext exts))) ++ concat (map encode_ext exts) ->
  parse_extensions hs (len pre) = Ret (fold_left apply_ext exts no_extensions).
Proof.
  intros Hok Hlen Hh. unfold parse_extensions. set (b := concat (map encode_ext exts)) in *.
  pose proof (len_nonneg b). pose proof (len_nonneg pre).
  assert (Hl : len hs = len pre + 2 + len b) by (rewrite Hh, !len_app, len_be_bytes; lia).
  replace (len pre + 2 <=? len hs) with true by lia. rewrite bind_slice_be16 by lia. cbv zeta.
  rewrite (field16_encoded hs _ pre (len b) b) by (done || (unfold u16_ok; lia)).
  replace (len hs <? len pre + 2 + len b) with false by lia. rewrite <- Hl.
  replace (len pre + 2) with (len (pre ++ be_bytes 2 (len b))) by (by rewrite len_app, len_be_bytes).
  apply extensions_encoded; [done|by rewrite Hh, <- app_assoc|].
  pose proof (length_concat_map encode_ext exts ltac:(by intros e; unfold encode_ext)) as Hc.
  fold b in Hc. unfold len in *. lia.
Qed.

Lemma ciphers_encoded suites :
  Forall u16_ok suites ->
  forall hs spare pre post fuel off i acc,
    hs = pre ++ u16s suites ++ post -> len pre = off + i -> (length suites < fuel)%nat ->
    for_loop fuel (ciphers_step hs spare off (i + 2 * len suites)) (i, acc) = Ret (acc ++ suites).
Proof.
  intros Hok. induction Hok as [|z l Hz _ IH]; intros hs spare pre post fuel off i acc Hh Hp Hf;
    (destruct fuel as [|fuel]; [simpl in Hf; lia|]).
  - apply for_loop_done. unfold ciphers_step. change (len (@nil Z)) with 0. rewrite Z.mul_0_r, Z.add_0_r, Z.ltb_irrefl.
    by rewrite app_nil_r.
  - change (u16s (z :: l)) with (be_bytes 2 z ++ u16s l) in Hh.
    assert (Hh' : hs = (pre ++ be_bytes 2 z) ++ u16s l ++ post) by (by rewrite Hh, <- !app_assoc).
    rewrite len_cons. replace (i + 2 * (1 + len l)) with ((i + 2) + 2 * len l) by lia.
    pose proof (len_nonneg l). pose proof (len_nonneg (u16s l ++ post)). pose proof (len_nonneg pre).
    rewrite (for_loop_cont _ _ _ (i + 2, acc ++ [z])).
    + rewrite (IH hs spare _ post fuel off (i + 2) _ Hh'); [by rewrite <- app_assoc| |simpl in Hf; lia].
      rewrite len_app, len_be_bytes. lia.
    + unfold ciphers_step, slice_cap. replace (i <? _) with true by lia.
      rewrite bind_slice_be16 by (rewrite ?Hh', ?len_app, ?len_be_bytes; pose proof (len_nonneg spare);
        pose proof (len_nonneg (u16s l)); pose proof (len_nonneg post); lia).
      rewrite (field16_encoded _ _ pre z (u16s l ++ post ++ spare)); [done|done| |done].
      by rewrite Hh, <- !app_assoc.
Qed.

Lemma parseClientHello_encoded clk h spare major minor meta :
  hello_ok h ->
  parseClientHello clk (encode_hello h) spare major minor meta =
  Ret (OkR [hello_event (clk 0%nat) meta major minor (h_version h) (h_suites h)
              (fold_left apply_ext (h_exts h) no_extensions)]).
Proof.
  intros (Hv & Hr & Hs & Hcs & Hc & He & Htot).
  destruct h as [v rnd sid suites comp exts].
  cbn [h_version h_random h_session h_suites h_compression h_exts] in *.
  pose proof (len_nonneg sid). pose proof (len_nonneg suites). pose proof (len_nonneg comp).
  pose proof (len_u16s suites) as Hu. set (b := concat (map encode_ext exts)). pose proof (len_nonneg b).
  set (hs := encode_hello _) in *.
  assert (Hh : hs = be_bytes 2 v ++ rnd ++ prefixed sid ++ be_bytes 2 (2 * len suites)
    ++ u16s suites ++ prefixed comp ++ be_bytes 2 (len b) ++ b) by done.
  assert (Hps : len (prefixed sid) = 1 + len sid) by (unfold prefixed; by rewrite len_cons).
  assert (Hpc : len (prefixed comp) = 1 + len comp) by (unfold prefixed; by rewrite len_cons).
  assert (Hlen : len hs = 34 + (1 + len sid) + 2 + 2 * len suites + (1 + len comp) + 2 + len b).
  { rewrite Hh, !len_app, !len_be_bytes, Hps, Hpc, Hu. lia. }
  clearbody hs. unfold parseClientHello. cbv zeta. replace (len hs <? 38) with false by lia.
  rewrite bind_slice_be16 by lia. rewrite (field16_encoded hs 0 [] v _ Hv Hh eq_refl).
  replace (len hs <=? 34) with false by lia. rewrite bind_index by lia. fold (byte_at hs 34).
  rewrite (byte_at_encoded hs 34 (be_bytes 2 v ++ rnd) (sid ++ be_bytes 2 (2 * len suites)
    ++ u16s suites ++ prefixed comp ++ be_bytes 2 (len b) ++ b) (byte_of (len sid)));
    [|by rewrite Hh, <- !app_assoc|rewrite len_app, len_be_bytes; lia].
  rewrite u8_byte_of_small by lia. replace (len hs <? 34 + 1 + len sid) with false by lia.
  replace (len hs <? _) with false by lia. rewrite bind_slice_be16 by lia.
  rewrite (field16_encoded hs _ (be_bytes 2 v ++ rnd ++ prefixed sid) (2 * len suites)
    (u16s suites ++ prefixed comp ++ be_bytes 2 (len b) ++ b));
    [|unfold u16_ok; lia|by rewrite Hh, <- !app_assoc|rewrite !len_app, len_be_bytes; lia].
  replace (len hs <? _) with false by lia.
  rewrite (ciphers_encoded suites Hcs hs spare
    (be_bytes 2 v ++ rnd ++ prefixed sid ++ be_bytes 2 (2 * len suites))
    (prefixed comp ++ be_bytes 2 (len b) ++ b) _ (34 + 1 + len sid + 2) 0 [])
    by (rewrite ?Hh, ?len_app, ?len_be_bytes, <- ?app_assoc; done || (unfold len in *; lia)).
  cbn [mbind outcome_bind app]. replace (len hs <=? _) with false by lia. rewrite bind_index by lia.
  set (off := 34 + 1 + len sid + 2 + 2 * len suites). fold (byte_at hs off).
  rewrite (byte_at_encoded hs off (be_bytes 2 v ++ rnd ++ prefixed sid ++ be_bytes 2 (2 * len suites)
     ++ u16s suites) (comp ++ be_bytes 2 (len b) ++ b) (byte_of (len comp)));
    [|by rewrite Hh, <- !app_assoc|rewrite !len_app, !len_be_bytes; unfold off; lia].
  rewrite u8_byte_of_small by lia. replace (len hs <? _) with false by (unfold off; lia).
  set (pre := be_bytes 2 v ++ rnd ++ prefixed sid ++ be_bytes 2 (2 * len suites)
     ++ u16s suites ++ prefixed comp).
  replace (off + 1 + len comp) with (len pre)
    by (unfold pre; rewrite !len_app, !len_be_bytes; unfold off; lia).
  rewrite (parse_extensions_encoded exts pre hs He); [done|fold b; lia|].
  unfold pre. by rewrite Hh, <- !app_assoc.
Qed.

Lemma client_hello_encoded minor h t spare :
  len (encode_hello h) + 4 < 65536 ->
  client_hello (encode_record minor h ++ t) spare = Some (encode_hello h, t ++ spare).
Proof.
  intros Hl. set (hs := encode_hello h) in *. pose proof (len_nonneg hs). pose proof (len_nonneg t).
  set (payload := x01 :: be_bytes 3 (len hs) ++ hs).
  assert (Hp : len payload = 4 + len hs) by (unfold payload; rewrite len_cons, len_app, len_be_bytes; lia).
  set (data := encode_record minor h ++ t).
  assert (Hd : data = [x16; x03; minor] ++ be_bytes 2 (4 + len hs) ++ payload ++ t).
  { unfold data, encode_record. fold hs. fold payload. cbn [app]. by rewrite <- app_assoc. }
  assert (Hld : len data = 9 + len hs + len t)
    by (rewrite Hd, !len_app, len_be_bytes, Hp; change (len [_; _; _]) with 3; lia).
  unfold client_hello. cbv zeta.
  rewrite (field16_encoded data 3 [x16; x03; minor] (4 + len hs) _ ltac:(unfold u16_ok; lia) Hd eq_refl).
  replace (Z.min _ _) with (4 + len hs) by lia.
  assert (Hdrop : drop 5 data = payload ++ t).
  { rewrite Hd. change 5%nat with (length ([x16; x03; minor] ++ be_bytes 2 (4 + len hs))).
    by rewrite app_assoc, drop_app_length. }
  rewrite Hdrop. replace (Z.to_nat (4 + len hs)) with (length payload) by (unfold len in *; lia).
  rewrite take_app_length. replace (5 <=? len data) with true by lia.
  replace (byte_at data 0) with 22 by (by rewrite Hd).
  replace (4 <=? len payload) with true by lia.
  change (byte_at payload 0) with 1. cbn [Z.eqb Pos.eqb andb].
  assert (Hbody : drop 4 payload = hs).
  { unfold payload. change (x01 :: be_bytes 3 (len hs) ++ hs) with ((x01 :: be_bytes 3 (len hs)) ++ hs).
    change 4%nat with (length (x01 :: be_bytes 3 (len hs))). by rewrite drop_app_length. }
  rewrite Hbody.
  assert (Hn : byte_at payload 1 * 65536 + byte_at payload 2 * 256 + byte_at payload 3 = len hs).
  { pose proof (be_uint_be_bytes 3 (len hs) ltac:(change (256 ^ Z.of_nat 3) with 16777216; lia)) as Hb.
    change (be_bytes 3 (len hs)) with [byte_of (len hs / 256 / 256); byte_of (len hs / 256); byte_of (len hs)] in Hb.
    rewrite <- Hb. unfold payload.
    change (be_bytes 3 (len hs)) with [byte_of (len hs / 256 / 256); byte_of (len hs / 256); byte_of (len hs)].
    change (u8 (byte_of (len hs / 256 / 256)) * 65536 + u8 (byte_of (len hs / 256)) * 256 + u8 (byte_of (len hs))
      = u8 (byte_of (len hs / 256 / 256)) * 256 ^ 2 + (u8 (byte_of (len hs / 256)) * 256 ^ 1
        + (u8 (byte_of (len hs)) * 256 ^ 0 + 0))). lia. }
  rewrite Hn. unfold len at 1 2. rewrite Nat2Z.id, firstn_all, drop_all. cbn [app]. do 3 f_equal.
  replace (Z.to_nat (5 + (4 + len hs))) with (5 + length payload)%nat by (unfold len in *; lia).
  by rewrite <- drop_drop, Hdrop, drop_app_length.
Qed.

(** C32: a ClientHello record, whatever follows it in the stream, gives one event
    with the server name, the ALPN protocols and the JA3 string and MD5 hash of
    the version, cipher suites, extension types, curves and point formats the
    client sent. *)
Theorem tls_ClientHello_roundtrip clk minor h t spare meta isFromClient :
  hello_ok h ->
  Parse clk (encode_record minor h ++ t) spare meta isFromClient =
  Ret (OkR [hello_event (clk 0%nat) meta x03 minor (h_version h) (h_suites h)
              (fold_left apply_ext (h_exts h) no_extensions)]).
Proof.
  intros Hok. pose proof (Parse_client_hello clk (encode_record minor h ++ t) spare meta isFromClient) as HP.
  rewrite client_hello_encoded in HP by apply Hok. rewrite HP.
  by rewrite parseClientHello_encoded.
Qed.
(** ** Concrete messages *)

Definition sample_hello : hello :=
  {| h_version := 0x0303; h_random := repeat x2a 32; h_session := [];
     h_suites := [0x0a0a; 0x1301; 0xc02f]; h_compression := [x00];
     h_exts := [E_SNI (str "example.com"); E_ALPN [str "h2"; str "http/1.1"]; E_groups [29; 23];
                E_formats [0]; E_other 43 [x02; x03; x04]] |}.

Lemma tls_buildJA3_injective_witness :
  771 = 771 /\ filterGREASE [4865; 2570] = filterGREASE [4865; 6682] /\ filterGREASE [0] = filterGREASE [0]
  /\ filterGREASE [29] = filterGREASE [29] /\ [0] = [0].
Proof.
  apply (tls_buildJA3_injective 771 [4865; 2570] [0] [29] [0] 771 [4865; 6682] [0] [29] [0]);
    [ground|ground|reflexivity].
Defined.

Lemma tls_ClientHello_roundtrip_witness :
  let meta := {| m_SrcIP := []; m_DstIP := []; m_SrcPort := 4000; m_DstPort := 443; m_ConnID := 0 |} in
  Parse (fun _ => 7) (encode_record x01 sample_hello ++ [x17]) [] meta true =
  Ret (OkR [hello_event 7 meta x03 x01 771 [0x0a0a; 0x1301; 0xc02f]
    {| sni := str "example.com"; alpn := [str "h2"; str "http/1.1"]; extTypes := [0; 16; 10; 11; 43];
       ellipticCurves := [29; 23]; ecPointFmts := [0] |}]).
Proof.
  intros meta.
  etransitivity; [apply (tls_ClientHello_roundtrip (fun _ => 7) x01 sample_hello [x17] [] meta true)|].
  - unfold sample_hello. ground.
  - reflexivity.
Defined.
End Tls.
