(* ===== verification/LineProtocols.v ===== *)
(** * The text protocols: SMTP, FTP, POP3, IMAP and SSH

    [internal/protocol/smtp/parser.go], [ftp/parser.go], [pop3/parser.go],
    [imap/parser.go] and [ssh/parser.go]. The first four split their input into
    lines at CRLF, skip the empty ones and make at most one event per line; the
    last reads one version line. *)

From S2P Require Import Prelude.
From S2P Require Import GoStrings.
From S2P Require Import Event.

(** ** The loop over the lines *)

(** [for _, line := range lines { if len(line) == 0 { continue }; ... }]: the
    loop the four parsers share; [decode] is the rest of its body. *)
Fixpoint each_line (clk : clock) (decode : bytes -> Z -> outcome (option ProtocolEvent))
    (lines : list bytes) (events : list ProtocolEvent) : outcome (list ProtocolEvent) :=
  match lines with
  | [] => Ret events
  | line :: lines' =>
      if len line =? 0 then each_line clk decode lines' events else
      ev ← decode line (clk (length events));
      each_line clk decode lines' (match ev with Some e => events ++ [e] | None => events end)
  end.

Definition parse_lines (clk : clock) (decode : bytes -> Z -> outcome (option ProtocolEvent))
    (data : bytes) : outcome (result (list ProtocolEvent)) :=
  events ← each_line clk decode (Split data CRLF) []; Ret (OkR events).

(** A word of a command line: [if idx := strings.IndexByte(cmd, ' '); idx > 0 {
    cmd = cmd[:idx] }]. *)
Definition first_word (cmd : bytes) : outcome bytes :=
  match IndexByte cmd x20 with
  | Some idx => if (0 <? idx)%nat then slice_to cmd (Z.of_nat idx) else Ret cmd
  | None => Ret cmd
  end.

(** A reply of SMTP and FTP: a 3-digit code, a separator, a message. *)
Definition reply_fields (s : bytes) : outcome (option (Z * bytes)) :=
  if 3 <=? len s then
    c ← slice_to s 3;
    match Atoi c with
    | Some code =>
        msg ← (if 4 <? len s then slice_from s 4 else Ret []);
        Ret (Some (code, msg))
    | None => Ret None
    end
  else Ret None.

Definition truncate_line (s : bytes) (n : Z) : outcome bytes :=
  if len s <=? n then Ret s else slice_to s n.

Definition text_event (now : Z) (name : bytes) (dir : Direction) (meta : ConnMeta) (m : string_map)
    : ProtocolEvent :=
  set_Metadata (fillMeta (NewEvent now name dir) meta) m.

Definition reply_event (now : Z) (name : bytes) (meta : ConnMeta) (r : option (Z * bytes))
    : option ProtocolEvent :=
  match r with
  | Some (code, msg) =>
      Some (text_event now name DirectionResponse meta
              (<[str "code" := Itoa code]> {[str "message" := msg]}))
  | None => None
  end.

Module Smtp.
Section Smtp.
Context `{Unicode}.

Definition smtpCommands : list bytes :=
  [str "EHLO "; str "HELO "; str "MAIL FROM:"; str "RCPT TO:"; str "DATA"; str "QUIT";
   str "RSET"; str "NOOP"; str "AUTH "].

Definition Name : bytes := str "smtp".
Definition Ports : list Z := [25; 587].

Definition Probe (data : bytes) (isFromClient : bool) : outcome Z :=
  if len data <? 4 then Ret 0 else
  let s := clip data 128 in
  if existsb (HasPrefix s) [str "220 "; str "EHLO "; str "HELO "; str "MAIL FROM:"; str "RCPT TO:"]
  then Ret 90 else
  b3 ← index data 3;
  if Byte.eqb b3 x20 || Byte.eqb b3 x2d then
    c ← slice_to data 3;
    match Atoi c with Some _ => Ret 60 | None => Ret 0 end
  else Ret 0.

(** The loop over the known commands. *)
Fixpoint find_command (upper : bytes) (cmds : list bytes) : option bytes :=
  match cmds with
  | [] => None
  | cmd :: cmds' =>
      if HasPrefix upper cmd
      then Some (TrimSpace (default [] (head (SplitN cmd (str " ") 2))))
      else find_command upper cmds'
  end.

Definition extractCommand (line : bytes) : outcome bytes :=
  match find_command (ToUpper line) smtpCommands with
  | Some cmd => Ret cmd
  | None => w ← first_word line; Ret (ToUpper w)
  end.

Definition decode_line (meta : ConnMeta) (isFromClient : bool) (s : bytes) (now : Z)
    : outcome (option ProtocolEvent) :=
  if isFromClient then
    cmd ← extractCommand s;
    Ret (Some (text_event now Name DirectionRequest meta
                 (<[str "command" := cmd]> {[str "line" := s]})))
  else r ← reply_fields s; Ret (reply_event now Name meta r).

Definition Parse (clk : clock) (data : bytes) (meta : ConnMeta) (isFromClient : bool)
    : outcome (result (list ProtocolEvent)) :=
  parse_lines clk (decode_line meta isFromClient) data.
End Smtp.
End Smtp.

Module Ftp.
Section Ftp.
Context `{Unicode}.

Definition Name : bytes := str "ftp".
Definition Ports : list Z := [21].

Definition Probe (data : bytes) (isFromClient : bool) : outcome Z :=
  if len data <? 3 then Ret 0 else
  let s := clip data 128 in
  if existsb (HasPrefix s) [str "220 "; str "USER "; str "PASS "; str "LIST"; str "RETR"; str "STOR"]
  then Ret 90 else Ret 0.

Definition decode_line (meta : ConnMeta) (isFromClient : bool) (s : bytes) (now : Z)
    : outcome (option ProtocolEvent) :=
  if isFromClient then
    cmd ← first_word (ToUpper s);
    Ret (Some (text_event now Name DirectionRequest meta
                 (<[str "command" := cmd]> {[str "line" := s]})))
  else r ← reply_fields s; Ret (reply_event now Name meta r).

Definition Parse (clk : clock) (data : bytes) (meta : ConnMeta) (isFromClient : bool)
    : outcome (result (list ProtocolEvent)) :=
  parse_lines clk (decode_line meta isFromClient) data.
End Ftp.
End Ftp.

Module Pop3.
Section Pop3.
Context `{Unicode}.

Definition Name : bytes := str "pop3".
Definition Ports : list Z := [110; 995].

Definition Probe (data : bytes) (isFromClient : bool) : outcome Z :=
  if len data <? 3 then Ret 0 else
  let s := clip data 64 in
  if existsb (HasPrefix s) [str "+OK"; str "-ERR"; str "USER "; str "PASS "; str "RETR "]
  then Ret 90 else Ret 0.

Definition decode_line (meta : ConnMeta) (isFromClient : bool) (s : bytes) (now : Z)
    : outcome (option ProtocolEvent) :=
  if isFromClient then
    cmd ← first_word (ToUpper s);
    Ret (Some (text_event now Name DirectionRequest meta {[str "command" := cmd]}))
  else
    l ← truncate_line s 256;
    let status := if HasPrefix s (str "-ERR") then str "ERR" else str "OK" in
    Ret (Some (text_event now Name DirectionResponse meta
                 (<[str "status" := status]> {[str "line" := l]}))).

Definition Parse (clk : clock) (data : bytes) (meta : ConnMeta) (isFromClient : bool)
    : outcome (result (list ProtocolEvent)) :=
  parse_lines clk (decode_line meta isFromClient) data.
End Pop3.
End Pop3.

Module Imap.
Section Imap.
Context `{Unicode}.

Definition Name : bytes := str "imap".
Definition Ports : list Z := [143; 993].

Definition Probe (data : bytes) (isFromClient : bool) : outcome Z :=
  if len data <? 4 then Ret 0 else
  let s := clip data 128 in
  let upper := ToUpper s in
  if HasPrefix s (str "* OK") then Ret 90
  else if existsb (Contains upper) [str " LOGIN "; str " SELECT "; str " FETCH "; str " LIST ";
                                    str " LOGOUT"; str " CAPABILITY"; str " SEARCH "]
  then Ret 80
  else if HasPrefix s (str "* ") then Ret 60 else Ret 0.

Definition decode_line (meta : ConnMeta) (isFromClient : bool) (s : bytes) (now : Z)
    : outcome (option ProtocolEvent) :=
  if isFromClient then
    let '(tag, cmd) :=
      match SplitN s (str " ") 3 with
      | tag :: cmd :: _ => (tag, ToUpper cmd)
      | _ => ([], s)
      end in
    Ret (Some (text_event now Name DirectionRequest meta
                 (<[str "tag" := tag]> {[str "command" := cmd]})))
  else
    l ← truncate_line s 256;
    Ret (Some (text_event now Name DirectionResponse meta {[str "line" := l]})).

Definition Parse (clk : clock) (data : bytes) (meta : ConnMeta) (isFromClient : bool)
    : outcome (result (list ProtocolEvent)) :=
  parse_lines clk (decode_line meta isFromClient) data.
End Imap.
End Imap.

Module Ssh.

Definition Name : bytes := str "ssh".
Definition Ports : list Z := [22].

Definition Probe (data : bytes) (isFromClient : bool) : outcome Z :=
  if (4 <=? len data) && HasPrefix data (str "SSH-") then Ret 95 else Ret 0.

Definition Parse (clk : clock) (data : bytes) (meta : ConnMeta) (isFromClient : bool)
    : outcome (result (list ProtocolEvent)) :=
  if len data <? 4 then Ret (OkR []) else
  line ← (match IndexByte data x0a with
          | Some idx => slice_to data (Z.of_nat idx)
          | None => Ret data
          end);
  let versionStr := TrimRight line x0d in
  let m : string_map := {[str "version_string" := versionStr]} in
  let m := match SplitN versionStr (str "-") 3 with
           | [p0; p1; p2] =>
               <[str "software" := p2]> (<[str "protocol_version" := p0 ++ str "-" ++ p1]> m)
           | _ => m
           end in
  Ret (OkR [text_event (clk 0%nat) Name (side_dir isFromClient) meta m]).
End Ssh.

(** ** What the parsers extract from a line *)

Section Lines.
Context `{Unicode}.

Inductive line_protocol := SMTP | FTP | POP3 | IMAP.

Definition line_Parse (p : line_protocol) :=
  match p with
  | SMTP => Smtp.Parse | FTP => Ftp.Parse | POP3 => Pop3.Parse | IMAP => Imap.Parse
  end.

Definition line_decode (p : line_protocol) :=
  match p with
  | SMTP => Smtp.decode_line | FTP => Ftp.decode_line
  | POP3 => Pop3.decode_line | IMAP => Imap.decode_line
  end.

(** The text up to the first space, or all of it when it has none or starts
    with one. *)
Definition word (s : bytes) : bytes :=
  match IndexByte s x20 with
  | Some (S i) => take (S i) s
  | _ => s
  end.

Definition reply (s : bytes) : option (Z * bytes) :=
  if 3 <=? len s
  then match Atoi (take 3 s) with Some code => Some (code, drop 4 s) | None => None end
  else None.

Definition command (p : line_protocol) (s : bytes) : string_map :=
  match p with
  | SMTP =>
      let cmd := match Smtp.find_command (ToUpper s) Smtp.smtpCommands with
                 | Some cmd => cmd | None => ToUpper (word s) end in
      <[str "command" := cmd]> {[str "line" := s]}
  | FTP => <[str "command" := word (ToUpper s)]> {[str "line" := s]}
  | POP3 => {[str "command" := word (ToUpper s)]}
  | IMAP =>
      match SplitN s (str " ") 3 with
      | tag :: cmd :: _ => <[str "tag" := tag]> {[str "command" := ToUpper cmd]}
      | _ => <[str "tag" := []]> {[str "command" := s]}
      end
  end.

Definition response (p : line_protocol) (s : bytes) : option string_map :=
  match p with
  | SMTP | FTP =>
      match reply s with
      | Some (code, msg) => Some (<[str "code" := Itoa code]> {[str "message" := msg]})
      | None => None
      end
  | POP3 =>
      let status := if HasPrefix s (str "-ERR") then str "ERR" else str "OK" in
      Some (<[str "status" := status]> {[str "line" := take 256 s]})
  | IMAP => Some {[str "line" := take 256 s]}
  end.

Definition line_name (p : line_protocol) : bytes :=
  match p with SMTP => str "smtp" | FTP => str "ftp" | POP3 => str "pop3" | IMAP => str "imap" end.

(** The event of a line, if it has one. *)
Definition line_event (p : line_protocol) (meta : ConnMeta) (isFromClient : bool) (s : bytes)
    (now : Z) : option ProtocolEvent :=
  text_event now (line_name p) (side_dir isFromClient) meta <$>
    (if isFromClient then Some (command p s) else response p s).

Lemma first_word_ret s : first_word s = Ret (word s).
Proof.
  unfold first_word, word. destruct (IndexByte s x20) as [[|i]|] eqn:E; [done| |done].
  apply IndexByte_Some in E as (Hl & _). change (0 <? S i)%nat with true. cbn match.
  rewrite slice_to_ret by (unfold len; lia). by rewrite Nat2Z.id.
Qed.

Lemma reply_fields_ret s : reply_fields s = Ret (reply s).
Proof.
  unfold reply_fields, reply. destruct (3 <=? len s) eqn:E; [|done].
  rewrite slice_to_ret by lia. cbn [mbind outcome_bind]. change (Z.to_nat 3) with 3%nat.
  destruct (Atoi (take 3 s)) as [code|]; [|done]. destruct (4 <? len s) eqn:E4.
  - rewrite slice_from_ret by lia. done.
  - rewrite drop_ge by (unfold len in *; lia). done.
Qed.

Lemma truncate_line_ret s n : 0 <= n -> truncate_line s n = Ret (take (Z.to_nat n) s).
Proof.
  intros. unfold truncate_line. destruct (len s <=? n) eqn:E.
  - rewrite take_ge by (unfold len in *; lia). done.
  - apply slice_to_ret. lia.
Qed.

(** The code computes that event on every line. *)
Lemma line_decode_ret p meta isFromClient s now :
  line_decode p meta isFromClient s now = Ret (line_event p meta isFromClient s now).
Proof.
  unfold line_event. destruct p, isFromClient; cbn [line_decode command response line_name side_dir].
  - unfold Smtp.decode_line, Smtp.extractCommand. rewrite first_word_ret.
    by destruct (Smtp.find_command _ _).
  - unfold Smtp.decode_line. rewrite reply_fields_ret. by destruct (reply s) as [[c m]|].
  - unfold Ftp.decode_line. by rewrite first_word_ret.
  - unfold Ftp.decode_line. rewrite reply_fields_ret. by destruct (reply s) as [[c m]|].
  - unfold Pop3.decode_line. by rewrite first_word_ret.
  - unfold Pop3.decode_line. by rewrite truncate_line_ret.
  - unfold Imap.decode_line. by destruct (SplitN s (str " ") 3) as [|tag [|cmd rest]].
  - unfold Imap.decode_line. by rewrite truncate_line_ret.
Qed.

Definition not_empty (l : bytes) : bool := negb (len l =? 0).

Lemma each_line_ret clk p meta isFromClient lines events :
  each_line clk (line_decode p meta isFromClient) lines events =
  Ret (fold_left (fun evs l => append_event clk (line_event p meta isFromClient l) evs)
         (List.filter not_empty lines) events).
Proof.
  revert events. induction lines as [|l lines IH]; intros events; [done|].
  cbn [each_line List.filter]. unfold not_empty at 1.
  destruct (len l =? 0); cbn [negb]; [apply IH|]. rewrite line_decode_ret.
  cbn [mbind outcome_bind fold_left]. by rewrite IH.
Qed.

Lemma line_untimed p meta isFromClient l now :
  untimed <$> line_event p meta isFromClient l now = line_event p meta isFromClient l 0.
Proof. unfold line_event. by destruct (if isFromClient then _ else _). Qed.

Lemma lines_untimed clk p meta isFromClient lines events :
  untimed <$> fold_left (fun evs l => append_event clk (line_event p meta isFromClient l) evs) lines events
  = (untimed <$> events) ++ omap (fun l => line_event p meta isFromClient l 0) lines.
Proof.
  revert events. induction lines as [|l lines IH]; intros events; simpl; [by rewrite app_nil_r|].
  rewrite IH. unfold append_event. rewrite <- (line_untimed p meta isFromClient l (clk (length events))).
  destruct (line_event _ _ _ _ (clk _)); simpl; [by rewrite fmap_app, <- app_assoc|done].
Qed.

Lemma line_Parse_lines p clk data meta isFromClient :
  line_Parse p clk data meta isFromClient =
  parse_lines clk (line_decode p meta isFromClient) data.
Proof. by destruct p. Qed.

Lemma line_Parse_Join p clk lines meta isFromClient :
  lines <> [] -> Forall (fun l => Index l CRLF = None) lines ->
  exists evs,
    line_Parse p clk (Join lines CRLF) meta isFromClient = Ret (OkR evs)
    /\ untimed <$> evs =
       omap (fun l => line_event p meta isFromClient l 0) (List.filter not_empty lines).
Proof.
  intros Hne Hl. rewrite line_Parse_lines. unfold parse_lines, CRLF.
  rewrite Split_Join by (done || set_solver). rewrite each_line_ret. eexists. split; [done|].
  by rewrite lines_untimed.
Qed.

(** The lines a text starts with give their events first, whatever follows. *)
Lemma line_Parse_prefix p clk lines t meta isFromClient :
  Forall (fun l => Index l CRLF = None) lines ->
  exists evs,
    line_Parse p clk (concat (map (fun l => l ++ CRLF) lines) ++ t) meta isFromClient = Ret (OkR evs)
    /\ omap (fun l => line_event p meta isFromClient l 0) (List.filter not_empty lines) `prefix_of` untimed <$> evs.
Proof.
  intros Hl. rewrite line_Parse_lines. unfold parse_lines. rewrite each_line_ret. eexists. split; [done|].
  assert (Hs : Split (concat (map (fun l => l ++ CRLF) lines) ++ t) CRLF = lines ++ Split t CRLF).
  { induction Hl as [|l lines Hl Hls IH]; [done|]. cbn [map concat]. rewrite <- !app_assoc. unfold CRLF at 1 3.
    rewrite Split_app by (done || set_solver). cbn [app]. f_equal. exact IH. }
  rewrite Hs, lines_untimed, List.filter_app, omap_app. by eexists.
Qed.

(** SMTP, FTP, POP3 and IMAP: a text of lines that hold no CRLF gives, in
    order, the event of each non-empty line that has one; no input makes
    these parsers panic or fail. *)
Theorem text_Parse_lines p clk lines meta isFromClient :
  lines <> [] -> Forall (fun l => Index l CRLF = None) lines ->
  exists evs,
    line_Parse p clk (Join lines CRLF) meta isFromClient = Ret (OkR evs)
    /\ untimed <$> evs =
       omap (fun l => line_event p meta isFromClient l 0) (List.filter not_empty lines).
Proof. apply line_Parse_Join. Qed.

Lemma line_Parse_ret p clk data meta isFromClient :
  exists evs, line_Parse p clk data meta isFromClient = Ret (OkR evs)
    /\ (length evs <= length (List.filter not_empty (Split data CRLF)))%nat.
Proof.
  rewrite line_Parse_lines. unfold parse_lines. rewrite each_line_ret. eexists. split; [done|].
  set (ls := List.filter _ _). clearbody ls.
  assert (Hle : forall evs, (length (fold_left (fun evs l => append_event clk (line_event p meta isFromClient l) evs) ls evs)
    <= length evs + length ls)%nat); [|apply (Hle [])].
  induction ls as [|l ls IH]; intros evs; cbn [fold_left length]; [lia|].
  etrans; [apply IH|]. unfold append_event. destruct (line_event _ _ _ _ _); [rewrite length_app; simpl|]; lia.
Qed.

(** Every call of the [Parse] of SMTP, FTP, POP3 and IMAP returns a nil
    error: one event per line at most, and none for the empty lines. *)
Theorem text_Parse_total p clk data meta isFromClient :
  exists evs, line_Parse p clk data meta isFromClient = Ret (OkR evs)
    /\ (length evs <= length (List.filter not_empty (Split data CRLF)))%nat.
Proof. apply line_Parse_ret. Qed.
End Lines.

(** The SSH banner [SSH-<version>-<software>], ended by LF or CRLF and
    followed by anything, gives its protocol version and software. *)
Theorem ssh_banner clk pv sw cr t meta isFromClient :
  x2d ∉ pv -> x0a ∉ pv ++ sw -> TrimRight sw x0d = sw -> sw <> [] ->
  cr = [] \/ cr = [x0d] ->
  exists ev,
    Ssh.Parse clk (str "SSH-" ++ pv ++ str "-" ++ sw ++ cr ++ [x0a] ++ t) meta isFromClient = Ret (OkR [ev])
    /\ Metadata ev = Some (<[str "software" := sw]> (<[str "protocol_version" := str "SSH-" ++ pv]>
         {[str "version_string" := str "SSH-" ++ pv ++ str "-" ++ sw]})).
Proof.
  intros Hpv Hlf Htrim Hne Hcr. set (banner := str "SSH-" ++ pv ++ str "-" ++ sw).
  rewrite not_elem_of_app in Hlf. destruct Hlf as [Hlf1 Hlf2].
  assert (Hb : x0a ∉ banner).
  { unfold banner. rewrite !not_elem_of_app. repeat split; try done; set_solver. }
  replace (str "SSH-" ++ pv ++ str "-" ++ sw ++ cr ++ [x0a] ++ t)
    with ((banner ++ cr) ++ x0a :: t) by (unfold banner; rewrite <- !app_assoc; done).
  unfold Ssh.Parse.
  assert (Hlen : 4 <= len (banner ++ cr)).
  { unfold banner. rewrite !len_app. change (len (str "SSH-")) with 4.
    pose proof (len_nonneg pv). pose proof (len_nonneg sw). pose proof (len_nonneg (str "-")).
    pose proof (len_nonneg cr). lia. }
  replace (len _ <? 4) with false by (rewrite len_app; pose proof (len_nonneg (x0a :: t)); lia).
  rewrite IndexByte_app by (destruct Hcr as [-> | ->]; set_solver).
  rewrite slice_to_ret by (rewrite len_app; pose proof (len_nonneg (x0a :: t)); unfold len in *; lia).
  rewrite Nat2Z.id, take_app_length. cbn [mbind outcome_bind].
  assert (Ht : TrimRight (banner ++ cr) x0d = banner).
  { assert (TrimRight banner x0d = banner).
    { unfold banner. rewrite !app_assoc. rewrite TrimRight_app; by rewrite Htrim. }
    destruct Hcr as [-> | ->]; [by rewrite app_nil_r|by rewrite TrimRight_snoc]. }
  rewrite Ht.
  assert (Hs : SplitN banner (str "-") 3 = [str "SSH"; pv; sw]).
  { unfold banner. change (str "SSH-" ++ pv ++ str "-" ++ sw) with (str "SSH" ++ (x2d :: []) ++ pv ++ (x2d :: []) ++ sw).
    change (str "-") with [x2d].
    rewrite (SplitN_app x2d [] (str "SSH")) by (set_solver || done).
    rewrite (SplitN_app x2d [] pv); [done|set_solver|]. by apply Index_singleton_None. }
  rewrite Hs. eexists. split; [done|]. done.
Qed.

Lemma text_Parse_lines_witness :
  let lines := [str "mail from:<a@b>"; []; str "QUIT"] in
  let meta := {| m_SrcIP := []; m_DstIP := []; m_SrcPort := 4000; m_DstPort := 25; m_ConnID := 0 |} in
  exists evs,
    @line_Parse ascii_unicode SMTP (fun _ => 7) (Join lines CRLF) meta true = Ret (OkR evs)
    /\ untimed <$> evs = omap (fun l => @line_event ascii_unicode SMTP meta true l 0) (List.filter not_empty lines).
Proof.
  intros lines meta. apply (@text_Parse_lines ascii_unicode SMTP (fun _ => 7) lines meta true);
    unfold lines; ground.
Defined.

Lemma ssh_banner_witness :
  let meta := {| m_SrcIP := []; m_DstIP := []; m_SrcPort := 4000; m_DstPort := 22; m_ConnID := 0 |} in
  exists ev,
    Ssh.Parse (fun _ => 7) (str "SSH-2.0-OpenSSH_9.6" ++ [x0d; x0a]) meta true = Ret (OkR [ev])
    /\ Metadata ev = Some (<[str "software" := str "OpenSSH_9.6"]> (<[str "protocol_version" := str "SSH-2.0"]>
         {[str "version_string" := str "SSH-2.0-OpenSSH_9.6"]})).
Proof.
  intros meta. apply (ssh_banner (fun _ => 7) (str "2.0") (str "OpenSSH_9.6") [x0d] [] meta true); ground.
  by right.
Defined.
