(* ===== verification/Unknown.v ===== *)
(** * The fallback parser ([internal/protocol/unknown/parser.go])

    A hexadecimal excerpt of at most 128 bytes and the size of the input, with
    the package's own conversion of an integer to decimal text. *)

From S2P Require Import Prelude.
From S2P Require Import GoStrings.
From S2P Require Import Event.

Module Unknown.

Definition maxExcerptLen : Z := 128.

Definition Name : bytes := str "unknown".
Definition Ports : list Z := [].

Definition Probe (data : bytes) (isFromClient : bool) : outcome Z :=
  if len data =? 0 then Ret 0 else Ret 1.

(** ** [intToStr] *)

(** The digits of [n], the last one first. *)
Definition digits_step (s : Z * bytes) : outcome (Z * bytes + bytes) :=
  let '(n, buf) := s in
  if 0 <? n then Ret (inl (n / 10, buf ++ [byte_of (48 + n mod 10)])) else Ret (inr buf).

(** The in-place reversal: it swaps [buf[i]] and [buf[j]]. *)
Definition reverse_step (s : Z * Z * bytes) : outcome (Z * Z * bytes + bytes) :=
  let '(i, j, buf) := s in
  if i <? j then
    bi ← index buf i; bj ← index buf j;
    Ret (inl (i + 1, j - 1, <[Z.to_nat j := bi]> (<[Z.to_nat i := bj]> buf)))
  else Ret (inr buf).

Definition intToStr (n : Z) : outcome bytes :=
  if n =? 0 then Ret (str "0") else
  buf ← for_loop (S (S (Z.to_nat (Z.log2 n)))) digits_step (n, []);
  for_loop (S (length buf)) reverse_step (0, len buf - 1, buf).

Definition Parse (clk : clock) (data : bytes) (meta : ConnMeta) (isFromClient : bool)
    : outcome (result (list ProtocolEvent)) :=
  if len data =? 0 then Ret (OkR []) else
  excerpt ← (if maxExcerptLen <? len data then slice_to data maxExcerptLen else Ret data);
  size ← intToStr (len data);
  let m : string_map := <[str "raw_hex" := hex_encode excerpt]> {[str "total_size" := size]} in
  Ret (OkR [set_Metadata (set_RawExcerpt (fillMeta
    (NewEvent (clk 0%nat) Name (side_dir isFromClient)) meta) excerpt) m]).

(** ** The decimal text *)

Lemma digits_loop fuel n buf :
  0 <= n < 10 ^ Z.of_nat fuel -> n <> 0 \/ fuel = O ->
  for_loop (S fuel) digits_step (n, buf) =
  Ret (buf ++ reverse (if n =? 0 then [] else dec_digits fuel n)).
Proof.
  revert n buf. induction fuel as [|fuel IH]; intros n buf Hn Hz.
  - simpl in Hn. assert (n = 0) as -> by lia. cbn. by rewrite app_nil_r.
  - assert (n <> 0) by (destruct Hz; [done|lia]). replace (n =? 0) with false by lia.
    rewrite (for_loop_cont _ _ _ (n / 10, buf ++ [byte_of (48 + n mod 10)]))
      by (unfold digits_step; by replace (0 <? n) with true by lia).
    cbn [dec_digits]. rewrite Nat2Z.inj_succ, Z.pow_succ_r in Hn by lia.
    destruct (n <? 10) eqn:E.
    + assert (n / 10 = 0) as -> by (apply Z.div_small; lia).
      rewrite (for_loop_done _ _ _ (buf ++ [byte_of (48 + n mod 10)])) by done.
      rewrite Z.mod_small by lia. done.
    + rewrite IH.
      * assert (n / 10 <> 0) by (Z.div_mod_to_equations; lia).
        replace (n / 10 =? 0) with false by lia.
        rewrite reverse_app, <- app_assoc. done.
      * split; [apply Z.div_pos; lia|apply Z.div_lt_upper_bound; lia].
      * left. Z.div_mod_to_equations; lia.
Qed.

Lemma reverse_loop (m a c : bytes) fuel :
  length a = length c -> (length m < fuel)%nat ->
  for_loop fuel reverse_step (len a, len a + len m - 1, a ++ m ++ c) = Ret (a ++ reverse m ++ c).
Proof.
  remember (length m) as n eqn:Hn. revert m Hn a c fuel.
  induction n as [n IH] using lt_wf_ind. intros m -> a c fuel Hac Hf.
  destruct fuel as [|fuel]; [lia|]. destruct m as [|x m].
  { apply for_loop_done. unfold reverse_step. change (len (@nil byte)) with 0.
    by replace (len a <? _) with false by lia. }
  destruct m as [|y m _] using rev_ind.
  { apply for_loop_done. unfold reverse_step. change (len [x]) with 1.
    by replace (len a <? _) with false by lia. }
  assert (Hm : len (x :: m ++ [y]) = 2 + len m) by lens.
  pose proof (len_nonneg m). pose proof (len_nonneg a).
  rewrite (for_loop_cont _ _ _ (len (a ++ [y]), len (a ++ [y]) + len m - 1, (a ++ [y]) ++ m ++ (x :: c))).
  - rewrite (IH (length m)); [| |done| |].
    + f_equal. change (x :: m ++ [y]) with ([x] ++ m ++ [y]). rewrite !reverse_app.
      rewrite <- !app_assoc. done.
    + simpl. rewrite length_app. simpl. lia.
    + rewrite length_app. simpl. lia.
    + simpl in Hf. rewrite length_app in Hf. simpl in Hf. lia.
  - unfold reverse_step. rewrite Hm. replace (len a <? _) with true by lia.
    set (b := a ++ (x :: m ++ [y]) ++ c).
    assert (Hb1 : b = a ++ x :: (m ++ y :: c)) by (unfold b; cbn [app]; by rewrite <- app_assoc).
    assert (Hb2 : b = (a ++ x :: m) ++ y :: c) by (rewrite Hb1, <- app_assoc; done).
    rewrite (index_ret b (len a) x), (index_ret b (len a + (2 + len m) - 1) y).
    + cbn [mbind outcome_bind]. do 3 f_equal.
      * f_equal; rewrite len_app; change (len [y]) with 1; lia.
      * replace (Z.to_nat (len a)) with (length a) by (unfold len; lia). rewrite Hb1.
        rewrite insert_app_r_alt, Nat.sub_diag by lia. cbn [insert list_insert].
        replace (Z.to_nat (len a + (2 + len m) - 1)) with (length (a ++ y :: m))
          by (rewrite length_app; simpl; unfold len; lia).
        replace (a ++ y :: m ++ y :: c) with ((a ++ y :: m) ++ y :: c) by (by rewrite <- app_assoc).
        rewrite insert_app_r_alt, Nat.sub_diag by lia. cbn [insert list_insert].
        by rewrite <- !app_assoc.
    + lia.
    + rewrite Hb2. replace (Z.to_nat _) with (length (a ++ x :: m))
        by (rewrite length_app; simpl; unfold len; lia). by apply list_lookup_middle.
    + lia.
    + rewrite Hb1. replace (Z.to_nat _) with (length a) by (unfold len; lia).
      by apply list_lookup_middle.
Qed.

Lemma intToStr_ret n : 0 <= n -> intToStr n = Ret (Itoa n).
Proof.
  intros Hn. unfold intToStr. destruct (n =? 0) eqn:E.
  { apply Z.eqb_eq in E as ->. done. }
  rewrite digits_loop; [|split; [done|by apply dec_fuel_enough]|lia]. rewrite E.
  cbn [mbind outcome_bind app]. set (ds := dec_digits _ n).
  pose proof (reverse_loop (reverse ds) [] [] (S (length (reverse ds))) eq_refl ltac:(lia)) as Hr.
  cbn [app] in Hr. rewrite !app_nil_r, reverse_involutive in Hr.
  change (len (@nil byte)) with 0 in Hr. rewrite Z.add_0_l in Hr. rewrite Hr.
  unfold Itoa. by replace (n <? 0) with false by lia.
Qed.

(** The package's own [intToStr] computes the decimal text of
    [strconv.Itoa] on every non-negative integer. *)
Theorem unknown_intToStr n : 0 <= n -> intToStr n = Ret (Itoa n).
Proof. apply intToStr_ret. Qed.

(** On non-empty input [Parse] gives one event whose excerpt is the first
    128 bytes, written in hexadecimal in the metadata with the input's size. *)
Theorem unknown_Parse_event clk data meta isFromClient :
  data <> [] ->
  exists ev, Parse clk data meta isFromClient = Ret (OkR [ev])
    /\ RawExcerpt ev = take 128 data
    /\ Metadata ev = Some (<[str "raw_hex" := hex_encode (take 128 data)]>
                             {[str "total_size" := Itoa (len data)]}).
Proof.
  intros Hne. unfold Parse, maxExcerptLen. replace (len data =? 0) with false
    by (destruct data; [done|lens]).
  assert (He : (if 128 <? len data then slice_to data 128 else Ret data) = Ret (take 128 data)).
  { destruct (128 <? len data) eqn:E; [apply slice_to_ret; lia|].
    rewrite take_ge; [done|unfold len in *; lia]. }
  rewrite He, intToStr_ret by apply len_nonneg. eexists. done.
Qed.
End Unknown.
