(* ===== verification/Websocket.v ===== *)
(** * The WebSocket parser ([internal/protocol/websocket/parser.go])

    The HTTP upgrade of a connection and the first two bytes of frames. The
    parser slices a header line by the length of a name it matched on the
    line's lower-case image; case mapping may change the length of a line. *)

From S2P Require Import Prelude.
From S2P Require Import GoStrings.
From S2P Require Import Event.

Module Websocket.
Section Websocket.
Context `{Unicode}.

Definition opcodeNames (op : Z) : option bytes :=
  match op with
  | 0 => Some (str "continuation") | 1 => Some (str "text") | 2 => Some (str "binary")
  | 8 => Some (str "close") | 9 => Some (str "ping") | 10 => Some (str "pong")
  | _ => None
  end.

Definition Name : bytes := str "websocket".
Definition Ports : list Z := [80; 443; 8080].

Definition containsIgnoreCase (s substr : bytes) : bool :=
  Contains (ToLower s) (ToLower substr).

Definition boolStr (b : bool) : bytes := if b then str "true" else str "false".
Definition intStr (n : Z) : bytes := Itoa n.

Definition Probe (data : bytes) (isFromClient : bool) : outcome Z :=
  if len data <? 4 then Ret 0 else
  if isFromClient && HasPrefix data (str "GET ")
     && containsIgnoreCase (clip data 512) (str "upgrade: websocket") then Ret 95 else
  if negb isFromClient && HasPrefix data (str "HTTP/1.1 101")
     && containsIgnoreCase (clip data 512) (str "upgrade: websocket") then Ret 95 else
  if 2 <=? len data then
    b ← index data 0;
    let opcode := Z.land (u8 b) 0x0F in
    if (opcode <=? 0x2) || ((0x8 <=? opcode) && (opcode <=? 0xA)) then
      if negb (Z.land (u8 b) 0x80 =? 0) then Ret 40 else Ret 0
    else Ret 0
  else Ret 0.

(** The loop over the header lines; [m] is [ev.Metadata]. *)
Fixpoint header_lines (lines : list bytes) (m : string_map) : outcome string_map :=
  match lines with
  | [] => Ret m
  | line :: lines' =>
      let lower := ToLower line in
      if HasPrefix lower (str "sec-websocket-key:") then
        v ← slice_from line (len (str "Sec-WebSocket-Key:"));
        header_lines lines' (<[str "ws_key" := TrimSpace v]> m)
      else if HasPrefix lower (str "sec-websocket-protocol:") then
        v ← slice_from line (len (str "Sec-WebSocket-Protocol:"));
        header_lines lines' (<[str "ws_protocol" := TrimSpace v]> m)
      else header_lines lines' m
  end.

Definition parseUpgrade (now : Z) (data : bytes) (meta : ConnMeta) (isFromClient : bool)
    : outcome (option ProtocolEvent) :=
  let s := clip data 1024 in
  if negb (containsIgnoreCase s (str "upgrade: websocket")) then Ret None else
  let lines := Split s CRLF in
  let m : string_map := {[str "type" := str "upgrade"]} in
  let m := match lines with l :: _ => <[str "request_line" := l]> m | [] => m end in
  rest ← slice_from lines 1;
  m ← header_lines rest m;
  Ret (Some (set_Metadata (fillMeta (NewEvent now Name (side_dir isFromClient)) meta) m)).

Definition frame_metadata (op : bytes) (b0 b1 : byte) : string_map :=
  <[str "type" := str "frame"]> (<[str "opcode" := op]>
    (<[str "fin" := boolStr (negb (Z.land (u8 b0) 0x80 =? 0))]>
      (<[str "masked" := boolStr (negb (Z.land (u8 b1) 0x80 =? 0))]>
        {[str "payload_len" := intStr (Z.land (u8 b1) 0x7F)]}))).

Definition parseFrame (now : Z) (data : bytes) (meta : ConnMeta) (isFromClient : bool)
    : outcome (option ProtocolEvent) :=
  if len data <? 2 then Ret None else
  b0 ← index data 0;
  match opcodeNames (Z.land (u8 b0) 0x0F) with
  | None => Ret None
  | Some op =>
      b1 ← index data 1;
      Ret (Some (set_Metadata (fillMeta (NewEvent now Name (side_dir isFromClient)) meta)
                   (frame_metadata op b0 b1)))
  end.

Definition Parse (clk : clock) (data : bytes) (meta : ConnMeta) (isFromClient : bool)
    : outcome (result (list ProtocolEvent)) :=
  u ← parseUpgrade (clk 0%nat) data meta isFromClient;
  match u with
  | Some ev => Ret (OkR [ev])
  | None =>
      f ← parseFrame (clk 0%nat) data meta isFromClient;
      match f with Some ev => Ret (OkR [ev]) | None => Ret (OkR []) end
  end.

(** A line whose lower-case image starts with the name is at least as long as
    the name, although its own bytes may differ. *)
Lemma slice_after_name line name k :
  HasPrefix (ToLower line) name = true -> Forall ascii name -> k = len name ->
  slice_from line k = Ret (drop (length name) line).
Proof.
  intros Hp Ha ->. pose proof (Map_runes_ascii_prefix _ _ _ Hp Ha).
  unfold len. rewrite slice_from_ret by (unfold len; lia). by rewrite Nat2Z.id.
Qed.

Definition asciib (l : bytes) : bool := forallb (fun b => u8 b <? 128) l.

Lemma asciib_spec l : asciib l = true -> Forall ascii l.
Proof.
  unfold asciib. rewrite forallb_forall. intros Hl. apply List.Forall_forall.
  intros b Hb. specialize (Hl b Hb). unfold ascii. lia.
Qed.

Lemma header_lines_wp lines m : wp (header_lines lines m) (fun _ => True).
Proof.
  revert m. induction lines as [|l lines IH]; intros m; [done|]. cbn [header_lines].
  destruct (HasPrefix _ (str "sec-websocket-key:")) eqn:E1.
  { rewrite (slice_after_name _ _ _ E1) by (done || by apply asciib_spec). apply IH. }
  destruct (HasPrefix _ (str "sec-websocket-protocol:")) eqn:E2; [|apply IH].
  rewrite (slice_after_name _ _ _ E2) by (done || by apply asciib_spec). apply IH.
Qed.

Lemma websocket_Parse_ret clk data meta isFromClient :
  exists evs, Parse clk data meta isFromClient = Ret (OkR evs) /\ (length evs <= 1)%nat.
Proof.
  enough (wp (Parse clk data meta isFromClient) (fun r =>
    exists evs, r = OkR evs /\ (length evs <= 1)%nat)) as Hw.
  { apply wp_returns in Hw as (r & -> & evs & -> & Hl). by eexists. }
  unfold Parse. go_step. eapply (wp_mono _ (fun _ => True)).
  - unfold parseUpgrade. cbv zeta. destruct (negb _); [done|].
    destruct (Split _ CRLF) as [|l ls] eqn:E; [by apply Split_not_nil in E|].
    rewrite slice_from_ret by (rewrite len_cons; pose proof (len_nonneg ls); lia).
    cbn [mbind outcome_bind]. go_step. eapply wp_mono; [apply header_lines_wp|done].
  - intros [ev|] _; [simpl; eauto|]. unfold parseFrame. go_step. go_step; [simpl; eauto|].
    rewrite bind_index by lia. destruct (opcodeNames _); [|simpl; eauto].
    rewrite bind_index by lia. simpl. eauto.
Qed.

(** Every call of [Parse] returns a nil error and at most one event, and
    never panics, whatever the case tables of Unicode are. *)
Theorem websocket_Parse_total clk data meta isFromClient :
  exists evs, Parse clk data meta isFromClient = Ret (OkR evs) /\ (length evs <= 1)%nat.
Proof. apply websocket_Parse_ret. Qed.

(** A frame header that is not an upgrade gives the frame's opcode, flags
    and the 7-bit payload length. *)
Theorem websocket_frame clk b0 b1 t meta isFromClient op :
  containsIgnoreCase (clip (b0 :: b1 :: t) 1024) (str "upgrade: websocket") = false ->
  opcodeNames (u8 b0 mod 16) = Some op ->
  Parse clk (b0 :: b1 :: t) meta isFromClient =
  Ret (OkR [set_Metadata (fillMeta (NewEvent (clk 0%nat) Name (side_dir isFromClient)) meta)
    (<[str "type" := str "frame"]> (<[str "opcode" := op]>
      (<[str "fin" := boolStr (128 <=? u8 b0)]>
        (<[str "masked" := boolStr (128 <=? u8 b1)]>
          {[str "payload_len" := Itoa (u8 b1 mod 128)]}))))]).
Proof.
  intros Hc Hop. unfold Parse, parseUpgrade. cbv zeta. rewrite Hc. cbn [negb mbind outcome_bind].
  unfold parseFrame. replace (len _ <? 2) with false by lens.
  change (index (b0 :: b1 :: t) 0) with (Ret b0). cbn [mbind outcome_bind].
  replace (Z.land (u8 b0) 15) with (u8 b0 mod 16) by (by destruct b0). rewrite Hop.
  change (index (b0 :: b1 :: t) 1) with (Ret b1). cbn [mbind outcome_bind].
  unfold frame_metadata, intStr.
  replace (negb (Z.land (u8 b0) 128 =? 0)) with (128 <=? u8 b0) by (by destruct b0).
  replace (negb (Z.land (u8 b1) 128 =? 0)) with (128 <=? u8 b1) by (by destruct b1).
  by replace (Z.land (u8 b1) 127) with (u8 b1 mod 128) by (by destruct b1).
Qed.
End Websocket.

Lemma websocket_frame_witness :
  let meta := {| m_SrcIP := []; m_DstIP := []; m_SrcPort := 4000; m_DstPort := 80; m_ConnID := 0 |} in
  @Parse ascii_unicode (fun _ => 7) [x81; x85; x01] meta true =
  Ret (OkR [set_Metadata (fillMeta (NewEvent 7 Name DirectionRequest) meta)
    (<[str "type" := str "frame"]> (<[str "opcode" := str "text"]>
      (<[str "fin" := boolStr true]> (<[str "masked" := boolStr true]>
        {[str "payload_len" := str "5"]}))))]).
Proof.
  intros meta. apply (@websocket_frame ascii_unicode (fun _ => 7) x81 x85 [x01] meta true (str "text"));
    reflexivity.
Defined.
End Websocket.
