(* ===== verification/Http.v ===== *)
(** * The HTTP/1.x parser ([internal/protocol/http/parser.go])

    The parser pairs the requests and responses of a connection by position:
    each direction has its own counter, and the [n]-th message of either
    direction gets the [n]-th UID. The counters live in a map keyed by
    connection that [Parse], [OnConnClose] and a janitor update; that map is the
    state passed along here. Messages are read by [net/http]: its readers are
    the class [NetHTTP]. *)

From S2P Require Import Prelude.
From S2P Require Import GoStrings.
From S2P Require Import Event.

(** ** [net/http] *)

(** [http.Header]: canonical names to values. *)
Abbreviation header := (gmap bytes (list bytes)).

Record request := {
  req_Method : bytes; req_URI : bytes; req_Host : bytes;
  req_Header : header; req_ContentLength : Z;
}.

Record response := { resp_StatusCode : Z; resp_Header : header; resp_ContentLength : Z }.

(** A body: the bytes that can be read from it, and whether reading it ends
    with an error instead of EOF. *)
Record body := { body_bytes : bytes; body_fails : bool }.

Inductive read_error := EOF | UnexpectedEOF | OtherError (msg : bytes).

(** [http.ReadRequest(reader)] and [http.ReadResponse(reader, nil)] on a reader
    whose unread input is given: an error, or a message, its body and the input
    that is left once the body is read or drained. A message that is read takes
    at least one byte. *)
Class NetHTTP := {
  ReadRequest : bytes -> read_error + request * body * bytes;
  ReadResponse : bytes -> read_error + response * body * bytes;
  ReadRequest_shorter d m b r : ReadRequest d = inr (m, b, r) -> (length r < length d)%nat;
  ReadResponse_shorter d m b r : ReadResponse d = inr (m, b, r) -> (length r < length d)%nat;
}.

(** A reader of messages without headers and bodies, that shows the laws can
    hold: a line of three words, then an empty line. *)
Definition read_head {M} (mk : list bytes -> option M) (d : bytes) : read_error + M * body * bytes :=
  match Index d (CRLF ++ CRLF) with
  | None => inl (if bool_decide (d = []) then EOF else UnexpectedEOF)
  | Some i =>
      match mk (SplitN (take i d) (str " ") 3) with
      | Some m => inr (m, {| body_bytes := []; body_fails := false |}, drop (i + 4) d)
      | None => inl (OtherError (str "malformed message"))
      end
  end.

Lemma read_head_shorter {M} mk d (m : M) b r :
  read_head mk d = inr (m, b, r) -> (length r < length d)%nat.
Proof.
  unfold read_head. destruct (Index d _) as [i|] eqn:E; [|done].
  apply Index_Some in E as [Hl _]. destruct (mk _); [|done]. intros Hr. injection Hr as _ _ <-.
  rewrite length_drop. cbn in Hl. lia.
Qed.

Definition head_http : NetHTTP := {|
  ReadRequest := read_head (fun ws => match ws with
    | [m; u; _] => Some {| req_Method := m; req_URI := u; req_Host := []; req_Header := ∅; req_ContentLength := 0 |}
    | _ => None end);
  ReadResponse := read_head (fun ws => match ws with
    | [_; c; _] => code ← Atoi c; Some {| resp_StatusCode := code; resp_Header := ∅; resp_ContentLength := 0 |}
    | _ => None end);
  ReadRequest_shorter := read_head_shorter _;
  ReadResponse_shorter := read_head_shorter _;
|}.

(** [h.Get(key)] for a canonical key *)
Definition Get (h : header) (key : bytes) : bytes :=
  match h !! key with Some (v :: _) => v | _ => [] end.

Module Http.

Definition httpPrefixes : list bytes :=
  [str "GET "; str "POST "; str "PUT "; str "DELETE "; str "HEAD "; str "PATCH ";
   str "OPTIONS "; str "HTTP/"].

(** Times in nanoseconds. *)
Definition minute : Z := 60 * 1000000000.
Definition connStateTTL : Z := 15 * minute.

Record connState := { reqSeq : Z; respSeq : Z; lastActivity : Z }.

Definition fresh : connState := {| reqSeq := 0; respSeq := 0; lastActivity := 0 |}.

(** The parser's [connStates] map. *)
Abbreviation states := (gmap Z connState).

Record Parser := { maxBodyBytes : Z }.

Definition NewParser (maxBodyBytes : Z) : Parser :=
  {| maxBodyBytes := if maxBodyBytes <? 0 then 0 else maxBodyBytes |}.

Definition Name : bytes := str "http".
Definition Ports : list Z := [80; 8080; 8000; 8888; 3000].

Definition Probe (data : bytes) (isFromClient : bool) : outcome Z :=
  if existsb (HasPrefix data) httpPrefixes then Ret 90 else Ret 0.

Definition stateFor (st : states) (connID : Z) : connState := default fresh (st !! connID).

Definition makeUID (connID seq : Z) : bytes :=
  hex_encode (be_bytes 8 connID) ++ str "-" ++ Itoa seq.

(** [io.ReadAll(io.LimitReader(r, n))]: the bytes and whether it failed. *)
Definition read_limited (b : body) (n : Z) : bytes * bool :=
  if n <=? len (body_bytes b) then (take (Z.to_nat n) (body_bytes b), false)
  else (body_bytes b, body_fails b).

(** The limit is computed in 64 bits: it wraps at the largest int, and nothing
    is read up to a negative limit. *)
Definition readBody (p : Parser) (b : body) : outcome (bytes * bool) :=
  if maxBodyBytes p =? 0 then Ret ([], false) else
  let '(buf, failed) := read_limited b (int64 (maxBodyBytes p + 1)) in
  if failed then
    if maxBodyBytes p <? len buf then b ← slice_to buf (maxBodyBytes p); Ret (b, true)
    else Ret (buf, false)
  else if maxBodyBytes p <? len buf then b ← slice_to buf (maxBodyBytes p); Ret (b, true)
  else Ret (buf, false).

(** A nil map is the empty one. *)
Definition flattenHeader (h : header) : string_map := (fun v => Join v (str ", ")) <$> h.

Definition int32 (z : Z) : Z := (z + 2 ^ 31) mod 2 ^ 32 - 2 ^ 31.

Definition request_event (now : Z) (meta : ConnMeta) (uid : bytes) (m : request) (b : bytes)
    (truncated : bool) : ProtocolEvent :=
  let host := if bool_decide (req_Host m = []) then Get (req_Header m) (str "Host") else req_Host m in
  set_HTTP (fillMeta (set_UID (NewEvent now Name DirectionRequest) uid) meta)
    {| http_Method := req_Method m; http_URL := req_URI m; http_Host := host; http_StatusCode := 0;
       http_Headers := flattenHeader (req_Header m);
       http_ContentType := Get (req_Header m) (str "Content-Type");
       http_BodyLength := req_ContentLength m; http_Body := b; http_BodyTruncated := truncated |}.

(** A negative [ContentLength] is replaced by the header's value, if it is one. *)
Definition content_length (m : response) : Z :=
  if resp_ContentLength m <? 0 then
    let cl := Get (resp_Header m) (str "Content-Length") in
    if bool_decide (cl = []) then resp_ContentLength m
    else default (resp_ContentLength m) (Atoi cl)
  else resp_ContentLength m.

Definition response_event (now : Z) (meta : ConnMeta) (uid : bytes) (m : response) (b : bytes)
    (truncated : bool) : ProtocolEvent :=
  set_HTTP (fillMeta (set_UID (NewEvent now Name DirectionResponse) uid) meta)
    {| http_Method := []; http_URL := []; http_Host := []; http_StatusCode := int32 (resp_StatusCode m);
       http_Headers := flattenHeader (resp_Header m);
       http_ContentType := Get (resp_Header m) (str "Content-Type");
       http_BodyLength := content_length m; http_Body := b; http_BodyTruncated := truncated |}.

Section Parse.
Context `{NetHTTP}.

(** [readRequest] and [readResponse] on the connection's state: the event, the
    input left and the state with the direction's counter advanced. *)
Definition readRequest (p : Parser) (now : Z) (reader : bytes) (meta : ConnMeta) (s : connState)
    : outcome (read_error + ProtocolEvent * bytes * connState) :=
  match ReadRequest reader with
  | inl e => Ret (inl e)
  | inr (m, b, rest) =>
      '(buf, truncated) ← readBody p b;
      let added := uint64 (reqSeq s + 1) in
      let ev := request_event now meta (makeUID (m_ConnID meta) (uint64 (added - 1))) m buf truncated in
      Ret (inr (ev, rest,
        {| reqSeq := added; respSeq := respSeq s; lastActivity := lastActivity s |}))
  end.

Definition readResponse (p : Parser) (now : Z) (reader : bytes) (meta : ConnMeta) (s : connState)
    : outcome (read_error + ProtocolEvent * bytes * connState) :=
  match ReadResponse reader with
  | inl e => Ret (inl e)
  | inr (m, b, rest) =>
      '(buf, truncated) ← readBody p b;
      let added := uint64 (respSeq s + 1) in
      let ev := response_event now meta (makeUID (m_ConnID meta) (uint64 (added - 1))) m buf truncated in
      Ret (inr (ev, rest,
        {| reqSeq := reqSeq s; respSeq := added; lastActivity := lastActivity s |}))
  end.

Definition read_message (p : Parser) (isFromClient : bool) :=
  if isFromClient then readRequest p else readResponse p.

(** The loop of [Parse]: [(reader, events, state)]. *)
Definition Parse_step (p : Parser) (clk : clock) (meta : ConnMeta) (isFromClient : bool)
    (x : bytes * list ProtocolEvent * connState)
    : outcome (bytes * list ProtocolEvent * connState + result (list ProtocolEvent) * connState) :=
  let '(reader, events, s) := x in
  r ← read_message p isFromClient (clk (length events)) reader meta s;
  match r with
  | inl e =>
      Ret (inr ((match events, e with
                 | _ :: _, _ => OkR events
                 | [], (EOF | UnexpectedEOF) => OkR []
                 | [], OtherError msg => ErrR (str "http: parse: " ++ msg)
                 end), s))
  | inr (ev, rest, s') => Ret (inl (rest, events ++ [ev], s'))
  end.

(** [now] is the time stored as the connection's last activity. *)
Definition Parse (p : Parser) (now : Z) (clk : clock) (data : bytes) (meta : ConnMeta)
    (isFromClient : bool) (st : states) : outcome (result (list ProtocolEvent) * states) :=
  let s := stateFor st (m_ConnID meta) in
  let s := {| reqSeq := reqSeq s; respSeq := respSeq s; lastActivity := now |} in
  '(r, s') ← for_loop (S (length data)) (Parse_step p clk meta isFromClient) (data, [], s);
  Ret (r, <[m_ConnID meta := s']> st).
End Parse.

(** One sweep of [gcLoop] at time [now]. *)
Definition gc (now : Z) (st : states) : states :=
  filter (fun '(_, s) => now - connStateTTL <= lastActivity s) st.

Definition OnConnClose (connID : Z) (st : states) : states := delete connID st.

(** [Close]: [gcStop] is closed once. *)
Definition Close (gcStop_closed : bool) : bool := true.

(** ** Bodies *)

Lemma readBody_ret p b :
  0 <= maxBodyBytes p < 2 ^ 63 - 1 ->
  readBody p b = Ret (take (Z.to_nat (maxBodyBytes p)) (body_bytes b),
    (0 <? maxBodyBytes p) && (maxBodyBytes p <? len (body_bytes b))).
Proof.
  intros Hm. unfold readBody, read_limited. destruct (maxBodyBytes p =? 0) eqn:E0.
  { assert (maxBodyBytes p = 0) as -> by lia. done. }
  replace (0 <? maxBodyBytes p) with true by lia. cbn [andb]. rewrite int64_small by (unfold min_int64, max_int64; lia).
  destruct (maxBodyBytes p + 1 <=? len (body_bytes b)) eqn:E.
  - replace (maxBodyBytes p <? len (body_bytes b)) with true by lia.
    rewrite len_take. replace (_ <? _) with true by lia.
    rewrite slice_to_ret by (rewrite len_take; lia). cbn [mbind outcome_bind].
    rewrite take_take. do 3 f_equal. lia.
  - replace (maxBodyBytes p <? len (body_bytes b)) with false by lia.
    rewrite take_ge by (unfold len in *; lia). by destruct (body_fails b).
Qed.

(** Whatever the limit is, the body is read without a panic. *)
Lemma readBody_returns p b : 0 <= maxBodyBytes p -> wp (readBody p b) (fun _ => True).
Proof.
  intros Hm. unfold readBody. destruct (_ =? 0); [done|]. destruct (read_limited b _) as [buf failed].
  destruct failed, (maxBodyBytes p <? len buf) eqn:E; try done; by rewrite slice_to_ret by lia.
Qed.

(** A captured body is the first [maxBodyBytes] bytes of the message's body
    and is flagged as truncated exactly when the body is longer; no bytes are
    captured when the limit is zero or negative. With the largest int as the
    limit nothing is captured either, and nothing is flagged: the limit of the
    read, one more, wraps around. *)
Theorem http_readBody n b :
  (n < 2 ^ 63 - 1 -> readBody (NewParser n) b =
    Ret (take (Z.to_nat n) (body_bytes b), (0 <? n) && (n <? len (body_bytes b)))) /\
  readBody (NewParser (2 ^ 63 - 1)) b = Ret ([], false).
Proof.
  split.
  - intros Hn. rewrite readBody_ret by (cbn; destruct (n <? 0) eqn:?; lia). cbn [NewParser maxBodyBytes].
    destruct (n <? 0) eqn:E; [|done]. replace (Z.to_nat n) with 0%nat by lia.
    by replace (0 <? n) with false by lia.
  - unfold readBody, read_limited. cbn [NewParser maxBodyBytes].
    replace (int64 _) with (- 2 ^ 63) by reflexivity. pose proof (len_nonneg (body_bytes b)).
    replace (- 2 ^ 63 <=? len (body_bytes b)) with true by lia. reflexivity.
Qed.

(** ** UIDs *)

Lemma be_bytes_inj n x y :
  0 <= x < 256 ^ Z.of_nat n -> 0 <= y < 256 ^ Z.of_nat n -> be_bytes n x = be_bytes n y -> x = y.
Proof. intros Hx Hy E. by rewrite <- (be_uint_be_bytes n x), E, be_uint_be_bytes. Qed.

Lemma makeUID_inj c n c' n' :
  0 <= c < 2 ^ 64 -> 0 <= c' < 2 ^ 64 -> 0 <= n -> 0 <= n' ->
  makeUID c n = makeUID c' n' -> c = c' /\ n = n'.
Proof.
  intros Hc Hc' Hn Hn' E. unfold makeUID in E. apply app_inj_1 in E as [E1 E2].
  2: { by rewrite !length_hex_encode, !length_be_bytes. }
  apply hex_encode_inj in E1. apply be_bytes_inj in E1 as ->; [|done|done]. split; [done|].
  injection E2 as E2. by apply Itoa_inj in E2.
Qed.

(** UIDs are injective: two messages have the same UID only when they are on
    the same connection and at the same position. *)
Theorem http_makeUID_injective c n c' n' :
  0 <= c < 2 ^ 64 -> 0 <= c' < 2 ^ 64 -> 0 <= n -> 0 <= n' ->
  makeUID c n = makeUID c' n' -> c = c' /\ n = n'.
Proof. apply makeUID_inj. Qed.

(** The UIDs of [n] messages in a row, the first at position [q]. *)
Definition uids (c q : Z) (n : nat) : list bytes :=
  map (fun i => makeUID c (uint64 (q + Z.of_nat i))) (seq 0 n).

Lemma uids_S c q n : uids c q (S n) = uids c q n ++ [makeUID c (uint64 (q + Z.of_nat n))].
Proof. unfold uids. by rewrite seq_S, map_app. Qed.

Lemma length_uids c q n : length (uids c q n) = n.
Proof. unfold uids. by rewrite length_map, length_seq. Qed.

Lemma uids_app c q n m q' :
  uint64 q' = uint64 (q + Z.of_nat n) -> uids c q n ++ uids c q' m = uids c q (n + m).
Proof.
  intros Hq. induction m as [|m IH]; [by rewrite Nat.add_0_r, app_nil_r|].
  rewrite uids_S, app_assoc, IH, Nat.add_succ_r, uids_S. do 2 f_equal. f_equal. unfold uint64 in *.
  rewrite Zplus_mod, Hq, <- Zplus_mod. f_equal. lia.
Qed.

Lemma uint64_idem z : uint64 (uint64 z) = uint64 z.
Proof. unfold uint64. by rewrite Z.mod_mod by done. Qed.

Lemma uint64_pred z : uint64 (uint64 (z + 1) - 1) = uint64 z.
Proof. unfold uint64. rewrite Zminus_mod_idemp_l. f_equal. lia. Qed.

Definition seq_of (isFromClient : bool) (s : connState) : Z :=
  if isFromClient then reqSeq s else respSeq s.

Definition events_of (r : result (list ProtocolEvent)) : list ProtocolEvent :=
  match r with OkR evs => evs | ErrR _ => [] end.

Section Pairing.
Context `{NetHTTP}.
Variable p : Parser.
Hypothesis p_ok : 0 <= maxBodyBytes p.

(** One message: its UID is the counter's value, and the counter advances. *)
Lemma read_message_wp cl now reader meta s :
  wp (read_message p cl now reader meta s) (fun r => match r with
    | inl _ => True
    | inr (ev, rest, s') =>
        (length rest < length reader)%nat /\
        UID ev = makeUID (m_ConnID meta) (uint64 (seq_of cl s)) /\ Dir ev = side_dir cl /\
        seq_of cl s' = uint64 (seq_of cl s + 1) /\ seq_of (negb cl) s' = seq_of (negb cl) s
    end).
Proof.
  destruct cl; cbn [read_message seq_of negb];
    [unfold readRequest; destruct (ReadRequest reader) as [e|[[m b] rest]] eqn:E
    |unfold readResponse; destruct (ReadResponse reader) as [e|[[m b] rest]] eqn:E]; try done;
    go_step; (eapply wp_mono; [by apply readBody_returns|]); intros [buf truncated] _; cbn [wp]; rewrite uint64_pred;
    (split; [|done]); [by eapply ReadRequest_shorter|by eapply ReadResponse_shorter].
Qed.

Lemma Parse_wp now clk data meta cl st :
  wp (Parse p now clk data meta cl st) (fun '(r, st') =>
    let s := stateFor st (m_ConnID meta) in
    let s' := stateFor st' (m_ConnID meta) in
    let n := length (events_of r) in
    map UID (events_of r) = uids (m_ConnID meta) (seq_of cl s) n /\
    uint64 (seq_of cl s') = uint64 (seq_of cl s + Z.of_nat n) /\
    seq_of (negb cl) s' = seq_of (negb cl) s /\
    (forall k, k <> m_ConnID meta -> st' !! k = st !! k)).
Proof.
  unfold Parse. cbv zeta. set (s0 := stateFor st (m_ConnID meta)). go_step.
  eapply wp_mono.
  - apply (wp_for_loop
      (fun '(reader, evs, s) =>
         map UID evs = uids (m_ConnID meta) (seq_of cl s0) (length evs) /\
         uint64 (seq_of cl s) = uint64 (seq_of cl s0 + Z.of_nat (length evs)) /\
         seq_of (negb cl) s = seq_of (negb cl) s0)
      (fun '(reader, _, _) => length reader)
      (fun '(r, s) => 
         map UID (events_of r) = uids (m_ConnID meta) (seq_of cl s0) (length (events_of r)) /\
         uint64 (seq_of cl s) = uint64 (seq_of cl s0 + Z.of_nat (length (events_of r))) /\
         seq_of (negb cl) s = seq_of (negb cl) s0)); [|by destruct cl; cbn; rewrite Z.add_0_r|lia].
    intros [[reader evs] s] (Hu & Hs & Ho). unfold Parse_step. go_step.
    eapply wp_mono; [apply read_message_wp|]. intros [e|[[ev rest] s']].
    + intros _. apply wp_ret. destruct evs as [|ev evs]; [|done]. by destruct e.
    + intros (Hlen & HU & _ & Hs' & Ho'). apply wp_ret. split; [|done].
      rewrite length_app, map_app. cbn [length map]. rewrite Nat.add_1_r, uids_S, Hu, HU, Hs.
      split; [done|]. split; [|congruence]. rewrite Hs', uint64_idem. unfold uint64 in *.
      rewrite Zplus_mod, Hs, <- Zplus_mod. f_equal. lia.
  - intros [r s] (Hu & Hs & Ho). apply wp_ret. cbv zeta.
    assert (Hsf : stateFor (<[m_ConnID meta:=s]> st) (m_ConnID meta) = s)
      by (unfold stateFor; by rewrite lookup_insert_eq).
    rewrite Hsf. fold s0.
    repeat split; try done. intros k Hk. by rewrite lookup_insert_ne.
Qed.

(** ** A parser's life: calls, closed connections and sweeps, in any order *)

Inductive op :=
| OpParse (now : Z) (clk : clock) (data : bytes) (meta : ConnMeta) (isFromClient : bool)
| OpClose (connID : Z)
| OpGc (now : Z).

Definition apply_op (o : op) (st : states) : outcome (list ProtocolEvent * states) :=
  match o with
  | OpParse now clk data meta cl =>
      '(r, st) ← Parse p now clk data meta cl st; Ret (events_of r, st)
  | OpClose c => Ret ([], OnConnClose c st)
  | OpGc now => Ret ([], gc now st)
  end.

Fixpoint run (ops : list op) (st : states) : outcome (list (op * list ProtocolEvent) * states) :=
  match ops with
  | [] => Ret ([], st)
  | o :: ops' =>
      '(evs, st) ← apply_op o st;
      '(rest, st) ← run ops' st;
      Ret ((o, evs) :: rest, st)
  end.

(** The UIDs of one direction of connection [c], in the order of the events. *)
Definition conn_uids (c : Z) (cl : bool) (trace : list (op * list ProtocolEvent)) : list bytes :=
  concat (map (fun '(o, evs) => match o with
    | OpParse _ _ _ meta cl' =>
        if (m_ConnID meta =? c) && Bool.eqb cl' cl then map UID evs else []
    | _ => []
    end) trace).

(** No close and no sweep of the run drops the state of connection [c]: each
    leaves the connection's entry as it finds it. *)
Fixpoint keeps (c : Z) (ops : list op) (st : states) : Prop :=
  match ops with
  | [] => True
  | o :: ops' =>
      match o with
      | OpParse _ _ _ _ _ => True
      | OpClose c' => OnConnClose c' st !! c = st !! c
      | OpGc now => gc now st !! c = st !! c
      end /\
      match apply_op o st with Ret (_, st') => keeps c ops' st' | _ => True end
  end.

(** A step that leaves the connection's entry and gives no event. *)
Lemma conn_uids_quiet c cl o trace :
  (match o with OpParse _ _ _ _ _ => False | _ => True end) -> conn_uids c cl ((o, []) :: trace) = conn_uids c cl trace.
Proof. by destruct o. Qed.

Lemma run_uids c ops st :
  keeps c ops st ->
  wp (run ops st) (fun '(trace, _) => forall cl,
    conn_uids c cl trace = uids c (seq_of cl (stateFor st c)) (length (conn_uids c cl trace))).
Proof.
  revert st. induction ops as [|o ops IH]; intros st Hk; [done|]. cbn [run].
  destruct o as [now clk data meta cl|c'|now]; cbn [keeps apply_op] in Hk; destruct Hk as [Ho Hk].
  - pose proof (Parse_wp now clk data meta cl st) as Hw. apply wp_returns in Hw as ([r st'] & E & Hu & Hs & Hoth & Hfr).
    cbn [apply_op]. rewrite E in Hk |- *. cbn [mbind outcome_bind] in Hk |- *.
    go_step. eapply wp_mono; [apply IH, Hk|]. intros [trace st''] Ht. apply wp_ret.
    intros cl'. specialize (Ht cl'). unfold conn_uids in *. cbn [map concat].
    destruct (m_ConnID meta =? c) eqn:Ec; cbn [andb].
    + apply Z.eqb_eq in Ec as <-. destruct (Bool.eqb cl cl') eqn:Ecl.
      * apply eqb_prop in Ecl as ->. rewrite length_app, Hu, Ht, length_uids, length_uids.
        by apply uids_app.
      * cbn [app]. replace cl' with (negb cl) in * by (by destruct cl, cl'). by rewrite Hoth in Ht.
    + cbn [app]. rewrite Ht. unfold stateFor. rewrite Hfr by lia. by rewrite length_uids.
  - cbn [apply_op mbind outcome_bind]. go_step. eapply wp_mono; [apply IH, Hk|]. intros [trace st''] Ht.
    apply wp_ret. intros cl. rewrite conn_uids_quiet by done. rewrite Ht, length_uids. unfold stateFor. by rewrite Ho.
  - cbn [apply_op mbind outcome_bind]. go_step. eapply wp_mono; [apply IH, Hk|]. intros [trace st''] Ht.
    apply wp_ret. intros cl. rewrite conn_uids_quiet by done. rewrite Ht, length_uids. unfold stateFor. by rewrite Ho.
Qed.

(** C16: on a connection the parser has no state for, and as long as no close
    and no sweep of the janitor drops its state (other connections are closed
    and the janitor sweeps at any time, but each leaves the connection's entry),
    the [i]-th request and the [i]-th response get the same UID, [makeUID] of
    the connection and [i]: whatever the order of the two directions' buffers,
    how messages are split over them, and the other connections' calls in
    between. *)
Theorem http_requests_pair_responses c ops st :
  st !! c = None -> keeps c ops st ->
  exists trace st', run ops st = Ret (trace, st') /\
    (forall cl i u, conn_uids c cl trace !! i = Some u -> u = makeUID c (uint64 (Z.of_nat i))) /\
    (forall i u v, conn_uids c true trace !! i = Some u -> conn_uids c false trace !! i = Some v -> u = v).
Proof.
  intros Hst Hk. pose proof (run_uids c ops st Hk) as Hw.
  apply wp_returns in Hw as ([trace st'] & Hr & Hu). exists trace, st'. split; [done|].
  assert (Hi : forall cl i u, conn_uids c cl trace !! i = Some u -> u = makeUID c (uint64 (Z.of_nat i))).
  { intros cl i u Hl. rewrite Hu in Hl. unfold stateFor in Hl. rewrite Hst in Hl. unfold uids in Hl.
    rewrite list_lookup_fmap in Hl. apply fmap_Some in Hl as (j & Hj & ->).
    apply lookup_seq in Hj as [-> _]. by destruct cl. }
  split; [done|]. intros i u v Hl1 Hl2. by rewrite (Hi _ _ _ Hl1), (Hi _ _ _ Hl2).
Qed.
End Pairing.

(** A sweep keeps the state of every connection active within the last
    fifteen minutes and drops every other. *)
Theorem http_gc_lookup now st c s :
  gc now st !! c = Some s <-> st !! c = Some s /\ now - connStateTTL <= lastActivity s.
Proof. unfold gc. by rewrite map_lookup_filter_Some. Qed.

(** A sweep leaves a connection's entry exactly when it is not idle for longer
    than fifteen minutes. *)
Lemma gc_keeps now st c :
  gc now st !! c = st !! c <-> (forall s, st !! c = Some s -> now - connStateTTL <= lastActivity s).
Proof.
  split.
  - intros E s Hs. rewrite Hs in E. by apply http_gc_lookup in E as [_ ?].
  - intros Hs. destruct (st !! c) as [s|] eqn:E; [by apply http_gc_lookup; eauto|].
    destruct (gc now st !! c) as [s|] eqn:Eg; [|done]. apply http_gc_lookup in Eg as [Eg _]. congruence.
Qed.

(** After [OnConnClose] a reused connection id starts again at the first
    UID; other connections keep their counters. *)
Theorem http_OnConnClose_fresh c c' st :
  stateFor (OnConnClose c st) c = fresh /\
  (c' <> c -> stateFor (OnConnClose c st) c' = stateFor st c').
Proof.
  unfold stateFor, OnConnClose. rewrite lookup_delete_eq. split; [done|]. intros Hc.
  by rewrite lookup_delete_ne.
Qed.
Lemma http_makeUID_injective_witness : 1 = 1 /\ 258 = 258.
Proof. apply (http_makeUID_injective 1 258 1 258); try lia. done. Defined.

(** Two pipelined requests, the first response, a close of another connection
    and a sweep twelve minutes later, the second response, and a sweep. *)
Definition pairing_ops : list op :=
  let meta := {| m_SrcIP := []; m_DstIP := []; m_SrcPort := 4000; m_DstPort := 80; m_ConnID := 9 |} in
  let call now data cl := OpParse now (fun _ => 7) data meta cl in
  [call 5 (str "GET /a HTTP/1.1" ++ CRLF ++ CRLF ++ str "GET /b HTTP/1.1" ++ CRLF ++ CRLF) true;
   call 6 (str "HTTP/1.1 200 OK" ++ CRLF ++ CRLF) false; OpClose 8; OpGc (12 * minute);
   call (14 * minute) (str "HTTP/1.1 404 Not" ++ CRLF ++ CRLF) false; OpGc (20 * minute)].

Lemma pairing_ops_keeps : @keeps head_http (NewParser 1024) 9 pairing_ops ∅.
Proof. repeat split; vm_compute; reflexivity. Qed.

Lemma http_requests_pair_responses_witness :
  exists trace st', @run head_http (NewParser 1024) pairing_ops ∅ = Ret (trace, st') /\
    (forall cl i u, conn_uids 9 cl trace !! i = Some u -> u = makeUID 9 (uint64 (Z.of_nat i))) /\
    (forall i u v, conn_uids 9 true trace !! i = Some u -> conn_uids 9 false trace !! i = Some v -> u = v).
Proof.
  apply (@http_requests_pair_responses head_http (NewParser 1024) ltac:(cbn; lia) 9 pairing_ops ∅).
  - reflexivity.
  - exact pairing_ops_keeps.
Defined.

End Http.
