(* ===== verification/HttpRaces.v ===== *)
(** * The HTTP parser's state under concurrency
      ([internal/protocol/http/parser.go])

    One HTTP parser is shared by the dispatcher's two loops and by its own
    janitor. The connection states live in a [sync.Map] of pointers, so a call
    can go on with a state that has been removed from the map. This file is a
    step relation on the map, a heap of connection states, the clock and the
    program counters of the three goroutines, at the grain of the atomic
    operations. *)

From S2P Require Import Prelude.
From S2P Require Import GoStrings.
From S2P Require Import Event.
From S2P Require Import Http.

Module HttpRaces.
Import Http.Http.

(** The goroutines that call [Parse]. *)
Inductive thread := TcpLoop | UdpLoop.

#[export] Instance thread_eq_dec : EqDecision thread.
Proof. solve_decision. Defined.

(** Where a call of [Parse] is: before, with the state loaded, with the time
    read as well, or past the store of the activity time, where it reads
    messages. *)
Inductive pc :=
| Idle | Loaded (c : Z) (p : nat) | Timed (c : Z) (p : nat) (now : Z) | Reading (c : Z) (p : nat).

(** The connection and the state a call works on. *)
Definition works_on (x : pc) : option (Z * nat) :=
  match x with Idle => None | Loaded c p | Timed c p _ | Reading c p => Some (c, p) end.

(** Where [gcLoop] is: waiting for its ticker, in a sweep with its cutoff, in
    the sweep's function with an entry, or past the check of that entry and
    about to delete its key. *)
Inductive janitor_pc :=
| Resting | Sweeping (cutoff : Z) | Visiting (cutoff c : Z) (p : nat) | Deleting (cutoff c : Z).

(** A message as the counters see it: its connection, the state that numbered
    it, its direction and its number. *)
Record entry := Entry { e_conn : Z; e_obj : nat; e_client : bool; e_num : Z }.

(** The map, the heap of states, the calls, the janitor, the messages so far,
    how often each key has been deleted, and the clock, in nanoseconds. *)
Record sys := Sys {
  table : gmap Z nat; heap : list connState; tcp : pc; udp : pc; janitor : janitor_pc;
  log : list entry; deleted : list Z; clock : Z;
}.

Definition init : sys := Sys ∅ [] Idle Idle Resting [] [] 0.

Definition pc_of (s : sys) (t : thread) : pc := match t with TcpLoop => tcp s | UdpLoop => udp s end.

Definition set_pc (s : sys) (t : thread) (x : pc) : sys :=
  match t with
  | TcpLoop => Sys (table s) (heap s) x (udp s) (janitor s) (log s) (deleted s) (clock s)
  | UdpLoop => Sys (table s) (heap s) (tcp s) x (janitor s) (log s) (deleted s) (clock s)
  end.

(** [stateFor]: [LoadOrStore] of a pointer to a new state *)
Definition load_or_store (s : sys) (c : Z) : nat * sys :=
  match table s !! c with
  | Some p => (p, s)
  | None =>
      let p := length (heap s) in
      (p, Sys (<[c := p]> (table s)) (heap s ++ [fresh]) (tcp s) (udp s) (janitor s) (log s) (deleted s) (clock s))
  end.

(** [state.lastActivity.Store(now)] *)
Definition touch (s : sys) (p : nat) (now : Z) : sys :=
  Sys (table s)
    (alter (fun o => {| reqSeq := reqSeq o; respSeq := respSeq o; lastActivity := now |}) p (heap s))
    (tcp s) (udp s) (janitor s) (log s) (deleted s) (clock s).

(** [state.reqSeq.Add(1) - 1] and [state.respSeq.Add(1) - 1] *)
Definition bump (cl : bool) (o : connState) : connState :=
  {| reqSeq := if cl then uint64 (reqSeq o + 1) else reqSeq o;
     respSeq := if cl then respSeq o else uint64 (respSeq o + 1);
     lastActivity := lastActivity o |}.

Definition number (s : sys) (c : Z) (p : nat) (cl : bool) (o : connState) : sys :=
  Sys (table s) (alter (bump cl) p (heap s)) (tcp s) (udp s) (janitor s)
    (log s ++ [Entry c p cl (uint64 (seq_of cl (bump cl o) - 1))]) (deleted s) (clock s).

(** [connStates.Delete(c)] *)
Definition delete_key (s : sys) (c : Z) (j : janitor_pc) : sys :=
  Sys (delete c (table s)) (heap s) (tcp s) (udp s) j (log s) (c :: deleted s) (clock s).

Definition set_janitor (s : sys) (j : janitor_pc) : sys :=
  Sys (table s) (heap s) (tcp s) (udp s) j (log s) (deleted s) (clock s).

Definition later (s : sys) (d : Z) : sys :=
  Sys (table s) (heap s) (tcp s) (udp s) (janitor s) (log s) (deleted s) (clock s + d).

Inductive step : sys -> sys -> Prop :=
(* Parse *)
| parse_loads s t c p s' :
    pc_of s t = Idle -> load_or_store s c = (p, s') -> step s (set_pc s' t (Loaded c p))
| parse_reads_clock s t c p :
    pc_of s t = Loaded c p -> step s (set_pc s t (Timed c p (clock s)))
| parse_touches s t c p now :
    pc_of s t = Timed c p now -> step s (set_pc (touch s p now) t (Reading c p))
| parse_numbers s t c p cl o :
    pc_of s t = Reading c p -> heap s !! p = Some o -> step s (number s c p cl o)
| parse_returns s t c p :
    pc_of s t = Reading c p -> step s (set_pc s t Idle)
(* OnConnClose, which the loop over the streams calls between two calls *)
| conn_closes s c :
    tcp s = Idle -> step s (delete_key s c (janitor s))
(* gcLoop: a tick sent some time ago starts a sweep; Range hands out an entry;
   the check of its last activity, and then the deletion *)
| gc_starts s now :
    janitor s = Resting -> 0 <= now <= clock s -> step s (set_janitor s (Sweeping (now - connStateTTL)))
| gc_visits s cutoff c p :
    janitor s = Sweeping cutoff -> table s !! c = Some p -> step s (set_janitor s (Visiting cutoff c p))
| gc_passes s cutoff c p o :
    janitor s = Visiting cutoff c p -> heap s !! p = Some o -> cutoff <= lastActivity o ->
    step s (set_janitor s (Sweeping cutoff))
| gc_checks s cutoff c p o :
    janitor s = Visiting cutoff c p -> heap s !! p = Some o -> lastActivity o < cutoff ->
    step s (set_janitor s (Deleting cutoff c))
| gc_deletes s cutoff c :
    janitor s = Deleting cutoff c -> step s (delete_key s c (Sweeping cutoff))
| gc_ends s cutoff :
    janitor s = Sweeping cutoff -> step s (set_janitor s Resting)
(* time advances *)
| time_passes s d : 0 <= d -> step s (later s d).

Definition reachable (s : sys) : Prop := rtc step init s.

(** ** Numbers *)

(** The numbers a state gave out in a direction. *)
Definition numbers (p : nat) (cl : bool) (l : list entry) : list Z :=
  omap (fun e => if bool_decide (e_obj e = p) && Bool.eqb (e_client e) cl then Some (e_num e) else None) l.

(** The first [n] numbers *)
Definition counted (n : nat) : list Z := map (fun i => uint64 (Z.of_nat i)) (seq 0 n).

Lemma counted_S n : counted (S n) = counted n ++ [uint64 (Z.of_nat n)].
Proof. unfold counted. by rewrite seq_S, map_app. Qed.

(** A state's counters are what it gave out. *)
Definition counts (p : nat) (o : connState) (l : list entry) : Prop :=
  forall cl, numbers p cl l = counted (length (numbers p cl l)) /\
    seq_of cl o = uint64 (Z.of_nat (length (numbers p cl l))).

(** Which states belong to a connection: at most one more than the number of
    times the connection's key was deleted, and exactly that many when the key
    is in the map. [owner] is the connection of each state. *)
Record inv (s : sys) (owner : list Z) : Prop := {
  inv_len : length owner = length (heap s);
  inv_counts p o : heap s !! p = Some o -> counts p o (log s);
  inv_log e : e ∈ log s -> owner !! e_obj e = Some (e_conn e);
  inv_table c p : table s !! c = Some p -> owner !! p = Some c;
  inv_pc t c p : works_on (pc_of s t) = Some (c, p) -> owner !! p = Some c;
  inv_once c : c ∉ deleted s -> forall p p', owner !! p = Some c -> owner !! p' = Some c ->
    p = p' /\ table s !! c = Some p;
}.

Lemma races_init_inv : inv init [].
Proof.
  split; cbn; try done.
  - intros e He. by apply not_elem_of_nil in He.
  - by intros [] c p.
Qed.

Lemma pc_of_set s t x u : pc_of (set_pc s t x) u = if decide (u = t) then x else pc_of s u.
Proof. by destruct t, u. Qed.

Lemma set_pc_inv s t x owner :
  inv s owner -> (forall c p, works_on x = Some (c, p) -> owner !! p = Some c) ->
  inv (set_pc s t x) owner.
Proof.
  intros [] Hx. split; try (by destruct t).
  intros u c p. rewrite pc_of_set. destruct (decide (u = t)); eauto.
Qed.

Lemma numbers_app p cl l k : numbers p cl (l ++ k) = numbers p cl l ++ numbers p cl k.
Proof. apply omap_app. Qed.

Lemma numbers_none p cl l : (forall e, e ∈ l -> e_obj e <> p) -> numbers p cl l = [].
Proof.
  intros Hl. induction l as [|e l IH]; [done|]. unfold numbers. cbn [omap list_omap].
  rewrite bool_decide_false by (apply Hl; left). cbn [andb]. apply IH. intros e' He'. apply Hl. by right.
Qed.

Lemma counts_other p o l e : counts p o l -> e_obj e <> p -> counts p o (l ++ [e]).
Proof.
  intros Hc He cl. rewrite numbers_app, (numbers_none p cl [e]).
  - rewrite app_nil_r. apply Hc.
  - intros e' ->%list_elem_of_singleton. done.
Qed.

Lemma counts_bump c p cl o l :
  counts p o l -> counts p (bump cl o) (l ++ [Entry c p cl (uint64 (seq_of cl (bump cl o) - 1))]).
Proof.
  intros Hc cl'. destruct (Hc cl') as [Hn Hs]. rewrite numbers_app. unfold numbers at 2 4 6.
  cbn [omap list_omap e_obj e_client e_num]. rewrite bool_decide_true by done. cbn [andb].
  assert (Hb : seq_of cl (bump cl o) = uint64 (seq_of cl o + 1)) by (by destruct cl).
  destruct (Bool.eqb cl cl') eqn:E.
  - apply eqb_prop in E as <-. rewrite length_app. cbn [length]. rewrite Nat.add_1_r, counted_S, <- Hn, Hb, Hs.
    split.
    + do 2 f_equal. by rewrite uint64_pred, uint64_idem.
    + unfold uint64. rewrite Zplus_mod_idemp_l. f_equal. lia.
  - rewrite app_nil_r. split; [done|]. rewrite <- Hs. by destruct cl, cl'.
Qed.

Lemma load_inv s owner c p s' :
  inv s owner -> load_or_store s c = (p, s') ->
  exists owner', inv s' owner' /\ owner' !! p = Some c /\ forall t, pc_of s' t = pc_of s t.
Proof.
  intros Hi. pose proof Hi as []. unfold load_or_store. destruct (table s !! c) as [p0|] eqn:E.
  { intros [= <- <-]. exists owner. eauto. }
  intros [= <- <-]. exists (owner ++ [c]).
  assert (Hnew : (owner ++ [c]) !! length (heap s) = Some c) by (by rewrite <- inv_len0, list_lookup_middle).
  assert (Hold : forall p c', owner !! p = Some c' -> (owner ++ [c]) !! p = Some c')
    by (intros; by apply lookup_app_l_Some).
  split; [|split; [done|by intros []]]. split; cbn [table heap log deleted].
  - rewrite !length_app, inv_len0. done.
  - intros p o Hp. apply lookup_app_Some in Hp as [Hp|[Hlen Hp]]; [by apply inv_counts0|].
    apply list_lookup_singleton_Some in Hp as [Hp <-]. assert (p = length (heap s)) as -> by lia.
    intros cl. rewrite numbers_none; [by destruct cl|]. intros e He Heq.
    apply inv_log0, lookup_lt_Some in He. lia.
  - intros e He. by apply Hold, inv_log0.
  - intros c' p Hp. apply lookup_insert_Some in Hp as [[<- <-]|[_ Hp]]; [done|]. by apply Hold, inv_table0.
  - intros t c' p Hp. apply Hold, (inv_pc0 t). by destruct t.
  - intros c' Hc' p p' Hp Hp'.
    assert (Hsplit : forall r, (owner ++ [c]) !! r = Some c' ->
      owner !! r = Some c' \/ (r = length (heap s) /\ c' = c)).
    { intros r Hr. apply lookup_app_Some in Hr as [Hr|[Hl Hr]]; [by left|right].
      apply list_lookup_singleton_Some in Hr as [Hr <-]. split; [lia|done]. }
    apply Hsplit in Hp as [Hp|[-> ->]], Hp' as [Hp'|[-> E']]; subst.
    + destruct (inv_once0 c' Hc' p p' Hp Hp') as [-> Ht]. split; [done|].
      rewrite lookup_insert_ne; [done|]. congruence.
    + destruct (inv_once0 c Hc' p p Hp Hp). congruence.
    + destruct (inv_once0 c Hc' p' p' Hp' Hp'). congruence.
    + split; [done|]. by rewrite lookup_insert_eq.
Qed.

Lemma touch_inv s owner p now : inv s owner -> inv (touch s p now) owner.
Proof.
  intros []. split; cbn [touch table heap log deleted]; try done.
  - by rewrite length_alter.
  - intros p' o Ho. destruct (decide (p' = p)) as [->|Hp].
    + rewrite list_lookup_alter_eq in Ho. apply fmap_Some in Ho as (o' & Ho & ->).
      intros cl. destruct (inv_counts0 p o' Ho cl) as [? Hs]. split; [done|]. by destruct cl.
    + rewrite list_lookup_alter_ne in Ho by done. by apply inv_counts0.
Qed.

Lemma number_inv s owner c p cl o :
  inv s owner -> owner !! p = Some c -> heap s !! p = Some o -> inv (number s c p cl o) owner.
Proof.
  intros [] Hp Ho. split; cbn [number table heap log deleted]; try done.
  - by rewrite length_alter.
  - intros p' o' Ho'. destruct (decide (p' = p)) as [->|Hne].
    + rewrite list_lookup_alter_eq, Ho in Ho'. injection Ho' as <-. apply counts_bump. by apply inv_counts0.
    + rewrite list_lookup_alter_ne in Ho' by done. apply counts_other; [by apply inv_counts0|]. cbn. congruence.
  - intros e He. apply elem_of_app in He as [He| ->%list_elem_of_singleton]; [by apply inv_log0|done].
Qed.

Lemma delete_inv s owner c j : inv s owner -> inv (delete_key s c j) owner.
Proof.
  intros []. split; cbn [delete_key table heap log deleted]; try done.
  - intros c' p Hp. apply lookup_delete_Some in Hp as [_ Hp]. by apply inv_table0.
  - intros c' Hc' p p' Hp Hp'. apply not_elem_of_cons in Hc' as [Hne Hc'].
    destruct (inv_once0 c' Hc' p p' Hp Hp') as [-> Ht]. split; [done|]. by rewrite lookup_delete_ne.
Qed.

Lemma janitor_inv s owner j : inv s owner -> inv (set_janitor s j) owner.
Proof. by intros []. Qed.

Lemma later_inv s owner d : inv s owner -> inv (later s d) owner.
Proof. by intros []. Qed.

Lemma works_on_inv s t c p owner x : inv s owner -> pc_of s t = x -> works_on x = Some (c, p) -> owner !! p = Some c.
Proof. intros Hi <-. apply (inv_pc s owner Hi t c p). Qed.

Create HintDb races.
#[local] Hint Resolve janitor_inv later_inv delete_inv : races.

Lemma races_step_inv s s' owner : inv s owner -> step s s' -> exists owner', inv s' owner'.
Proof.
  intros Hi Hs. destruct Hs as [s t c p s' Hpc Hl|s t c p Hpc|s t c p now Hpc|s t c p cl o Hpc Ho|s t c p Hpc
    | | | | | | | |]; try (by eauto with races).
  - destruct (load_inv s owner c p s' Hi Hl) as (owner' & Hi' & Hp & _). exists owner'.
    apply set_pc_inv; [done|]. by intros c' p' [= <- <-].
  - exists owner. apply set_pc_inv; [done|]. intros c' p' [= <- <-]. by eapply works_on_inv.
  - exists owner. apply set_pc_inv; [by apply touch_inv|]. intros c' p' [= <- <-]. by eapply works_on_inv.
  - exists owner. apply number_inv; [done| |done]. by eapply works_on_inv.
  - exists owner. apply set_pc_inv; [done|]. by intros c' p'.
Qed.

Lemma races_reachable_inv s : reachable s -> exists owner, inv s owner.
Proof.
  unfold reachable. intros Hr. assert (Hi : exists owner, inv init owner) by (exists []; apply races_init_inv).
  induction Hr as [|s0 s1 s2 Hs _ IH]; [done|]. apply IH. destruct Hi as [owner Hi]. by eapply races_step_inv.
Qed.

(** ** What a connection's messages are numbered *)

(** The numbers of a connection's messages in a direction, in order. *)
Definition conn_numbers (c : Z) (cl : bool) (l : list entry) : list Z :=
  omap (fun e => if (e_conn e =? c) && Bool.eqb (e_client e) cl then Some (e_num e) else None) l.

Lemma conn_numbers_obj c p cl l :
  (forall e, e ∈ l -> e_conn e = c <-> e_obj e = p) -> conn_numbers c cl l = numbers p cl l.
Proof.
  intros Hl. unfold conn_numbers, numbers. induction l as [|e l IH]; [done|]. cbn [omap list_omap].
  replace (e_conn e =? c) with (bool_decide (e_obj e = p)).
  - rewrite IH; [done|]. intros e' He'. apply Hl. by right.
  - specialize (Hl e ltac:(left)). destruct (decide (e_obj e = p)) as [E|E].
    + rewrite bool_decide_true by done. apply Hl in E. lia.
    + rewrite bool_decide_false by done. destruct (e_conn e =? c) eqn:Ec; [|done]. exfalso. apply E, Hl. lia.
Qed.

(** C17: Concurrent calls keep the pairing. However the calls of [Parse] from
    the two loops interleave, on any connections, as long as nothing has
    deleted a connection's state: its requests are numbered 0, 1, 2, ... and
    its responses as well, without a gap or a repetition, so that the [i]-th
    request and the [i]-th response get the same UID. *)
Theorem http_concurrent_numbers s c cl :
  reachable s -> c ∉ deleted s ->
  conn_numbers c cl (log s) = counted (length (conn_numbers c cl (log s))).
Proof.
  intros Hr Hc. destruct (races_reachable_inv s Hr) as [owner []].
  destruct (decide (Exists (fun e => e_conn e = c) (log s))) as [Hex|Hno].
  - apply Exists_exists in Hex as (e & He & Hec). apply list_elem_of_In in He. set (p := e_obj e).
    pose proof (inv_log0 e He) as Hp. rewrite Hec in Hp. fold p in Hp.
    rewrite (conn_numbers_obj c p).
    + destruct (lookup_lt_is_Some_2 (heap s) p) as [o Ho].
      { rewrite <- inv_len0. by eapply lookup_lt_Some. }
      apply (inv_counts0 p o Ho cl).
    + intros e' He'. pose proof (inv_log0 e' He') as Hp'. split; [|intros E; rewrite E in Hp'; congruence].
      intros E. rewrite E in Hp'. by destruct (inv_once0 c Hc _ _ Hp' Hp).
  - assert (E : conn_numbers c cl (log s) = []); [|by rewrite E].
    assert (Hall : forall e, e ∈ log s -> e_conn e <> c).
    { intros e He Hec. apply Hno, Exists_exists. exists e. split; [by apply list_elem_of_In|done]. }
    clear -Hall. induction (log s) as [|e l IH]; [done|]. unfold conn_numbers. cbn [omap list_omap].
    replace (e_conn e =? c) with false by (specialize (Hall e ltac:(left)); lia). cbn [andb].
    apply IH. intros e' He'. apply Hall. by right.
Qed.

(** ** The janitor's check and deletion are not one step *)

(** One call of [Parse] that reads one request, with no time passing. *)
Definition one_request (s : sys) (c : Z) : sys :=
  let '(p, s1) := load_or_store s c in
  let s2 := touch s1 p (clock s1) in
  match heap s2 !! p with
  | Some o => set_pc (number (set_pc s2 TcpLoop (Reading c p)) c p true o) TcpLoop Idle
  | None => s2
  end.

Lemma one_request_steps s c :
  tcp s = Idle -> (forall p, table s !! c = Some p -> (p < length (heap s))%nat) ->
  rtc step s (one_request s c).
Proof.
  intros Hpc Hp. unfold one_request. destruct (load_or_store s c) as [p s1] eqn:E.
  assert (Hlen : (p < length (heap s1))%nat).
  { unfold load_or_store in E. destruct (table s !! c) as [p0|] eqn:Et; injection E as <- <-; [by apply Hp|].
    cbn [heap]. rewrite length_app. cbn [length]. lia. }
  destruct (lookup_lt_is_Some_2 (heap (touch s1 p (clock s1))) p) as [o Ho].
  { cbn [touch heap]. by rewrite length_alter. }
  rewrite Ho. eapply rtc_l; [by apply (parse_loads s TcpLoop c p s1)|].
  eapply rtc_l; [by apply (parse_reads_clock _ TcpLoop c p)|].
  eapply rtc_l; [by apply (parse_touches _ TcpLoop c p (clock s1))|].
  assert (Et : set_pc (touch (set_pc (set_pc s1 TcpLoop (Loaded c p)) TcpLoop (Timed c p (clock s1))) p (clock s1))
      TcpLoop (Reading c p) = set_pc (touch s1 p (clock s1)) TcpLoop (Reading c p)) by done.
  cbn [clock set_pc] in *. rewrite Et. eapply rtc_l; [by apply (parse_numbers _ TcpLoop c p true o)|].
  apply rtc_once. by apply (parse_returns _ TcpLoop c p).
Qed.

(** A request, sixteen minutes of silence, and a sweep that is past the check
    of the connection when its next request comes. *)
Definition race_silent : sys := later (one_request init 7) (16 * minute).
Definition race_checked : sys := set_janitor race_silent (Deleting minute 7).
Definition race_active : sys := one_request race_checked 7.
(** The deletion, a second later another request. *)
Definition race_deleted : sys := delete_key race_active 7 (Sweeping minute).
Definition race_after : sys := one_request (later race_deleted 1000000000) 7.

Lemma race_silent_entry :
  table race_silent !! 7 = Some 0%nat /\ janitor race_silent = Resting /\
  heap race_silent !! 0%nat = Some {| reqSeq := 1; respSeq := 0; lastActivity := 0 |}.
Proof. repeat split; vm_compute; reflexivity. Qed.

Lemma race_checked_reachable : rtc step init race_checked.
Proof.
  destruct race_silent_entry as (Ht & Hj & Ho).
  etrans; [apply (one_request_steps init 7); done|].
  eapply rtc_l; [apply (time_passes _ (16 * minute)); vm_compute; discriminate|]. fold race_silent.
  eapply rtc_l.
  { apply (gc_starts _ (16 * minute) Hj). split; vm_compute; discriminate. }
  replace (16 * minute - connStateTTL) with minute by reflexivity.
  eapply rtc_l; [apply (gc_visits (set_janitor race_silent (Sweeping minute)) minute 7 0%nat eq_refl Ht)|].
  apply rtc_once. apply (gc_checks (set_janitor (set_janitor race_silent (Sweeping minute)) (Visiting minute 7 0)) minute 7 0%nat _ eq_refl Ho).
  vm_compute. reflexivity.
Qed.

Lemma race_active_reachable : reachable race_active.
Proof.
  unfold reachable. etrans; [exact race_checked_reachable|]. apply (one_request_steps race_checked 7); [reflexivity|].
  intros p Hp. assert (Ht : table race_checked !! 7 = Some 0%nat) by (vm_compute; reflexivity).
  rewrite Ht in Hp. injection Hp as <-. vm_compute. lia.
Qed.

(** C18: The janitor can delete the state of a connection that is active: it
    checks the last activity and deletes the entry in two steps, and a call of
    [Parse] fits between them. In a run of the parser, with a clock that only
    advances, the janitor takes the step that deletes the entry of a connection
    which was never closed, whose state was never deleted before and which, at
    that moment, has been idle for no longer than the limit; the connection
    then starts again at number 0, so that two of its requests get the same
    UID. *)
Theorem http_janitor_race :
  exists s c p o cutoff s',
    reachable s /\ janitor s = Deleting cutoff c /\ (c ∉ deleted s) /\
    table s !! c = Some p /\ heap s !! p = Some o /\ clock s - lastActivity o <= connStateTTL /\
    step s (delete_key s c (Sweeping cutoff)) /\ rtc step (delete_key s c (Sweeping cutoff)) s' /\
    deleted s' = [c] /\ conn_numbers c true (log s') = [0; 1; 0].
Proof.
  exists race_active, 7, 0%nat. eexists _, minute, race_after. split; [apply race_active_reachable|].
  assert (Hj : janitor race_active = Deleting minute 7) by (vm_compute; reflexivity).
  split; [exact Hj|]. split; [vm_compute; intros H; inversion H|]. split; [vm_compute; reflexivity|].
  split; [vm_compute; reflexivity|]. split; [vm_compute; discriminate|].
  split; [exact (gc_deletes _ _ _ Hj)|]. split; [|split; vm_compute; reflexivity].
  eapply rtc_l; [apply (time_passes _ 1000000000); lia|].
  apply one_request_steps; [reflexivity|]. intros p Hp.
  assert (Ht : table (later race_deleted 1000000000) !! 7 = None) by (vm_compute; reflexivity).
  fold race_deleted in Hp. congruence.
Qed.

Lemma http_concurrent_numbers_witness :
  conn_numbers 7 true (log race_active) = counted (length (conn_numbers 7 true (log race_active))).
Proof.
  apply (http_concurrent_numbers race_active 7 true race_active_reachable). vm_compute. intros H. inversion H.
Defined.
End HttpRaces.
