(* ===== verification/Registry.v ===== *)
(** * The protocol registry ([internal/protocol/registry.go])

    The registry picks the parser of a connection: by the destination port, by
    the source port, or by probing every parser. It is written against the
    interface [ProtocolParser], the Go interface [protocol.Parser]; its theorems
    use the laws [LawfulParser] that every registered parser must satisfy. *)

From S2P Require Import Prelude.
From S2P Require Import GoStrings.
From S2P Require Import Event.

(** What the registry asks of a parser. *)
Class ProtocolParser (P : Type) := {
  parser_Name : P -> bytes;
  parser_Ports : P -> list Z;
  parser_Probe : P -> bytes -> bool -> outcome Z;
}.

(** A parser lists a port once, and [Probe] returns a confidence of 0 to 100. *)
Class LawfulParser (P : Type) `{ProtocolParser P} := {
  Ports_NoDup p : NoDup (parser_Ports p);
  Probe_score p data isFromClient :
    wp (parser_Probe p data isFromClient) (fun s => 0 <= s <= 100);
}.

(** [protocol.ConnLifecycleHandler]: the parsers that implement it, and what
    their handler does to the parsers' state. *)
Class ConnLifecycleHandler (P S : Type) := {
  on_conn_close : P -> option (Z -> S -> S);
}.

Module Registry.
Section Registry.
Context {P : Type} `{ProtocolParser P}.

Record Registry := { byPort : gmap Z (list P); all : list P }.

Definition NewRegistry : Registry := {| byPort := ∅; all := [] |}.

(** [r.byPort[port]]: a missing key reads as the nil slice. *)
Definition candidates (r : Registry) (port : Z) : list P := default [] (byPort r !! port).

Definition Register (r : Registry) (p : P) : Registry :=
  {| byPort := fold_left (fun m port => <[port := default [] (m !! port) ++ [p]]> m)
                 (parser_Ports p) (byPort r);
     all := all r ++ [p] |}.

Definition bestProbe_step (sample : bytes) (isFromClient : bool) (acc : option P * Z) (p : P)
    : outcome (option P * Z) :=
  let '(best, bestScore) := acc in
  s ← parser_Probe p sample isFromClient;
  Ret (if bestScore <? s then (Some p, s) else (best, bestScore)).

Fixpoint bestProbe_loop (parsers : list P) (sample : bytes) (isFromClient : bool)
    (acc : option P * Z) : outcome (option P * Z) :=
  match parsers with
  | [] => Ret acc
  | p :: parsers' =>
      acc' ← bestProbe_step sample isFromClient acc p;
      bestProbe_loop parsers' sample isFromClient acc'
  end.

Definition bestProbe (parsers : list P) (sample : bytes) (isFromClient : bool) : outcome (option P) :=
  '(best, _) ← bestProbe_loop parsers sample isFromClient (None, 0); Ret best.

Definition Resolve (r : Registry) (srcPort dstPort : Z) (sample : bytes) (isFromClient : bool)
    : outcome (option P) :=
  match candidates r dstPort with
  | [p] => Ret (Some p)
  | _ :: _ :: _ => bestProbe (candidates r dstPort) sample isFromClient
  | [] =>
      match candidates r srcPort with
      | [p] => Ret (Some p)
      | _ :: _ :: _ => bestProbe (candidates r srcPort) sample isFromClient
      | [] => bestProbe (all r) sample isFromClient
      end
  end.

(** [st] is the state of the registered parsers. *)
Definition NotifyClose {St} `{ConnLifecycleHandler P St} (r : Registry) (connID : Z) (st : St) : St :=
  fold_left (fun st p => match on_conn_close p with Some h => h connID st | None => st end)
    (all r) st.

(** ** The index of a registry *)

(** Every port maps to the registered parsers that declare it, in the order
    of registration. *)
Definition indexed (r : Registry) : Prop :=
  forall port, candidates r port = filter (fun p => port ∈ parser_Ports p) (all r).

Lemma register_ports (p : P) ports (m : gmap Z (list P)) port :
  NoDup ports ->
  default [] (fold_left (fun m port => <[port := default [] (m !! port) ++ [p]]> m) ports m !! port)
  = default [] (m !! port) ++ (if decide (port ∈ ports) then [p] else []).
Proof.
  intros Hnd. revert m. induction Hnd as [|q ports Hq Hnd IH]; intros m; cbn [fold_left].
  - rewrite decide_False by apply not_elem_of_nil. by rewrite app_nil_r.
  - rewrite IH. destruct (decide (port = q)) as [->|Hne].
    + rewrite lookup_insert_eq. cbn [default from_option id].
      rewrite decide_False by done. rewrite decide_True by left. by rewrite app_nil_r.
    + rewrite lookup_insert_ne by done. f_equal.
      apply decide_ext. rewrite elem_of_cons. naive_solver.
Qed.

Lemma Register_candidates `{!LawfulParser P} r p port :
  candidates (Register r p) port =
  candidates r port ++ (if decide (port ∈ parser_Ports p) then [p] else []).
Proof. unfold candidates. cbn [Register byPort]. apply register_ports, Ports_NoDup. Qed.

Lemma NewRegistry_indexed : indexed NewRegistry.
Proof. intros port. unfold candidates. cbn. by rewrite lookup_empty. Qed.

Lemma Register_indexed_lemma `{!LawfulParser P} r p : indexed r -> indexed (Register r p).
Proof.
  intros Hr port. rewrite Register_candidates, Hr. cbn [Register all].
  rewrite list.filter_app. f_equal.
Qed.

Lemma fold_Register `{!LawfulParser P} (ps : list P) r :
  indexed r -> indexed (fold_left Register ps r) /\ all (fold_left Register ps r) = all r ++ ps.
Proof.
  revert r. induction ps as [|p ps IH]; intros r Hr; cbn [fold_left]; [by rewrite app_nil_r|].
  destruct (IH (Register r p) (Register_indexed_lemma r p Hr)) as [H1 H2]. split; [done|].
  rewrite H2. cbn [Register all]. by rewrite <- app_assoc.
Qed.

(** [NewRegistry] and [Register] keep the index of a registry exact: each
    port maps to the parsers that declare it, in the order of registration. *)
Theorem registry_indexed `{!LawfulParser P} (ps : list P) :
  indexed (fold_left Register ps NewRegistry) /\ all (fold_left Register ps NewRegistry) = ps.
Proof. exact (fold_Register ps NewRegistry NewRegistry_indexed). Qed.

(** ** The choice of a parser *)

(** The ports alone settle the parser of a connection. *)
Definition by_port (r : Registry) (srcPort dstPort : Z) (p : P) : Prop :=
  candidates r dstPort = [p] \/ (candidates r dstPort = [] /\ candidates r srcPort = [p]).

Lemma Resolve_by_port r srcPort dstPort p sample isFromClient :
  by_port r srcPort dstPort p -> Resolve r srcPort dstPort sample isFromClient = Ret (Some p).
Proof. unfold Resolve. by intros [->|[-> ->]]. Qed.

(** The parsers [Resolve] chooses among. *)
Definition consulted (r : Registry) (srcPort dstPort : Z) : list P :=
  match candidates r dstPort with
  | [] => match candidates r srcPort with [] => all r | l => l end
  | l => l
  end.

(** The only candidate by port, which is not probed. *)
Definition sole (r : Registry) (srcPort dstPort : Z) : option P :=
  match candidates r dstPort, candidates r srcPort with
  | [p], _ => Some p
  | [], [p] => Some p
  | _, _ => None
  end.

Section Score.
Context `{!LawfulParser P}.
Variables (sample : bytes) (isFromClient : bool).

(** The confidence of a parser in the sample. *)
Definition score (p : P) : Z :=
  match parser_Probe p sample isFromClient with Ret s => s | _ => 0 end.

Lemma Probe_ret p : parser_Probe p sample isFromClient = Ret (score p) /\ 0 <= score p <= 100.
Proof.
  unfold score. pose proof (Probe_score p sample isFromClient) as Hw.
  apply wp_returns in Hw as (s & -> & Hs). done.
Qed.

(** [o] is the first parser of [l] of the highest confidence, if that is not
    zero. *)
Definition first_best (l : list P) (o : option P) : Prop :=
  match o with
  | None => forall q, q ∈ l -> score q = 0
  | Some p => exists l1 l2, l = l1 ++ p :: l2 /\ 0 < score p /\
      (forall q, q ∈ l1 -> score q < score p) /\ (forall q, q ∈ l2 -> score q <= score p)
  end.

Lemma bestProbe_loop_spec l done_ best bs :
  first_best done_ best -> bs = from_option score 0 best ->
  exists best' bs', bestProbe_loop l sample isFromClient (best, bs) = Ret (best', bs')
    /\ first_best (done_ ++ l) best'.
Proof.
  revert done_ best bs. induction l as [|p l IH]; intros dn best bs Hb Hbs.
  { exists best, bs. by rewrite app_nil_r. }
  destruct (Probe_ret p) as [Hp Hr]. cbn [bestProbe_loop]. unfold bestProbe_step at 1.
  rewrite Hp. cbn [mbind outcome_bind].
  replace (dn ++ p :: l) with ((dn ++ [p]) ++ l) by (by rewrite <- app_assoc).
  destruct (bs <? score p) eqn:E; apply IH; try done.
  - exists dn, []. split; [done|]. split.
    { destruct best as [b|]; cbn in Hbs; [|lia]. pose proof (Probe_ret b) as [_ ?]. lia. }
    split; [|intros q Hq; by apply elem_of_nil in Hq]. intros q Hq.
    destruct best as [b|]; cbn in Hb, Hbs.
    + destruct Hb as (l1 & l2 & -> & _ & H1 & H2). apply elem_of_app in Hq as [Hq|Hq].
      * specialize (H1 q Hq). lia.
      * apply elem_of_cons in Hq as [->|Hq]; [lia|]. specialize (H2 q Hq). lia.
    + rewrite (Hb q Hq). lia.
  - destruct best as [b|]; cbn in Hb, Hbs |- *.
    + destruct Hb as (l1 & l2 & -> & H0 & H1 & H2). exists l1, (l2 ++ [p]).
      split; [by rewrite <- app_assoc|]. do 2 (split; [done|]). intros q Hq.
      apply elem_of_app in Hq as [Hq|Hq]; [by apply H2|].
      apply list_elem_of_singleton in Hq as ->. lia.
    + intros q Hq. apply elem_of_app in Hq as [Hq|Hq]; [by apply Hb|].
      apply list_elem_of_singleton in Hq as ->. lia.
Qed.

Lemma bestProbe_spec l :
  exists best, bestProbe l sample isFromClient = Ret best /\ first_best l best.
Proof.
  unfold bestProbe. destruct (bestProbe_loop_spec l [] None 0) as (best & bs & -> & Hb); [|done|].
  - intros q Hq. by apply elem_of_nil in Hq.
  - exists best. done.
Qed.

Lemma Resolve_spec r srcPort dstPort :
  exists o, Resolve r srcPort dstPort sample isFromClient = Ret o /\
    match sole r srcPort dstPort with
    | Some p => o = Some p
    | None => first_best (consulted r srcPort dstPort) o
    end.
Proof.
  unfold Resolve, sole, consulted.
  destruct (candidates r dstPort) as [|p [|q l]].
  - destruct (candidates r srcPort) as [|p [|q l]]; [apply bestProbe_spec|eauto|apply bestProbe_spec].
  - eauto.
  - apply bestProbe_spec.
Qed.

(** Only registered parsers are chosen. *)
Lemma Resolve_registered r srcPort dstPort p :
  indexed r -> Resolve r srcPort dstPort sample isFromClient = Ret (Some p) -> p ∈ all r.
Proof.
  intros Hi Hr. destruct (Resolve_spec r srcPort dstPort) as (o & Ho & Hs).
  rewrite Ho in Hr. injection Hr as ->.
  assert (Hc : forall port, p ∈ candidates r port -> p ∈ all r).
  { intros port Hp. rewrite Hi in Hp. by apply list_elem_of_filter in Hp as [_ Hp]. }
  assert (Hb : forall l, first_best l (Some p) -> p ∈ l).
  { intros l (l1 & l2 & -> & _). apply elem_of_app. right. left. }
  unfold sole, consulted in Hs. specialize (Hc dstPort) as Hcd. specialize (Hc srcPort) as Hcs.
  destruct (candidates r dstPort) as [|p1 [|p2 l]]; [|injection Hs as <-; apply Hcd; left|auto].
  destruct (candidates r srcPort) as [|p1 [|p2 l]]; [auto|injection Hs as <-; apply Hcs; left|auto].
Qed.

(** A parser that claims the sample is enough when no port is shared. *)
Lemma Resolve_claimed r srcPort dstPort u :
  u ∈ all r -> score u <> 0 ->
  (length (candidates r dstPort) <= 1)%nat -> (length (candidates r srcPort) <= 1)%nat ->
  exists p, Resolve r srcPort dstPort sample isFromClient = Ret (Some p).
Proof.
  intros Hu Hsu Hd Hsrc. destruct (Resolve_spec r srcPort dstPort) as (o & -> & Hs).
  destruct o as [p|]; [by exists p|]. exfalso. revert Hs. unfold sole, consulted.
  destruct (candidates r dstPort) as [|p1 [|p2 l]]; cbn [length] in Hd; [|done|lia].
  destruct (candidates r srcPort) as [|p1 [|p2 l]]; cbn [length] in Hsrc; [|done|lia].
  intros Hs. by apply Hsu, Hs.
Qed.

(** C31: [Resolve] never panics. A parser that is alone on the destination
    port, or on the source port when the destination port has none, is
    chosen without a probe; otherwise the choice is the first parser of the
    highest non-zero confidence among those of the port, or among all of
    them when neither port has any, and nil when all confidences are zero. *)
Theorem registry_Resolve_best r srcPort dstPort :
  exists o, Resolve r srcPort dstPort sample isFromClient = Ret o /\
    match sole r srcPort dstPort with
    | Some p => o = Some p
    | None => first_best (consulted r srcPort dstPort) o
    end.
Proof. apply Resolve_spec. Qed.
End Score.
End Registry.
Arguments Registry : clear implicits.
End Registry.

(** ** A small parser *)

(** A parser known by its port, which claims data that starts with its tag. *)
Record tagged := { tag : byte; port : Z }.

#[local] Instance tagged_parser : ProtocolParser tagged := {|
  parser_Name t := [tag t];
  parser_Ports t := [port t];
  parser_Probe t data _ := Ret (match data with b :: _ => if Byte.eqb b (tag t) then 80 else 0 | [] => 0 end);
|}.

#[local] Instance tagged_lawful : LawfulParser tagged.
Proof.
  split.
  - intros t. cbn. constructor; [apply not_elem_of_nil|constructor].
  - intros t data cl. cbn. destruct data as [|b data]; [lia|]. destruct (Byte.eqb b (tag t)); lia.
Qed.

Lemma registry_indexed_witness :
  let ps := [{| tag := x61; port := 1 |}; {| tag := x62; port := 1 |}; {| tag := x63; port := 2 |}] in
  Registry.indexed (fold_left Registry.Register ps Registry.NewRegistry) /\
  Registry.all (fold_left Registry.Register ps Registry.NewRegistry) = ps.
Proof. intros ps. apply (Registry.registry_indexed ps). Defined.

Lemma registry_Resolve_best_witness :
  let r := fold_left Registry.Register
    [{| tag := x61; port := 1 |}; {| tag := x62; port := 1 |}; {| tag := x62; port := 2 |}] Registry.NewRegistry in
  exists o, Registry.Resolve r 9 1 [x62; x00] true = Ret o /\
    match Registry.sole r 9 1 with
    | Some p => o = Some p
    | None => Registry.first_best [x62; x00] true (Registry.consulted r 9 1) o
    end.
Proof. intros r. apply (Registry.registry_Resolve_best [x62; x00] true r 9 1). Defined.
