(* ===== verification/Parsers.v ===== *)
(** * The registered parsers ([cmd/netcap/main.go], [buildRegistry])

    The fifteen parsers as implementations of the interface of the registry,
    with the registry [main] builds. The HTTP parser is the only one with
    state; [Parse] passes its connection states along. *)

From S2P Require Import Prelude.
From S2P Require Import GoStrings.
From S2P Require Import Event.
From S2P Require Import Framing.
From S2P Require Import Mysql.
From S2P Require Import Postgres.
From S2P Require Import Mongodb.
From S2P Require Import Mqtt.
From S2P Require Import Redis.
From S2P Require Import Dns.
From S2P Require Import Tls.
From S2P Require Import LineProtocols.
From S2P Require Import Unknown.
From S2P Require Import Websocket.
From S2P Require Import Http.
From S2P Require Import Registry.

Inductive parser :=
| P_http (p : Http.Parser)
| P_dns
| P_tls
| P_mysql (p : Mysql.Parser)
| P_postgres (p : Postgres.Parser)
| P_redis (p : Redis.Parser)
| P_mongodb (p : Mongodb.Parser)
| P_smtp
| P_ftp
| P_imap
| P_pop3
| P_mqtt
| P_websocket
| P_ssh
| P_unknown.

Section Parsers.
Context `{Unicode} `{NetHTTP}.

#[export] Instance parser_ops : ProtocolParser parser := {|
  parser_Name p := match p with
    | P_http _ => Http.Name | P_dns => Dns.Name | P_tls => Tls.Name | P_mysql _ => Mysql.Name
    | P_postgres _ => Postgres.Name | P_redis _ => Redis.Name | P_mongodb _ => Mongodb.Name
    | P_smtp => Smtp.Name | P_ftp => Ftp.Name | P_imap => Imap.Name | P_pop3 => Pop3.Name
    | P_mqtt => Mqtt.Name | P_websocket => Websocket.Name | P_ssh => Ssh.Name
    | P_unknown => Unknown.Name
    end;
  parser_Ports p := match p with
    | P_http _ => Http.Ports | P_dns => Dns.Ports | P_tls => Tls.Ports | P_mysql _ => Mysql.Ports
    | P_postgres _ => Postgres.Ports | P_redis _ => Redis.Ports | P_mongodb _ => Mongodb.Ports
    | P_smtp => Smtp.Ports | P_ftp => Ftp.Ports | P_imap => Imap.Ports | P_pop3 => Pop3.Ports
    | P_mqtt => Mqtt.Ports | P_websocket => Websocket.Ports | P_ssh => Ssh.Ports
    | P_unknown => Unknown.Ports
    end;
  parser_Probe p := match p with
    | P_http _ => Http.Probe | P_dns => Dns.Probe | P_tls => Tls.Probe | P_mysql _ => Mysql.Probe
    | P_postgres _ => Postgres.Probe | P_redis _ => Redis.Probe | P_mongodb _ => Mongodb.Probe
    | P_smtp => Smtp.Probe | P_ftp => Ftp.Probe | P_imap => Imap.Probe | P_pop3 => Pop3.Probe
    | P_mqtt => Mqtt.Probe | P_websocket => Websocket.Probe | P_ssh => Ssh.Probe
    | P_unknown => Unknown.Probe
    end;
|}.

(** Only the HTTP parser implements [OnConnClose]. *)
#[export] Instance parser_lifecycle : ConnLifecycleHandler parser Http.states := {|
  on_conn_close p := match p with P_http _ => Some Http.OnConnClose | _ => None end;
|}.

(** [p.Parse(data, meta, isFromClient)]. [spare] is what the array of [data]
    holds after it, [now] and [clk] are readings of the clock. *)
Definition Parse (p : parser) (now : Z) (clk : clock) (data spare : bytes) (meta : ConnMeta)
    (isFromClient : bool) (st : Http.states)
    : outcome (result (list ProtocolEvent) * Http.states) :=
  let stateless o := (r ← o; Ret (r, st)) in
  match p with
  | P_http p => Http.Parse p now clk data meta isFromClient st
  | P_dns => stateless (Dns.Parse clk data meta isFromClient)
  | P_tls => stateless (Tls.Parse clk data spare meta isFromClient)
  | P_mysql p => stateless (Mysql.Parse p clk data meta isFromClient)
  | P_postgres p => stateless (Postgres.Parse p clk data meta isFromClient)
  | P_redis p => stateless (Redis.Parse p clk data meta isFromClient)
  | P_mongodb p => stateless (Mongodb.Parse p clk data meta isFromClient)
  | P_smtp => stateless (Smtp.Parse clk data meta isFromClient)
  | P_ftp => stateless (Ftp.Parse clk data meta isFromClient)
  | P_imap => stateless (Imap.Parse clk data meta isFromClient)
  | P_pop3 => stateless (Pop3.Parse clk data meta isFromClient)
  | P_mqtt => stateless (Mqtt.Parse clk data meta isFromClient)
  | P_websocket => stateless (Websocket.Parse clk data meta isFromClient)
  | P_ssh => stateless (Ssh.Parse clk data meta isFromClient)
  | P_unknown => stateless (Unknown.Parse clk data meta isFromClient)
  end.

(** The parsers [buildRegistry] registers, in order, for the configured body
    and query limits. *)
Definition registered (maxBodyCapture maxQ : Z) : list parser :=
  [P_http (Http.NewParser maxBodyCapture); P_dns; P_tls; P_mysql (Mysql.NewParser maxQ);
   P_postgres (Postgres.NewParser maxQ); P_redis (Redis.NewParser maxQ);
   P_mongodb (Mongodb.NewParser maxQ); P_smtp; P_ftp; P_imap; P_pop3; P_mqtt; P_websocket;
   P_ssh; P_unknown].

Definition buildRegistry (maxBodyCapture maxQ : Z) : Registry.Registry parser :=
  fold_left Registry.Register (registered maxBodyCapture maxQ) Registry.NewRegistry.

(** ** The laws of the interface hold *)

Lemma remaining_length_wp d (Q : Z * Z -> Prop) :
  (forall v n, Q (v, n)) -> wp (Mqtt.decodeRemainingLength d) Q.
Proof. intros HQ. rewrite Mqtt.decodeRemainingLength_varint. by destruct (Mqtt.varint 4 d) as [[x n]|]; apply HQ. Qed.

Ltac probe := repeat first [progress (cbn [wp]; cbv beta) | go_step]; repeat case_match; lia.

#[export] Instance parser_lawful : LawfulParser parser.
Proof.
  split.
  - intros p. apply (bool_decide_unpack _). by destruct p; vm_compute.
  - intros p data cl. destruct p; cbn [parser_Probe parser_ops].
    + unfold Http.Probe. probe.
    + unfold Dns.Probe. probe.
    + unfold Tls.Probe. probe.
    + unfold Mysql.Probe, Mysql.payload_len. probe.
    + unfold Postgres.Probe. probe.
    + unfold Redis.Probe. probe.
    + unfold Mongodb.Probe, Mongodb.headerSize. probe.
    + unfold Smtp.Probe. probe.
    + unfold Ftp.Probe. probe.
    + unfold Imap.Probe. probe.
    + unfold Pop3.Probe. probe.
    + unfold Mqtt.Probe. go_step; [done|]. go_step. go_step. go_step; [done|]. go_step. go_step. go_step.
      apply remaining_length_wp. intros v n. probe.
    + unfold Websocket.Probe. probe.
    + unfold Ssh.Probe. probe.
    + unfold Unknown.Probe. probe.
Qed.

(** ** The registry of [main] *)

Lemma buildRegistry_indexed b q :
  Registry.indexed (buildRegistry b q) /\ Registry.all (buildRegistry b q) = registered b q.
Proof.
  exact (Registry.fold_Register (registered b q) _ Registry.NewRegistry_indexed).
Qed.

(** The ports that more than one parser declares. *)
Definition shared_ports : list Z := [80; 443; 8080; 993; 995].

Definition declared_ports : list Z := concat (map parser_Ports (registered 0 0)).

Lemma candidates_undeclared b q port :
  port ∉ declared_ports -> filter (fun p => port ∈ parser_Ports p) (registered b q) = [].
Proof.
  intros Hd. destruct (filter _ _) as [|p l] eqn:E; [done|]. exfalso. apply Hd.
  assert (Hp : p ∈ filter (fun p => port ∈ parser_Ports p) (registered b q)) by (rewrite E; left).
  apply list_elem_of_filter in Hp as [Hp Hr].
  unfold declared_ports. apply list_elem_of_In, in_concat. exists (parser_Ports p).
  split; [|by apply list_elem_of_In].
  unfold registered in Hr. rewrite !elem_of_cons in Hr.
  destruct_or! Hr; subst; try (by apply elem_of_nil in Hr); cbn; tauto.
Qed.

Lemma candidates_unshared b q port :
  port ∉ shared_ports -> (length (Registry.candidates (buildRegistry b q) port) <= 1)%nat.
Proof.
  intros Hs. destruct (buildRegistry_indexed b q) as [Hi Ha]. rewrite Hi, Ha. clear Hi Ha.
  destruct (decide (port ∈ declared_ports)) as [Hd|Hd].
  - assert (Hall : forallb (fun port => bool_decide (port ∈ shared_ports)
        || (length (filter (fun p => port ∈ parser_Ports p) (registered b q)) <=? 1)%nat)
        declared_ports = true) by (vm_compute; reflexivity).
    rewrite forallb_forall in Hall. specialize (Hall port). rewrite <- list_elem_of_In in Hall.
    specialize (Hall Hd). rewrite bool_decide_eq_false_2 in Hall by done. cbn [orb] in Hall. lia.
  - rewrite candidates_undeclared by done. simpl. lia.
Qed.

Lemma unknown_registered b q : P_unknown ∈ Registry.all (buildRegistry b q).
Proof.
  rewrite (proj2 (buildRegistry_indexed b q)). apply list_elem_of_In. unfold registered.
  cbn [In]. tauto.
Qed.

Lemma score_unknown data cl : data <> [] -> Registry.score data cl P_unknown = 1.
Proof. by destruct data. Qed.

(** [Resolve] on the registry that [main] builds never panics, and finds a
    parser for every non-empty buffer of a connection unless it consults one
    of the five ports that several parsers share: the fallback parser claims
    what no other parser does. *)
Theorem main_registry_total b q srcPort dstPort data isFromClient :
  data <> [] ->
  exists o, Registry.Resolve (buildRegistry b q) srcPort dstPort data isFromClient = Ret o /\
    (o = None -> dstPort ∈ shared_ports \/ srcPort ∈ shared_ports).
Proof.
  intros Hne. destruct (decide (dstPort ∈ shared_ports \/ srcPort ∈ shared_ports)) as [Hs|Hs].
  - destruct (Registry.Resolve_spec data isFromClient (buildRegistry b q) srcPort dstPort)
      as (o & Ho & _). by exists o.
  - apply Decidable.not_or in Hs as [Hd Hs].
    destruct (Registry.Resolve_claimed data isFromClient (buildRegistry b q) srcPort dstPort P_unknown)
      as [p Hp]; [apply unknown_registered|by rewrite score_unknown|by apply candidates_unshared..|].
    by exists (Some p).
Qed.
End Parsers.

#[local] Existing Instance ascii_unicode.

Lemma main_registry_total_witness :
  exists o, Registry.Resolve (buildRegistry 1024 512) 40000 12345 [x01; x02] true = Ret o /\
    (o = None -> 12345 ∈ shared_ports \/ 40000 ∈ shared_ports).
Proof. apply (main_registry_total 1024 512 40000 12345 [x01; x02] true). done. Defined.
