(* ===== verification/Wire.v ===== *)
(** * Wire formats of the registered parsers

    What a parser promises to the stages before it: the streams it reads whole.
    [WireFormat] states it once, for a parser without state; the parsers of the
    framed protocols are instances, with the encoders of their files. *)

From S2P Require Import Prelude.
From S2P Require Import GoStrings.
From S2P Require Import Event.
From S2P Require Import Framing.
From S2P Require Import Mysql.
From S2P Require Import Postgres.
From S2P Require Import Mongodb.
From S2P Require Import Mqtt.
From S2P Require Import Redis.
From S2P Require Import LineProtocols.
From S2P Require Import Http.
From S2P Require Import Registry.
From S2P Require Import Parsers.

(** [wire cl msgs] are the bytes of a direction of a connection with these
    messages, and [wire_event] what the parser makes of a message. *)
Class WireFormat `{Unicode} `{NetHTTP} (p : parser) := {
  wire_msg : Type;
  wire_ok : wire_msg -> Prop;
  wire : bool -> list wire_msg -> bytes;
  wire_event : ConnMeta -> bool -> wire_msg -> option ProtocolEvent;
  wire_nil cl msgs : wire cl msgs = [] -> msgs = [];
  wire_parse now clk meta cl msgs st : Forall wire_ok msgs ->
    exists evs, Parsers.Parse p now clk (wire cl msgs) [] meta cl st = Ret (OkR evs, st) /\
      untimed <$> evs = omap (wire_event meta cl) msgs;
}.
Arguments wire_msg {_ _} p {_}.
Arguments wire_ok {_ _} p {_} _.
Arguments wire {_ _} p {_} _ _.
Arguments wire_event {_ _} p {_} _ _ _.
Arguments wire_nil {_ _} p {_} _ _ _.
Arguments wire_parse {_ _} p {_} _ _ _ _ _ _ _.

(** A format without a preamble: a stream can be cut between any two messages. *)
Class Piecewise `{Unicode} `{NetHTTP} (p : parser) `{!WireFormat p} :=
  wire_concat cl (mss : list (list (wire_msg p))) : wire p cl (concat mss) = concat (map (wire p cl) mss).

(** The messages a buffer starts with give their events first, whatever bytes
    follow them, if the parser does not panic there. *)
Class Prefixed `{Unicode} `{NetHTTP} (p : parser) `{!WireFormat p} :=
  wire_prefix now clk meta cl msgs t st : Forall (wire_ok p) msgs ->
    yields (Parsers.Parse p now clk (wire p cl msgs ++ t) [] meta cl st) (fun '(r, _) =>
      exists evs, r = OkR evs /\ omap (wire_event p meta cl) msgs `prefix_of` untimed <$> evs).

Lemma concat_map_concat {A} (f : A -> bytes) (ls : list (list A)) :
  concat (map f (concat ls)) = concat (map (fun l => concat (map f l)) ls).
Proof. induction ls as [|l ls IH]; [done|]. cbn [map concat]. by rewrite map_app, concat_app, IH. Qed.

(** An encoding of messages by non-empty pieces is empty when there are none. *)
Lemma encoded_nil {F} (enc : F -> bytes) msgs :
  (forall f, enc f <> []) -> concat (map enc msgs) = [] -> msgs = [].
Proof.
  intros Hne He. destruct msgs as [|f msgs]; [done|]. cbn in He.
  apply app_eq_nil in He as [He _]. by apply Hne in He.
Qed.

Section Formats.
Context `{Unicode} `{NetHTTP}.

#[local] Existing Instances Mysql.packet_framed Mysql.packet_encoder Postgres.message_framed
  Postgres.message_encoder Mongodb.message_framed Mongodb.message_encoder Mqtt.packet_framed Mqtt.packet_encoder.

(** Encoded messages of a framed protocol, as a parser without state reads
    them. *)
Lemma framed_wire {F} `{HF : Framed F} `{!FrameEncoder F} clk (decode : F -> Z -> option ProtocolEvent)
    (parse : bytes -> outcome (result (list ProtocolEvent))) msgs (st : Http.states) :
  (forall d, parse d = Ret (OkR (collect clk decode (fst (frames d)) []))) ->
  (forall f now, untimed <$> decode f now = decode f 0) ->
  Forall encodable msgs ->
  exists evs, (r ← parse (concat (map encode msgs)); Ret (r, st)) = Ret (OkR evs, st) /\
    untimed <$> evs = omap (fun f => decode f 0) msgs.
Proof.
  intros Hp Hd Hok. assert (Hn : @next F HF [] = None).
  { destruct (@next F HF []) as [[f rest]|] eqn:E; [|done]. apply next_shorter in E. cbn in E. lia. }
  destruct (framed_parse_encoded clk decode parse Hp Hd msgs [] Hok Hn) as (evs & Hr & He).
  rewrite app_nil_r in Hr. exists evs. by rewrite Hr.
Qed.

#[export, program] Instance mysql_wire (n : Z) : WireFormat (P_mysql (Mysql.NewParser n)) := {|
  wire_msg := Mysql.packet; wire_ok := encodable;
  wire _ msgs := concat (map encode msgs);
  wire_event meta cl f := Mysql.packet_event (Mysql.NewParser n) meta cl f 0;
|}.
Next Obligation. intros n cl msgs. cbv beta. apply encoded_nil. intros f He. by apply (f_equal length) in He. Qed.
Next Obligation.
  intros n now clk meta cl msgs st Hok. cbn [Parsers.Parse].
  by apply (framed_wire clk (Mysql.packet_event (Mysql.NewParser n) meta cl)
    (fun d => Mysql.Parse (Mysql.NewParser n) clk d meta cl) msgs st);
    [intros d; apply Mysql.mysql_Parse_ret|apply Mysql.packet_event_untimed|].
Qed.

#[export, program] Instance mongodb_wire (n : Z) : WireFormat (P_mongodb (Mongodb.NewParser n)) := {|
  wire_msg := Mongodb.message; wire_ok := encodable;
  wire _ msgs := concat (map encode msgs);
  wire_event meta cl f := Mongodb.message_event meta cl f 0;
|}.
Next Obligation. intros n cl msgs. cbv beta. apply encoded_nil. intros f He. by apply (f_equal length) in He. Qed.
Next Obligation.
  intros n now clk meta cl msgs st Hok. cbn [Parsers.Parse].
  by apply (framed_wire clk (Mongodb.message_event meta cl)
    (fun d => Mongodb.Parse (Mongodb.NewParser n) clk d meta cl) msgs st);
    [intros d; apply Mongodb.mongodb_Parse_ret|apply Mongodb.mongodb_message_event_untimed|].
Qed.

#[export, program] Instance mqtt_wire : WireFormat P_mqtt := {|
  wire_msg := Mqtt.packet; wire_ok := encodable;
  wire _ msgs := concat (map encode msgs);
  wire_event meta cl f := Mqtt.packet_event meta cl f 0;
|}.
Next Obligation. intros cl msgs. by apply encoded_nil. Qed.
Next Obligation.
  intros now clk meta cl msgs st Hok. cbn [Parsers.Parse].
  by apply (framed_wire clk (Mqtt.packet_event meta cl) (fun d => Mqtt.Parse clk d meta cl) msgs st);
    [intros d; apply Mqtt.mqtt_Parse_ret|done|].
Qed.

(** A PostgreSQL client opens its stream with a startup message: its length,
    the version of the protocol and parameters. *)
Definition startup_message (params : bytes) : bytes :=
  be_bytes 4 (8 + len params) ++ be_bytes 4 Postgres.startup_version ++ params.

Lemma after_startup_message params t :
  len params < 2 ^ 31 -> Postgres.after_startup (startup_message params ++ t) true = t.
Proof.
  intros Hp. pose proof (len_nonneg params). unfold startup_message, Postgres.after_startup.
  rewrite <- !app_assoc. set (l := be_bytes 4 (8 + len params)).
  assert (Hl : length l = 4%nat) by apply length_be_bytes.
  assert (Ht : take 4 (l ++ be_bytes 4 Postgres.startup_version ++ params ++ t) = l).
  { rewrite <- Hl at 1. apply take_app_length. }
  assert (Hd : drop 4 (l ++ be_bytes 4 Postgres.startup_version ++ params ++ t)
             = be_bytes 4 Postgres.startup_version ++ params ++ t).
  { rewrite <- Hl at 1. apply drop_app_length. }
  rewrite Ht, Hd. assert (Hv : be_uint l = 8 + len params) by (apply be_uint_be_bytes; lia).
  rewrite Hv. pose proof (len_nonneg t).
  replace (be_uint (take 4 (be_bytes 4 Postgres.startup_version ++ params ++ t)) =? Postgres.startup_version)
    with true by (vm_compute; reflexivity).
  replace (true && (8 <=? len (l ++ be_bytes 4 Postgres.startup_version ++ params ++ t)) && true
    && (0 <? 8 + len params) && (8 + len params <=? len (l ++ be_bytes 4 Postgres.startup_version ++ params ++ t)))
    with true by (unfold l; rewrite !len_app, !len_be_bytes; lia).
  rewrite (app_assoc l), (app_assoc (l ++ _)). replace (Z.to_nat (8 + len params))
    with (length ((l ++ be_bytes 4 Postgres.startup_version) ++ params)).
  - apply drop_app_length.
  - rewrite !length_app, Hl, length_be_bytes. unfold len. lia.
Qed.

#[program] Definition postgres_wire (n : Z) (params : bytes) (Hparams : len params < 2 ^ 31)
    : WireFormat (P_postgres (Postgres.NewParser n)) := {|
  wire_msg := Postgres.message; wire_ok := encodable;
  wire cl msgs := (if cl : bool then startup_message params else []) ++ concat (map encode msgs);
  wire_event meta cl f := Postgres.message_event (Postgres.NewParser n) meta cl f 0;
|}.
Next Obligation.
  intros n params Hparams cl msgs He. cbv beta in He. apply app_eq_nil in He as [_ He]. by apply encoded_nil in He.
Qed.
Next Obligation.
  intros n params Hparams now clk meta cl msgs st Hok. cbn [Parsers.Parse].
  rewrite Postgres.postgres_Parse_ret.
  replace (Postgres.after_startup _ cl) with (concat (map encode msgs)).
  - apply (framed_wire clk (Postgres.message_event (Postgres.NewParser n) meta cl)
      (fun d => Ret (OkR (collect clk (Postgres.message_event (Postgres.NewParser n) meta cl) (fst (frames d)) [])))
      msgs st); [done|apply Postgres.postgres_message_event_untimed|done].
  - destruct cl; [by rewrite after_startup_message|done].
Qed.

#[export, program] Instance redis_wire (n : Z) : WireFormat (P_redis (Redis.NewParser n)) := {|
  wire_msg := Redis.value; wire_ok v := Redis.value_ok v = true;
  wire _ vs := concat (map Redis.encode vs);
  wire_event meta cl v := Redis.value_event (Redis.NewParser n) meta cl v 0;
|}.
Next Obligation.
  intros n cl vs. cbv beta. apply encoded_nil. intros v Hv. pose proof (Redis.encode_pos v). by rewrite Hv in *.
Qed.
Next Obligation.
  intros n now clk meta cl vs st Hok. cbn [Parsers.Parse].
  assert (Hvs : forallb Redis.value_ok vs = true) by (by apply forallb_forall, List.Forall_forall).
  destruct (Redis.Parse_values (Redis.NewParser n) clk meta cl vs [] Hvs (or_introl eq_refl)) as (evs & Hr & He).
  rewrite app_nil_r in Hr. exists evs. by rewrite Hr.
Qed.

(** The text protocols: lines that end with CRLF. *)
Definition text_parser (p : line_protocol) : parser :=
  match p with SMTP => P_smtp | FTP => P_ftp | POP3 => P_pop3 | IMAP => P_imap end.

Lemma lines_Join lines : concat (map (fun l => l ++ CRLF) lines) = Join (lines ++ [[]]) CRLF.
Proof.
  induction lines as [|l lines IH]; [done|]. cbn [map concat app]. rewrite IH.
  destruct lines as [|k lines]; cbn [app Join]; by rewrite <- app_assoc.
Qed.

Lemma omap_filter {A B} (f : A -> option B) (g : A -> bool) l :
  omap f (List.filter g l) = omap (fun x => if g x then f x else None) l.
Proof.
  induction l as [|x l IH]; [done|]. cbn. destruct (g x); cbn; [|done]. by destruct (f x); rewrite <- IH.
Qed.

#[export, program] Instance text_wire (p : line_protocol) : WireFormat (text_parser p) := {|
  wire_msg := bytes; wire_ok l := Index l CRLF = None;
  wire _ lines := concat (map (fun l => l ++ CRLF) lines);
  wire_event meta cl l := if not_empty l then line_event p meta cl l 0 else None;
|}.
Next Obligation. intros p cl lines. cbv beta. apply encoded_nil. by intros []. Qed.
Next Obligation.
  intros p now clk meta cl lines st Hok. cbv beta. rewrite lines_Join.
  destruct (line_Parse_Join p clk (lines ++ [[]]) meta cl) as (evs & Hr & He).
  - by destruct lines.
  - apply Forall_app. split; [done|]. by repeat constructor.
  - exists evs. split.
    + destruct p; cbn [text_parser Parsers.Parse line_Parse] in *; by rewrite Hr.
    + rewrite He, omap_filter, omap_app. cbn. by rewrite app_nil_r.
Qed.

(** ** What comes first *)

Lemma reads_prefix (parse : outcome (result (list ProtocolEvent))) (st : Http.states) first :
  yields parse (fun r => exists evs, r = OkR evs /\ first `prefix_of` untimed <$> evs) ->
  yields (r ← parse; Ret (r, st)) (fun '(r, _) => exists evs, r = OkR evs /\ first `prefix_of` untimed <$> evs).
Proof. intros Hp. eapply yields_bind; [exact Hp|]. by intros r Hr. Qed.

Lemma framed_prefix {F} `{HF : Framed F} `{!FrameEncoder F} clk (decode : F -> Z -> option ProtocolEvent)
    (parse : bytes -> outcome (result (list ProtocolEvent))) msgs t :
  (forall d, parse d = Ret (OkR (collect clk decode (fst (frames d)) []))) ->
  (forall f now, untimed <$> decode f now = decode f 0) ->
  Forall encodable msgs ->
  yields (parse (concat (map encode msgs) ++ t)) (fun r =>
    exists evs, r = OkR evs /\ omap (fun f => decode f 0) msgs `prefix_of` untimed <$> evs).
Proof.
  intros Hp Hd Hok. destruct (framed_parse_prefix clk decode parse Hp Hd msgs t Hok) as (evs & -> & He).
  by exists evs.
Qed.

#[export] Instance mysql_prefixed n : Prefixed (P_mysql (Mysql.NewParser n)).
Proof.
  intros now clk meta cl msgs t st Hok. cbn [Parsers.Parse]. apply reads_prefix.
  by apply (framed_prefix clk (Mysql.packet_event (Mysql.NewParser n) meta cl)
    (fun d => Mysql.Parse (Mysql.NewParser n) clk d meta cl));
    [intros d; apply Mysql.mysql_Parse_ret|apply Mysql.packet_event_untimed|].
Qed.

#[export] Instance mongodb_prefixed n : Prefixed (P_mongodb (Mongodb.NewParser n)).
Proof.
  intros now clk meta cl msgs t st Hok. cbn [Parsers.Parse]. apply reads_prefix.
  by apply (framed_prefix clk (Mongodb.message_event meta cl)
    (fun d => Mongodb.Parse (Mongodb.NewParser n) clk d meta cl));
    [intros d; apply Mongodb.mongodb_Parse_ret|apply Mongodb.mongodb_message_event_untimed|].
Qed.

#[export] Instance mqtt_prefixed : Prefixed P_mqtt.
Proof.
  intros now clk meta cl msgs t st Hok. cbn [Parsers.Parse]. apply reads_prefix.
  by apply (framed_prefix clk (Mqtt.packet_event meta cl) (fun d => Mqtt.Parse clk d meta cl));
    [intros d; apply Mqtt.mqtt_Parse_ret|done|].
Qed.

Lemma postgres_prefixed n params short : Prefixed (P_postgres (Postgres.NewParser n)) (WireFormat0 := postgres_wire n params short).
Proof.
  intros now clk meta cl msgs t st Hok. cbn [Parsers.Parse]. apply reads_prefix. rewrite Postgres.postgres_Parse_ret.
  cbn [wire postgres_wire]. replace (Postgres.after_startup _ cl) with (concat (map encode msgs) ++ t).
  - by apply (framed_prefix clk (Postgres.message_event (Postgres.NewParser n) meta cl)
      (fun d => Ret (OkR (collect clk (Postgres.message_event (Postgres.NewParser n) meta cl) (fst (frames d)) []))));
      [|apply Postgres.postgres_message_event_untimed|].
  - destruct cl; [by rewrite <- app_assoc, after_startup_message|done].
Qed.

#[export] Instance redis_prefixed n : Prefixed (P_redis (Redis.NewParser n)).
Proof.
  intros now clk meta cl vs t st Hok. cbn [Parsers.Parse]. apply reads_prefix.
  by apply (Redis.Parse_prefix (Redis.NewParser n) clk meta cl vs t), forallb_forall, List.Forall_forall.
Qed.

#[export] Instance text_prefixed p : Prefixed (text_parser p).
Proof.
  intros now clk meta cl lines t st Hok.
  destruct (line_Parse_prefix p clk lines t meta cl Hok) as (evs & Hr & He). rewrite omap_filter in He.
  replace (Parsers.Parse _ _ _ _ _ _ _ _) with (Ret (OkR evs, st)); [by exists evs|].
  destruct p; cbn [text_parser Parsers.Parse line_Parse wire text_wire] in *; by rewrite Hr.
Qed.

(** ** The services of these protocols *)

(** A PostgreSQL service names the parameters its client starts with. *)
Inductive service :=
| S_mysql
| S_mongodb
| S_mqtt
| S_redis
| S_postgres (params : bytes) (short : len params < 2 ^ 31)
| S_text (p : line_protocol).

(** Its parser among those of [main], for the configured query limit. *)
Definition service_parser (maxQ : Z) (sv : service) : parser :=
  match sv with
  | S_mysql => P_mysql (Mysql.NewParser maxQ)
  | S_mongodb => P_mongodb (Mongodb.NewParser maxQ)
  | S_mqtt => P_mqtt
  | S_redis => P_redis (Redis.NewParser maxQ)
  | S_postgres _ _ => P_postgres (Postgres.NewParser maxQ)
  | S_text p => text_parser p
  end.

Definition service_wire (maxQ : Z) (sv : service) : WireFormat (service_parser maxQ sv) :=
  match sv with
  | S_mysql => mysql_wire maxQ
  | S_mongodb => mongodb_wire maxQ
  | S_mqtt => mqtt_wire
  | S_redis => redis_wire maxQ
  | S_postgres params short => postgres_wire maxQ params short
  | S_text p => text_wire p
  end.

Lemma service_prefixed maxQ sv : Prefixed (service_parser maxQ sv) (WireFormat0 := service_wire maxQ sv).
Proof.
  destruct sv; [apply mysql_prefixed|apply mongodb_prefixed|apply mqtt_prefixed|apply redis_prefixed
    |apply postgres_prefixed|apply text_prefixed].
Qed.

(** All but PostgreSQL, where a client opens its stream with a preamble. *)
Definition piecewise (sv : service) : Prop := match sv with S_postgres _ _ => False | _ => True end.

Lemma service_piecewise maxQ sv :
  piecewise sv -> Piecewise (service_parser maxQ sv) (WireFormat0 := service_wire maxQ sv).
Proof. destruct sv; [intros _ cl mss; apply concat_map_concat..|done|intros _ cl mss; apply concat_map_concat]. Qed.

(** The ports of a service that no other parser declares. *)
Definition service_ports (sv : service) : list Z :=
  match sv with
  | S_mysql => Mysql.Ports
  | S_mongodb => Mongodb.Ports
  | S_mqtt => Mqtt.Ports
  | S_redis => Redis.Ports
  | S_postgres _ _ => Postgres.Ports
  | S_text SMTP => Smtp.Ports
  | S_text FTP => Ftp.Ports
  | S_text POP3 => [110]
  | S_text IMAP => [143]
  end.

Lemma service_ports_own b q sv port :
  port ∈ service_ports sv ->
  filter (fun p => port ∈ parser_Ports p) (registered b q) = [service_parser q sv].
Proof.
  intros Hp. assert (Hin : In port (service_ports sv)) by (by apply list_elem_of_In).
  destruct sv as [| | | | |[]]; cbn in Hin;
    repeat (destruct Hin as [<-|Hin]; [reflexivity|]); destruct Hin.
Qed.
End Formats.
