(* ===== verification/Reassembly.v ===== *)
(** * TCP streams ([internal/reassembly/stream.go], [tcp.go])

    The stream object of a TCP connection: it buffers each direction, flushes a
    direction to the output channel at 256 KiB, and at the end of the connection
    flushes both and emits a close marker. Sends never block: what does not fit
    in the channel is dropped. Flows and the reassembly engine are gopacket's. *)

From S2P Require Import Prelude.
From S2P Require Import GoStrings.
From S2P Require Import Event.

Lemma lxor_uint64 x y : 0 <= x < 2 ^ 64 -> 0 <= y < 2 ^ 64 -> 0 <= Z.lxor x y < 2 ^ 64.
Proof.
  intros Hx Hy. assert (H0 : 0 <= Z.lxor x y) by (apply Z.lxor_nonneg; lia). split; [done|].
  destruct (Z.eq_dec (Z.lxor x y) 0) as [->|Hn]; [done|]. apply Z.log2_lt_pow2; [lia|].
  assert (Hlog : forall z, 0 <= z < 2 ^ 64 -> Z.log2 z < 64).
  { intros z Hz. destruct (Z.eq_dec z 0) as [->|]; [done|]. apply Z.log2_lt_pow2; lia. }
  pose proof (Z.log2_lxor x y ltac:(lia) ltac:(lia)). pose proof (Hlog x Hx). pose proof (Hlog y Hy). lia.
Qed.

(** [gopacket.Flow]: an ordered pair of endpoints, each a byte string with a
    printed form, and a hash. *)
Class GopacketFlow := {
  flow : Type;
  FastHash : flow -> Z;
  FastHash_uint64 f : 0 <= FastHash f < 2 ^ 64;
  Src_Raw : flow -> bytes;
  Dst_Raw : flow -> bytes;
  Src_String : flow -> bytes;
  Dst_String : flow -> bytes;
}.

(** Flows given by their raw endpoints, printed as they are. *)
#[program] Definition raw_flow : GopacketFlow := {|
  flow := bytes * bytes;
  FastHash f := be_uint (take 4 (fst f)) + be_uint (take 4 (snd f));
  Src_Raw := fst; Dst_Raw := snd; Src_String := fst; Dst_String := snd;
|}.
Next Obligation.
  intros f. assert (Hb : forall l, 0 <= be_uint (take 4 l) < 256 ^ 4).
  { intros l. pose proof (be_uint_range (take 4 l)) as Hl. rewrite len_take in Hl. split; [lia|].
    eapply Z.lt_le_trans; [apply Hl|]. apply Z.pow_le_mono_r; lia. }
  pose proof (Hb (fst f)). pose proof (Hb (snd f)). lia.
Qed.

Module Reassembly.
Section Reassembly.
Context `{GopacketFlow}.

Definition maxBufferSize : Z := 256 * 1024.

(** [reassembly.ConnMeta]: addresses are strings here. *)
Record ConnMeta := {
  SrcIP : bytes; DstIP : bytes; SrcPort : Z; DstPort : Z; ConnID : Z;
}.

(** [Timestamp] is [None] for the zero time. *)
Record StreamData := {
  Net : flow; Transport : flow; Data : bytes; IsClient : bool;
  Timestamp : option Z; Meta : ConnMeta; Closed : bool;
}.

Record biStream := {
  net : flow; transport : flow; connID : Z; clientBuf : bytes; serverBuf : bytes;
}.

(** [streamFactory.New] *)
Definition New (netFlow tcpFlow : flow) : biStream :=
  {| net := netFlow; transport := tcpFlow;
     connID := Z.lxor (FastHash netFlow) (FastHash tcpFlow);
     clientBuf := []; serverBuf := [] |}.

(** Its id is a uint64. *)
Lemma New_connID n t : 0 <= connID (New n t) < 2 ^ 64.
Proof. apply lxor_uint64; apply FastHash_uint64. Qed.

(** [Accept]: every packet; [start], when there is one, is set to false. *)
Definition Accept (start : option bool) : bool * option bool :=
  (true, match start with Some _ => Some false | None => None end).

Definition extractPorts (f : flow) : outcome (Z * Z) :=
  src ← (if 2 <=? len (Src_Raw f) then be16 (Src_Raw f) else Ret 0);
  dst ← (if 2 <=? len (Dst_Raw f) then be16 (Dst_Raw f) else Ret 0);
  Ret (src, dst).

(** The buffer of a direction. *)
Definition buffer (s : biStream) (isClient : bool) : bytes :=
  if isClient then clientBuf s else serverBuf s.

Definition set_buffer (s : biStream) (isClient : bool) (b : bytes) : biStream :=
  {| net := net s; transport := transport s; connID := connID s;
     clientBuf := if isClient then b else clientBuf s;
     serverBuf := if isClient then serverBuf s else b |}.

Definition stream_meta (s : biStream) (ports : Z * Z) : ConnMeta :=
  {| SrcIP := Src_String (net s); DstIP := Dst_String (net s);
     SrcPort := fst ports; DstPort := snd ports; ConnID := connID s |}.

(** What an operation gives to the output channel: each message, and whether
    it was sent or dropped. *)
Definition sends : Type := list (StreamData * bool).

Definition emitCloseLocked (s : biStream) (out : channel StreamData)
    : outcome (channel StreamData * sends) :=
  ports ← extractPorts (transport s);
  let msg := {| Net := net s; Transport := transport s; Data := []; IsClient := false;
                Timestamp := None; Meta := stream_meta s ports; Closed := true |} in
  '(out, sent) ← try_send out msg;
  Ret (out, [(msg, sent)]).

(** [ac] is the capture time of the assembler's context, if there is one. *)
Definition flushDirectionLocked (s : biStream) (isClient : bool) (ac : option Z)
    (out : channel StreamData) : outcome (biStream * channel StreamData * sends) :=
  let buf := buffer s isClient in
  if len buf =? 0 then Ret (s, out, []) else
  let s := set_buffer s isClient [] in
  ports ← extractPorts (transport s);
  let sd := {| Net := net s; Transport := transport s; Data := buf; IsClient := isClient;
               Timestamp := ac; Meta := stream_meta s ports; Closed := false |} in
  '(out, sent) ← try_send out sd;
  Ret (s, out, [(sd, sent)]).

(** [data] is what the engine has ordered for one direction. *)
Definition ReassembledSG (s : biStream) (data : bytes) (isClient : bool) (ac : option Z)
    (out : channel StreamData) : outcome (biStream * channel StreamData * sends) :=
  if len data =? 0 then Ret (s, out, []) else
  let s := set_buffer s isClient (buffer s isClient ++ data) in
  if maxBufferSize <=? len (buffer s isClient) then flushDirectionLocked s isClient ac out
  else Ret (s, out, []).

Definition ReassemblyComplete (s : biStream) (ac : option Z) (out : channel StreamData)
    : outcome (bool * biStream * channel StreamData * sends) :=
  '(s, out, log1) ← (if 0 <? len (clientBuf s) then flushDirectionLocked s true ac out
                     else Ret (s, out, []));
  '(s, out, log2) ← (if 0 <? len (serverBuf s) then flushDirectionLocked s false ac out
                     else Ret (s, out, []));
  '(out, log3) ← emitCloseLocked s out;
  Ret (false, s, out, log1 ++ log2 ++ log3).

(** ** One step at a time *)

(** The port an endpoint holds, and the pair [extractPorts] always finds. *)
Definition port_of (raw : bytes) : Z := if 2 <=? len raw then be_uint (take 2 raw) else 0.
Definition ports_of (f : flow) : Z * Z := (port_of (Src_Raw f), port_of (Dst_Raw f)).

Lemma extractPorts_ret f : extractPorts f = Ret (ports_of f).
Proof.
  assert (Hp : forall raw, (if 2 <=? len raw then be16 raw else Ret 0) = Ret (port_of raw)).
  { intros raw. unfold port_of. destruct (2 <=? len raw) eqn:E; [|done]. by apply read_be_ret; lens. }
  unfold extractPorts. by rewrite !Hp.
Qed.

(** The connection that the stream names in its messages. *)
Definition conn_meta (s : biStream) : ConnMeta := stream_meta s (ports_of (transport s)).

(** The data of a direction in the messages given to the channel. *)
Definition payload (isClient : bool) (log : sends) : bytes :=
  concat (map (fun '(sd, _) => if Bool.eqb (IsClient sd) isClient && negb (Closed sd)
                               then Data sd else []) log).

Lemma payload_app cl l k : payload cl (l ++ k) = payload cl l ++ payload cl k.
Proof. unfold payload. by rewrite map_app, concat_app. Qed.

(** The messages of a log that were sent, in order. *)
Definition delivered (log : sends) : list StreamData :=
  omap (fun '(sd, sent) => if sent : bool then Some sd else None) log.

(** The channel after an operation: it holds the delivered messages after the
    ones it held before. *)
Definition channel_after (out out' : channel StreamData) (log : sends) : Prop :=
  chan_closed out' = false /\ chan_cap out' = chan_cap out /\
  chan_buf out' = chan_buf out ++ delivered log.

(** A data message is never empty, and comes from this stream. *)
Definition message_ok (s : biStream) (m : StreamData * bool) : Prop :=
  Meta (fst m) = conn_meta s /\ (Closed (fst m) = false -> Data (fst m) <> []).

Lemma send_wp (s : biStream) out sd (k : channel StreamData -> sends -> Prop) :
  chan_closed out = false ->
  (forall out' sent, channel_after out out' [(sd, sent)] -> k out' [(sd, sent)]) ->
  wp (try_send out sd) (fun '(out', sent) => k out' [(sd, sent)]).
Proof.
  intros Hc Hk. apply try_send_wp; [done|]. intros sent _. apply Hk.
  unfold channel_after. cbn. split; [done|]. split; [done|].
  destruct sent; [done|]. by rewrite app_nil_r.
Qed.

Lemma flush_wp s cl ac out :
  chan_closed out = false ->
  wp (flushDirectionLocked s cl ac out) (fun '(s', out', log) =>
    channel_after out out' log /\ Forall (message_ok s) log /\
    payload cl log = buffer s cl /\ payload (negb cl) log = [] /\
    s' = set_buffer s cl [] /\ Forall (fun m => Closed (fst m) = false) log).
Proof.
  intros Hc. unfold flushDirectionLocked. cbv zeta. destruct (len (buffer s cl) =? 0) eqn:E.
  - assert (buffer s cl = []) as Hb by (destruct (buffer s cl); [done|lens]).
    cbn. rewrite Hb. repeat split; try done; [by rewrite app_nil_r|].
    destruct s, cl; cbn in *; by subst.
  - rewrite extractPorts_ret. cbn [mbind outcome_bind]. cbv zeta. go_step.
    eapply wp_mono; [apply (send_wp s out _ (fun out' log => channel_after out out' log) Hc); by intros|].
    intros [out' sent] Hch. apply wp_ret. split; [done|].
    assert (buffer s cl <> []) by (intros Hb; by rewrite Hb in E).
    split; [|split; [|split; [|split; [done|by repeat constructor]]]].
    + repeat constructor; by destruct cl.
    + unfold payload. cbn. rewrite eqb_reflx. cbn. by rewrite app_nil_r.
    + unfold payload. cbn. by destruct cl.
Qed.

Lemma buffer_set s cl cl' b :
  buffer (set_buffer s cl b) cl' = if Bool.eqb cl cl' then b else buffer s cl'.
Proof. by destruct cl, cl'. Qed.

Lemma ReassembledSG_wp s data cl ac out :
  chan_closed out = false -> len (buffer s true) < maxBufferSize -> len (buffer s false) < maxBufferSize ->
  wp (ReassembledSG s data cl ac out) (fun '(s', out', log) =>
    channel_after out out' log /\ Forall (message_ok s) log /\
    payload cl log ++ buffer s' cl = buffer s cl ++ data /\
    payload (negb cl) log ++ buffer s' (negb cl) = buffer s (negb cl) /\
    len (buffer s' true) < maxBufferSize /\ len (buffer s' false) < maxBufferSize /\
    conn_meta s' = conn_meta s /\ Forall (fun m => Closed (fst m) = false) log).
Proof.
  intros Hc H1 H2. unfold ReassembledSG. cbv zeta. destruct (len data =? 0) eqn:E.
  { assert (data = []) as -> by (destruct data; [done|lens]). cbn.
    rewrite !app_nil_r. repeat split; try done; by rewrite app_nil_r. }
  set (s1 := set_buffer s cl (buffer s cl ++ data)).
  assert (Hb : buffer s1 cl = buffer s cl ++ data) by (unfold s1; by rewrite buffer_set, eqb_reflx).
  assert (Hb' : buffer s1 (negb cl) = buffer s (negb cl)) by (unfold s1; by destruct cl).
  destruct (maxBufferSize <=? len (buffer s1 cl)) eqn:Em.
  - eapply wp_mono; [by apply flush_wp|]. intros [[s' out'] log] (Hch & Hm & Hp & Hn & -> & Hcl).
    split; [done|]. split; [done|]. rewrite !buffer_set, Hp, Hn, Hb, eqb_reflx.
    replace (Bool.eqb cl (negb cl)) with false by (by destruct cl). rewrite Hb'.
    assert (0 < maxBufferSize) by done.
    repeat split; try done; [by rewrite app_nil_r|by destruct cl|by destruct cl].
  - cbn [wp]. rewrite Hb, Hb'. repeat split; try done.
    + cbn. by rewrite app_nil_r.
    + destruct cl; [rewrite Hb in *; lia|by cbn in *].
    + destruct cl; [by cbn in *|rewrite Hb in *; lia].
Qed.

(** ** The life of a connection *)

(** What happens to a stream: the engine delivers data, or the consumer of the
    output channel receives a message. *)
Inductive op :=
| OpData (data : bytes) (isClient : bool) (ac : option Z)
| OpReceive.

(** [received] are the messages the consumer has received so far. *)
Definition step (s : biStream) (out : channel StreamData) (received : list StreamData) (o : op)
    : outcome (biStream * channel StreamData * list StreamData * sends) :=
  match o with
  | OpData data cl ac =>
      '(s, out, log) ← ReassembledSG s data cl ac out; Ret (s, out, received, log)
  | OpReceive =>
      match recv_chan out with
      | Some (Some m, out) => Ret (s, out, received ++ [m], [])
      | _ => Ret (s, out, received, [])
      end
  end.

Fixpoint run (ops : list op) (s : biStream) (out : channel StreamData) (received : list StreamData)
    : outcome (biStream * channel StreamData * list StreamData * sends) :=
  match ops with
  | [] => Ret (s, out, received, [])
  | o :: ops' =>
      '(s, out, received, log) ← step s out received o;
      '(s, out, received, log') ← run ops' s out received;
      Ret (s, out, received, log ++ log')
  end.

(** The bytes the engine delivered for a direction. *)
Definition delivered_by_engine (cl : bool) (ops : list op) : bytes :=
  concat (map (fun o => match o with
    | OpData data cl' _ => if Bool.eqb cl' cl then data else []
    | OpReceive => []
    end) ops).

Definition small (s : biStream) : Prop :=
  len (buffer s true) < maxBufferSize /\ len (buffer s false) < maxBufferSize.

Lemma step_wp s out received o :
  chan_closed out = false -> small s ->
  wp (step s out received o) (fun '(s', out', received', log) =>
    chan_closed out' = false /\ small s' /\ conn_meta s' = conn_meta s /\
    received' ++ chan_buf out' = received ++ chan_buf out ++ delivered log /\
    Forall (fun m => Closed (fst m) = false) log /\ Forall (message_ok s) log /\
    forall cl, payload cl log ++ buffer s' cl = buffer s cl ++ delivered_by_engine cl [o]).
Proof.
  intros Hc [H1 H2]. destruct o as [data cl ac|]; cbn [step].
  - go_step. eapply wp_mono; [by apply ReassembledSG_wp|].
    intros [[s' out'] log] (Hch & Hm & Hp & Hn & Hs1 & Hs2 & Hid & Hcl). apply wp_ret.
    destruct Hch as (Hc' & _ & Hbuf). rewrite Hbuf. repeat split; try done.
    intros cl'. unfold delivered_by_engine. cbn [map concat].
    destruct (Bool.eqb cl cl') eqn:Ecl.
    + apply eqb_prop in Ecl as <-. by rewrite app_nil_r.
    + replace cl' with (negb cl) by (by destruct cl, cl'). by rewrite Hn, app_nil_r.
  - unfold recv_chan. destruct (chan_buf out) as [|m b] eqn:Eb.
    + rewrite Hc. cbn [wp]. rewrite Eb. repeat split; try done. intros cl. by rewrite app_nil_r.
    + cbn [wp chan_buf chan_closed]. repeat split; try done.
      * cbn. by rewrite app_nil_r, <- app_assoc.
      * intros cl. by rewrite app_nil_r.
Qed.

Lemma run_wp ops s out received :
  chan_closed out = false -> small s ->
  wp (run ops s out received) (fun '(s', out', received', log) =>
    chan_closed out' = false /\ small s' /\ conn_meta s' = conn_meta s /\
    received' ++ chan_buf out' = received ++ chan_buf out ++ delivered log /\
    Forall (fun m => Closed (fst m) = false) log /\ Forall (message_ok s) log /\
    forall cl, payload cl log ++ buffer s' cl = buffer s cl ++ delivered_by_engine cl ops).
Proof.
  revert s out received. induction ops as [|o ops IH]; intros s out received Hc Hs; cbn [run].
  - cbn [wp]. repeat split; try apply Hs; try done; [by rewrite app_nil_r|]. intros cl. by rewrite app_nil_r.
  - go_step. eapply wp_mono; [by apply step_wp|].
    intros [[[s1 out1] rc1] log1] (Hc1 & Hs1 & Hid1 & Hr1 & Hcl1 & Hm1 & Hp1).
    go_step. eapply wp_mono; [by apply IH|].
    intros [[[s2 out2] rc2] log2] (Hc2 & Hs2 & Hid2 & Hr2 & Hcl2 & Hm2 & Hp2). apply wp_ret.
    split; [done|]. split; [done|]. split; [congruence|]. split.
    { rewrite Hr2, !app_assoc, Hr1. unfold delivered. by rewrite omap_app, !app_assoc. }
    split; [by apply Forall_app|]. split.
    { apply Forall_app; split; [done|]. unfold message_ok in *. by rewrite Hid1 in Hm2. }
    intros cl. rewrite payload_app, <- app_assoc, Hp2, app_assoc, Hp1, <- app_assoc. f_equal.
    unfold delivered_by_engine. cbn [map concat]. by rewrite app_nil_r.
Qed.

Lemma ReassemblyComplete_wp s ac out :
  chan_closed out = false ->
  wp (ReassemblyComplete s ac out) (fun '(keep, s', out', log) =>
    keep = false /\ (forall cl, buffer s' cl = []) /\ channel_after out out' log /\
    (forall cl, payload cl log = buffer s cl) /\
    exists log' m, log = log' ++ [m] /\ Closed (fst m) = true /\ Forall (message_ok s) log /\
      Forall (fun m => Closed (fst m) = false) log').
Proof.
  intros Hc. unfold ReassemblyComplete.
  assert (Hflush : forall s out cl, chan_closed out = false ->
    wp (if 0 <? len (buffer s cl) then flushDirectionLocked s cl ac out else Ret (s, out, []))
      (fun '(s', out', log) => channel_after out out' log /\ payload cl log = buffer s cl /\
         payload (negb cl) log = [] /\ s' = set_buffer s cl [] /\ Forall (message_ok s) log /\
         Forall (fun m => Closed (fst m) = false) log)).
  { clear. intros s out cl Hc. destruct (0 <? len (buffer s cl)) eqn:E.
    - eapply wp_mono; [by apply flush_wp|]. intros [[s' out'] log] (? & ? & ? & ? & ? & ?). done.
    - assert (buffer s cl = []) as Hb by (destruct (buffer s cl); [done|lens]). cbn. rewrite Hb.
      repeat split; try done; [by rewrite app_nil_r|]. destruct s, cl; cbn in *; by subst. }
  go_step. eapply wp_mono; [exact (Hflush s out true Hc)|].
  intros [[s1 out1] log1] (Hch1 & Hp1 & Hn1 & -> & Hm1 & Hcl1).
  go_step. eapply wp_mono; [exact (Hflush (set_buffer s true []) out1 false (proj1 Hch1))|].
  intros [[s2 out2] log2] (Hch2 & Hp2 & Hn2 & -> & Hm2 & Hcl2).
  go_step. unfold emitCloseLocked. rewrite extractPorts_ret. cbn [mbind outcome_bind]. cbv zeta. go_step.
  eapply wp_mono; [apply (send_wp s out2 _ (fun out' log => channel_after out2 out' log)); [apply Hch2|by intros]|].
  intros [out3 sent] Hch3. cbn [wp mbind outcome_bind].
  split; [done|]. split; [by intros []|]. split.
  { destruct Hch1 as (_ & ? & Hb1), Hch2 as (_ & ? & Hb2), Hch3 as (? & ? & Hb3).
    split; [done|]. split; [congruence|]. rewrite Hb3, Hb2, Hb1. unfold delivered.
    by rewrite !omap_app, <- !app_assoc. }
  split.
  { intros cl. rewrite !payload_app. unfold payload at 3. cbn [map concat fst Closed negb andb].
    rewrite andb_false_r. cbn [app]. rewrite app_nil_r.
    destruct cl; [rewrite Hp1; cbn in Hn2; by rewrite Hn2, app_nil_r|].
    cbn in Hn1. by rewrite Hn1, Hp2. }
  exists (log1 ++ log2). eexists. split; [by rewrite app_assoc|]. split; [done|]. split.
  { apply Forall_app. split; [done|]. apply Forall_app. split; [done|]. by repeat constructor. }
  by apply Forall_app.
Qed.

(** C14: the whole life of a connection, for any interleaving of data in both
    directions with receives by the consumer: the messages given to the output
    channel carry, direction by direction and in order, exactly the bytes the
    engine delivered; the close marker comes last, once; what the consumer has
    received and what is left in the channel are the messages that were not
    dropped, in order; every message names the connection by its addresses,
    ports and id, and data messages are not empty; and nothing stays buffered. *)
Theorem reassembly_conservation netFlow tcpFlow ops cap ac :
  let out := {| chan_buf := []; chan_cap := cap; chan_closed := false |} in
  exists s out1 received log1 s' out' log2,
    run ops (New netFlow tcpFlow) out [] = Ret (s, out1, received, log1) /\
    ReassemblyComplete s ac out1 = Ret (false, s', out', log2) /\
    small s /\ (forall cl, buffer s' cl = []) /\
    (forall cl, payload cl (log1 ++ log2) = delivered_by_engine cl ops) /\
    received ++ chan_buf out' = delivered (log1 ++ log2) /\
    Forall (message_ok (New netFlow tcpFlow)) (log1 ++ log2) /\
    exists log m, log1 ++ log2 = log ++ [m] /\ Closed (fst m) = true /\
      Forall (fun m => Closed (fst m) = false) log.
Proof.
  intros out. assert (Hsm : small (New netFlow tcpFlow)) by done.
  pose proof (run_wp ops (New netFlow tcpFlow) out [] eq_refl Hsm) as Hr.
  apply wp_returns in Hr as ([[[s out1] received] log1] & Hrun & Hc1 & Hs & Hid & Hrc & Hcl & Hok & Hp).
  pose proof (ReassemblyComplete_wp s ac out1 Hc1) as Hw.
  apply wp_returns in Hw as ([[[keep s'] out'] log2] & HC & -> & Hb & Hch & Hp2 & log' & m & -> & Hm & Hok2 & Hcl2).
  exists s, out1, received, log1, s', out', (log' ++ [m]). split; [done|]. split; [done|].
  split; [done|]. split; [done|]. split.
  { intros cl. rewrite payload_app, Hp2, Hp. by destruct cl. }
  split.
  { destruct Hch as (_ & _ & ->). rewrite app_assoc, Hrc. unfold delivered. cbn [app chan_buf out]. by rewrite !omap_app, !app_assoc. }
  split; [apply Forall_app; split; [done|]; unfold message_ok in *; by rewrite Hid in Hok2|].
  exists (log1 ++ log'), m. split; [by rewrite app_assoc|]. split; [done|]. by apply Forall_app.
Qed.

(** ** The abstract specification: two chunkers *)

(** One direction on its own: segments are appended to a buffer, which is given
    away and emptied when it reaches 256 KiB. The pieces given away and what
    is left. *)
Fixpoint flushes (buf : bytes) (segs : list bytes) : list bytes * bytes :=
  match segs with
  | [] => ([], buf)
  | d :: segs' =>
      let buf' := buf ++ d in
      if maxBufferSize <=? len buf' then let '(fs, rest) := flushes [] segs' in (buf' :: fs, rest)
      else flushes buf' segs'
  end.

(** The segments the engine delivered for a direction, and the pieces of it in
    the messages given to the channel. *)
Definition segments (cl : bool) (ops : list op) : list bytes :=
  omap (fun o => match o with
    | OpData data cl' _ => if Bool.eqb cl' cl then Some data else None
    | OpReceive => None
    end) ops.

Definition pieces (cl : bool) (log : sends) : list bytes :=
  omap (fun '(sd, _) => if Bool.eqb (IsClient sd) cl && negb (Closed sd) then Some (Data sd) else None) log.

Lemma pieces_app cl l k : pieces cl (l ++ k) = pieces cl l ++ pieces cl k.
Proof. apply omap_app. Qed.

Lemma flushes_app buf l k :
  flushes buf (l ++ k) =
  (fst (flushes buf l) ++ fst (flushes (snd (flushes buf l)) k), snd (flushes (snd (flushes buf l)) k)).
Proof.
  revert buf. induction l as [|d l IH]; intros buf; cbn [flushes app fst snd]; [by destruct (flushes buf k)|].
  destruct (maxBufferSize <=? len (buf ++ d)); [|apply IH]. rewrite IH. by destruct (flushes [] l).
Qed.

(** Each piece has 256 KiB or more, what is left has less, and together they are
    the direction's bytes. *)
Lemma flushes_spec buf segs :
  len buf < maxBufferSize ->
  Forall (fun f => maxBufferSize <= len f) (fst (flushes buf segs)) /\
  len (snd (flushes buf segs)) < maxBufferSize /\
  concat (fst (flushes buf segs)) ++ snd (flushes buf segs) = buf ++ concat segs.
Proof.
  revert buf. induction segs as [|d segs IH]; intros buf Hb; cbn [flushes concat].
  - cbn. rewrite app_nil_r. auto.
  - destruct (maxBufferSize <=? len (buf ++ d)) eqn:E.
    + destruct (IH [] ltac:(done)) as (Hf & Hr & Hc). destruct (flushes [] segs) as [fs rest]. cbn in *.
      split; [constructor; [lia|done]|]. split; [done|]. by rewrite <- app_assoc, Hc, app_assoc.
    + destruct (IH (buf ++ d) ltac:(lia)) as (Hf & Hr & Hc). by rewrite app_assoc.
Qed.

(** A flush gives the buffer away as one piece. *)
Lemma flush_pieces s cl ac out :
  chan_closed out = false ->
  wp (flushDirectionLocked s cl ac out) (fun '(s', out', log) =>
    chan_closed out' = false /\ s' = set_buffer s cl [] /\
    pieces cl log = (if len (buffer s cl) =? 0 then [] else [buffer s cl]) /\ pieces (negb cl) log = []).
Proof.
  intros Hc. unfold flushDirectionLocked. destruct (len (buffer s cl) =? 0) eqn:E.
  - assert (buffer s cl = []) as Hb by (destruct (buffer s cl); [done|lens]).
    cbn. split; [done|]. split; [|done]. destruct s, cl; cbn in *; by subst.
  - cbv zeta. rewrite extractPorts_ret. cbn [mbind outcome_bind]. apply wp_bind, try_send_wp; [done|].
    intros sent _. cbn. by destruct cl.
Qed.

Lemma ReassembledSG_pieces s data cl ac out :
  chan_closed out = false -> small s ->
  wp (ReassembledSG s data cl ac out) (fun '(s', out', log) =>
    chan_closed out' = false /\ small s' /\
    (pieces cl log, buffer s' cl) = flushes (buffer s cl) [data] /\
    pieces (negb cl) log = [] /\ buffer s' (negb cl) = buffer s (negb cl)).
Proof.
  intros Hc [H1 H2]. assert (Hs : len (buffer s cl) < maxBufferSize) by (by destruct cl).
  unfold ReassembledSG. cbv zeta. cbn [flushes]. destruct (len data =? 0) eqn:E.
  { assert (data = []) as -> by (destruct data; [done|lens]). rewrite app_nil_r.
    replace (maxBufferSize <=? len (buffer s cl)) with false by lia. done. }
  rewrite buffer_set, eqb_reflx. destruct (maxBufferSize <=? len (buffer s cl ++ data)) eqn:Em.
  - eapply wp_mono; [by apply flush_pieces|]. intros [[s' out'] log] (Hc' & -> & Hp & Hn).
    rewrite buffer_set, eqb_reflx in Hp. replace (len (buffer s cl ++ data) =? 0) with false in Hp
      by (assert (0 < maxBufferSize) by done; lia).
    split; [done|]. rewrite Hp, Hn. by destruct cl.
  - cbn [wp]. split; [done|]. split; [by destruct cl; split; cbn in *; lia|]. rewrite buffer_set, eqb_reflx. by destruct cl.
Qed.

Lemma run_pieces ops s out received :
  chan_closed out = false -> small s ->
  wp (run ops s out received) (fun '(s', out', _, log) =>
    chan_closed out' = false /\ small s' /\
    forall cl, (pieces cl log, buffer s' cl) = flushes (buffer s cl) (segments cl ops)).
Proof.
  revert s out received. induction ops as [|o ops IH]; intros s out received Hc Hs; cbn [run]; [done|].
  apply wp_bind. destruct o as [data cl ac|]; cbn [step].
  - apply wp_bind. eapply wp_mono; [by apply ReassembledSG_pieces|].
    intros [[s1 out1] log1] (Hc1 & Hs1 & Hp1 & Hn1 & Hb1). cbn [wp]. apply wp_bind.
    eapply wp_mono; [by apply IH|]. intros [[[s2 out2] rc2] log2] (Hc2 & Hs2 & Hp2). cbn [wp].
    split; [done|]. split; [done|]. intros cl'. rewrite pieces_app. specialize (Hp2 cl').
    unfold segments. cbn [omap list_omap]. fold (segments cl' ops). destruct (Bool.eqb cl cl') eqn:Ecl.
    + apply eqb_prop in Ecl as <-. change (data :: segments cl ops) with ([data] ++ segments cl ops).
      rewrite flushes_app, <- Hp1. cbn [fst snd]. by rewrite <- Hp2.
    + assert (cl' = negb cl) as -> by (by destruct cl, cl'). by rewrite Hn1, <- Hb1.
  - destruct (recv_chan out) as [[[m|] out1]|] eqn:Er; cbn [wp]; apply wp_bind;
      (eapply wp_mono; [apply IH; [|done]|]; [|intros [[[s2 out2] rc2] log2] Hq; exact Hq]); try done.
    unfold recv_chan in Er. destruct (chan_buf out); [by destruct (chan_closed out)|]. by injection Er as _ <-.
Qed.

Lemma Complete_pieces s ac out :
  chan_closed out = false ->
  wp (ReassemblyComplete s ac out) (fun '(_, _, _, log) =>
    forall cl, pieces cl log = if len (buffer s cl) =? 0 then [] else [buffer s cl]).
Proof.
  intros Hc. unfold ReassemblyComplete.
  assert (Hflush : forall s out cl, chan_closed out = false ->
    wp (if 0 <? len (buffer s cl) then flushDirectionLocked s cl ac out else Ret (s, out, []))
      (fun '(s', out', log) => chan_closed out' = false /\ buffer s' (negb cl) = buffer s (negb cl) /\
         pieces cl log = (if len (buffer s cl) =? 0 then [] else [buffer s cl]) /\ pieces (negb cl) log = [])).
  { clear. intros s out cl Hc. pose proof (len_nonneg (buffer s cl)). destruct (0 <? len (buffer s cl)) eqn:E.
    - eapply wp_mono; [by apply flush_pieces|]. intros [[s' out'] log] (? & -> & ? & ?). by destruct cl.
    - cbn. by replace (len (buffer s cl) =? 0) with true by lia. }
  apply wp_bind. eapply wp_mono; [exact (Hflush s out true Hc)|].
  intros [[s1 out1] log1] (Hc1 & Hb1 & Hp1 & Hn1). apply wp_bind.
  eapply wp_mono; [exact (Hflush s1 out1 false Hc1)|]. intros [[s2 out2] log2] (Hc2 & _ & Hp2 & Hn2).
  unfold emitCloseLocked. rewrite extractPorts_ret. apply wp_bind. cbn [mbind outcome_bind]. cbv zeta.
  apply wp_bind, try_send_wp; [done|]. intros sent _. cbn [wp]. intros cl. rewrite !pieces_app.
  assert (Hclose : forall m, Closed m = true -> pieces cl [(m, sent)] = []).
  { intros m Hm. unfold pieces. cbn. by rewrite Hm, andb_false_r. }
  rewrite Hclose, app_nil_r by done. cbn [negb] in *. rewrite Hb1 in Hp2.
  destruct cl; [by rewrite Hp1, Hn2, app_nil_r|by rewrite Hn1, Hp2].
Qed.

(** C15: The stream refines two independent chunkers. For any interleaving of the
    two directions with receives, and whether messages are dropped or not: the
    data messages of a direction are, piece by piece, what the chunker of that
    direction gives away, followed by what is left when the connection ends;
    a piece has at least 256 KiB, the rest has less, and a cut is always at
    the end of a segment. *)
Theorem stream_refines_chunkers netFlow tcpFlow ops cap ac :
  let out := {| chan_buf := []; chan_cap := cap; chan_closed := false |} in
  exists s out1 received log1 s' out' log2,
    run ops (New netFlow tcpFlow) out [] = Ret (s, out1, received, log1) /\
    ReassemblyComplete s ac out1 = Ret (false, s', out', log2) /\
    forall cl, exists fs rest,
      flushes [] (segments cl ops) = (fs, rest) /\ buffer s cl = rest /\
      pieces cl (log1 ++ log2) = fs ++ (if len rest =? 0 then [] else [rest]) /\
      Forall (fun f => maxBufferSize <= len f) fs /\ len rest < maxBufferSize.
Proof.
  intros out. pose proof (run_pieces ops (New netFlow tcpFlow) out [] eq_refl ltac:(done)) as Hw.
  apply wp_returns in Hw as ([[[s out1] received] log1] & Hrun & Hc1 & _ & Hp1).
  pose proof (ReassemblyComplete_wp s ac out1 Hc1) as Hw.
  apply wp_returns in Hw as ([[[keep s'] out'] log2] & HC & -> & _).
  pose proof (Complete_pieces s ac out1 Hc1) as Hp2. rewrite HC in Hp2. cbn [wp] in Hp2.
  exists s, out1, received, log1, s', out', log2. split; [done|]. split; [done|]. intros cl.
  specialize (Hp1 cl). specialize (Hp2 cl). change (buffer (New netFlow tcpFlow) cl) with (if cl then [] else [] : bytes) in Hp1.
  replace (if cl then [] else [] : bytes) with ([] : bytes) in Hp1 by (by destruct cl).
  destruct (flushes_spec [] (segments cl ops) ltac:(done)) as (Hf & Hr & _).
  destruct (flushes [] (segments cl ops)) as [fs rest]. injection Hp1 as Hp1 Hb. cbn [fst snd] in *.
  exists fs, rest. rewrite pieces_app, Hp1, Hp2, Hb. done.
Qed.
End Reassembly.

End Reassembly.
