(* ===== verification/Factory.v ===== *)
(** * The streams of many connections ([internal/reassembly/stream.go])

    The engine makes one stream object per connection and calls them in any
    order; all of them send on the one output channel of the stage. An abstract
    specification says what each call offers to the channel; the calls
    implement it, and a connection's messages depend on its own calls alone. *)

From S2P Require Import Prelude.
From S2P Require Import GoStrings.
From S2P Require Import Event.
From S2P Require Import Reassembly.

Module Factory.
Import Reassembly.Reassembly.

Section Factory.
Context `{GopacketFlow}.

(** ** What a stream offers, whatever the channel holds *)

Definition data_message (s : biStream) (cl : bool) (ac : option Z) : StreamData :=
  {| Net := net s; Transport := transport s; Data := buffer s cl; IsClient := cl; Timestamp := ac;
     Meta := conn_meta s; Closed := false |}.

Definition close_message (s : biStream) : StreamData :=
  {| Net := net s; Transport := transport s; Data := []; IsClient := false; Timestamp := None;
     Meta := conn_meta s; Closed := true |}.

(** The message of a flush, when the direction holds data. *)
Definition flush_offers (s : biStream) (cl : bool) (ac : option Z) : list StreamData :=
  if len (buffer s cl) =? 0 then [] else [data_message s cl ac].

Definition sg_offers (s : biStream) (data : bytes) (cl : bool) (ac : option Z) : biStream * list StreamData :=
  let s' := set_buffer s cl (buffer s cl ++ data) in
  if maxBufferSize <=? len (buffer s cl ++ data) then (set_buffer s cl [], flush_offers s' cl ac) else (s', []).

Definition complete_offers (s : biStream) (ac : option Z) : biStream * list StreamData :=
  (set_buffer (set_buffer s true []) false [],
   flush_offers s true ac ++ flush_offers s false ac ++ [close_message s]).

(** What an operation does: the specified stream and offers, and the channel
    holds what was sent. *)
Definition offers_ok (spec : biStream * list StreamData) (out : channel StreamData)
    (r : biStream * channel StreamData * sends) : Prop :=
  let '(s', out', log) := r in (s', map fst log) = spec /\ channel_after out out' log.

Lemma try_send_log (sd : StreamData) out :
  chan_closed out = false ->
  wp (try_send out sd) (fun '(out', sent) => channel_after out out' [(sd, sent)]).
Proof.
  intros Hc. apply try_send_wp; [done|]. intros sent _. unfold channel_after. cbn.
  split; [done|]. split; [done|]. destruct sent; [done|]. by rewrite app_nil_r.
Qed.

Lemma set_buffer_same s cl : set_buffer s cl (buffer s cl) = s.
Proof. by destruct s, cl. Qed.

Lemma set_buffer_twice s cl b c : set_buffer (set_buffer s cl b) cl c = set_buffer s cl c.
Proof. by destruct s, cl. Qed.

Lemma buffer_empty s cl : (len (buffer s cl) =? 0) = true -> buffer s cl = [].
Proof. destruct (buffer s cl); [done|lens]. Qed.

Lemma channel_after_refl out : chan_closed out = false -> channel_after out out [].
Proof. intros Hc. unfold channel_after. by rewrite app_nil_r. Qed.

Lemma channel_after_trans out1 out2 out3 l k :
  channel_after out1 out2 l -> channel_after out2 out3 k -> channel_after out1 out3 (l ++ k).
Proof.
  intros (_ & E1 & B1) (Hc & E2 & B2). split; [done|]. split; [congruence|].
  rewrite B2, B1. unfold delivered. by rewrite omap_app, app_assoc.
Qed.

Lemma flush_offers_wp s cl ac out :
  chan_closed out = false ->
  wp (flushDirectionLocked s cl ac out) (offers_ok (set_buffer s cl [], flush_offers s cl ac) out).
Proof.
  intros Hc. unfold flushDirectionLocked, flush_offers. cbv zeta. destruct (len (buffer s cl) =? 0) eqn:E.
  - apply wp_ret. split; [|by apply channel_after_refl]. rewrite <- (buffer_empty _ _ E). by rewrite set_buffer_same.
  - rewrite extractPorts_ret. cbn [mbind outcome_bind]. go_step.
    eapply wp_mono; [by apply try_send_log|]. intros [out' sent] Hch. by apply wp_ret.
Qed.

Lemma ReassembledSG_offers s data cl ac out :
  chan_closed out = false -> small s ->
  wp (ReassembledSG s data cl ac out) (offers_ok (sg_offers s data cl ac) out).
Proof.
  intros Hc Hs. unfold ReassembledSG, sg_offers. cbv zeta. rewrite buffer_set, eqb_reflx.
  destruct (len data =? 0) eqn:E.
  - apply wp_ret. split; [|by apply channel_after_refl]. assert (data = []) as -> by (destruct data; [done|lens]).
    rewrite app_nil_r. replace (maxBufferSize <=? _) with false; [by rewrite set_buffer_same|].
    destruct Hs, cl; lia.
  - destruct (maxBufferSize <=? len (buffer s cl ++ data)).
    + rewrite <- (set_buffer_twice s cl (buffer s cl ++ data) []). by apply flush_offers_wp.
    + apply wp_ret. split; [done|by apply channel_after_refl].
Qed.

(** The guard before each flush of [ReassemblyComplete] changes nothing. *)
Lemma guarded_flush s cl ac out :
  chan_closed out = false ->
  wp (if 0 <? len (buffer s cl) then flushDirectionLocked s cl ac out else Ret (s, out, []))
    (offers_ok (set_buffer s cl [], flush_offers s cl ac) out).
Proof.
  intros Hc. destruct (0 <? len (buffer s cl)) eqn:E; [by apply flush_offers_wp|].
  apply wp_ret. split; [|by apply channel_after_refl]. unfold flush_offers.
  replace (len (buffer s cl) =? 0) with true by lens. by rewrite <- (buffer_empty s cl), set_buffer_same by lens.
Qed.

Lemma ReassemblyComplete_offers s ac out :
  chan_closed out = false ->
  wp (ReassemblyComplete s ac out) (fun '(keep, s', out', log) =>
    keep = false /\ offers_ok (complete_offers s ac) out (s', out', log)).
Proof.
  intros Hc. unfold ReassemblyComplete. go_step. eapply wp_mono; [exact (guarded_flush s true ac out Hc)|].
  intros [[s1 out1] log1] [[= -> E1] C1]. go_step.
  eapply wp_mono; [exact (guarded_flush (set_buffer s true []) false ac out1 (proj1 C1))|].
  intros [[s2 out2] log2] [[= -> E2] C2]. go_step. unfold emitCloseLocked. rewrite extractPorts_ret.
  cbn [mbind outcome_bind]. go_step. eapply wp_mono; [by apply try_send_log, C2|].
  intros [out3 sent] C3. cbn [mbind outcome_bind wp]. split; [done|]. split.
  - unfold complete_offers. rewrite !map_app, E1, E2. done.
  - eauto using channel_after_trans.
Qed.

(** ** The stage *)

(** The stream objects by their address, the channel and what its consumer has
    received. *)
Record stage := { streams : gmap nat biStream; output : channel StreamData; received : list StreamData }.

(** The calls of the engine, and the consumer's receives between them. *)
Inductive call :=
| CallNew (h : nat) (netFlow tcpFlow : flow)
| CallReassembledSG (h : nat) (data : bytes) (isClient : bool) (ac : option Z)
| CallReassemblyComplete (h : nat) (ac : option Z)
| Receive.

Definition with_stream (st : stage) (h : nat) (s : biStream) (out : channel StreamData) : stage :=
  {| streams := <[h := s]> (streams st); output := out; received := received st |}.

(** A call, and what it gives to the channel, tagged with the stream. *)
Definition exec_call (c : call) (st : stage) : outcome (stage * list (nat * (StreamData * bool))) :=
  match c with
  | CallNew h n t => Ret (with_stream st h (New n t) (output st), [])
  | CallReassembledSG h data cl ac =>
      match streams st !! h with
      | None => Ret (st, [])
      | Some s => '(s, out, log) ← ReassembledSG s data cl ac (output st);
                  Ret (with_stream st h s out, map (pair h) log)
      end
  | CallReassemblyComplete h ac =>
      match streams st !! h with
      | None => Ret (st, [])
      | Some s => '(_, s, out, log) ← ReassemblyComplete s ac (output st);
                  Ret (with_stream st h s out, map (pair h) log)
      end
  | Receive =>
      match recv_chan (output st) with
      | Some (Some m, out) => Ret ({| streams := streams st; output := out; received := received st ++ [m] |}, [])
      | _ => Ret (st, [])
      end
  end.

Fixpoint exec (calls : list call) (st : stage) : outcome (stage * list (nat * (StreamData * bool))) :=
  match calls with
  | [] => Ret (st, [])
  | c :: calls' => '(st, log) ← exec_call c st; '(st, log') ← exec calls' st; Ret (st, log ++ log')
  end.

(** ** Its specification *)

Definition spec_call (c : call) (ss : gmap nat biStream) : gmap nat biStream * list (nat * StreamData) :=
  let on h (f : biStream -> biStream * list StreamData) :=
    match ss !! h with
    | None => (ss, [])
    | Some s => let '(s', ms) := f s in (<[h := s']> ss, map (pair h) ms)
    end in
  match c with
  | CallNew h n t => (<[h := New n t]> ss, [])
  | CallReassembledSG h data cl ac => on h (fun s => sg_offers s data cl ac)
  | CallReassemblyComplete h ac => on h (fun s => complete_offers s ac)
  | Receive => (ss, [])
  end.

Fixpoint spec (calls : list call) (ss : gmap nat biStream) : gmap nat biStream * list (nat * StreamData) :=
  match calls with
  | [] => (ss, [])
  | c :: calls' => let '(ss, ms) := spec_call c ss in let '(ss, ms') := spec calls' ss in (ss, ms ++ ms')
  end.

(** What a log offers, sent or not. *)
Definition offered (log : list (nat * (StreamData * bool))) : list (nat * StreamData) :=
  map (fun '(h, (m, _)) => (h, m)) log.

Lemma offered_pair h (log : sends) : offered (map (pair h) log) = map (pair h) (map fst log).
Proof. unfold offered. rewrite !map_map. apply map_ext. by intros [m sent]. Qed.

Lemma snd_pair (h : nat) (log : sends) : map snd (map (pair h) log) = log.
Proof. rewrite map_map. apply map_id. Qed.

(** No stream holds a full buffer. *)
Definition all_small (ss : gmap nat biStream) : Prop := map_Forall (fun _ s => small s) ss.

Lemma New_small n t : small (New n t).
Proof. done. Qed.

Lemma set_buffer_small s cl b : small s -> len b < maxBufferSize -> small (set_buffer s cl b).
Proof. intros [] ?. by destruct cl. Qed.

Lemma sg_small s data cl ac : small s -> small (fst (sg_offers s data cl ac)).
Proof.
  intros Hs. unfold sg_offers. destruct (maxBufferSize <=? _) eqn:E; apply set_buffer_small; try done. lia.
Qed.

Lemma complete_small s ac : small s -> small (fst (complete_offers s ac)).
Proof. intros Hs. by repeat apply set_buffer_small. Qed.

(** The stage between two calls. *)
Definition stage_ok (st : stage) : Prop := chan_closed (output st) = false /\ all_small (streams st).

(** What a run leaves to its consumer. *)
Definition accounted (st st' : stage) (log : list (nat * (StreamData * bool))) : Prop :=
  received st' ++ chan_buf (output st') = received st ++ chan_buf (output st) ++ delivered (map snd log).

Definition refines (ss' : gmap nat biStream * list (nat * StreamData)) (st : stage)
    (r : stage * list (nat * (StreamData * bool))) : Prop :=
  let '(st', log) := r in ss' = (streams st', offered log) /\ stage_ok st' /\ accounted st st' log.

(** A call of an operation on the stream at [h]. *)
Lemma on_stream_refines st h (spec_r : biStream * list StreamData) out' log :
  stage_ok st -> small (fst spec_r) ->
  offers_ok spec_r (output st) (fst spec_r, out', log) ->
  refines (<[h := fst spec_r]> (streams st), map (pair h) (snd spec_r)) st
    (with_stream st h (fst spec_r) out', map (pair h) log).
Proof.
  destruct spec_r as [s' ms]. cbn [fst snd]. intros [Hc Hs] Hsm [[= <-] (Hc' & _ & Hb)].
  split; [by rewrite offered_pair|]. split; [split; [done|]; by apply map_Forall_insert_2|].
  unfold accounted. cbn [received output with_stream]. by rewrite Hb, snd_pair.
Qed.

Lemma call_refines c st :
  stage_ok st -> wp (exec_call c st) (refines (spec_call c (streams st)) st).
Proof.
  intros Hok. pose proof Hok as [Hc Hs]. unfold exec_call, spec_call. destruct c as [h n t|h data cl ac|h ac|].
  - apply wp_ret. split; [done|]. split; [split; [done|]; apply map_Forall_insert_2; [apply New_small|done]|].
    unfold accounted. by rewrite app_nil_r.
  - destruct (streams st !! h) as [s|] eqn:E; [|apply wp_ret; split; [done|]; split; [done|]; unfold accounted; by rewrite app_nil_r].
    specialize (Hs h s E). cbn in Hs. go_step. eapply wp_mono; [by apply ReassembledSG_offers|].
    intros [[s' out'] log] Ho. apply wp_ret. pose proof (sg_small s data cl ac Hs) as Hsm.
    pose proof Ho as [Hsp _]. destruct (sg_offers s data cl ac) as [s1 ms]. injection Hsp as -> Hms.
    by apply (on_stream_refines st h (s1, ms)).
  - destruct (streams st !! h) as [s|] eqn:E; [|apply wp_ret; split; [done|]; split; [done|]; unfold accounted; by rewrite app_nil_r].
    specialize (Hs h s E). cbn in Hs. go_step. eapply wp_mono; [by apply ReassemblyComplete_offers|].
    intros [[[keep s'] out'] log] [_ Ho]. apply wp_ret. pose proof (complete_small s ac Hs) as Hsm.
    pose proof Ho as [Hsp _]. destruct (complete_offers s ac) as [s1 ms]. injection Hsp as -> Hms.
    by apply (on_stream_refines st h (s1, ms)).
  - unfold recv_chan, accounted. destruct (chan_buf (output st)) as [|m b] eqn:Eb.
    + rewrite Hc. apply wp_ret. split; [done|]. split; [done|]. unfold accounted. by rewrite app_nil_r.
    + apply wp_ret. split; [done|]. split; [done|]. unfold accounted. cbn. by rewrite Eb, app_nil_r, <- app_assoc.
Qed.

(** The stage implements its specification, whatever the channel's room. *)
Lemma exec_refines calls st :
  stage_ok st -> wp (exec calls st) (refines (spec calls (streams st)) st).
Proof.
  revert st. induction calls as [|c calls IH]; intros st Hok; cbn [exec spec].
  - apply wp_ret. split; [done|]. split; [done|]. unfold accounted. by rewrite app_nil_r.
  - go_step. eapply wp_mono; [by apply call_refines|]. intros [st1 log1] (E1 & Hok1 & A1).
    go_step. eapply wp_mono; [by apply IH|]. intros [st2 log2] (E2 & Hok2 & A2). apply wp_ret.
    rewrite E1, E2. split; [unfold offered; by rewrite map_app|]. split; [done|].
    unfold accounted in *. rewrite A2, app_assoc, A1. unfold delivered. by rewrite map_app, omap_app, !app_assoc.
Qed.

(** ** Connections do not mix *)

Definition stream_of (c : call) : option nat :=
  match c with
  | CallNew h _ _ | CallReassembledSG h _ _ _ | CallReassemblyComplete h _ => Some h
  | Receive => None
  end.

(** The calls on one stream, and the messages of one stream. *)
Definition own_calls (h : nat) : list call -> list call := filter (fun c => stream_of c = Some h).
Definition own_messages (h : nat) : list (nat * StreamData) -> list StreamData :=
  fun ms => map snd (filter (fun m => fst m = h) ms).

Lemma own_messages_app h ms ms' : own_messages h (ms ++ ms') = own_messages h ms ++ own_messages h ms'.
Proof. unfold own_messages. by rewrite list.filter_app, map_app. Qed.

Lemma own_messages_pair h h' (ms : list StreamData) :
  own_messages h (map (pair h') ms) = if decide (h' = h) then ms else [].
Proof.
  unfold own_messages. induction ms as [|m ms IH]; [by case_decide|]. cbn [map].
  rewrite list.filter_cons. cbn [fst]. case_decide; cbn [map snd]; by rewrite IH.
Qed.

(** A call of another stream leaves a stream as it was, without a message. *)
Lemma spec_call_other c ss h :
  stream_of c <> Some h ->
  fst (spec_call c ss) !! h = ss !! h /\ own_messages h (snd (spec_call c ss)) = [].
Proof.
  intros Hne. unfold spec_call. destruct c as [h' n t|h' data cl ac|h' ac|]; cbn [stream_of] in Hne; [| | |done].
  { cbn [fst snd]. by rewrite lookup_insert_ne by congruence. }
  all: destruct (ss !! h') as [s|]; [|done].
  1: destruct (sg_offers s data cl ac) as [s' ms].
  2: destruct (complete_offers s ac) as [s' ms].
  all: cbn [fst snd]; rewrite lookup_insert_ne, own_messages_pair, decide_False by congruence; done.
Qed.

(** A call of a stream depends on that stream. *)
Lemma spec_call_own c ss ss2 h :
  stream_of c = Some h -> ss2 !! h = ss !! h ->
  fst (spec_call c ss2) !! h = fst (spec_call c ss) !! h /\
  own_messages h (snd (spec_call c ss2)) = own_messages h (snd (spec_call c ss)).
Proof.
  intros Hh E. unfold spec_call. destruct c as [h' n t|h' data cl ac|h' ac|]; try done; injection Hh as ->.
  { cbn [fst snd]. by rewrite !lookup_insert_eq. }
  all: rewrite E; destruct (ss !! h) as [s|] eqn:E'; [|cbn [fst snd]; by rewrite E, E'].
  1: destruct (sg_offers s data cl ac) as [s' ms].
  2: destruct (complete_offers s ac) as [s' ms].
  all: cbn [fst snd]; by rewrite !lookup_insert_eq.
Qed.

Lemma spec_own h calls ss ss2 :
  ss2 !! h = ss !! h ->
  fst (spec (own_calls h calls) ss2) !! h = fst (spec calls ss) !! h /\
  own_messages h (snd (spec (own_calls h calls) ss2)) = own_messages h (snd (spec calls ss)).
Proof.
  revert ss ss2. induction calls as [|c calls IH]; intros ss ss2 E; [done|].
  unfold own_calls in *. rewrite list.filter_cons. case_decide as Hc.
  - destruct (spec_call_own c ss ss2 h Hc E) as [Es Em]. cbn [spec].
    destruct (spec_call c ss) as [ss' ms], (spec_call c ss2) as [ss2' ms2]. cbn [fst snd] in Es, Em.
    specialize (IH _ _ Es). destruct (spec calls ss'), (spec _ ss2'). cbn [fst snd] in *.
    rewrite !own_messages_app, Em. destruct IH as [? ->]. done.
  - destruct (spec_call_other c ss h Hc) as [Es Em]. cbn [spec].
    destruct (spec_call c ss) as [ss' ms]. cbn [fst snd] in Es, Em. rewrite <- Es in E.
    specialize (IH _ _ E). destruct (spec calls ss'), (spec _ ss2). cbn [fst snd] in *.
    by rewrite own_messages_app, Em.
Qed.

(** The stage before its first call. *)
Definition start (cap : Z) : stage :=
  {| streams := ∅; output := {| chan_buf := []; chan_cap := cap; chan_closed := false |}; received := [] |}.

Lemma start_ok cap : stage_ok (start cap).
Proof. split; [done|]. apply map_Forall_empty. Qed.

(** C9: Connections do not mix in the reassembly stage. For any calls of the
    engine on any number of streams, interleaved in any way with the receives
    of the consumer, and whatever the channel's room: the stage never panics;
    the messages a stream offers, in order, and the stream that is left are
    those of its own calls made alone, even on another channel; and the
    consumer gets exactly the messages that found room, in the order they were
    offered. *)
Theorem streams_isolated calls cap cap' :
  exists st log, exec calls (start cap) = Ret (st, log) /\
    received st ++ chan_buf (output st) = delivered (map snd log) /\
    forall h, exists st' log', exec (own_calls h calls) (start cap') = Ret (st', log') /\
      streams st' !! h = streams st !! h /\
      own_messages h (offered log') = own_messages h (offered log).
Proof.
  pose proof (exec_refines calls (start cap) (start_ok cap)) as Hw.
  apply wp_returns in Hw as ([st log] & -> & E & _ & Ha). exists st, log. split; [done|]. split; [exact Ha|].
  intros h. pose proof (exec_refines (own_calls h calls) (start cap') (start_ok cap')) as Hw.
  apply wp_returns in Hw as ([st' log'] & -> & E' & _ & _). exists st', log'. split; [done|].
  pose proof (spec_own h calls (streams (start cap)) (streams (start cap')) eq_refl) as Hown.
  by rewrite E, E' in Hown.
Qed.

(** ** The messages of a stream name its connection *)

Section Metas.
Variable P : nat -> ConnMeta -> Prop.

Definition streams_named (ss : gmap nat biStream) : Prop := map_Forall (fun h s => P h (conn_meta s)) ss.

Lemma flush_offers_meta s cl ac : Forall (fun m => Meta m = conn_meta s) (flush_offers s cl ac).
Proof. unfold flush_offers. destruct (_ =? 0); by repeat constructor. Qed.

Lemma sg_offers_meta s data cl ac :
  conn_meta (fst (sg_offers s data cl ac)) = conn_meta s /\
  Forall (fun m => Meta m = conn_meta s) (snd (sg_offers s data cl ac)).
Proof.
  unfold sg_offers. destruct (maxBufferSize <=? _); cbn [fst snd]; (split; [done|]); [|constructor].
  exact (flush_offers_meta (set_buffer s cl (buffer s cl ++ data)) cl ac).
Qed.

Lemma complete_offers_meta s ac :
  conn_meta (fst (complete_offers s ac)) = conn_meta s /\
  Forall (fun m => Meta m = conn_meta s) (snd (complete_offers s ac)).
Proof.
  unfold complete_offers. cbn [fst snd]. split; [done|].
  rewrite !Forall_app. split; [apply flush_offers_meta|]. split; [apply flush_offers_meta|]. by repeat constructor.
Qed.

Lemma on_stream_named ss h s s' (ms : list StreamData) :
  streams_named ss -> ss !! h = Some s -> conn_meta s' = conn_meta s ->
  Forall (fun m => Meta m = conn_meta s) ms ->
  streams_named (<[h := s']> ss) /\ Forall (fun m => P (fst m) (Meta (snd m))) (map (pair h) ms).
Proof.
  intros Hn Hs Hc Hm. pose proof (Hn h s Hs) as Hp. cbn in Hp. split.
  - apply map_Forall_insert_2; [by rewrite Hc|done].
  - apply Forall_map. eapply List.Forall_impl; [|exact Hm]. intros m Hmm. cbn [fst snd]. by rewrite Hmm.
Qed.

Lemma spec_named calls ss :
  (forall h n t, CallNew h n t ∈ calls -> P h (conn_meta (New n t))) ->
  streams_named ss -> Forall (fun m => P (fst m) (Meta (snd m))) (snd (spec calls ss)).
Proof.
  revert ss. induction calls as [|c calls IH]; intros ss HP Hss; [constructor|]. cbn [spec].
  assert (Hstep : streams_named (fst (spec_call c ss)) /\
    Forall (fun m => P (fst m) (Meta (snd m))) (snd (spec_call c ss))).
  { unfold spec_call. destruct c as [h n t|h data cl ac|h ac|]; [| | |done].
    - split; [|constructor]. apply map_Forall_insert_2; [|done]. apply HP. left.
    - destruct (ss !! h) as [s|] eqn:E; [|done]. pose proof (sg_offers_meta s data cl ac) as [Hc Hm].
      destruct (sg_offers s data cl ac) as [s' ms]. by eapply on_stream_named.
    - destruct (ss !! h) as [s|] eqn:E; [|done]. pose proof (complete_offers_meta s ac) as [Hc Hm].
      destruct (complete_offers s ac) as [s' ms]. by eapply on_stream_named. }
  destruct (spec_call c ss) as [ss1 ms1]. cbn [fst snd] in Hstep. destruct Hstep as [H1 H2].
  specialize (IH ss1 ltac:(intros h n t Hin; apply HP; by right) H1).
  destruct (spec calls ss1) as [ss2 ms2]. cbn [fst snd] in *. by apply Forall_app.
Qed.
End Metas.
(** ** A connection on its own, of any length *)

(** A segment the engine has put in order: its data, its direction and the
    capture time of the packet that completed it. *)
Definition segment : Type := bytes * bool * option Z.

(** The engine makes a stream, hands over the segments and ends the stream. *)
Definition connection (h : nat) (n t : flow) (segs : list segment) (ac : option Z) : list call :=
  CallNew h n t :: map (fun '(d, cl, ac) => CallReassembledSG h d cl ac) segs ++ [CallReassemblyComplete h ac].

(** The messages of a stream for the segments still to come. *)
Fixpoint stream_messages (s : biStream) (segs : list segment) (ac : option Z) : list StreamData :=
  match segs with
  | [] => snd (complete_offers s ac)
  | (d, cl, ac') :: segs' =>
      let '(s', ms) := sg_offers s d cl ac' in ms ++ stream_messages s' segs' ac
  end.

Lemma spec_segments h segs ac s ss :
  ss !! h = Some s ->
  own_messages h (snd (spec (map (fun '(d, cl, ac) => CallReassembledSG h d cl ac) segs ++ [CallReassemblyComplete h ac]) ss))
  = stream_messages s segs ac.
Proof.
  revert s ss. induction segs as [|[[d cl] ac'] segs IH]; intros s ss Hs; cbn [map app spec spec_call stream_messages]; rewrite Hs.
  - unfold complete_offers. cbn [fst snd]. by rewrite app_nil_r, own_messages_pair, decide_True.
  - destruct (sg_offers s d cl ac') as [s' ms]. specialize (IH s' (<[h := s']> ss) (lookup_insert_eq ss h _)).
    destruct (spec (_ ++ _) _) as [ss' ms']. cbn [snd] in *. by rewrite own_messages_app, own_messages_pair, decide_True, IH.
Qed.

Lemma spec_connection h n t segs ac :
  own_messages h (snd (spec (connection h n t segs ac) ∅)) = stream_messages (New n t) segs ac.
Proof.
  unfold connection. cbn [spec spec_call].
  pose proof (spec_segments h segs ac _ (<[h := New n t]> ∅) (lookup_insert_eq _ _ _)) as Hsp.
  destruct (spec (_ ++ _) _) as [ss' ms]. exact Hsp.
Qed.

(** The segments of a direction, and the data messages of a direction. *)
Definition side_segments (cl : bool) (segs : list segment) : list bytes :=
  omap (fun '(d, cl', _) => if Bool.eqb cl' cl then Some d else None) segs.
Definition datas (cl : bool) (ms : list StreamData) : list bytes :=
  omap (fun m => if Bool.eqb (IsClient m) cl then Some (Data m) else None) ms.

(** The pieces of a direction: what its chunker gives away, and what is left at
    the end, if anything. *)
Definition chunks_of (buf : bytes) (segs : list bytes) : list bytes :=
  let '(fs, rest) := flushes buf segs in fs ++ (if len rest =? 0 then [] else [rest]).

Lemma datas_app cl l k : datas cl (l ++ k) = datas cl l ++ datas cl k.
Proof. apply omap_app. Qed.

Lemma datas_flush s cl cl' ac :
  datas cl (flush_offers s cl' ac) =
  if Bool.eqb cl' cl then (if len (buffer s cl) =? 0 then [] else [buffer s cl]) else [].
Proof.
  unfold flush_offers, datas, data_message. destruct (Bool.eqb cl' cl) eqn:E.
  - apply eqb_prop in E as ->. destruct (len (buffer s cl) =? 0); cbn; by rewrite ?eqb_reflx.
  - destruct (len (buffer s cl') =? 0); cbn; by rewrite ?E.
Qed.

(** A stream's messages are its data messages, which name it and are open, and
    then the close marker; the data messages of a direction are its pieces. *)
Lemma stream_messages_spec segs ac s :
  exists ms s', stream_messages s segs ac = ms ++ [close_message s'] /\ conn_meta s' = conn_meta s /\
    Forall (fun m => Meta m = conn_meta s /\ Closed m = false /\ Data m <> []) ms /\
    forall cl, datas cl ms = chunks_of (buffer s cl) (side_segments cl segs).
Proof.
  assert (Hflush : forall s cl ac, Forall (fun m => Meta m = conn_meta s /\ Closed m = false /\ Data m <> []) (flush_offers s cl ac)).
  { clear. intros s cl ac. unfold flush_offers. destruct (len (buffer s cl) =? 0) eqn:E; repeat constructor.
    cbn. intros Hb. by rewrite Hb in E. }
  revert s. induction segs as [|[[d cl] ac'] segs IH]; intros s; cbn [stream_messages].
  - unfold complete_offers. cbn [snd]. exists (flush_offers s true ac ++ flush_offers s false ac), s.
    split; [by rewrite app_assoc|]. split; [done|]. split; [by apply Forall_app|]. intros cl.
    rewrite datas_app, !datas_flush. unfold chunks_of. cbn [flushes side_segments omap list_omap].
    destruct cl; cbn [Bool.eqb app]; by rewrite ?app_nil_r.
  - unfold sg_offers. cbv zeta. destruct (maxBufferSize <=? len (buffer s cl ++ d)) eqn:E.
    + destruct (IH (set_buffer s cl [])) as (ms & s' & -> & Hs' & Hms & Hd).
      exists (flush_offers (set_buffer s cl (buffer s cl ++ d)) cl ac' ++ ms), s'.
      split; [by rewrite app_assoc|]. split; [done|]. split; [apply Forall_app; split; [exact (Hflush (set_buffer s cl (buffer s cl ++ d)) cl ac')|done]|].
      intros cl'. rewrite datas_app, datas_flush, Hd, !buffer_set. unfold chunks_of, side_segments. cbn [omap list_omap].
      destruct (Bool.eqb cl cl') eqn:Ecl; [|done]. apply eqb_prop in Ecl as <-.
      replace (len (buffer s cl ++ d) =? 0) with false by (assert (0 < maxBufferSize) by done; lia).
      cbn [flushes]. rewrite E. destruct (flushes [] _) as [fs rest]. done.
    + destruct (IH (set_buffer s cl (buffer s cl ++ d))) as (ms & s' & -> & Hs' & Hms & Hd).
      exists ms, s'. split; [done|]. split; [done|]. split; [done|]. intros cl'. rewrite Hd, buffer_set.
      unfold chunks_of, side_segments. cbn [omap list_omap].
      destruct (Bool.eqb cl cl') eqn:Ecl; [|done]. apply eqb_prop in Ecl as <-. cbn [flushes]. by rewrite E.
Qed.

(** A direction that never reaches 256 KiB is one piece. *)
Lemma chunks_short buf segs :
  len (buf ++ concat segs) < maxBufferSize ->
  chunks_of buf segs = if len (buf ++ concat segs) =? 0 then [] else [buf ++ concat segs].
Proof.
  unfold chunks_of. revert buf. induction segs as [|d segs IH]; intros buf Hl; cbn [flushes concat] in *.
  { by rewrite app_nil_r in *. }
  replace (maxBufferSize <=? len (buf ++ d)) with false by (rewrite !len_app in *; pose proof (len_nonneg (concat segs)); lia).
  rewrite app_assoc in *. by apply IH.
Qed.

(** The pieces are the direction's bytes, and all but the last have 256 KiB or
    more: what a direction starts with is in its first piece, up to that size. *)
Lemma chunks_first first t segs :
  concat segs = first ++ t -> first <> [] -> len first <= maxBufferSize ->
  exists d ds, chunks_of [] segs = d :: ds /\ first `prefix_of` d.
Proof.
  intros Hc Hne Hl. destruct (flushes_spec [] segs ltac:(done)) as (Hf & _ & He). unfold chunks_of.
  destruct (flushes [] segs) as [fs rest]. cbn [fst snd app] in *. rewrite Hc in He. destruct fs as [|d fs].
  - cbn [concat app] in *. subst rest. destruct (len (first ++ t) =? 0) eqn:E; [destruct first; [done|lens]|].
    eexists _, []. split; [done|]. by eexists.
  - exists d, (fs ++ (if len rest =? 0 then [] else [rest])). split; [done|]. apply Forall_cons_1 in Hf as [Hd _].
    assert (Hp : first `prefix_of` first ++ t) by (by eexists).
    assert (Hp' : d `prefix_of` first ++ t) by (rewrite <- He; cbn; rewrite <- app_assoc; by eexists).
    destruct (prefix_weak_total _ _ _ Hp Hp') as [|Hdf]; [done|].
    rewrite (prefix_length_eq _ _ Hdf); [done|]. unfold len in *. lia.
Qed.
End Factory.
End Factory.
