(* ===== verification/Decode.v ===== *)
(** * Packet decoding and the TCP/UDP split ([internal/decode/decoder.go],
      [packetSplitter] of [cmd/netcap/main.go], [internal/reassembly/tcp.go])

    A decode worker reuses one set of layer variables for all its packets and
    gopacket's parser fills them in: what a worker forwards is shown to depend
    on the packet alone. The splitter sends each forwarded packet to exactly one
    of the two consumers, and the reassembler feeds its engine with the TCP
    ones. *)

From S2P Require Import Prelude.
From S2P Require Import GoStrings.
From S2P Require Import Event.
From S2P Require Import Reassembly.

(** [capture.Packet] *)
Record Packet := { p_Data : bytes; p_Timestamp : Z; p_CaptureLen : Z; p_OrigLen : Z }.

(** The layer types the worker's parser is given, and any other. *)
Inductive LayerType :=
| LayerTypeEthernet | LayerTypeIPv4 | LayerTypeIPv6 | LayerTypeTCP | LayerTypeUDP
| LayerTypePayload | LayerTypeOther (n : Z).

(** The fields of gopacket's layers that the code reads, and the sequence number
    that the reassembly engine does. A nil slice is [None]. *)
Record IPLayer := { ip_SrcIP : bytes; ip_DstIP : bytes }.

Record TCPLayer := {
  tcp_SrcPort : Z; tcp_DstPort : Z; tcp_Seq : Z;
  tcp_SYN : bool; tcp_ACK : bool; tcp_FIN : bool; tcp_RST : bool; tcp_PSH : bool;
  tcp_Payload : option bytes;
}.

Record UDPLayer := { udp_SrcPort : Z; udp_DstPort : Z; udp_Payload : option bytes }.

(** The variables a worker allocates once. *)
Record layer_vars := {
  v_ip4 : IPLayer; v_ip6 : IPLayer; v_tcp : TCPLayer; v_udp : UDPLayer; v_payload : option bytes;
}.

(** The two sets of variables agree on a layer. *)
Definition same_layer (lt : LayerType) (v w : layer_vars) : Prop :=
  match lt with
  | LayerTypeIPv4 => v_ip4 v = v_ip4 w
  | LayerTypeIPv6 => v_ip6 v = v_ip6 w
  | LayerTypeTCP => v_tcp v = v_tcp w
  | LayerTypeUDP => v_udp v = v_udp w
  | LayerTypePayload => v_payload v = v_payload w
  | _ => True
  end.

(** [gopacket.DecodingLayerParser]: [DecodeLayers(data, &decoded)] fills the
    variables of the layers it lists in [decoded], and which layers it lists,
    whether it fails and what it writes depend on the data alone. *)
Class GopacketDecoder := {
  DecodeLayers : layer_vars -> bytes -> layer_vars * list LayerType * option bytes;
  DecodeLayers_same v w d : snd (fst (DecodeLayers v d)) = snd (fst (DecodeLayers w d))
    /\ snd (DecodeLayers v d) = snd (DecodeLayers w d);
  DecodeLayers_fresh v w d lt : lt ∈ snd (fst (DecodeLayers v d)) ->
    same_layer lt (fst (fst (DecodeLayers v d))) (fst (fst (DecodeLayers w d)));
}.

(** A decoder of packets of two bytes, source and destination port, with an
    optional third one for UDP, that shows the laws can hold. *)
Definition two_byte_layers (v : layer_vars) (d : bytes) : layer_vars * list LayerType * option bytes :=
  let ip := {| ip_SrcIP := []; ip_DstIP := [] |} in
  match d with
  | [s; t] => ({| v_ip4 := ip; v_ip6 := v_ip6 v;
      v_tcp := {| tcp_SrcPort := u8 s; tcp_DstPort := u8 t; tcp_Seq := 0; tcp_SYN := false; tcp_ACK := true;
                  tcp_FIN := false; tcp_RST := false; tcp_PSH := false; tcp_Payload := None |};
      v_udp := v_udp v; v_payload := v_payload v |}, [LayerTypeEthernet; LayerTypeIPv4; LayerTypeTCP], None)
  | [s; t; _] => ({| v_ip4 := ip; v_ip6 := v_ip6 v; v_tcp := v_tcp v;
      v_udp := {| udp_SrcPort := u8 s; udp_DstPort := u8 t; udp_Payload := Some [] |};
      v_payload := v_payload v |}, [LayerTypeEthernet; LayerTypeIPv4; LayerTypeUDP], None)
  | _ => (v, [], Some (str "truncated"))
  end.

Lemma two_byte_same v w d :
  snd (fst (two_byte_layers v d)) = snd (fst (two_byte_layers w d))
  /\ snd (two_byte_layers v d) = snd (two_byte_layers w d).
Proof. by destruct d as [|? [|? [|? [|]]]]. Qed.

Lemma two_byte_fresh v w d lt :
  lt ∈ snd (fst (two_byte_layers v d)) ->
  same_layer lt (fst (fst (two_byte_layers v d))) (fst (fst (two_byte_layers w d))).
Proof.
  destruct d as [|? [|? [|? [|]]]]; cbn; rewrite ?elem_of_cons, elem_of_nil; by intros [->|[->|[->|[]]]] || intros [].
Qed.

Definition two_byte_decoder : GopacketDecoder :=
  {| DecodeLayers := two_byte_layers; DecodeLayers_same := two_byte_same;
     DecodeLayers_fresh := two_byte_fresh |}.

Module Decode.

Record TCPFlags := { SYN : bool; ACK : bool; FIN : bool; RST : bool; PSH : bool }.

Definition no_flags : TCPFlags :=
  {| SYN := false; ACK := false; FIN := false; RST := false; PSH := false |}.

Record DecodedPacket := {
  Timestamp : Z; SrcIP : bytes; DstIP : bytes; SrcPort : Z; DstPort : Z; TransProto : Z;
  Flags : TCPFlags; Payload : option bytes; TCP : option TCPLayer; RawPacket : bytes;
}.

Record DecoderConfig := { Workers : Z; ChannelBuffer : Z }.

(** [decode.New]: the configuration it keeps *)
Definition New (cfg : DecoderConfig) : DecoderConfig :=
  {| Workers := if Workers cfg <=? 0 then 1 else Workers cfg;
     ChannelBuffer := if ChannelBuffer cfg <=? 0 then 4096 else ChannelBuffer cfg |}.

Definition empty_packet (pkt : Packet) : DecodedPacket :=
  {| Timestamp := p_Timestamp pkt; SrcIP := []; DstIP := []; SrcPort := 0; DstPort := 0;
     TransProto := 0; Flags := no_flags; Payload := None; TCP := None; RawPacket := p_Data pkt |}.

(** The [switch] on a decoded layer: [(dp, hasIP, hasTransport)]. *)
Definition layer_step (v : layer_vars) (s : DecodedPacket * bool * bool) (lt : LayerType)
    : DecodedPacket * bool * bool :=
  let '(dp, hasIP, hasTransport) := s in
  let set_ip ip :=
    {| Timestamp := Timestamp dp; SrcIP := ip_SrcIP ip; DstIP := ip_DstIP ip; SrcPort := SrcPort dp;
       DstPort := DstPort dp; TransProto := TransProto dp; Flags := Flags dp; Payload := Payload dp;
       TCP := TCP dp; RawPacket := RawPacket dp |} in
  match lt with
  | LayerTypeIPv4 => (set_ip (v_ip4 v), true, hasTransport)
  | LayerTypeIPv6 => (set_ip (v_ip6 v), true, hasTransport)
  | LayerTypeTCP =>
      let t := v_tcp v in
      ({| Timestamp := Timestamp dp; SrcIP := SrcIP dp; DstIP := DstIP dp;
          SrcPort := tcp_SrcPort t; DstPort := tcp_DstPort t; TransProto := 6;
          Flags := {| SYN := tcp_SYN t; ACK := tcp_ACK t; FIN := tcp_FIN t; RST := tcp_RST t;
                      PSH := tcp_PSH t |};
          Payload := tcp_Payload t; TCP := Some t; RawPacket := RawPacket dp |}, hasIP, true)
  | LayerTypeUDP =>
      let u := v_udp v in
      ({| Timestamp := Timestamp dp; SrcIP := SrcIP dp; DstIP := DstIP dp;
          SrcPort := udp_SrcPort u; DstPort := udp_DstPort u; TransProto := 17;
          Flags := Flags dp; Payload := udp_Payload u; TCP := TCP dp; RawPacket := RawPacket dp |},
       hasIP, true)
  | LayerTypePayload =>
      ({| Timestamp := Timestamp dp; SrcIP := SrcIP dp; DstIP := DstIP dp; SrcPort := SrcPort dp;
          DstPort := DstPort dp; TransProto := TransProto dp; Flags := Flags dp;
          Payload := match Payload dp with None => v_payload v | p => p end;
          TCP := TCP dp; RawPacket := RawPacket dp |}, hasIP, hasTransport)
  | LayerTypeEthernet | LayerTypeOther _ => s
  end.

Section Worker.
Context `{GopacketDecoder}.

(** One iteration of [decodeWorker]: the variables after it, and the packet
    sent to the output, if any. *)
Definition decode_one (v : layer_vars) (pkt : Packet) : layer_vars * option DecodedPacket :=
  let '(v, decoded, err) := DecodeLayers v (p_Data pkt) in
  match err with
  | Some _ => (v, None)
  | None =>
      let '(dp, hasIP, hasTransport) :=
        fold_left (layer_step v) decoded (empty_packet pkt, false, false) in
      (v, if hasIP && hasTransport then Some dp else None)
  end.

(** [decodeWorker] on the packets it receives before it stops. *)
Fixpoint decodeWorker (v : layer_vars) (pkts : list Packet) : list DecodedPacket :=
  match pkts with
  | [] => []
  | pkt :: pkts' =>
      let '(v, out) := decode_one v pkt in
      match out with
      | Some dp => dp :: decodeWorker v pkts'
      | None => decodeWorker v pkts'
      end
  end.

Lemma layers_same v w decoded s :
  (forall lt, lt ∈ decoded -> same_layer lt v w) ->
  fold_left (layer_step v) decoded s = fold_left (layer_step w) decoded s.
Proof.
  revert s. induction decoded as [|lt decoded IH]; intros s Hs; [done|]. cbn [fold_left].
  replace (layer_step w s lt) with (layer_step v s lt).
  - apply IH. intros lt' Hlt. apply Hs. by right.
  - specialize (Hs lt ltac:(left)). destruct s as [[dp i] t].
    destruct lt; cbn [same_layer] in Hs; cbn [layer_step]; by rewrite ?Hs.
Qed.

Lemma decode_one_same v w pkt : snd (decode_one v pkt) = snd (decode_one w pkt).
Proof.
  unfold decode_one. pose proof (DecodeLayers_same v w (p_Data pkt)) as [Hd He].
  pose proof (DecodeLayers_fresh v w (p_Data pkt)) as Hf.
  destruct (DecodeLayers v (p_Data pkt)) as [[v' decoded] err].
  destruct (DecodeLayers w (p_Data pkt)) as [[w' decoded'] err']. cbn in Hd, He, Hf. subst.
  destruct err'; [done|]. rewrite (layers_same v' w') by done.
  by destruct (fold_left _ _ _) as [[dp i] t].
Qed.

Lemma decodeWorker_omap v w pkts :
  decodeWorker v pkts = omap (fun pkt => snd (decode_one w pkt)) pkts.
Proof.
  revert v. induction pkts as [|pkt pkts IH]; intros v; [done|]. cbn [decodeWorker omap list_omap].
  rewrite (decode_one_same w v pkt). destruct (decode_one v pkt) as [v' [dp|]]; cbn [snd]; by rewrite IH.
Qed.

(** What a worker forwards for a packet does not depend on the packets its
    reused layer variables held before: it forwards, in order, what each
    packet gives on its own. *)
Theorem decode_worker_no_stale_data v w pkts :
  decodeWorker v pkts = omap (fun pkt => snd (decode_one w pkt)) pkts.
Proof. apply decodeWorker_omap. Qed.

(** The layers of a forwarded packet. *)
Definition is_ip (lt : LayerType) : Prop := lt = LayerTypeIPv4 \/ lt = LayerTypeIPv6.
Definition is_transport (lt : LayerType) : Prop := lt = LayerTypeTCP \/ lt = LayerTypeUDP.

Lemma layers_inv v decoded dp i t dp' i' t' :
  fold_left (layer_step v) decoded (dp, i, t) = (dp', i', t') ->
  (t = true -> TransProto dp = 6 \/ TransProto dp = 17) ->
  (TransProto dp = 6 -> TCP dp <> None) ->
  (i' = true -> i = true \/ exists lt, lt ∈ decoded /\ is_ip lt) /\
  (t' = true -> TransProto dp' = 6 \/ TransProto dp' = 17) /\
  (TransProto dp' = 6 -> TCP dp' <> None) /\
  RawPacket dp' = RawPacket dp /\ Timestamp dp' = Timestamp dp.
Proof.
  revert dp i t. induction decoded as [|lt decoded IH]; intros dp i t; cbn [fold_left].
  { intros [= <- <- <-] Ht Htcp. auto. }
  intros Hf Ht Htcp.
  destruct (layer_step v (dp, i, t) lt) as [[dp1 i1] t1] eqn:E.
  assert (Hstep : (i1 = true -> i = true \/ is_ip lt) /\
    (t1 = true -> TransProto dp1 = 6 \/ TransProto dp1 = 17) /\
    (TransProto dp1 = 6 -> TCP dp1 <> None) /\
    RawPacket dp1 = RawPacket dp /\ Timestamp dp1 = Timestamp dp).
  { unfold is_ip. destruct lt; cbn [layer_step] in E; injection E as <- <- <-; cbn;
      repeat split; try done; auto. }
  destruct Hstep as (Hi1 & Ht1 & Htcp1 & Hr1 & Hts1).
  destruct (IH dp1 i1 t1 Hf Ht1 Htcp1) as (Hi' & Ht' & Htcp' & Hr' & Hts').
  repeat split; try congruence; try done.
  intros Hi. destruct (Hi' Hi) as [H1|(lt' & Hlt & Hip)].
  - destruct (Hi1 H1) as [|Hip]; [by left|]. right. exists lt. split; [left|done].
  - right. exists lt'. split; [by right|done].
Qed.

Lemma forwarded v pkt dp :
  snd (decode_one v pkt) = Some dp ->
  (TransProto dp = 6 \/ TransProto dp = 17) /\ (TransProto dp = 6 -> TCP dp <> None)
  /\ RawPacket dp = p_Data pkt /\ Timestamp dp = p_Timestamp pkt.
Proof.
  unfold decode_one. destruct (DecodeLayers v (p_Data pkt)) as [[v' decoded] [e|]]; [done|].
  destruct (fold_left _ _ _) as [[dp' i] t] eqn:E. cbn [snd].
  destruct (i && t) eqn:Eit; [|done]. intros [= <-]. apply andb_true_iff in Eit as [-> ->].
  destruct (layers_inv _ _ _ _ _ _ _ _ E ltac:(done) ltac:(done)) as (_ & Ht & Htcp & Hr & Hts).
  auto.
Qed.
End Worker.

Definition sample_packet (d : bytes) : Packet :=
  {| p_Data := d; p_Timestamp := 7; p_CaptureLen := len d; p_OrigLen := len d |}.

Definition sample_vars : layer_vars :=
  {| v_ip4 := {| ip_SrcIP := []; ip_DstIP := [] |}; v_ip6 := {| ip_SrcIP := []; ip_DstIP := [] |};
     v_tcp := {| tcp_SrcPort := 9; tcp_DstPort := 9; tcp_Seq := 9; tcp_SYN := true; tcp_ACK := true; tcp_FIN := true;
                 tcp_RST := true; tcp_PSH := true; tcp_Payload := Some [x2a] |};
     v_udp := {| udp_SrcPort := 9; udp_DstPort := 9; udp_Payload := Some [x2a] |}; v_payload := Some [x2a] |}.

(** A TCP packet, one that is not decoded and a UDP packet. *)
Definition sample_packets : list Packet := map sample_packet [[x01; x02]; [x01]; [x03; x04; x05]].

Lemma decode_worker_no_stale_data_witness :
  @decodeWorker two_byte_decoder sample_vars sample_packets =
  omap (fun pkt => snd (@decode_one two_byte_decoder
    {| v_ip4 := v_ip6 sample_vars; v_ip6 := v_ip6 sample_vars; v_tcp := v_tcp sample_vars;
       v_udp := v_udp sample_vars; v_payload := None |} pkt)) sample_packets
  /\ map TransProto (@decodeWorker two_byte_decoder sample_vars sample_packets) = [6; 17].
Proof.
  split; [|reflexivity]. apply (@decode_worker_no_stale_data two_byte_decoder sample_vars _ sample_packets).
Defined.

End Decode.

(** ** [packetSplitter] *)

Module Splitter.

(** The body of the loop of [Start]: the channel a packet goes to. *)
Inductive route := ToTCP | ToUDP | Ignored.

Definition route_of (pkt : Decode.DecodedPacket) : route :=
  if Decode.TransProto pkt =? 6 then ToTCP
  else if Decode.TransProto pkt =? 17 then ToUDP
  else Ignored.

(** [for pkt := range s.input]: what is sent on [s.tcp] and on [s.udp]. *)
Fixpoint split (pkts : list Decode.DecodedPacket)
    : list Decode.DecodedPacket * list Decode.DecodedPacket :=
  match pkts with
  | [] => ([], [])
  | pkt :: pkts' =>
      let '(tcp, udp) := split pkts' in
      match route_of pkt with
      | ToTCP => (pkt :: tcp, udp)
      | ToUDP => (tcp, pkt :: udp)
      | Ignored => (tcp, udp)
      end
  end.

Lemma split_perm pkts :
  Forall (fun p => Decode.TransProto p = 6 \/ Decode.TransProto p = 17) pkts ->
  fst (split pkts) ++ snd (split pkts) ≡ₚ pkts.
Proof.
  intros Hp. induction Hp as [|p pkts Hp Hps IH]; [done|]. cbn [split]. unfold route_of.
  destruct (split pkts) as [tcp udp]. cbn in IH.
  destruct Hp as [-> | ->]; cbn; [by rewrite IH|]. by rewrite <- Permutation_middle, IH.
Qed.

Lemma split_routes pkts :
  Forall (fun p => Decode.TransProto p = 6) (fst (split pkts)) /\
  Forall (fun p => Decode.TransProto p = 17) (snd (split pkts)).
Proof.
  induction pkts as [|p pkts [IH1 IH2]]; [done|]. cbn [split]. unfold route_of.
  destruct (split pkts) as [tcp udp]. cbn in *.
  destruct (Decode.TransProto p =? 6) eqn:E6; [cbn; split; [constructor; [lia|done]|done]|].
  destruct (Decode.TransProto p =? 17) eqn:E17; cbn; split; try done. constructor; [lia|done].
Qed.

Lemma worker_forwarded `{GopacketDecoder} v pkts :
  Forall (fun p => (Decode.TransProto p = 6 \/ Decode.TransProto p = 17)
                   /\ (Decode.TransProto p = 6 -> Decode.TCP p <> None)) (Decode.decodeWorker v pkts).
Proof.
  revert v. induction pkts as [|pkt pkts IH]; intros v; [constructor|].
  cbn [Decode.decodeWorker]. pose proof (Decode.forwarded v pkt) as Hd.
  destruct (Decode.decode_one v pkt) as [v' [dp|]]; [|apply IH].
  constructor; [|apply IH]. destruct (Hd dp eq_refl) as (? & ? & _). done.
Qed.

(** Every packet that a decode worker forwards goes to exactly one of the two
    consumers, TCP packets to the reassembler with their TCP header, UDP packets
    to the dispatcher; no packet is lost or duplicated. *)
Theorem decoded_packets_partition `{GopacketDecoder} v pkts :
  let out := Decode.decodeWorker v pkts in
  fst (split out) ++ snd (split out) ≡ₚ out /\
  Forall (fun p => Decode.TransProto p = 6 /\ Decode.TCP p <> None) (fst (split out)) /\
  Forall (fun p => Decode.TransProto p = 17) (snd (split out)).
Proof.
  intros out.
  pose proof (worker_forwarded v pkts) as Hf. fold out in Hf.
  assert (Hperm : fst (split out) ++ snd (split out) ≡ₚ out).
  { apply split_perm. eapply Forall_impl; [|exact Hf]. by intros p [? _]. }
  destruct (split_routes out) as [H1 H2]. split; [done|]. split; [|done].
  rewrite List.Forall_forall in *. intros p Hp. split; [by apply H1|].
  assert (Hin : In p out).
  { apply list_elem_of_In. rewrite <- Hperm. apply elem_of_app. left. by apply list_elem_of_In. }
  by apply (Hf p Hin), H1.
Qed.
Lemma decoded_packets_partition_witness :
  let out := @Decode.decodeWorker two_byte_decoder Decode.sample_vars Decode.sample_packets in
  (fst (split out) ++ snd (split out) ≡ₚ out /\
   Forall (fun p => Decode.TransProto p = 6 /\ Decode.TCP p <> None) (fst (split out)) /\
   Forall (fun p => Decode.TransProto p = 17) (snd (split out))) /\
  (length (fst (split out)) = 1 /\ length (snd (split out)) = 1)%nat.
Proof.
  intros out. split; [|split; reflexivity].
  apply (@decoded_packets_partition two_byte_decoder Decode.sample_vars Decode.sample_packets).
Defined.

End Splitter.

(** ** The reassembly stage *)

(** gopacket's reassembly engine: its state, and the calls the stage makes. The
    engine calls the stream objects of [Reassembly.v]. *)
Class ReassemblyEngine := {
  assembler : Type;
  AssembleWithContext : bytes -> bytes -> TCPLayer -> Z -> Z -> assembler -> assembler;
  FlushCloseOlderThan : Z -> assembler -> assembler;
  FlushAll : assembler -> assembler;
}.

Module Reassembler.
Section Reassembler.
Context `{ReassemblyEngine}.

Record ReassemblyConfig := {
  MaxBufferedPagesPerConn : Z; MaxBufferedPagesTotal : Z; ConnectionTimeout : Z;
  MaxConnectionAge : Z; FlushInterval : Z; ChannelBuffer : Z;
}.

(** [New]: the configuration it keeps *)
Definition New (cfg : ReassemblyConfig) : ReassemblyConfig :=
  {| MaxBufferedPagesPerConn := MaxBufferedPagesPerConn cfg;
     MaxBufferedPagesTotal := MaxBufferedPagesTotal cfg;
     ConnectionTimeout := ConnectionTimeout cfg; MaxConnectionAge := MaxConnectionAge cfg;
     FlushInterval := FlushInterval cfg;
     ChannelBuffer := if ChannelBuffer cfg <=? 0 then 4096 else ChannelBuffer cfg |}.

(** [feedPacket] of a packet with a TCP header: the engine gets the header,
    the addresses, and the time and size of the packet. *)
Definition feedPacket (pkt : Decode.DecodedPacket) (tcp : TCPLayer) (a : assembler) : assembler :=
  AssembleWithContext (Decode.SrcIP pkt) (Decode.DstIP pkt) tcp (Decode.Timestamp pkt)
    (len (Decode.RawPacket pkt)) a.

Definition flushOlderThan (now d : Z) (a : assembler) : assembler := FlushCloseOlderThan (now - d) a.

(** A case of the [select] of [run]. *)
Inductive event :=
| CtxDone
| Input (pkt : option Decode.DecodedPacket)
| Tick (now : Z).

(** [run] on the cases its [select] takes, in order: it returns when the
    context is done or the input is closed. *)
Fixpoint run (cfg : ReassemblyConfig) (events : list event) (a : assembler) : assembler :=
  match events with
  | [] => a
  | CtxDone :: _ => a
  | Input None :: _ => a
  | Input (Some pkt) :: events' =>
      match Decode.TCP pkt with
      | None => run cfg events' a
      | Some tcp => run cfg events' (feedPacket pkt tcp a)
      end
  | Tick now :: events' => run cfg events' (flushOlderThan now (ConnectionTimeout cfg) a)
  end.

(** [Stop], once the goroutine has finished. *)
Definition Stop (a : assembler) : assembler := FlushAll a.
End Reassembler.
End Reassembler.
