(* ===== verification/DecodeWorkers.v ===== *)
(** * The decode workers together ([internal/decode/decoder.go])

    [Decode.decodeWorker] is one worker on the packets it receives. Here the
    workers of a decoder share its input and its output: a step relation on the
    packets to come, the workers with their layer variables, and the output.
    What is forwarded is what one worker would forward, in some order; with
    several workers the order of a connection's packets is not kept. *)

From S2P Require Import Prelude.
From S2P Require Import Decode.

Module DecodeWorkers.
Import Decode.Decode.

(** Where a worker is: at its first [select], at the send of a packet, or
    returned; with its layer variables. *)
Inductive pc := Selecting (v : layer_vars) | Sending (v : layer_vars) (dp : DecodedPacket) | Returned.

(** Whether the context is done, the packets to come until the input is closed,
    the workers, the output and what its consumer has taken; and, for the
    statements, the packets whose send was given up. *)
Record state := St {
  ctx_done : bool; input : list Packet; pcs : list pc; output : list DecodedPacket;
  taken : list DecodedPacket; given_up : list DecodedPacket;
}.

Section Workers.
Context `{GopacketDecoder}.
(** The capacity of the output. *)
Variable cap : nat.

Inductive step : state -> state -> Prop :=
| signal q ps o t g : step (St false q ps o t g) (St true q ps o t g)
(* [pkt, ok := <-d.input], and the decoding up to the send *)
| receive c i v v' pkt dp q ps o t g :
    ps !! i = Some (Selecting v) -> decode_one v pkt = (v', Some dp) ->
    step (St c (pkt :: q) ps o t g) (St c q (<[i := Sending v' dp]> ps) o t g)
(* ... or to a [continue] *)
| receive_skips c i v v' pkt q ps o t g :
    ps !! i = Some (Selecting v) -> decode_one v pkt = (v', None) ->
    step (St c (pkt :: q) ps o t g) (St c q (<[i := Selecting v']> ps) o t g)
(* the context is done, or the input is closed and empty *)
| returns c i v q ps o t g :
    ps !! i = Some (Selecting v) -> c = true \/ q = [] ->
    step (St c q ps o t g) (St c q (<[i := Returned]> ps) o t g)
(* [d.output <- dp] *)
| send c i v dp q ps o t g :
    ps !! i = Some (Sending v dp) -> (length o < cap)%nat ->
    step (St c q ps o t g) (St c q (<[i := Selecting v]> ps) (o ++ [dp]) t g)
(* ... or the context is done first *)
| gives_up i v dp q ps o t g :
    ps !! i = Some (Sending v dp) ->
    step (St true q ps o t g) (St true q (<[i := Returned]> ps) o t (g ++ [dp]))
(* the splitter takes a packet *)
| take_one c dp q ps o t g :
    step (St c q ps (dp :: o) t g) (St c q ps o (t ++ [dp]) g).

(** [n] workers at their start, each with its layer variables. *)
Definition init (n : nat) (v : layer_vars) (packets : list Packet) : state :=
  St false packets (replicate n (Selecting v)) [] [] [].

Definition reachable (n : nat) (v : layer_vars) (packets : list Packet) (s : state) : Prop :=
  rtc step (init n v packets) s.

(** The packet of a worker at a send. *)
Definition holding (p : pc) : option DecodedPacket := match p with Sending _ dp => Some dp | _ => None end.
Definition held : list pc -> list DecodedPacket := omap holding.

(** What a packet gives on its own. *)
Definition alone (v : layer_vars) (pkt : Packet) : option DecodedPacket := snd (decode_one v pkt).

Lemma no_packet_held n v : held (replicate n (Selecting v)) = [].
Proof. by induction n. Qed.

(** ** Nothing is lost or made up *)

Definition accounted (v : layer_vars) (packets : list Packet) (s : state) : Prop :=
  taken s ++ output s ++ held (pcs s) ++ given_up s ++ omap (alone v) (input s) ≡ₚ omap (alone v) packets /\
  (ctx_done s = false -> given_up s = []).

Lemma decoded_alone v w pkt v' o : decode_one w pkt = (v', o) -> alone v pkt = o.
Proof. intros E. unfold alone. by rewrite (decode_one_same v w), E. Qed.

(** A step of the worker found by [Hi], which goes to [p]. *)
Ltac at_worker Hi p :=
  let l := fresh "l" in let k := fresh "k" in let E := fresh "E" in let E' := fresh "E'" in
  destruct (omap_at holding _ _ _ p Hi) as (l & k & E & E'); unfold held; rewrite E, E'; cbn [holding option_list app].

Lemma decode_step_accounted v packets s s' : accounted v packets s -> step s s' -> accounted v packets s'.
Proof.
  intros [Hp Hg] Hs. destruct Hs as [q ps o t g|c i w v' pkt dp q ps o t g Hi Hd|c i w v' pkt q ps o t g Hi Hd
    |c i w q ps o t g Hi Hc|c i w dp q ps o t g Hi Hl|i w dp q ps o t g Hi|c dp q ps o t g];
    unfold accounted in *; cbn [ctx_done input pcs output taken given_up] in *; rewrite <- Hp; clear Hp.
  - split; [done|]. intros [=].
  - at_worker Hi (Sending v' dp).
    cbn [omap list_omap]. rewrite (decoded_alone v w pkt v' (Some dp) Hd). split; [cbn; solve_Permutation|done].
  - at_worker Hi (Selecting v').
    cbn [omap list_omap]. by rewrite (decoded_alone v w pkt v' None Hd).
  - at_worker Hi Returned. done.
  - at_worker Hi (Selecting w).
    split; [cbn; solve_Permutation|done].
  - at_worker Hi Returned.
    split; [cbn; solve_Permutation|intros [=]].
  - split; [cbn; solve_Permutation|done].
Qed.

(** A single worker keeps the order until the context is done. *)
Definition in_order (v : layer_vars) (packets : list Packet) (s : state) : Prop :=
  length (pcs s) = 1%nat /\
  (ctx_done s = false ->
   taken s ++ output s ++ held (pcs s) ++ omap (alone v) (input s) = omap (alone v) packets).

Lemma decode_step_in_order v packets s s' : in_order v packets s -> step s s' -> in_order v packets s'.
Proof.
  intros [Hl Ho] Hs. destruct Hs as [q ps o t g|c i w v' pkt dp q ps o t g Hi Hd|c i w v' pkt q ps o t g Hi Hd
    |c i w q ps o t g Hi Hc|c i w dp q ps o t g Hi Hlo|i w dp q ps o t g Hi|c dp q ps o t g];
    unfold in_order in *; cbn [ctx_done input pcs output taken given_up] in *;
    (split; [by rewrite ?length_insert|]); intros Hc'; try done; rewrite <- Ho by done; clear Ho.
  5: { by rewrite <- !app_assoc. }
  all: destruct ps as [|p [|]]; try done; destruct i as [|i]; try done; injection Hi as ->; cbn.
  - by rewrite (decoded_alone v w pkt v' (Some dp) Hd).
  - by rewrite (decoded_alone v w pkt v' None Hd).
  - done.
  - by rewrite <- !app_assoc.
Qed.

(** C28: The decode workers together do what one of them would do. Whatever the
    interleaving and the contents of their layer variables, what was forwarded,
    what the workers hold and what they give up when the context is done are
    exactly what the packets received give on their own, each once; nothing is
    given up before. A single worker also keeps the order. *)
Theorem decode_workers_account n v packets s :
  reachable n v packets s ->
  accounted v packets s /\
  (n = 1%nat -> ctx_done s = false ->
   taken s ++ output s ++ held (pcs s) ++ omap (alone v) (input s) = decodeWorker v packets).
Proof.
  intros Hr. split.
  - revert Hr. apply rtc_invariant; [|intros s1 s2; apply decode_step_accounted].
    split; [|done]. cbn. by rewrite no_packet_held.
  - intros -> Hc. rewrite (decodeWorker_omap v v). enough (in_order v packets s) as [_ Ho] by (by apply Ho).
    revert Hr. apply rtc_invariant; [done|intros s1 s2; apply decode_step_in_order].
Qed.

(** ** Everything is forwarded *)

Lemma holds_one ps : held ps <> [] -> exists i v dp, ps !! i = Some (Sending v dp).
Proof.
  intros Hne. destruct (held ps) as [|dp l] eqn:E; [done|].
  assert (Hin : dp ∈ held ps) by (rewrite E; left). apply list_elem_of_omap in Hin as (p & Hp & Ep).
  apply list_elem_of_lookup in Hp as [i Hi]. destruct p as [|v dp'|]; [done| |done]. by exists i, v, dp'.
Qed.

(** Before the context is done, workers return only when there is no input. *)
Definition working (s : state) : Prop :=
  ctx_done s = false -> pcs s <> [] /\ (input s <> [] -> Returned ∉ pcs s).

Lemma not_in_insert {A} (x y : A) (l : list A) i : x ∉ l -> x <> y -> x ∉ <[i := y]> l.
Proof.
  intros Hx Hne Hin. apply list_elem_of_lookup in Hin as [j Hj].
  apply list_lookup_insert_Some in Hj as [(_ & E & _)|[_ Hj]]; [by apply Hne|]. by eapply Hx, list_elem_of_lookup_2.
Qed.

Lemma insert_not_nil {A} (y : A) (l : list A) i : l <> [] -> <[i := y]> l <> [].
Proof. intros Hne E. apply (f_equal length) in E. rewrite length_insert in E. by destruct l. Qed.

Lemma step_working s s' : working s -> step s s' -> working s'.
Proof.
  intros Hw Hs. destruct Hs; unfold working in *; cbn [ctx_done input pcs] in *; intros Hc; try done;
    destruct (Hw Hc) as [Hne Hr]; (split; [by try apply insert_not_nil|]); intros Hq; try (by apply Hr).
  - apply not_in_insert; [by apply Hr|done].
  - apply not_in_insert; [by apply Hr|done].
  - by destruct H1 as [-> | ->].
  - apply not_in_insert; [by apply Hr|done].
Qed.

(** What is left to do, in steps. *)
Definition work_left (s : state) : nat := (3 * length (input s) + 2 * length (held (pcs s)) + length (output s))%nat.

Lemma work_goes_on s :
  (0 < cap)%nat -> working s -> ctx_done s = false -> work_left s <> 0%nat ->
  exists s', step s s' /\ ctx_done s' = false /\ (work_left s' < work_left s)%nat.
Proof.
  intros Hcap Hw Hc Hleft. destruct s as [c q ps o t g]. cbn [ctx_done] in Hc. subst c.
  unfold work_left in *. cbn [ctx_done input pcs output] in *. destruct o as [|dp o].
  2: { eexists. split; [apply take_one|]. split; [done|]. cbn. lia. }
  destruct (decide (held ps = [])) as [Hh|Hh].
  2: { destruct (holds_one ps Hh) as (i & v & dp & Hi). eexists. split; [by eapply (send false i v dp)|].
       split; [done|]. cbn [input pcs output]. at_worker Hi (Selecting v). rewrite !length_app. cbn. lia. }
  destruct q as [|pkt q]; [by rewrite Hh in Hleft|]. destruct (Hw eq_refl) as [Hne Hr]. cbn [pcs input] in *.
  destruct ps as [|p ps]; [done|]. destruct p as [v|v dp|]; [|done|destruct (Hr ltac:(done)); left].
  destruct (decode_one v pkt) as [v' [dp|]] eqn:E; eexists; (split; [first [by eapply (receive false 0)|by eapply (receive_skips false 0)]|]);
    (split; [done|]); cbn in *; rewrite Hh; cbn; lia.
Qed.

(** C29: Until the context is done, whatever the decode workers have done so
    far, they can go on to forward all packets: some run from there leaves
    nothing in the input, at a worker or in the output, and the splitter has
    received exactly what the packets give on their own. *)
Theorem decode_workers_deliver n v packets s :
  (0 < n)%nat -> (0 < cap)%nat -> reachable n v packets s -> ctx_done s = false ->
  exists s', rtc step s s' /\ input s' = [] /\ held (pcs s') = [] /\ output s' = [] /\
    taken s' ≡ₚ omap (alone v) packets.
Proof.
  intros Hn Hcap Hr Hc.
  assert (Hw : working s).
  { revert Hr. apply rtc_invariant; [|intros s1 s2; apply step_working]. intros _. cbn. destruct n; [lia|].
    split; [done|]. intros _ Hin. apply elem_of_replicate in Hin as [? _]. done. }
  assert (Hacc : accounted v packets s).
  { revert Hr. apply rtc_invariant; [|intros s1 s2; apply decode_step_accounted]. split; [|done]. cbn. by rewrite no_packet_held. }
  clear Hr. remember (work_left s) as m eqn:Hm. revert s Hm Hc Hw Hacc.
  induction m as [m IH] using lt_wf_ind. intros s -> Hc Hw Hacc.
  destruct (decide (work_left s = 0%nat)) as [Hz|Hz].
  - exists s. split; [done|]. unfold work_left in Hz. destruct Hacc as [Hp Hg]. rewrite (Hg Hc) in Hp.
    destruct (input s), (held (pcs s)), (output s); cbn in Hz; try lia. cbn in Hp. rewrite app_nil_r in Hp. done.
  - destruct (work_goes_on s Hcap Hw Hc Hz) as (s1 & Hs & Hc1 & Hlt).
    destruct (IH _ Hlt s1 eq_refl Hc1) as (s' & Hrun & Hdone); [by eapply step_working|by eapply decode_step_accounted|].
    exists s'. split; [by eapply rtc_l|done].
Qed.

(** ** Two runs *)

(** The first worker does it all. *)
Lemma sequential_run v ps q t :
  (0 < cap)%nat ->
  exists v', rtc step (St false q (Selecting v :: ps) [] t []) (St false [] (Selecting v' :: ps) [] (t ++ decodeWorker v q) []).
Proof.
  intros Hcap. revert v t. induction q as [|pkt q IH]; intros v t; [exists v; by rewrite app_nil_r|].
  cbn [decodeWorker]. destruct (decode_one v pkt) as [v1 [dp|]] eqn:E.
  - destruct (IH v1 (t ++ [dp])) as [v' Hr]. exists v'. rewrite <- app_assoc in Hr.
    eapply rtc_l; [by apply (receive false 0 v v1 pkt dp)|]. eapply rtc_l; [by apply (send false 0 v1 dp)|].
    eapply rtc_l; [apply take_one|]. exact Hr.
  - destruct (IH v1 t) as [v' Hr]. exists v'. eapply rtc_l; [by apply (receive_skips false 0 v v1)|]. exact Hr.
Qed.

Lemma sequential_reachable n v packets :
  (0 < n)%nat -> (0 < cap)%nat -> exists s, reachable n v packets s /\ taken s = decodeWorker v packets.
Proof.
  intros Hn Hcap. destruct n as [|n]; [lia|]. destruct (sequential_run v (replicate n (Selecting v)) packets [] Hcap) as [v' Hr].
  eexists. split; [exact Hr|done].
Qed.

(** Two workers can swap two packets, also of one connection. *)
Lemma decode_workers_swap n v a b x y rest :
  (2 <= n)%nat -> (0 < cap)%nat -> alone v a = Some x -> alone v b = Some y ->
  exists s, reachable n v (a :: b :: rest) s /\ taken s = [y; x] /\ input s = rest /\ held (pcs s) = [].
Proof.
  intros Hn Hcap Ha Hb. destruct n as [|[|n]]; [lia|lia|]. unfold alone in *.
  destruct (decode_one v a) as [va oa] eqn:Ea, (decode_one v b) as [vb ob] eqn:Eb. cbn in Ha, Hb. subst oa ob.
  exists (St false rest (Selecting va :: Selecting vb :: replicate n (Selecting v)) [] [y; x] []).
  split; [|split; [done|]; split; [done|]; cbn; apply no_packet_held].
  unfold reachable, init. cbn [replicate].
  eapply rtc_l; [by apply (receive false 0 v va a x)|]. eapply rtc_l; [by apply (receive false 1 v vb b y)|]. cbn.
  eapply rtc_l; [by apply (send false 1 vb y)|]. cbn. eapply rtc_l; [apply take_one|].
  eapply rtc_l; [by apply (send false 0 va x)|]. cbn. eapply rtc_l; [apply take_one|]. done.
Qed.
End Workers.

(** ** Three packets and two workers *)

Lemma decode_workers_account_witness :
  exists s, @reachable two_byte_decoder 1 2 sample_vars sample_packets s /\
    @accounted two_byte_decoder sample_vars sample_packets s /\
    (2%nat = 1%nat -> ctx_done s = false ->
     taken s ++ output s ++ held (pcs s) ++ omap (@alone two_byte_decoder sample_vars) (input s)
     = @decodeWorker two_byte_decoder sample_vars sample_packets).
Proof.
  destruct (@sequential_reachable two_byte_decoder 1 2 sample_vars sample_packets) as (s & Hr & _); [lia|lia|].
  exists s. split; [exact Hr|]. exact (@decode_workers_account two_byte_decoder 1 2 sample_vars sample_packets s Hr).
Defined.

Lemma decode_workers_deliver_witness :
  exists s', rtc (@step two_byte_decoder 1) (init 2 sample_vars sample_packets) s' /\
    input s' = [] /\ held (pcs s') = [] /\ output s' = [] /\
    taken s' ≡ₚ omap (@alone two_byte_decoder sample_vars) sample_packets.
Proof.
  apply (@decode_workers_deliver two_byte_decoder 1 2 sample_vars sample_packets (init 2 sample_vars sample_packets)).
  - lia.
  - lia.
  - apply rtc_refl.
  - reflexivity.
Defined.
End DecodeWorkers.
