(* ===== verification/Dispatch.v ===== *)
(** * The protocol dispatcher ([internal/dispatch/dispatcher.go])

    The stage between the streams and packets on one side and the parsers on
    the other: it resolves a parser for each buffer, calls it and passes the
    events on. A panic of a parser is not recovered: it ends the process. *)

From S2P Require Import Prelude.
From S2P Require Import GoStrings.
From S2P Require Import Event.
From S2P Require Import Dns.
From S2P Require Import Tls.
From S2P Require Import Http.
From S2P Require Import Registry.
From S2P Require Import Parsers.
From S2P Require Import Reassembly.
From S2P Require Import Decode.

(** [net.ParseIP]: the address a text denotes; nil is the empty slice. *)
Class NetIP := { ParseIP : bytes -> bytes }.

(** Addresses given by their bytes. *)
Definition raw_ip : NetIP := {| ParseIP := id |}.

Module Dispatch.
Section Dispatch.
Context `{Unicode} `{NetHTTP} `{GopacketFlow} `{NetIP}.

Variable registry : Registry.Registry parser.

(** The events a call of the parser gives to the output, and the parsers'
    state after it: none when there is an error. *)
Definition parse_and_emit (p : parser) (now : Z) (clk : clock) (data spare : bytes)
    (meta : Event.ConnMeta) (isFromClient : bool) (st : Http.states)
    : outcome (list ProtocolEvent * Http.states) :=
  '(r, st) ← Parsers.Parse p now clk data spare meta isFromClient st;
  match r with
  | ErrR _ => Ret ([], st)
  | OkR events => Ret (events, st)
  end.

(** The [protocol.ConnMeta] that [handleTCP] and [handleUDP] give to the parser. *)
Definition tcp_meta (m : Reassembly.ConnMeta) : Event.ConnMeta :=
  {| m_SrcIP := ParseIP (Reassembly.SrcIP m); m_DstIP := ParseIP (Reassembly.DstIP m);
     m_SrcPort := Reassembly.SrcPort m; m_DstPort := Reassembly.DstPort m;
     m_ConnID := Reassembly.ConnID m |}.

Definition udp_meta (pkt : Decode.DecodedPacket) : Event.ConnMeta :=
  {| m_SrcIP := Decode.SrcIP pkt; m_DstIP := Decode.DstIP pkt;
     m_SrcPort := Decode.SrcPort pkt; m_DstPort := Decode.DstPort pkt; m_ConnID := 0 |}.

(** [handleTCP]: the events it sends while the context is not done. The data
    of a stream message fills its array. *)
Definition handleTCP (now : Z) (clk : clock) (sd : Reassembly.StreamData) (st : Http.states)
    : outcome (list ProtocolEvent * Http.states) :=
  let m := Reassembly.Meta sd in
  if Reassembly.Closed sd
  then Ret ([], Registry.NotifyClose registry (Reassembly.ConnID m) st)
  else if len (Reassembly.Data sd) =? 0 then Ret ([], st) else
  p ← Registry.Resolve registry (Reassembly.SrcPort m) (Reassembly.DstPort m)
        (Reassembly.Data sd) (Reassembly.IsClient sd);
  match p with
  | None => Ret ([], st)
  | Some p =>
      parse_and_emit p now clk (Reassembly.Data sd) [] (tcp_meta m) (Reassembly.IsClient sd) st
  end.

(** [handleUDP]; [spare] is what the packet's array holds after the payload. *)
Definition handleUDP (now : Z) (clk : clock) (pkt : Decode.DecodedPacket) (spare : bytes)
    (st : Http.states) : outcome (list ProtocolEvent * Http.states) :=
  let payload := default [] (Decode.Payload pkt) in
  if len payload =? 0 then Ret ([], st) else
  p ← Registry.Resolve registry (Decode.SrcPort pkt) (Decode.DstPort pkt) payload true;
  match p with
  | None => Ret ([], st)
  | Some p =>
      parse_and_emit p now clk payload spare (udp_meta pkt) true st
  end.

(** [tcpLoop] on the messages it receives before the context is done or the
    input is closed; each comes with the clock readings of its call. *)
Fixpoint tcpLoop (msgs : list (Z * clock * Reassembly.StreamData)) (st : Http.states)
    : outcome (list ProtocolEvent * Http.states) :=
  match msgs with
  | [] => Ret ([], st)
  | (now, clk, sd) :: msgs' =>
      '(evs, st) ← handleTCP now clk sd st;
      '(evs', st) ← tcpLoop msgs' st;
      Ret (evs ++ evs', st)
  end.

Fixpoint udpLoop (pkts : list (Z * clock * Decode.DecodedPacket * bytes)) (st : Http.states)
    : outcome (list ProtocolEvent * Http.states) :=
  match pkts with
  | [] => Ret ([], st)
  | (now, clk, pkt, spare) :: pkts' =>
      '(evs, st) ← handleUDP now clk pkt spare st;
      '(evs', st) ← udpLoop pkts' st;
      Ret (evs ++ evs', st)
  end.

Lemma tcpLoop_app l k st :
  tcpLoop (l ++ k) st =
  ('(evs, st) ← tcpLoop l st; '(evs', st) ← tcpLoop k st; Ret (evs ++ evs', st)).
Proof.
  revert st. induction l as [|[[now clk] sd] l IH]; intros st; cbn [tcpLoop app mbind outcome_bind].
  - by destruct (tcpLoop k st) as [[evs st']|p|].
  - destruct (handleTCP now clk sd st) as [[evs st1]|p|]; cbn [mbind outcome_bind]; [|done|done].
    rewrite IH. destruct (tcpLoop l st1) as [[evs1 st2]|p|]; cbn [mbind outcome_bind]; [|done|done].
    destruct (tcpLoop k st2) as [[evs2 st3]|p|]; cbn [mbind outcome_bind]; [|done|done].
    by rewrite app_assoc.
Qed.
End Dispatch.

(** ** On the registry of [main] *)

Section Main.
Context `{Unicode} `{NetHTTP} `{GopacketFlow} `{NetIP}.
Variables (b q : Z).

Let registry := buildRegistry b q.

Lemma NotifyClose_main c st : Registry.NotifyClose registry c st = Http.OnConnClose c st.
Proof.
  unfold Registry.NotifyClose, registry. by rewrite (proj2 (buildRegistry_indexed b q)).
Qed.

Lemma candidates_of port l :
  filter (fun p => port ∈ parser_Ports p) (registered b q) = l ->
  Registry.candidates registry port = l.
Proof.
  intros <-. unfold registry. destruct (buildRegistry_indexed b q) as [Hi Ha].
  by rewrite Hi, Ha.
Qed.

(** Once the close marker of a connection has been dispatched, after
    whatever messages, no parser keeps state for that connection: the next
    one with the same id starts afresh. *)
Lemma tcpLoop_close msgs now clk sd st evs st' :
  tcpLoop registry (msgs ++ [(now, clk, sd)]) st = Ret (evs, st') ->
  Reassembly.Closed sd = true ->
  st' !! Reassembly.ConnID (Reassembly.Meta sd) = None.
Proof.
  rewrite tcpLoop_app. intros Hr Hc.
  destruct (tcpLoop registry msgs st) as [[evs1 st1]|p|]; cbn [mbind outcome_bind] in Hr; [|done|done].
  cbn [tcpLoop] in Hr. unfold handleTCP in Hr. rewrite Hc in Hr. cbn [mbind outcome_bind] in Hr.
  injection Hr as _ <-. rewrite NotifyClose_main. apply lookup_delete_eq.
Qed.

(** C37: one DNS response crashes the agent: when a server on port 53 answers a
    client port that no parser declares, and one of the answers is an NS,
    CNAME or PTR record, [handleUDP] panics. *)
Theorem dispatch_dns_response_crashes now clk pkt spare st m :
  Decode.SrcPort pkt = 53 -> Decode.DstPort pkt ∉ declared_ports ->
  Decode.Payload pkt = Some (Dns.encode_message m) ->
  Dns.message_ok m -> Exists (fun a => Dns.is_name (Dns.ares a) = true) (Dns.answers m) ->
  handleUDP registry now clk pkt spare st = Panic IndexOutOfRange.
Proof.
  intros Hs Hd Hp Hm Ha. unfold handleUDP. rewrite Hp. cbn [default from_option id]. cbv zeta.
  replace (len (Dns.encode_message m) =? 0) with false.
  2: { unfold Dns.encode_message. rewrite !len_app, !len_be_bytes.
       symmetry. apply Z.eqb_neq.
       pose proof (len_nonneg (concat (map Dns.encode_question (Dns.questions m)))).
       pose proof (len_nonneg (concat (map Dns.encode_answer (Dns.answers m)))).
       pose proof (len_nonneg (Dns.rest m)). lia. }
  assert (Hres : Registry.Resolve registry (Decode.SrcPort pkt) (Decode.DstPort pkt)
                   (Dns.encode_message m) true = Ret (Some P_dns)).
  { unfold Registry.Resolve. rewrite (candidates_of (Decode.DstPort pkt) []).
    - by rewrite Hs, (candidates_of 53 [P_dns] eq_refl).
    - by apply candidates_undeclared. }
  rewrite Hres. cbn [mbind outcome_bind]. unfold parse_and_emit. cbn [Parsers.Parse].
  by rewrite Dns.Parse_name_answer.
Qed.
End Main.

(** ** Concrete messages *)

#[local] Existing Instances ascii_unicode head_http raw_flow raw_ip.

Definition sample_conn : Reassembly.ConnMeta :=
  {| Reassembly.SrcIP := [x0a; x00; x00; x01]; Reassembly.DstIP := [x0a; x00; x00; x02];
     Reassembly.SrcPort := 40000; Reassembly.DstPort := 8000; Reassembly.ConnID := 9 |}.

Definition sample_stream (data : bytes) (cl closed : bool) : Reassembly.StreamData :=
  {| Reassembly.Net := ([], []); Reassembly.Transport := ([], []); Reassembly.Data := data;
     Reassembly.IsClient := cl; Reassembly.Timestamp := Some 7; Reassembly.Meta := sample_conn;
     Reassembly.Closed := closed |}.

(** A request, its response and a second request on one connection. *)
Definition sample_session : list (Z * clock * Reassembly.StreamData) :=
  let msg data cl := (5, (fun _ => 7), sample_stream data cl false) in
  [msg (str "GET /a HTTP/1.1" ++ CRLF ++ CRLF) true; msg (str "HTTP/1.1 200 OK" ++ CRLF ++ CRLF) false;
   msg (str "GET /b HTTP/1.1" ++ CRLF ++ CRLF) true].

Definition sample_udp (src dst : Z) (payload : bytes) : Decode.DecodedPacket :=
  {| Decode.Timestamp := 7; Decode.SrcIP := [x08; x08; x08; x08]; Decode.DstIP := [x0a; x00; x00; x01];
     Decode.SrcPort := src; Decode.DstPort := dst; Decode.TransProto := 17;
     Decode.Flags := Decode.no_flags; Decode.Payload := Some payload; Decode.TCP := None;
     Decode.RawPacket := [] |}.

Lemma sample_close :
  exists evs st',
    tcpLoop (buildRegistry 1024 512) (sample_session ++ [(6, (fun _ => 8), sample_stream [] false true)]) ∅
      = Ret (evs, st') /\ length evs = 3%nat /\ st' !! 9 = None.
Proof.
  eexists _, _. split; [vm_compute; reflexivity|]. split; [reflexivity|].
  eapply (tcpLoop_close 1024 512 sample_session 6 (fun _ => 8) (sample_stream [] false true) ∅);
    [vm_compute; reflexivity|reflexivity].
Defined.

Lemma dispatch_dns_response_crashes_witness :
  let m := Dns.sample_message (Dns.RD_name 5 [str "www"]) in
  handleUDP (buildRegistry 1024 512) 5 (fun _ => 7) (sample_udp 53 40000 (Dns.encode_message m)) [] ∅
  = Panic IndexOutOfRange.
Proof.
  intros m. apply (dispatch_dns_response_crashes 1024 512 5 (fun _ => 7) _ [] ∅ m).
  - reflexivity.
  - ground.
  - reflexivity.
  - unfold m, Dns.sample_message. ground.
  - left. reflexivity.
Defined.

End Dispatch.
