(* ===== verification/Output.v ===== *)
(** * The Kafka producer ([internal/output/kafka.go])

    The configuration the producer keeps, its writers, the key that partitions
    messages, the loop of a worker, and starting and stopping. The Kafka client
    is not part of the model: a writer is the configuration it is made with, and
    writing a message is an effect whose failure is only logged. The serializer
    is an interface here; [EventJson.v] has its implementation. *)

From S2P Require Import Prelude.
From S2P Require Import GoStrings.
From S2P Require Import Event.

(** ** 64-bit FNV-1a ([hash/fnv]) *)

Definition fnv_offset64 : Z := 14695981039346656037.
Definition fnv_prime64 : Z := 1099511628211.

Definition fnv1a_step (h : Z) (b : byte) : Z := uint64 (Z.lxor h (u8 b) * fnv_prime64).

(** [h.Write(data)] on a hash with state [h]. *)
Definition fnv1a_write (h : Z) (data : bytes) : Z := fold_left fnv1a_step data h.

(** Test vectors of the FNV reference. *)
Lemma fnv1a_a : fnv1a_write fnv_offset64 (str "a") = 0xaf63dc4c8601ec8c.
Proof. vm_compute. reflexivity. Qed.

Lemma fnv1a_foobar : fnv1a_write fnv_offset64 (str "foobar") = 0x85944171f73967e8.
Proof. vm_compute. reflexivity. Qed.

Lemma fnv1a_write_app h k l : fnv1a_write h (k ++ l) = fnv1a_write (fnv1a_write h k) l.
Proof. unfold fnv1a_write. apply fold_left_app. Qed.

(** [output.Serializer]; [JSONSerializer] is one. *)
Class Serializer := { Marshal : ProtocolEvent -> result bytes }.

(** A serializer that gives the name of the protocol. *)
Definition name_serializer : Serializer := {| Marshal ev := OkR (Protocol ev) |}.

Module Output.

Record KafkaConfig := {
  Brokers : list bytes; Topic : bytes; BatchSize : Z; BatchTimeout : Z; Compression : bytes;
  RequiredAcks : Z; NumWorkers : Z; MaxMessageBytes : Z;
}.

(** The configuration [NewProducer] keeps; times are in nanoseconds. *)
Definition producer_defaults (cfg : KafkaConfig) : KafkaConfig :=
  {| Brokers := Brokers cfg; Topic := Topic cfg;
     BatchSize := if BatchSize cfg <=? 0 then 100 else BatchSize cfg;
     BatchTimeout := if BatchTimeout cfg <=? 0 then 500 * 1000000 else BatchTimeout cfg;
     Compression := Compression cfg;
     RequiredAcks := if RequiredAcks cfg =? 0 then 1 else RequiredAcks cfg;
     NumWorkers := if NumWorkers cfg <=? 0 then 1 else NumWorkers cfg;
     MaxMessageBytes := if MaxMessageBytes cfg <=? 0 then 2 ^ 20 else MaxMessageBytes cfg |}.

(** [kafka.Gzip], [kafka.Snappy], [kafka.Lz4] and no compression *)
Inductive codec := NoCompression | Gzip | Snappy | Lz4.

Definition compressionCodec (name : bytes) : codec :=
  if bool_decide (name = str "lz4") then Lz4
  else if bool_decide (name = str "snappy") then Snappy
  else if bool_decide (name = str "gzip") then Gzip
  else NoCompression.

(** [kafka.Writer], the fields that are set *)
Record Writer := {
  Addr : list bytes; w_Topic : bytes; Async : bool; w_BatchSize : Z; w_BatchTimeout : Z;
  MaxAttempts : Z; w_RequiredAcks : Z; w_Compression : codec;
}.

Definition writer_of (cfg : KafkaConfig) : Writer :=
  {| Addr := Brokers cfg; w_Topic := Topic cfg; Async := true; w_BatchSize := BatchSize cfg;
     w_BatchTimeout := BatchTimeout cfg; MaxAttempts := 3; w_RequiredAcks := RequiredAcks cfg;
     w_Compression := compressionCodec (Compression cfg) |}.

Record Producer := { cfg : KafkaConfig; writers : list Writer; input : channel ProtocolEvent }.

(** The array of writers is taken to fit in memory, as with [make_chan]. *)
Definition NewProducer (c : KafkaConfig) (inputSize : Z) : outcome Producer :=
  let c := producer_defaults c in
  input ← make_chan inputSize;
  Ret {| cfg := c; writers := repeat (writer_of c) (Z.to_nat (NumWorkers c)); input := input |}.

(** [Start]: the writer of each worker it spawns. *)
Definition Start (p : Producer) : outcome (list Writer) :=
  foldr (fun idx o => w ← index (writers p) idx; l ← o; Ret (w :: l)) (Ret [])
    (seqZ 0 (NumWorkers (cfg p))).

(** [Stop], once the workers have finished; [close_error] is what closing a
    writer returns. *)
Definition Stop (close_error : Writer -> option bytes) (p : Producer) : outcome (option bytes * Producer) :=
  input ← close_chan (input p);
  Ret (head (omap close_error (writers p)), {| cfg := cfg p; writers := writers p; input := input |}).

Definition flowKey (ev : ProtocolEvent) : bytes :=
  let h := fnv1a_write fnv_offset64 (SrcIP ev) in
  let h := fnv1a_write h (DstIP ev) in
  let h := fnv1a_write h (be_bytes 4 (uint32 (SrcPort ev))) in
  let h := fnv1a_write h (be_bytes 4 (uint32 (DstPort ev))) in
  be_bytes 8 h.

(** [kafka.Message] *)
Record Message := { Key : bytes; Value : bytes }.

Section Worker.
Context `{Serializer}.

(** [worker] on the events it receives before its input is closed or the
    context is done: the messages it writes. *)
Fixpoint worker (events : list ProtocolEvent) : list Message :=
  match events with
  | [] => []
  | ev :: events' =>
      match Marshal ev with
      | ErrR _ => worker events'
      | OkR data => {| Key := flowKey ev; Value := data |} :: worker events'
      end
  end.

(** The key of every event of a connection. *)
Definition flow_key (meta : ConnMeta) : bytes :=
  be_bytes 8 (fnv1a_write fnv_offset64
    (m_SrcIP meta ++ m_DstIP meta ++ be_bytes 4 (uint32 (m_SrcPort meta))
     ++ be_bytes 4 (uint32 (m_DstPort meta)))).

Lemma flowKey_of_flow meta ev : of_flow meta ev -> flowKey ev = flow_key meta.
Proof.
  intros (Hs & Hd & Hsp & Hdp). unfold flowKey, flow_key.
  by rewrite Hs, Hd, Hsp, Hdp, !fnv1a_write_app.
Qed.

Lemma worker_keys meta events :
  Forall (of_flow meta) events -> Forall (fun m => Key m = flow_key meta) (worker events).
Proof.
  intros Hf. induction Hf as [|ev events Hev Hf IH]; cbn [worker]; [constructor|].
  destruct (Marshal ev); [|done]. constructor; [by apply flowKey_of_flow|done].
Qed.
End Worker.

(** The configuration the producer keeps is usable whatever it is given: at
    least one worker, positive batch limits and message size, and
    acknowledgements that are not zero; one that already is so is kept. *)
Theorem producer_config c :
  let d := producer_defaults c in
  0 < NumWorkers d /\ 0 < BatchSize d /\ 0 < BatchTimeout d /\ 0 < MaxMessageBytes d /\
  RequiredAcks d <> 0 /\ producer_defaults d = d.
Proof.
  destruct c as [br tp bs bt cp ra nw mm]. unfold producer_defaults. cbn.
  destruct (nw <=? 0) eqn:E1, (bs <=? 0) eqn:E2, (bt <=? 0) eqn:E3, (mm <=? 0) eqn:E4,
    (ra =? 0) eqn:E5; cbn; rewrite ?E1, ?E2, ?E3, ?E4, ?E5; repeat split; lia || done.
Qed.

(** Indexing every position of a list gives the list. *)
Lemma index_all {A} (pre l : list A) :
  foldr (fun idx o => w ← index (pre ++ l) idx; k ← o; Ret (w :: k)) (Ret [])
    (seqZ (len pre) (len l)) = Ret l.
Proof.
  revert pre. induction l as [|x l IH]; intros pre; [done|].
  rewrite len_cons. rewrite seqZ_cons by (pose proof (len_nonneg l); lia). cbn [foldr].
  rewrite (index_ret _ _ x).
  - cbn [mbind outcome_bind]. specialize (IH (pre ++ [x])). rewrite <- app_assoc in IH. cbn [app] in IH.
    replace (Z.succ (len pre)) with (len (pre ++ [x])) by lens.
    replace (Z.pred (1 + len l)) with (len l) by lia. by rewrite IH.
  - apply len_nonneg.
  - unfold len. rewrite Nat2Z.id. apply list_lookup_middle. done.
Qed.

(** The life of a producer: with any configuration and a channel size that is
    not negative it is made, every worker finds its writer, all writers are
    alike, and it can be stopped once; a second [Stop] panics. *)
Theorem producer_lifecycle c n close_error :
  0 <= n ->
  exists p p' e, NewProducer c n = Ret p /\ Start p = Ret (writers p) /\
    len (writers p) = NumWorkers (cfg p) /\
    Forall (fun w => w = writer_of (producer_defaults c)) (writers p) /\
    chan_cap (input p) = n /\ Stop close_error p = Ret (e, p') /\
    Stop close_error p' = Panic CloseOfClosedChannel.
Proof.
  intros Hn. unfold NewProducer, make_chan. replace (n <? 0) with false by lia. cbn [mbind outcome_bind].
  destruct (producer_config c) as (Hw & _). set (d := producer_defaults c) in *.
  set (p := {| cfg := d |}). assert (Hl : len (writers p) = NumWorkers d).
  { unfold p, len. cbn [writers]. rewrite repeat_length. lia. }
  exists p. eexists _, _. split; [done|]. split.
  { unfold Start. cbn [cfg p]. rewrite <- Hl. exact (index_all [] (writers p)). }
  split; [done|]. split; [|by repeat split].
  apply List.Forall_forall. intros w Hin. by apply repeat_spec in Hin.
Qed.
End Output.
