(* ===== verification/Workers.v ===== *)
(** * The producer's workers together ([internal/output/kafka.go])

    [Output.worker] is one worker on the events it receives. Here the workers of
    a producer share its input: a step relation on the events that wait, what
    each worker holds, the messages their Kafka writers have accepted, and the
    topic. The writers are asynchronous: [WriteMessages] returns when a message
    is accepted or refused, and the writer makes its attempts to deliver it
    later; what comes of them never gets back to the worker. A worker that has
    taken an event writes it later, so that with two workers a later event can
    overtake an earlier one. *)

From S2P Require Import Prelude.
From S2P Require Import GoStrings.
From S2P Require Import Event.
From S2P Require Import Output.

Module Workers.

(** Where a worker is: at its [select], between the receive and the end of
    [WriteMessages], or returned. *)
Inductive pc := Selecting | Holding (ev : ProtocolEvent) | Returned.

(** The events in the input, the workers, the messages that writers have
    accepted and are not done with, each with the attempts it has left, and the
    messages in the topic. For the statements: the events in the order the
    workers were done with them, each with whether its message was accepted,
    and the messages whose delivery was acknowledged and those given up. *)
Record state := St {
  queue : list ProtocolEvent; pcs : list pc; pending : list (Output.Message * nat);
  topic : list Output.Message; handled : list (ProtocolEvent * bool);
  acked : list Output.Message; dropped : list Output.Message;
}.

(** The attempts of the writers that [NewProducer] makes. *)
Definition attempts (c : Output.KafkaConfig) : nat := Z.to_nat (Output.MaxAttempts (Output.writer_of c)).

Section Workers.
Context `{Serializer}.
Variable cfg : Output.KafkaConfig.

Inductive step : state -> state -> Prop :=
(* [ev, ok := <-p.input] *)
| receive i ev q ps w t h a d :
    ps !! i = Some Selecting ->
    step (St (ev :: q) ps w t h a d) (St q (<[i := Holding ev]> ps) w t h a d)
(* an event that cannot be serialized is skipped *)
| skips i ev q ps w t h a d e :
    ps !! i = Some (Holding ev) -> Marshal ev = ErrR e ->
    step (St q ps w t h a d) (St q (<[i := Selecting]> ps) w t (h ++ [(ev, false)]) a d)
(* [WriteMessages] accepts the message *)
| accepts i ev q ps w t h a d data :
    ps !! i = Some (Holding ev) -> Marshal ev = OkR data ->
    step (St q ps w t h a d)
         (St q (<[i := Selecting]> ps) (w ++ [({| Output.Key := Output.flowKey ev; Output.Value := data |}, attempts cfg)])
            t (h ++ [(ev, true)]) a d)
(* ... or returns an error, which is only logged *)
| refuses i ev q ps w t h a d data :
    ps !! i = Some (Holding ev) -> Marshal ev = OkR data ->
    step (St q ps w t h a d) (St q (<[i := Selecting]> ps) w t (h ++ [(ev, false)]) a d)
(* the context is done, or the input is closed and empty *)
| returns i q ps w t h a d :
    ps !! i = Some Selecting ->
    step (St q ps w t h a d) (St q (<[i := Returned]> ps) w t h a d)
(* a writer's attempt is acknowledged *)
| delivers q ps l m k r t h a d :
    step (St q ps (l ++ (m, S k) :: r) t h a d) (St q ps (l ++ r) (t ++ [m]) h (a ++ [m]) d)
(* ... or fails, also when the topic has got the message *)
| attempt_fails (got : bool) q ps l m k r t h a d :
    step (St q ps (l ++ (m, S k) :: r) t h a d) (St q ps (l ++ (m, k) :: r) (t ++ if got then [m] else []) h a d)
(* the writer gives a message up: no attempt is left, or the error is a lasting one *)
| gives_up q ps l m k r t h a d :
    step (St q ps (l ++ (m, k) :: r) t h a d) (St q ps (l ++ r) t h a (d ++ [m])).

(** The workers at their start, with these events to come. *)
Definition init (n : nat) (events : list ProtocolEvent) : state :=
  St events (replicate n Selecting) [] [] [] [] [].

Definition reachable (n : nat) (events : list ProtocolEvent) (s : state) : Prop :=
  rtc step (init n events) s.

(** ** Nothing is lost by the workers or made up *)

Definition holding (p : pc) : option ProtocolEvent := match p with Holding ev => Some ev | _ => None end.
Definition held : list pc -> list ProtocolEvent := omap holding.

(** The events whose messages the writers accepted, in that order. *)
Definition accepted (h : list (ProtocolEvent * bool)) : list ProtocolEvent :=
  omap (fun '(ev, ok) => if ok : bool then Some ev else None) h.

(** Every message [n] times; what the attempts left could still give. *)
Definition times (n : nat) (ms : list Output.Message) : list Output.Message := concat (map (replicate n) ms).
Definition attempts_left (w : list (Output.Message * nat)) : list Output.Message :=
  concat (map (fun '(m, k) => replicate k m) w).

Lemma worker_app l k : Output.worker (l ++ k) = Output.worker l ++ Output.worker k.
Proof.
  induction l as [|ev l IH]; [done|]. cbn [app Output.worker].
  destruct (Marshal ev); by rewrite IH.
Qed.

(** Every event waits, is held or was handled. Of the messages that were
    accepted, each is acknowledged, pending or given up; those acknowledged are
    in the topic, and the topic has no message more often than its attempts. *)
Definition accounted (events : list ProtocolEvent) (s : state) : Prop :=
  let messages := Output.worker (accepted (handled s)) in
  map fst (handled s) ++ held (pcs s) ++ queue s ≡ₚ events /\
  acked s ++ map fst (pending s) ++ dropped s ≡ₚ messages /\
  acked s ⊆+ topic s /\
  topic s ++ attempts_left (pending s) ⊆+ times 3 messages.

(** ... in the order of the input. *)
Definition in_order (events : list ProtocolEvent) (s : state) : Prop :=
  map fst (handled s) ++ held (pcs s) ++ queue s = events /\ length (pcs s) = 1%nat.

Ltac at_worker Hi p' :=
  let l := fresh "l" in let k := fresh "k" in let E1 := fresh "E" in let E2 := fresh "E" in
  destruct (omap_at holding _ _ _ p' Hi) as (l & k & E1 & E2); cbn in E1, E2; fold held in E1, E2.

Lemma accepted_app h k : accepted (h ++ k) = accepted h ++ accepted k.
Proof. apply omap_app. Qed.

Lemma attempts_left_at l m k r : attempts_left (l ++ (m, k) :: r) = attempts_left l ++ replicate k m ++ attempts_left r.
Proof. unfold attempts_left. by rewrite map_app, concat_app. Qed.

Lemma attempts_left_app l r : attempts_left (l ++ r) = attempts_left l ++ attempts_left r.
Proof. unfold attempts_left. by rewrite map_app, concat_app. Qed.

Lemma times_app n l k : times n (l ++ k) = times n l ++ times n k.
Proof. unfold times. by rewrite map_app, concat_app. Qed.

(** The events, when one worker moves on. *)
Lemma step_events events s s' :
  map fst (handled s) ++ held (pcs s) ++ queue s ≡ₚ events -> step s s' ->
  map fst (handled s') ++ held (pcs s') ++ queue s' ≡ₚ events.
Proof.
  intros Hp Hs. destruct Hs as [i ev q ps w t h a d Hi|i ev q ps w t h a d e Hi|i ev q ps w t h a d data Hi
    |i ev q ps w t h a d data Hi|i q ps w t h a d Hi| | |]; cbn [handled pcs queue] in *; try done; rewrite <- Hp; clear Hp.
  - at_worker Hi (Holding ev). rewrite E, E0. solve_Permutation.
  - at_worker Hi Selecting. rewrite E, E0, map_app. cbn. solve_Permutation.
  - at_worker Hi Selecting. rewrite E, E0, map_app. cbn. solve_Permutation.
  - at_worker Hi Selecting. rewrite E, E0, map_app. cbn. solve_Permutation.
  - at_worker Hi Returned. by rewrite E, E0.
Qed.

(** The messages, when a writer accepts one or works on one. *)
Lemma step_messages s s' :
  let messages s := Output.worker (accepted (handled s)) in
  acked s ++ map fst (pending s) ++ dropped s ≡ₚ messages s -> step s s' ->
  acked s' ++ map fst (pending s') ++ dropped s' ≡ₚ messages s'.
Proof.
  intros messages Hp Hs. unfold messages in *. destruct Hs as [|? ? ? ? ? ? ? ? ? ? _ _|? ? ? ? ? ? ? ? ? data _ Hm|? ? ? ? ? ? ? ? ? ? _ _| | | |];
    cbn [handled acked pending dropped] in *; rewrite ?accepted_app, ?worker_app; cbn; rewrite ?app_nil_r; try done.
  - rewrite Hm. cbn. rewrite <- Hp, map_app. cbn. solve_Permutation.
  - rewrite <- Hp, !map_app. cbn. solve_Permutation.
  - by rewrite <- Hp, !map_app.
  - rewrite <- Hp, !map_app. cbn. solve_Permutation.
Qed.

Lemma submseteq_more (l k x : list Output.Message) : k ≡ₚ l ++ x -> l ⊆+ k.
Proof. intros ->. apply submseteq_inserts_r. done. Qed.

Lemma step_topic s s' :
  let messages s := Output.worker (accepted (handled s)) in
  acked s ⊆+ topic s /\ topic s ++ attempts_left (pending s) ⊆+ times 3 (messages s) -> step s s' ->
  acked s' ⊆+ topic s' /\ topic s' ++ attempts_left (pending s') ⊆+ times 3 (messages s').
Proof.
  intros messages [Ha Ht] Hs. unfold messages in *.
  destruct Hs as [|? ? ? ? ? ? ? ? ? ? _ _|? ? ? ? ? ? ? ? ? data _ Hm|? ? ? ? ? ? ? ? ? ? _ _| |q ps l m k r t h a d|got q ps l m k r t h a d|q ps l m k r t h a d];
    cbn [handled acked topic pending] in *; rewrite ?accepted_app, ?worker_app; cbn; rewrite ?app_nil_r; try done.
  - rewrite Hm. split; [done|]. rewrite attempts_left_app, times_app, app_assoc. by apply submseteq_app.
  - split; [by apply submseteq_app|]. etrans; [|exact Ht]. rewrite attempts_left_at, attempts_left_app.
    apply (submseteq_more _ _ (replicate k m)). cbn. solve_Permutation.
  - split; [etrans; [exact Ha|]; by apply submseteq_inserts_r|]. etrans; [|exact Ht]. rewrite !attempts_left_at.
    apply (submseteq_more _ _ (if got then [] else [m])). destruct got; cbn; solve_Permutation.
  - split; [done|]. etrans; [|exact Ht]. rewrite attempts_left_at, attempts_left_app.
    apply (submseteq_more _ _ (replicate k m)). solve_Permutation.
Qed.

Lemma step_accounted events s s' : accounted events s -> step s s' -> accounted events s'.
Proof.
  intros (He & Hm & Ht) Hs. split; [by eapply step_events|]. split; [by eapply step_messages|]. by eapply step_topic.
Qed.

Lemma step_in_order events s s' : in_order events s -> step s s' -> in_order events s'.
Proof.
  intros [Hp Hl] Hs. destruct Hs as [i ev q ps w t h a d Hi|i ev q ps w t h a d e Hi|i ev q ps w t h a d data Hi
    |i ev q ps w t h a d data Hi|i q ps w t h a d Hi| | |]; try done;
    cbn [handled pcs queue] in *; unfold in_order; cbn [handled pcs queue];
    (split; [|by rewrite length_insert]); rewrite <- Hp; clear Hp;
    destruct ps as [|p [|]]; try done; destruct i as [|i]; try done; injection Hi as ->; cbn;
    rewrite ?map_app, <- ?app_assoc; done.
Qed.

Lemma held_replicate n : held (replicate n Selecting) = [].
Proof. by induction n. Qed.

(** C27: Whatever the interleaving of the producer's workers and their
    asynchronous writers: each event is waiting, held by a worker, or handled
    once; the message of each event that a writer accepted is acknowledged,
    still pending, or given up without notice, one of the three and once; the
    acknowledged ones are in the topic; and the topic has no other messages
    than accepted ones, each at most three times per event, for the writers
    repeat a failed attempt up to three in all. A single worker also handles the
    events in the order of the input. *)
Theorem kafka_workers_account n events s :
  reachable n events s ->
  accounted events s /\ (n = 1%nat -> map fst (handled s) ++ held (pcs s) ++ queue s = events).
Proof.
  intros Hr. split.
  - revert Hr. apply rtc_invariant; [|intros s1 s2; apply step_accounted].
    split; [cbn; by rewrite held_replicate|]. split; [done|]. split; done.
  - intros ->. enough (in_order events s) as [? _] by done.
    revert Hr. apply rtc_invariant; [done|intros s1 s2; apply step_in_order].
Qed.

(** ** Runs in which every write is accepted and delivered *)

(** A worker that holds an event is done with it, and its message is in the
    topic. *)
Lemma writes i ev q ps t h a d :
  ps !! i = Some (Holding ev) ->
  exists h' a', rtc step (St q ps [] t h a d) (St q (<[i := Selecting]> ps) [] (t ++ Output.worker [ev]) h' a' d).
Proof.
  intros Hi. cbn [Output.worker]. destruct (Marshal ev) as [data|e] eqn:Hm.
  - do 2 eexists. eapply rtc_l; [by eapply (accepts i ev)|]. apply rtc_once.
    apply (delivers _ _ [] _ (pred (attempts cfg)) []).
  - do 2 eexists. rewrite app_nil_r. apply rtc_once. by eapply skips.
Qed.

(** The first worker handles the next events one after the other. *)
Lemma sequentially l q ps t h a d :
  ps !! 0%nat = Some Selecting ->
  exists h' a', rtc step (St (l ++ q) ps [] t h a d) (St q ps [] (t ++ Output.worker l) h' a' d).
Proof.
  intros Hi. revert t h a. induction l as [|ev l IH]; intros t h a.
  { do 2 eexists. cbn. by rewrite app_nil_r. }
  assert (Hlen : (0 < length ps)%nat) by by eapply lookup_lt_Some.
  destruct (writes 0 ev (l ++ q) (<[0%nat := Holding ev]> ps) t h a d) as (h1 & a1 & Hw); [by apply list_lookup_insert_eq|].
  rewrite list_insert_insert_eq, (list_insert_id ps 0 Selecting Hi) in Hw.
  destruct (IH (t ++ Output.worker [ev]) h1 a1) as (h2 & a2 & Hrest). exists h2, a2.
  cbn [app]. eapply rtc_l; [by apply (receive 0)|]. etrans; [exact Hw|].
  replace (t ++ Output.worker (ev :: l)) with ((t ++ Output.worker [ev]) ++ Output.worker l); [exact Hrest|].
  by rewrite <- app_assoc, <- worker_app.
Qed.

(** Two workers swap two events that are next to each other in the input. *)
Lemma swapped n pre x y post :
  (2 <= n)%nat ->
  exists s, reachable n (pre ++ x :: y :: post) s /\ topic s = Output.worker (pre ++ y :: x :: post) /\
    queue s = [] /\ held (pcs s) = [] /\ pending s = [].
Proof.
  intros Hn. destruct n as [|[|n]]; [lia|lia|]. set (ps := replicate (S (S n)) Selecting).
  destruct (sequentially pre (x :: y :: post) ps [] [] [] []) as (h1 & a1 & H1); [done|].
  set (ps2 := Holding x :: Holding y :: replicate n Selecting).
  destruct (writes 1 y post ps2 (Output.worker pre) h1 a1 []) as (h2 & a2 & H2); [done|].
  destruct (writes 0 x post (Holding x :: Selecting :: replicate n Selecting) (Output.worker pre ++ Output.worker [y]) h2 a2 [])
    as (h3 & a3 & H3); [done|].
  destruct (sequentially post [] ps ((Output.worker pre ++ Output.worker [y]) ++ Output.worker [x]) h3 a3 []) as (h4 & a4 & H4); [done|].
  rewrite app_nil_r in H4. eexists. split.
  - unfold reachable, init. etrans; [exact H1|]. eapply rtc_l; [by apply (receive 0)|].
    eapply rtc_l; [by apply (receive 1)|]. etrans; [exact H2|]. etrans; [exact H3|exact H4].
  - split_and!; try done; [|apply held_replicate]. cbn [topic]. rewrite <- !worker_app, <- !app_assoc. done.
Qed.

(** Two workers do not keep the order of a flow: whatever two events of one
    key are next to each other in the input, there is a run that writes the
    second of them before the first. *)
Theorem kafka_workers_reorder n pre x y post mx my :
  (2 <= n)%nat -> Output.flowKey x = Output.flowKey y ->
  Output.worker [x] = [mx] -> Output.worker [y] = [my] ->
  exists s, reachable n (pre ++ x :: y :: post) s /\
    topic s = Output.worker pre ++ my :: mx :: Output.worker post /\ Output.Key my = Output.Key mx.
Proof.
  intros Hn Hk Hx Hy. destruct (swapped n pre x y post Hn) as (s & Hr & Ht & _).
  exists s. split; [done|]. split.
  - rewrite Ht. change (y :: x :: post) with ([y] ++ [x] ++ post). by rewrite !worker_app, Hx, Hy.
  - cbn in Hx, Hy. destruct (Marshal x), (Marshal y); try done. injection Hx as <-. by injection Hy as <-.
Qed.
End Workers.

(** ** Two events of one flow *)

Definition sample (time : Z) : ProtocolEvent :=
  {| TimestampNs := time; UID := []; SrcIP := [x0a; x00; x00; x01]; DstIP := [x0a; x00; x00; x02];
     SrcPort := 40000; DstPort := 3306; Protocol := str "mysql"; Dir := DirectionRequest;
     Metadata := None; RawExcerpt := []; HTTP := None; DNS := None; TLS := None; DB := None |}.

#[local] Existing Instance name_serializer.

Definition sample_config : Output.KafkaConfig :=
  {| Output.Brokers := []; Output.Topic := str "t"; Output.BatchSize := 1; Output.BatchTimeout := 1; Output.Compression := [];
     Output.RequiredAcks := 1; Output.NumWorkers := 2; Output.MaxMessageBytes := 0 |}.

Definition sample_written (time : Z) : Output.Message :=
  {| Output.Key := Output.flowKey (sample time); Output.Value := str "mysql" |}.

Lemma kafka_workers_reorder_witness :
  exists s, reachable sample_config 2 [sample 1; sample 2; sample 3] s /\
    topic s = [sample_written 2; sample_written 1; sample_written 3] /\
    Output.Key (sample_written 2) = Output.Key (sample_written 1).
Proof.
  exact (kafka_workers_reorder sample_config 2 [] (sample 1) (sample 2) [sample 3] (sample_written 1) (sample_written 2)
    (le_n 2) eq_refl eq_refl eq_refl).
Defined.

(** The second event's message is in the topic twice, for its first attempt
    failed after all; the first event is still held. *)
Lemma kafka_workers_account_witness :
  let s := St [] [Holding (sample 1); Selecting] [] [sample_written 2; sample_written 2] [(sample 2, true)] [sample_written 2] [] in
  accounted [sample 1; sample 2] s /\
  (2%nat = 1%nat -> map fst (handled s) ++ held (pcs s) ++ queue s = [sample 1; sample 2]).
Proof.
  intros s. apply (kafka_workers_account sample_config 2). unfold reachable, init. cbn [replicate].
  eapply rtc_l; [by apply (receive _ 0)|]. eapply rtc_l; [by apply (receive _ 1)|]. cbn.
  eapply rtc_l; [by apply (accepts _ 1 (sample 2))|]. eapply rtc_l; [by apply (attempt_fails _ true _ _ [] _ 2 [])|].
  apply rtc_once. exact (delivers _ [] [Holding (sample 1); Selecting] [] (sample_written 2) 1 [] [sample_written 2] [(sample 2, true)] [] []).
Defined.
End Workers.
