(* ===== verification/EventJson.v ===== *)
(** * The JSON serializer ([internal/output/serializer.go])

    The JSON form of the events of [proto/event.go], field by field with the
    names, the order and the [omitempty] of their tags; the serializer that
    writes it, as an instance of the producer's interface; and the reader of
    that form, with which a consumer gets the events back. *)

From S2P Require Import Prelude.
From S2P Require Import GoStrings.
From S2P Require Import Event.
From S2P Require Import Output.
From S2P Require Import Json.
From Stdlib Require Import Lia.
From stdpp Require Import sorting.

Local Open Scope Z_scope.

Module EventJson.
Import Json.

(** ** Codecs *)

#[local] Unset Program Cases.

(** A type with its JSON form and a reader of that form; what the reader gets of
    any value, and the values that survive the trip. *)
Record codec (A : Type) := Codec {
  to_json : A -> json;
  from_json : json -> option A;
  clean : A -> A;
  valid : A -> Prop;
  codec_law a : from_json (sanitized (to_json a)) = Some (clean a);
  clean_valid a : valid a -> clean a = a;
}.
Arguments to_json {A} _ _.
Arguments from_json {A} _ _.
Arguments clean {A} _ _.
Arguments valid {A} _ _.
Arguments codec_law {A} _ _.
Arguments clean_valid {A} _ _ _.

Program Definition num : codec Z :=
  {| to_json := JNum; from_json j := match j with JNum z => Some z | _ => None end; clean := id; valid _ := True |}.
Solve Obligations with done.

Program Definition flag : codec bool :=
  {| to_json := JBool; from_json j := match j with JBool b => Some b | _ => None end; clean := id; valid _ := True |}.
Solve Obligations with done.

(** Bytes that are not valid UTF-8 are replaced. *)
Program Definition text : codec bytes :=
  {| to_json := JStr; from_json j := match j with JStr s => Some s | _ => None end;
     clean := sanitize; valid s := utf8 s = true |}.
Next Obligation. done. Qed.
Next Obligation. apply sanitize_utf8. Qed.

(** A [[]byte] is written in base64. A nil slice is [null]; the model does not
    tell nil from an empty slice. *)
Program Definition blob : codec bytes :=
  {| to_json s := if bool_decide (s = []) then JNull else JStr (base64 s);
     from_json j := match j with JNull => Some [] | JStr s => unbase64 s | _ => None end;
     clean := id; valid _ := True |}.
Next Obligation.
  intros s. cbv beta. case_bool_decide as E; [by rewrite E|]. cbn.
  destruct (unbase64_base64 s) as [Hu Ha]. by rewrite sanitize_utf8 by (by apply utf8_ascii).
Qed.
Next Obligation. done. Qed.

Program Definition direction : codec Direction :=
  {| to_json d := JNum (match d with
       DirectionUnknown => 0 | DirectionRequest => 1 | DirectionResponse => 2 end);
     from_json j := match j with
       | JNum 0 => Some DirectionUnknown | JNum 1 => Some DirectionRequest
       | JNum 2 => Some DirectionResponse | _ => None end;
     clean := id; valid _ := True |}.
Next Obligation. by intros []. Qed.
Next Obligation. done. Qed.

Lemma map_id_Forall {A} (f : A -> A) (P : A -> Prop) l :
  (forall x, P x -> f x = x) -> Forall P l -> map f l = l.
Proof. intros Hf. induction 1 as [|x l Hx Hl IH]; [done|]. cbn. by rewrite Hf, IH. Qed.

Program Definition array {A} (c : codec A) : codec (list A) :=
  {| to_json l := JArr (map (to_json c) l);
     from_json j := match j with JArr l => mapM (from_json c) l | _ => None end;
     clean := map (clean c); valid := Forall (valid c) |}.
Next Obligation.
  intros A c l. cbn. rewrite map_map. induction l as [|x l IH]; [done|]. cbn. by rewrite codec_law, IH.
Qed.
Next Obligation. intros A c l. apply map_id_Forall, clean_valid. Qed.

(** *** Maps *)

(** The order of byte strings ([strings.Compare]) *)
Fixpoint byte_leb (s t : bytes) : bool :=
  match s, t with
  | [], _ => true
  | _, [] => false
  | a :: s', b :: t' => (u8 a <? u8 b) || ((u8 a =? u8 b) && byte_leb s' t')
  end.

Definition entry_le (x y : bytes * bytes) : Prop := byte_leb (fst x) (fst y) = true.
#[global] Instance entry_le_dec : RelDecision entry_le.
Proof. intros x y. unfold entry_le. apply _. Defined.

(** The entries of a map in the order they are written in. *)
Definition entries (m : string_map) : list (bytes * bytes) := merge_sort entry_le (map_to_list m).

Lemma entries_perm m : entries m ≡ₚ map_to_list m.
Proof. apply merge_sort_Permutation. Qed.

Definition read_entry (kv : bytes * json) : option (bytes * bytes) :=
  match snd kv with JStr s => Some (fst kv, s) | _ => None end.

(** The entries as they are read; of several with the same key the last
    counts. *)
Definition clean_entry (kv : bytes * bytes) : bytes * bytes := (sanitize (fst kv), sanitize (snd kv)).
Definition of_entries (l : list (bytes * bytes)) : string_map := list_to_map (reverse l).

Lemma of_entries_entries m : of_entries (entries m) = m.
Proof.
  unfold of_entries. assert (Hp : reverse (entries m) ≡ₚ map_to_list m) by (by rewrite reverse_Permutation, entries_perm).
  rewrite (list_to_map_proper _ (map_to_list m)); [by rewrite list_to_map_to_list| |done].
  rewrite Hp. apply NoDup_fst_map_to_list.
Qed.

Program Definition strings : codec string_map :=
  {| to_json m := JObj (map (fun '(k, v) => (k, JStr v)) (entries m));
     from_json j := match j with JObj o => of_entries <$> mapM read_entry o | _ => None end;
     clean m := of_entries (map clean_entry (entries m));
     valid m := map_Forall (fun k v => utf8 k = true /\ utf8 v = true) m |}.
Next Obligation.
  intros m. cbn. rewrite map_map.
  assert (E : forall l : list (bytes * bytes),
    mapM read_entry (map (fun '(k, v) => (sanitize k, JStr (sanitize v))) l) = Some (map clean_entry l)).
  { induction l as [|[k v] l IH]; [done|]. cbn. by rewrite IH. }
  rewrite (map_ext _ (fun '(k, v) => (sanitize k, JStr (sanitize v)))) by by intros []. by rewrite E.
Qed.
Next Obligation.
  intros m Hm. cbn. rewrite (map_id_Forall clean_entry (fun kv => utf8 (fst kv) = true /\ utf8 (snd kv) = true)).
  - apply of_entries_entries.
  - intros [k v] [Hk Hv]. unfold clean_entry. cbn [fst snd] in *. by rewrite !sanitize_utf8.
  - rewrite entries_perm. apply map_Forall_to_list in Hm. eapply Forall_impl; [exact Hm|]. by intros [].
Qed.

(** A map that may be nil; [omitempty] writes neither a nil map nor an empty
    one, and both are read as nil. *)
Definition or_nil (m : string_map) : option string_map := if bool_decide (m = ∅) then None else Some m.

Program Definition nil_strings : codec (option string_map) :=
  {| to_json o := match o with None => JNull | Some m => to_json strings m end;
     from_json j := match j with JNull => Some None | j => or_nil <$> from_json strings j end;
     clean o := o ≫= (fun m => or_nil (clean strings m));
     valid o := match o with None => True | Some m => valid strings m /\ m <> ∅ end |}.
Next Obligation.
  intros [m|]; [|done]. pose proof (codec_law strings m) as E. cbn in E |- *. by rewrite E.
Qed.
Next Obligation.
  intros [m|] Hm; [|done]. destruct Hm as [Hm Hne]. cbn [mbind option_bind]. rewrite (clean_valid strings) by done.
  unfold or_nil. by rewrite bool_decide_false.
Qed.

(** *** Structs *)

(** The members of a struct: a field with its JSON value, or none when
    [omitempty] leaves it out. *)
Abbreviation members := (list (bytes * option json)).

Definition present (fs : members) : list (bytes * json) :=
  omap (fun '(k, v) => pair k <$> v) fs.

Definition omitempty {A} (name : string) (c : codec A) (empty : bool) (a : A) : bytes * option json :=
  (str name, if empty then None else Some (to_json c a)).
Definition field {A} (name : string) (c : codec A) (a : A) : bytes * option json :=
  omitempty name c false a.

(** The first member of that name *)
Fixpoint assoc (o : list (bytes * json)) (k : bytes) : option json :=
  match o with
  | [] => None
  | (k', v) :: o' => if bool_decide (k' = k) then Some v else assoc o' k
  end.

(** Reading a field: the zero value when the member is missing. *)
Definition get {A} (c : codec A) (zero : A) (o : list (bytes * json)) (name : string) : option A :=
  match assoc o (str name) with None => Some zero | Some j => from_json c j end.

(** What the reader makes of the members. *)
Definition received (fs : members) : list (bytes * json) :=
  map (fun '(k, v) => (sanitize k, sanitized v)) (present fs).

(** The names of the fields are distinct and valid UTF-8. *)
Definition names_ok (fs : members) : bool :=
  bool_decide (NoDup (map fst fs)) && forallb utf8 (map fst fs).

Lemma assoc_received fs k v :
  names_ok fs = true -> (k, v) ∈ fs -> assoc (received fs) k = sanitized <$> v.
Proof.
  unfold names_ok. rewrite andb_true_iff, bool_decide_eq_true. intros [Hnd Hu]. revert Hnd Hu.
  unfold received, present.
  induction fs as [|[k' v'] fs IH]; intros Hnd Hu Hin; [by apply not_elem_of_nil in Hin|].
  cbn in Hnd, Hu. apply NoDup_cons in Hnd as [Hk Hnd]. apply andb_true_iff in Hu as [Hk' Hu].
  apply elem_of_cons in Hin as [[= -> ->]|Hin].
  - cbn. destruct v' as [j|]; cbn.
    + by rewrite sanitize_utf8, bool_decide_true.
    + destruct (assoc _ k') as [j|] eqn:E; [|done]. exfalso. apply Hk. clear -E Hu.
      induction fs as [|[k v] fs IH]; [done|]. cbn in *. apply andb_true_iff in Hu as [Hk Hu].
      destruct v as [j'|]; cbn in E; [|right; by apply IH].
      rewrite sanitize_utf8 in E by done. case_bool_decide as Ek; [subst; by left|right; by apply IH].
  - cbn. destruct v' as [j|]; cbn; [|by apply IH]. rewrite sanitize_utf8 by done.
    rewrite bool_decide_false; [by apply IH|]. intros ->. apply Hk.
    apply (list_elem_of_fmap_2 fst _ _ Hin).
Qed.

(** One field of a reader of structs. *)
Lemma get_step {A B} (c : codec A) zero fs name e a (f : A -> option B) r :
  names_ok fs = true -> omitempty name c e a ∈ fs -> (e = true -> clean c a = zero) ->
  f (clean c a) = r -> (get c zero (received fs) name ≫= f) = r.
Proof.
  intros Hn Hin He <-. unfold get. rewrite (assoc_received _ _ _ Hn Hin).
  destruct e; cbn; [by rewrite He|by rewrite codec_law].
Qed.

(** A type of structs *)
Record struct (A : Type) := Struct {
  to_members : A -> members;
  of_members : list (bytes * json) -> option A;
  cleaned : A -> A;
  well_formed : A -> Prop;
  struct_law a : of_members (received (to_members a)) = Some (cleaned a);
  cleaned_wf a : well_formed a -> cleaned a = a;
}.
Arguments to_members {A} _ _.
Arguments of_members {A} _ _.
Arguments cleaned {A} _ _.
Arguments well_formed {A} _ _.
Arguments struct_law {A} _ _.
Arguments cleaned_wf {A} _ _ _.

Program Definition object {A} (s : struct A) : codec A :=
  {| to_json a := JObj (present (to_members s a));
     from_json j := match j with JObj o => of_members s o | _ => None end;
     clean := cleaned s; valid := well_formed s |}.
Next Obligation. intros A s a. apply struct_law. Qed.
Next Obligation. intros A s a. apply cleaned_wf. Qed.

(** A pointer to a struct *)
Program Definition pointer {A} (s : struct A) : codec (option A) :=
  {| to_json o := match o with None => JNull | Some a => to_json (object s) a end;
     from_json j := match j with JNull => Some None | j => Some <$> from_json (object s) j end;
     clean := fmap (cleaned s);
     valid o := match o with None => True | Some a => well_formed s a end |}.
Next Obligation.
  intros A s [a|]; [|done]. change (Some <$> of_members s (received (to_members s a)) = Some (Some (cleaned s a))).
  by rewrite struct_law.
Qed.
Next Obligation. intros A s [a|] Ha; [|done]. cbn. by rewrite cleaned_wf. Qed.

Ltac listed := first [apply list_elem_of_here | apply list_elem_of_further; listed].

(** When a field is left out, it is read as zero. *)
Definition is_nil {A} (l : list A) : bool := match l with [] => true | _ => false end.
Definition is_none {A} (o : option A) : bool := match o with None => true | Some _ => false end.
(** a map that is nil or has no entry *)
Definition no_entries (o : option string_map) : bool :=
  match o with None => true | Some m => bool_decide (m = ∅) end.

Lemma omitted_text s : is_nil s = true -> clean text s = [].
Proof. by destruct s. Qed.

Lemma omitted_blob s : is_nil s = true -> clean blob s = [].
Proof. by destruct s. Qed.

Lemma omitted_array {A} (c : codec A) l : is_nil l = true -> clean (array c) l = [].
Proof. by destruct l. Qed.

Lemma omitted_num z : (z =? 0) = true -> clean num z = 0.
Proof. apply Z.eqb_eq. Qed.

Lemma omitted_flag b : negb b = true -> clean flag b = false.
Proof. apply negb_true_iff. Qed.

Lemma omitted_pointer {A} (s : struct A) o : is_none o = true -> clean (pointer s) o = None.
Proof. by destruct o. Qed.

Lemma omitted_strings m : bool_decide (m = ∅) = true -> clean strings m = ∅.
Proof. by intros ->%bool_decide_eq_true. Qed.

Lemma omitted_nil_strings o : no_entries o = true -> clean nil_strings o = None.
Proof. destruct o as [m|]; [|done]. by intros ->%bool_decide_eq_true. Qed.

Create HintDb netcap_json.
#[local] Hint Resolve omitted_text omitted_blob omitted_array omitted_num omitted_flag omitted_pointer
  omitted_strings omitted_nil_strings : netcap_json.

(** The fields of a struct, one by one. *)
Ltac fields :=
  cbv beta;
  repeat (eapply get_step; [vm_compute; reflexivity | listed | by (discriminate || auto with netcap_json) |]);
  reflexivity.

(** The fields of a well-formed struct survive. *)
Ltac survive c := lazymatch type of c with codec _ => by apply (clean_valid c) end.
Ltac survives :=
  intros [] ?; destruct_and?; cbv beta; f_equal;
  first [ done | survive text | survive (array text) | survive strings | survive nil_strings | idtac ].

(** ** The structs of [proto/event.go] *)

Program Definition DNSQuestion_json : struct DNSQuestion := {|
  to_members q := [field "name" text (q_Name q); field "type" text (q_Type q); field "class" text (q_Class q)];
  of_members o :=
    name ← get text [] o "name"; typ ← get text [] o "type"; class ← get text [] o "class";
    Some {| q_Name := name; q_Type := typ; q_Class := class |};
  cleaned q := {| q_Name := clean text (q_Name q); q_Type := clean text (q_Type q);
                  q_Class := clean text (q_Class q) |};
  well_formed q := utf8 (q_Name q) = true /\ utf8 (q_Type q) = true /\ utf8 (q_Class q) = true |}.
Next Obligation. intros [n t c]. fields. Qed.
Next Obligation. survives. Qed.

Program Definition DNSAnswer_json : struct DNSAnswer := {|
  to_members a := [field "name" text (a_Name a); field "type" text (a_Type a);
    field "class" text (a_Class a); field "ttl" num (a_TTL a); field "data" text (a_Data a)];
  of_members o :=
    name ← get text [] o "name"; typ ← get text [] o "type"; class ← get text [] o "class";
    ttl ← get num 0 o "ttl"; data ← get text [] o "data";
    Some {| a_Name := name; a_Type := typ; a_Class := class; a_TTL := ttl; a_Data := data |};
  cleaned a := {| a_Name := clean text (a_Name a); a_Type := clean text (a_Type a);
                  a_Class := clean text (a_Class a); a_TTL := a_TTL a; a_Data := clean text (a_Data a) |};
  well_formed a := utf8 (a_Name a) = true /\ utf8 (a_Type a) = true /\ utf8 (a_Class a) = true
    /\ utf8 (a_Data a) = true |}.
Next Obligation. intros [n t c ttl d]. fields. Qed.
Next Obligation. survives. Qed.

Program Definition DNSDetail_json : struct DNSDetail := {|
  to_members d := [
    omitempty "transaction_id" num (dns_TransactionID d =? 0) (dns_TransactionID d);
    omitempty "op_code" num (dns_OpCode d =? 0) (dns_OpCode d);
    omitempty "response_code" num (dns_ResponseCode d =? 0) (dns_ResponseCode d);
    omitempty "questions" (array (object DNSQuestion_json)) (is_nil (dns_Questions d)) (dns_Questions d);
    omitempty "answers" (array (object DNSAnswer_json)) (is_nil (dns_Answers d)) (dns_Answers d)];
  of_members o :=
    tid ← get num 0 o "transaction_id"; op ← get num 0 o "op_code"; rc ← get num 0 o "response_code";
    qs ← get (array (object DNSQuestion_json)) [] o "questions";
    ans ← get (array (object DNSAnswer_json)) [] o "answers";
    Some {| dns_TransactionID := tid; dns_OpCode := op; dns_ResponseCode := rc;
            dns_Questions := qs; dns_Answers := ans |};
  cleaned d := {| dns_TransactionID := dns_TransactionID d; dns_OpCode := dns_OpCode d;
                  dns_ResponseCode := dns_ResponseCode d;
                  dns_Questions := clean (array (object DNSQuestion_json)) (dns_Questions d);
                  dns_Answers := clean (array (object DNSAnswer_json)) (dns_Answers d) |};
  well_formed d := Forall (well_formed DNSQuestion_json) (dns_Questions d)
    /\ Forall (well_formed DNSAnswer_json) (dns_Answers d) |}.
Next Obligation. intros [tid op rc qs ans]. fields. Qed.
Next Obligation.
  survives; [survive (array (object DNSQuestion_json))|survive (array (object DNSAnswer_json))].
Qed.

Program Definition HTTPDetail_json : struct HTTPDetail := {|
  to_members d := [
    omitempty "method" text (is_nil (http_Method d)) (http_Method d);
    omitempty "url" text (is_nil (http_URL d)) (http_URL d);
    omitempty "host" text (is_nil (http_Host d)) (http_Host d);
    omitempty "status_code" num (http_StatusCode d =? 0) (http_StatusCode d);
    omitempty "headers" strings (bool_decide (http_Headers d = ∅)) (http_Headers d);
    omitempty "content_type" text (is_nil (http_ContentType d)) (http_ContentType d);
    omitempty "body_length" num (http_BodyLength d =? 0) (http_BodyLength d);
    omitempty "body" blob (is_nil (http_Body d)) (http_Body d);
    omitempty "body_truncated" flag (negb (http_BodyTruncated d)) (http_BodyTruncated d)];
  of_members o :=
    method ← get text [] o "method"; url ← get text [] o "url"; host ← get text [] o "host";
    status ← get num 0 o "status_code"; headers ← get strings ∅ o "headers";
    ctype ← get text [] o "content_type"; blen ← get num 0 o "body_length";
    body ← get blob [] o "body"; trunc ← get flag false o "body_truncated";
    Some {| http_Method := method; http_URL := url; http_Host := host; http_StatusCode := status;
            http_Headers := headers; http_ContentType := ctype; http_BodyLength := blen;
            http_Body := body; http_BodyTruncated := trunc |};
  cleaned d := {| http_Method := clean text (http_Method d); http_URL := clean text (http_URL d);
                  http_Host := clean text (http_Host d); http_StatusCode := http_StatusCode d;
                  http_Headers := clean strings (http_Headers d);
                  http_ContentType := clean text (http_ContentType d); http_BodyLength := http_BodyLength d;
                  http_Body := http_Body d; http_BodyTruncated := http_BodyTruncated d |};
  well_formed d := utf8 (http_Method d) = true /\ utf8 (http_URL d) = true /\ utf8 (http_Host d) = true
    /\ valid strings (http_Headers d) /\ utf8 (http_ContentType d) = true |}.
Next Obligation. intros [m u h st hd ct bl bd tr]. fields. Qed.
Next Obligation. survives. Qed.

Program Definition TLSDetail_json : struct TLSDetail := {|
  to_members d := [
    omitempty "version" text (is_nil (tls_Version d)) (tls_Version d);
    omitempty "cipher_suite" text (is_nil (tls_CipherSuite d)) (tls_CipherSuite d);
    omitempty "server_name" text (is_nil (tls_ServerName d)) (tls_ServerName d);
    omitempty "handshake_type" num (tls_HandshakeType d =? 0) (tls_HandshakeType d);
    omitempty "certificate_chain" (array text) (is_nil (tls_CertificateChain d)) (tls_CertificateChain d);
    omitempty "alpn_protocols" (array text) (is_nil (tls_ALPNProtocols d)) (tls_ALPNProtocols d)];
  of_members o :=
    version ← get text [] o "version"; suite ← get text [] o "cipher_suite";
    name ← get text [] o "server_name"; typ ← get num 0 o "handshake_type";
    chain ← get (array text) [] o "certificate_chain"; alpn ← get (array text) [] o "alpn_protocols";
    Some {| tls_Version := version; tls_CipherSuite := suite; tls_ServerName := name;
            tls_HandshakeType := typ; tls_CertificateChain := chain; tls_ALPNProtocols := alpn |};
  cleaned d := {| tls_Version := clean text (tls_Version d); tls_CipherSuite := clean text (tls_CipherSuite d);
                  tls_ServerName := clean text (tls_ServerName d); tls_HandshakeType := tls_HandshakeType d;
                  tls_CertificateChain := clean (array text) (tls_CertificateChain d);
                  tls_ALPNProtocols := clean (array text) (tls_ALPNProtocols d) |};
  well_formed d := utf8 (tls_Version d) = true /\ utf8 (tls_CipherSuite d) = true
    /\ utf8 (tls_ServerName d) = true /\ valid (array text) (tls_CertificateChain d)
    /\ valid (array text) (tls_ALPNProtocols d) |}.
Next Obligation. intros [v cs sn ht cc al]. fields. Qed.
Next Obligation. survives. Qed.

Program Definition DBDetail_json : struct DBDetail := {|
  to_members d := [
    omitempty "system" text (is_nil (db_System d)) (db_System d);
    omitempty "operation" text (is_nil (db_Operation d)) (db_Operation d);
    omitempty "statement" text (is_nil (db_Statement d)) (db_Statement d);
    omitempty "database" text (is_nil (db_Database d)) (db_Database d);
    omitempty "table" text (is_nil (db_Table d)) (db_Table d);
    omitempty "error_code" num (db_ErrorCode d =? 0) (db_ErrorCode d);
    omitempty "error_msg" text (is_nil (db_ErrorMsg d)) (db_ErrorMsg d);
    omitempty "latency" num (db_Latency d =? 0) (db_Latency d);
    omitempty "row_count" num (db_RowCount d =? 0) (db_RowCount d)];
  of_members o :=
    system ← get text [] o "system"; op ← get text [] o "operation"; stmt ← get text [] o "statement";
    database ← get text [] o "database"; table ← get text [] o "table";
    code ← get num 0 o "error_code"; msg ← get text [] o "error_msg";
    latency ← get num 0 o "latency"; rows ← get num 0 o "row_count";
    Some {| db_System := system; db_Operation := op; db_Statement := stmt; db_Database := database;
            db_Table := table; db_ErrorCode := code; db_ErrorMsg := msg; db_Latency := latency;
            db_RowCount := rows |};
  cleaned d := {| db_System := clean text (db_System d); db_Operation := clean text (db_Operation d);
                  db_Statement := clean text (db_Statement d); db_Database := clean text (db_Database d);
                  db_Table := clean text (db_Table d); db_ErrorCode := db_ErrorCode d;
                  db_ErrorMsg := clean text (db_ErrorMsg d); db_Latency := db_Latency d;
                  db_RowCount := db_RowCount d |};
  well_formed d := utf8 (db_System d) = true /\ utf8 (db_Operation d) = true
    /\ utf8 (db_Statement d) = true /\ utf8 (db_Database d) = true /\ utf8 (db_Table d) = true
    /\ utf8 (db_ErrorMsg d) = true |}.
Next Obligation. intros [sy op st db tb ec em la rc]. fields. Qed.
Next Obligation. survives. Qed.

(** Events whose strings are valid UTF-8, and whose metadata is nil when it has
    no entry. *)
Definition wf_event (ev : ProtocolEvent) : Prop :=
  utf8 (UID ev) = true /\ utf8 (Protocol ev) = true
  /\ valid nil_strings (Metadata ev)
  /\ valid (pointer HTTPDetail_json) (HTTP ev) /\ valid (pointer DNSDetail_json) (DNS ev)
  /\ valid (pointer TLSDetail_json) (TLS ev) /\ valid (pointer DBDetail_json) (DB ev).

(** What a consumer gets of an event: its strings with every byte that is not
    part of valid UTF-8 replaced by U+FFFD. *)
Definition clean_event (ev : ProtocolEvent) : ProtocolEvent :=
  {| TimestampNs := TimestampNs ev; UID := clean text (UID ev); SrcIP := SrcIP ev; DstIP := DstIP ev;
     SrcPort := SrcPort ev; DstPort := DstPort ev; Protocol := clean text (Protocol ev); Dir := Dir ev;
     Metadata := clean nil_strings (Metadata ev); RawExcerpt := RawExcerpt ev;
     HTTP := clean (pointer HTTPDetail_json) (HTTP ev); DNS := clean (pointer DNSDetail_json) (DNS ev);
     TLS := clean (pointer TLSDetail_json) (TLS ev); DB := clean (pointer DBDetail_json) (DB ev) |}.

Definition event_members (ev : ProtocolEvent) : members := [
  field "timestamp_ns" num (TimestampNs ev);
  omitempty "uid" text (is_nil (UID ev)) (UID ev);
  field "src_ip" blob (SrcIP ev); field "dst_ip" blob (DstIP ev);
  field "src_port" num (SrcPort ev); field "dst_port" num (DstPort ev);
  field "protocol" text (Protocol ev); field "direction" direction (Dir ev);
  omitempty "metadata" nil_strings (no_entries (Metadata ev)) (Metadata ev);
  omitempty "raw_excerpt" blob (is_nil (RawExcerpt ev)) (RawExcerpt ev);
  omitempty "http_detail" (pointer HTTPDetail_json) (is_none (HTTP ev)) (HTTP ev);
  omitempty "dns_detail" (pointer DNSDetail_json) (is_none (DNS ev)) (DNS ev);
  omitempty "tls_detail" (pointer TLSDetail_json) (is_none (TLS ev)) (TLS ev);
  omitempty "db_detail" (pointer DBDetail_json) (is_none (DB ev)) (DB ev)].

Program Definition ProtocolEvent_json : struct ProtocolEvent := {|
  to_members := event_members;
  of_members o :=
    time ← get num 0 o "timestamp_ns"; uid ← get text [] o "uid";
    src ← get blob [] o "src_ip"; dst ← get blob [] o "dst_ip";
    sport ← get num 0 o "src_port"; dport ← get num 0 o "dst_port";
    protocol ← get text [] o "protocol"; dir ← get direction DirectionUnknown o "direction";
    meta ← get nil_strings None o "metadata"; raw ← get blob [] o "raw_excerpt";
    http ← get (pointer HTTPDetail_json) None o "http_detail";
    dns ← get (pointer DNSDetail_json) None o "dns_detail";
    tls ← get (pointer TLSDetail_json) None o "tls_detail";
    db ← get (pointer DBDetail_json) None o "db_detail";
    Some {| TimestampNs := time; UID := uid; SrcIP := src; DstIP := dst; SrcPort := sport;
            DstPort := dport; Protocol := protocol; Dir := dir; Metadata := meta; RawExcerpt := raw;
            HTTP := http; DNS := dns; TLS := tls; DB := db |};
  cleaned := clean_event; well_formed := wf_event |}.
Next Obligation.
  intros [t u s d sp dp pr di me ra ht dn tl db]. unfold event_members, clean_event. fields.
Qed.
Next Obligation.
  unfold wf_event, clean_event. survives; [survive (pointer HTTPDetail_json)|survive (pointer DNSDetail_json)
    |survive (pointer TLSDetail_json)|survive (pointer DBDetail_json)].
Qed.

(** ** The serializer *)

Definition JSONSerializer_Marshal (ev : ProtocolEvent) : result bytes :=
  OkR (print (to_json (object ProtocolEvent_json) ev)).

Definition ContentType : bytes := str "application/json".

#[export] Instance JSONSerializer : Serializer := {| Marshal := JSONSerializer_Marshal |}.

(** A consumer's reader of the messages *)
Definition Unmarshal (data : bytes) : option ProtocolEvent :=
  parse data ≫= from_json (object ProtocolEvent_json).

Lemma Unmarshal_Marshal ev : Unmarshal (print (to_json (object ProtocolEvent_json) ev)) = Some (clean_event ev).
Proof. unfold Unmarshal. rewrite parse_print. apply (codec_law (object ProtocolEvent_json)). Qed.

Lemma clean_event_wf ev : wf_event ev -> clean_event ev = ev.
Proof. apply (cleaned_wf ProtocolEvent_json). Qed.

(** The members of a map are written in ascending order of their keys. *)
#[local] Instance entry_le_total : Total entry_le.
Proof.
  intros [s ?] [t ?]. unfold entry_le. cbn [fst]. revert t.
  induction s as [|a s IH]; intros [|b t]; cbn [byte_leb]; auto.
  specialize (IH t). destruct (decide (u8 a = u8 b)) as [E|E].
  - rewrite E, Z.ltb_irrefl, Z.eqb_refl. exact IH.
  - rewrite !orb_true_iff, !andb_true_iff. lia.
Qed.

Lemma entries_sorted m : Sorted entry_le (entries m).
Proof. unfold entries. apply (Sorted_merge_sort entry_le). Qed.

(** A query as the MySQL parser makes it. *)
Definition sample_event : ProtocolEvent :=
  set_Metadata (set_DB
    {| TimestampNs := 1700000000000000000; UID := []; SrcIP := [x0a; x00; x00; x01];
       DstIP := [x0a; x00; x00; x02]; SrcPort := 40000; DstPort := 3306; Protocol := str "mysql";
       Dir := DirectionRequest; Metadata := None; RawExcerpt := []; HTTP := None; DNS := None;
       TLS := None; DB := None |}
    {| db_System := str "mysql"; db_Operation := str "SELECT"; db_Statement := str "SELECT a<b";
       db_Database := []; db_Table := []; db_ErrorCode := 0; db_ErrorMsg := []; db_Latency := 0;
       db_RowCount := 0 |})
    {[ str "z" := str "1"; str "a" := str "2" ]}.

(** [q s] is the literal of [s] in double quotes. *)
Definition q (s : string) : bytes := x22 :: str s ++ [x22].

Example marshal_sample :
  Marshal sample_event = OkR (
    str "{" ++ q "timestamp_ns" ++ str ":1700000000000000000," ++ q "src_ip" ++ str ":" ++ q "CgAAAQ=="
    ++ str "," ++ q "dst_ip" ++ str ":" ++ q "CgAAAg==" ++ str "," ++ q "src_port" ++ str ":40000,"
    ++ q "dst_port" ++ str ":3306," ++ q "protocol" ++ str ":" ++ q "mysql" ++ str "," ++ q "direction"
    ++ str ":1," ++ q "metadata" ++ str ":{" ++ q "a" ++ str ":" ++ q "2" ++ str "," ++ q "z" ++ str ":" ++ q "1"
    ++ str "}," ++ q "db_detail" ++ str ":{" ++ q "system" ++ str ":" ++ q "mysql" ++ str "," ++ q "operation"
    ++ str ":" ++ q "SELECT" ++ str "," ++ q "statement" ++ str ":" ++ q "SELECT a\u003cb" ++ str "}}").
Proof. vm_compute. reflexivity. Qed.

Lemma sample_event_wf : wf_event sample_event.
Proof.
  assert (Hm : map_Forall (fun k v => utf8 k = true /\ utf8 v = true)
    ({[ str "z" := str "1"; str "a" := str "2" ]} : string_map)).
  { apply map_Forall_insert_2; [done|]. by apply map_Forall_singleton. }
  unfold wf_event. repeat (split; [first [exact Hm | done | vm_compute; done | repeat split; vm_compute; done]|]).
  repeat split; vm_compute; done.
Defined.

(** C12: Every event is read back. [Marshal] succeeds on any event, and a consumer
    that reads the message gets its fields and sections, with the bytes of its
    strings that are not valid UTF-8 replaced; when the strings are valid (and
    the metadata is nil rather than empty) it gets the very event. *)
Theorem json_roundtrip ev :
  exists data, Marshal ev = OkR data /\ Unmarshal data = Some (clean_event ev) /\
    (wf_event ev -> Unmarshal data = Some ev).
Proof.
  eexists. split; [done|]. rewrite Unmarshal_Marshal. split; [done|]. intros Hev. by rewrite clean_event_wf.
Qed.

Lemma worker_delivers events :
  map Output.Key (Output.worker events) = map Output.flowKey events
  /\ mapM (fun m => Unmarshal (Output.Value m)) (Output.worker events) = Some (map clean_event events).
Proof.
  rewrite mapM_Some. induction events as [|ev events [IHk IHv]]; [by split; [|constructor]|].
  split; [exact (f_equal (cons _) IHk)|]. constructor; [|exact IHv]. apply Unmarshal_Marshal.
Qed.

(** With the JSON serializer the worker of the producer loses nothing: for
    whatever events it receives it writes one message each, in their order,
    keyed by the flow of the event, with a value that a consumer reads. *)
Theorem kafka_worker_delivers events :
  map Output.Key (Output.worker events) = map Output.flowKey events
  /\ mapM (fun m => Unmarshal (Output.Value m)) (Output.worker events) = Some (map clean_event events).
Proof. apply worker_delivers. Qed.

(** Outside UTF-8 the trip loses information: two different statements, one cut
    in the middle of a rune, are written as the same text. *)
Lemma json_invalid_utf8_lossy :
  exists ev ev', ev <> ev' /\ Marshal ev = Marshal ev'.
Proof.
  exists (set_UID sample_event [xc3]), (set_UID sample_event [xe2]). split; [|vm_compute; reflexivity].
  intros H. by apply (f_equal UID) in H.
Qed.
End EventJson.
