(* ===== verification/Datagrams.v ===== *)
(** * From captured packets to what a consumer reads: DNS over UDP

    The stages composed along the path of UDP datagrams: the decode workers and
    the splitter, the dispatcher's loop over packets with the registry of
    [main], the DNS parser, and the worker of the producer with the JSON
    serializer. *)

From S2P Require Import Prelude.
From S2P Require Import GoStrings.
From S2P Require Import Event.
From S2P Require Import Dns.
From S2P Require Import Http.
From S2P Require Import Registry.
From S2P Require Import Parsers.
From S2P Require Import Reassembly.
From S2P Require Import Decode.
From S2P Require Import DecodeWorkers.
From S2P Require Import Dispatch.
From S2P Require Import Output.
From S2P Require Import EventJson.

Module Datagrams.
Section Datagrams.
Context `{Unicode} `{NetHTTP} `{GopacketFlow} `{NetIP} `{GopacketDecoder}.
Variables (b q : Z).

Let registry := buildRegistry b q.

#[local] Existing Instance EventJson.JSONSerializer.

(** The ports of a datagram to a DNS server or from one; in the second case no
    parser declares the destination, so that the source decides. *)
Definition dns_ports (srcPort dstPort : Z) : Prop :=
  (dstPort ∈ Dns.Ports) \/ (dstPort ∉ declared_ports) /\ (srcPort ∈ Dns.Ports).

(** The datagram carries this message, with compressed names or without. *)
Definition carries (pkt : Decode.DecodedPacket) (m : Dns.message) : Prop :=
  dns_ports (Decode.SrcPort pkt) (Decode.DstPort pkt) /\
  Dns.message_at (default [] (Decode.Payload pkt)) m /\
  Forall (fun a => Dns.is_name (Dns.ares a) = false) (Dns.answers m).

(** The event of a message in a datagram. *)
Definition dns_event (now : Z) (pkt : Decode.DecodedPacket) (m : Dns.message) : ProtocolEvent :=
  Dns.message_event now (Dispatch.udp_meta pkt) (Dns.txid m) (Dns.mflags m)
    (map Dns.question_detail (Dns.questions m)) (map Dns.answer_detail (Dns.answers m)).

Lemma dns_by_port srcPort dstPort :
  dns_ports srcPort dstPort -> Registry.by_port registry srcPort dstPort P_dns.
Proof.
  assert (Hown : forall port, port ∈ Dns.Ports -> Registry.candidates registry port = [P_dns]).
  { intros port. unfold Dns.Ports, registry. rewrite !elem_of_cons.
    intros [->|[->|[]%elem_of_nil]]; by apply Dispatch.candidates_of. }
  intros [Hd|[Hd Hs]]; [left; by apply Hown|right]. split; [|by apply Hown].
  by apply Dispatch.candidates_of, candidates_undeclared.
Qed.

(** One datagram *)
Lemma handleUDP_dns now clk pkt spare st m :
  carries pkt m ->
  Dispatch.handleUDP registry now clk pkt spare st = Ret ([dns_event (clk 0%nat) pkt m], st).
Proof.
  intros (Hports & Hm & Hn). pose proof (proj1 Hm) as Hl. unfold Dispatch.handleUDP. cbv zeta.
  replace (len _ =? 0) with false by lia.
  rewrite (Registry.Resolve_by_port _ _ _ P_dns) by (by apply dns_by_port). cbn [mbind outcome_bind].
  unfold Dispatch.parse_and_emit. cbn [Parsers.Parse]. by rewrite (Dns.Parse_no_names _ _ m).
Qed.

Lemma udpLoop_dns pkts ms stamped st :
  Forall2 carries pkts ms -> map (fun '(_, _, pkt, _) => pkt) stamped = pkts ->
  exists evs, Dispatch.udpLoop registry stamped st = Ret (evs, st) /\
    untimed <$> evs = zip_with (dns_event 0) pkts ms.
Proof.
  intros Hc. revert stamped. induction Hc as [|pkt m pkts ms Hpm Hc IH]; intros stamped Hs.
  - destruct stamped; [|done]. by exists [].
  - destruct stamped as [|[[[now clk] pkt'] spare] stamped]; [done|]. injection Hs as -> Hs.
    destruct (IH stamped Hs) as (evs & Hl & He). exists (dns_event (clk 0%nat) pkt m :: evs).
    cbn [Dispatch.udpLoop]. rewrite (handleUDP_dns _ _ _ _ _ m) by done. cbn [mbind outcome_bind].
    rewrite Hl. cbn [mbind outcome_bind app]. split; [done|]. cbn. by rewrite He.
Qed.

(** C11: DNS from captured packets to what a consumer reads. Whatever packets the
    decode workers get and however they interleave, if the UDP datagrams among
    the ones they have forwarded go to or come from a DNS port and carry
    well-formed messages, whose names may be compressed, without NS, CNAME and
    PTR answers: the agent emits one event per datagram, in order, with the
    message's questions and answers and the datagram's addresses; no parser's
    state changes; and the Kafka messages are read back as these events. *)
Theorem dns_datagram_events cap n v captured s ms stamped st :
  let udp := snd (Splitter.split (DecodeWorkers.taken s)) in
  DecodeWorkers.reachable cap n v captured s ->
  Forall2 carries udp ms -> map (fun '(_, _, pkt, _) => pkt) stamped = udp ->
  exists evs, Dispatch.udpLoop registry stamped st = Ret (evs, st) /\
    untimed <$> evs = zip_with (dns_event 0) udp ms /\
    map Output.Key (Output.worker evs) = map Output.flowKey evs /\
    mapM (fun k => EventJson.Unmarshal (Output.Value k)) (Output.worker evs) = Some (map EventJson.clean_event evs).
Proof.
  intros udp _ Hc Hs. destruct (udpLoop_dns udp ms stamped st Hc Hs) as (evs & Hl & He).
  exists evs. split; [done|]. split; [done|]. apply EventJson.worker_delivers.
Qed.
End Datagrams.
#[local] Existing Instances ascii_unicode head_http raw_flow raw_ip.

(** A decoder of packets that hold the two ports and the UDP payload. *)
Definition ports_layers (v : layer_vars) (d : bytes) : layer_vars * list LayerType * option bytes :=
  match d with
  | s1 :: s0 :: t1 :: t0 :: payload =>
      ({| v_ip4 := {| ip_SrcIP := []; ip_DstIP := [] |}; v_ip6 := v_ip6 v; v_tcp := v_tcp v;
          v_udp := {| udp_SrcPort := be_uint [s1; s0]; udp_DstPort := be_uint [t1; t0]; udp_Payload := Some payload |};
          v_payload := v_payload v |}, [LayerTypeEthernet; LayerTypeIPv4; LayerTypeUDP], None)
  | _ => (v, [], Some (str "truncated"))
  end.

Lemma ports_same v w d :
  snd (fst (ports_layers v d)) = snd (fst (ports_layers w d))
  /\ snd (ports_layers v d) = snd (ports_layers w d).
Proof. by destruct d as [|? [|? [|? [|]]]]. Qed.

Lemma ports_fresh v w d lt :
  lt ∈ snd (fst (ports_layers v d)) ->
  same_layer lt (fst (fst (ports_layers v d))) (fst (fst (ports_layers w d))).
Proof.
  destruct d as [|? [|? [|? [|]]]]; cbn; rewrite ?elem_of_cons, elem_of_nil; by intros [->|[->|[->|[]]]] || intros [].
Qed.

#[local] Instance ports_decoder : GopacketDecoder :=
  {| DecodeLayers := ports_layers; DecodeLayers_same := ports_same; DecodeLayers_fresh := ports_fresh |}.

(** A compressed response from port 53 and a packet that is not decoded. *)
Definition sample_captured : list Packet :=
  map Decode.sample_packet [be_bytes 2 53 ++ be_bytes 2 40000 ++ Dns.compressed_packet; [x01]].

Lemma dns_datagram_events_witness :
  exists s, DecodeWorkers.reachable 1 2 Decode.sample_vars sample_captured s /\
  let udp := snd (Splitter.split (DecodeWorkers.taken s)) in
  let stamped := map (fun pkt => (5, (fun _ => 7), pkt, [])) udp in
  length udp = 1%nat /\
  exists evs, Dispatch.udpLoop (buildRegistry 1024 6) stamped ∅ = Ret (evs, ∅) /\
    untimed <$> evs = zip_with (dns_event 0) udp [Dns.compressed_message] /\
    map Output.Key (Output.worker (H := EventJson.JSONSerializer) evs) = map Output.flowKey evs /\
    mapM (fun k => EventJson.Unmarshal (Output.Value k)) (Output.worker (H := EventJson.JSONSerializer) evs)
    = Some (map EventJson.clean_event evs).
Proof.
  destruct (DecodeWorkers.sequential_reachable 1 2 Decode.sample_vars sample_captured) as (s & Hr & Et); [lia|lia|].
  exists s. split; [exact Hr|]. intros udp stamped.
  assert (Eu : udp = snd (Splitter.split (Decode.decodeWorker Decode.sample_vars sample_captured))) by (unfold udp; by rewrite Et).
  split; [rewrite Eu; vm_compute; reflexivity|].
  apply (dns_datagram_events 1024 6 1 2 Decode.sample_vars sample_captured s [Dns.compressed_message] stamped ∅); [exact Hr| |].
  - fold udp. rewrite Eu. constructor; [|constructor]. split; [right; ground|].
    split; [exact Dns.compressed_at|unfold Dns.compressed_message; ground].
  - unfold stamped. rewrite map_map. apply map_id.
Defined.
End Datagrams.
