(* ===== verification/Isolation.v ===== *)
(** * Connections do not influence each other in the dispatcher

    The loops of [internal/dispatch/dispatcher.go] on the messages of many
    connections and on UDP packets, with the sweeps of the HTTP parser's janitor
    in between, in any order: what a connection's messages give depends on that
    connection's messages and the sweeps alone, and on what the parsers hold
    under its id. *)

From S2P Require Import Prelude.
From S2P Require Import GoStrings.
From S2P Require Import Event.
From S2P Require Import Http.
From S2P Require Import Registry.
From S2P Require Import Parsers.
From S2P Require Import Reassembly.
From S2P Require Import Decode.
From S2P Require Import Dispatch.

Module Isolation.

(** ** Computations that work on one entry of the state *)

(** [f] reads the entry at [c] and nothing else, and changes nothing else. *)
Definition on_entry {A} (c : Z) (f : Http.states -> outcome (A * Http.states)) : Prop :=
  exists g : option Http.connState -> outcome (A * option Http.connState), forall st,
    f st = ('(a, o) ← g (st !! c); Ret (a, partial_alter (fun _ => o) c st)).

(** On states with the same entry it does the same. *)
Lemma on_entry_agree {A} c (f : Http.states -> outcome (A * Http.states)) st st2 a st' :
  on_entry c f -> st2 !! c = st !! c -> f st = Ret (a, st') ->
  exists st2', f st2 = Ret (a, st2') /\ st2' !! c = st' !! c.
Proof.
  intros [g Hg] E. rewrite (Hg st), (Hg st2), E. destruct (g (st !! c)) as [[a' o]|e|]; cbn [mbind outcome_bind]; [|done|done].
  intros [= <- <-]. eexists. split; [reflexivity|]. by rewrite !lookup_partial_alter_eq.
Qed.

Lemma on_entry_frame {A} c k (f : Http.states -> outcome (A * Http.states)) st a st' :
  on_entry c f -> k <> c -> f st = Ret (a, st') -> st' !! k = st !! k.
Proof.
  intros [g Hg] Hk. rewrite (Hg st). destruct (g (st !! c)) as [[a' o]|e|]; cbn [mbind outcome_bind]; [|done|done].
  intros [= _ <-]. by rewrite lookup_partial_alter_ne.
Qed.

Lemma on_entry_const {A} c (o : outcome A) : on_entry c (fun st => a ← o; Ret (a, st)).
Proof.
  exists (fun e => a ← o; Ret (a, e)). intros st. destruct o as [a|e|]; cbn [mbind outcome_bind]; [|done|done].
  by rewrite partial_alter_self.
Qed.

Lemma on_entry_ret {A} c (a : A) : on_entry c (fun st => Ret (a, st)).
Proof. exact (on_entry_const c (Ret a)). Qed.


Section Isolation.
Context `{Unicode} `{NetHTTP} `{GopacketFlow} `{NetIP}.
Variables (b q : Z).

Let registry := buildRegistry b q.

Lemma Parse_on_entry p now clk data spare meta cl :
  on_entry (m_ConnID meta) (Parsers.Parse p now clk data spare meta cl).
Proof.
  destruct p; try apply on_entry_const. unfold Parsers.Parse, Http.Parse.
  eexists (fun e => let s := default Http.fresh e in
    '(r, s') ← for_loop (S (length data)) (Http.Parse_step p clk meta cl)
      (data, [], {| Http.reqSeq := Http.reqSeq s; Http.respSeq := Http.respSeq s; Http.lastActivity := now |});
    Ret (r, Some s')).
  intros st. unfold Http.stateFor. cbv zeta.
  by destruct (for_loop _ _ _) as [[r s']|e|].
Qed.

Lemma parse_and_emit_on_entry p now clk data spare meta cl :
  on_entry (m_ConnID meta) (Dispatch.parse_and_emit p now clk data spare meta cl).
Proof.
  destruct (Parse_on_entry p now clk data spare meta cl) as [g Hg].
  exists (fun e => '(r, o) ← g e; match r with ErrR _ => Ret ([], o) | OkR events => Ret (events, o) end).
  intros st. unfold Dispatch.parse_and_emit. rewrite Hg.
  destruct (g (st !! m_ConnID meta)) as [[[events|e] o]|e|]; done.
Qed.

(** ** The dispatcher's input *)

(** A message of [tcpLoop] or a packet of [udpLoop], with the clock readings of
    its call, or a sweep of the janitor that the HTTP parser's first call starts;
    the two loops and the janitor run side by side, and a list of items is the
    order in which they work on the parsers' state ([HttpRaces] has the
    interleavings inside a call and inside a sweep). *)
Inductive item :=
| TCPMessage (now : Z) (clk : clock) (sd : Reassembly.StreamData)
| UDPPacket (now : Z) (clk : clock) (pkt : Decode.DecodedPacket) (spare : bytes)
| Sweep (now : Z).

(** The id under which parsers keep state for an item: datagrams have none. *)
Definition conn_of (i : item) : Z :=
  match i with
  | TCPMessage _ _ sd => Reassembly.ConnID (Reassembly.Meta sd)
  | UDPPacket _ _ _ _ | Sweep _ => 0
  end.

Definition is_sweep (i : item) : Prop := match i with Sweep _ => True | _ => False end.

#[export] Instance is_sweep_dec i : Decision (is_sweep i).
Proof. destruct i; apply _. Defined.

Definition handle (i : item) (st : Http.states) : outcome (list ProtocolEvent * Http.states) :=
  match i with
  | TCPMessage now clk sd => Dispatch.handleTCP registry now clk sd st
  | UDPPacket now clk pkt spare => Dispatch.handleUDP registry now clk pkt spare st
  | Sweep now => Ret ([], Http.gc now st)
  end.

(** The items with the events of each. *)
Fixpoint handle_all (items : list item) (st : Http.states)
    : outcome (list (item * list ProtocolEvent) * Http.states) :=
  match items with
  | [] => Ret ([], st)
  | i :: items' =>
      '(evs, st) ← handle i st;
      '(tr, st) ← handle_all items' st;
      Ret ((i, evs) :: tr, st)
  end.

Lemma handle_on_entry i : ~ is_sweep i -> on_entry (conn_of i) (handle i).
Proof.
  intros Hi. destruct i as [now clk sd|now clk pkt spare|now]; [| |by destruct Hi]; unfold handle; cbn [conn_of].
  - unfold Dispatch.handleTCP. destruct (Reassembly.Closed sd).
    { exists (fun _ => Ret ([], None)). intros st. unfold registry. by rewrite Dispatch.NotifyClose_main. }
    destruct (_ =? 0); [apply on_entry_ret|].
    destruct (Registry.Resolve _ _ _ _ _) as [[p|]|e|]; cbn [mbind outcome_bind].
    + exact (parse_and_emit_on_entry p now clk _ _ (Dispatch.tcp_meta (Reassembly.Meta sd)) _).
    + apply on_entry_ret.
    + by exists (fun _ => Panic e).
    + by exists (fun _ => NoFuel).
  - unfold Dispatch.handleUDP. cbv zeta. destruct (_ =? 0); [apply on_entry_ret|].
    destruct (Registry.Resolve _ _ _ _ _) as [[p|]|e|]; cbn [mbind outcome_bind].
    + exact (parse_and_emit_on_entry p now clk _ _ (Dispatch.udp_meta pkt) _).
    + apply on_entry_ret.
    + by exists (fun _ => Panic e).
    + by exists (fun _ => NoFuel).
Qed.

(** The two loops are this one. *)
Lemma tcpLoop_handle_all msgs st :
  Dispatch.tcpLoop registry msgs st =
  ('(tr, st) ← handle_all (map (fun '(now, clk, sd) => TCPMessage now clk sd) msgs) st;
   Ret (concat (map snd tr), st)).
Proof.
  revert st. induction msgs as [|[[now clk] sd] msgs IH]; intros st; [done|].
  cbn [Dispatch.tcpLoop map handle_all handle].
  destruct (Dispatch.handleTCP registry now clk sd st) as [[evs st1]|e|]; cbn [mbind outcome_bind]; [|done|done].
  rewrite IH. by destruct (handle_all _ st1) as [[tr st2]|e|].
Qed.

Lemma udpLoop_handle_all pkts st :
  Dispatch.udpLoop registry pkts st =
  ('(tr, st) ← handle_all (map (fun '(now, clk, pkt, spare) => UDPPacket now clk pkt spare) pkts) st;
   Ret (concat (map snd tr), st)).
Proof.
  revert st. induction pkts as [|[[[now clk] pkt] spare] pkts IH]; intros st; [done|].
  cbn [Dispatch.udpLoop map handle_all handle].
  destruct (Dispatch.handleUDP registry now clk pkt spare st) as [[evs st1]|e|]; cbn [mbind outcome_bind]; [|done|done].
  rewrite IH. by destruct (handle_all _ st1) as [[tr st2]|e|].
Qed.

(** ** Isolation *)

(** The items that concern a connection: its own, and every sweep. *)
Definition touches (c : Z) (i : item) : Prop := is_sweep i \/ conn_of i = c.

#[export] Instance touches_dec c i : Decision (touches c i).
Proof. apply _. Defined.

Definition own_items (c : Z) : list item -> list item := filter (touches c).
Definition own_trace (c : Z) : list (item * list ProtocolEvent) -> list (item * list ProtocolEvent) :=
  filter (fun x => touches c (fst x)).

(** A sweep looks at every entry by itself. *)
Lemma gc_agree now (st st2 : Http.states) c : st2 !! c = st !! c -> Http.gc now st2 !! c = Http.gc now st !! c.
Proof. intros E. unfold Http.gc. by rewrite !map_lookup_filter, E. Qed.

Lemma handle_agree c i st st2 evs st1 :
  touches c i -> st2 !! c = st !! c -> handle i st = Ret (evs, st1) ->
  exists st2', handle i st2 = Ret (evs, st2') /\ st2' !! c = st1 !! c.
Proof.
  intros Hc E Hi. destruct (decide (is_sweep i)) as [Hs|Hs].
  - destruct i as [| |now]; [done|done|]. injection Hi as <- <-. eexists. split; [reflexivity|]. by apply gc_agree.
  - destruct Hc as [?|<-]; [done|]. by eapply on_entry_agree; [apply handle_on_entry| |].
Qed.

Lemma handle_frame c i st evs st1 : ~ touches c i -> handle i st = Ret (evs, st1) -> st1 !! c = st !! c.
Proof.
  intros Hc Hi. eapply on_entry_frame; [apply handle_on_entry| |exact Hi].
  - intros Hs. apply Hc. by left.
  - intros ->. apply Hc. by right.
Qed.

Lemma handle_all_own c items st st2 tr st' :
  st2 !! c = st !! c -> handle_all items st = Ret (tr, st') ->
  exists st2', handle_all (own_items c items) st2 = Ret (own_trace c tr, st2') /\ st2' !! c = st' !! c.
Proof.
  revert st st2 tr. induction items as [|i items IH]; intros st st2 tr E; cbn [handle_all].
  { intros [= <- <-]. by exists st2. }
  destruct (handle i st) as [[evs st1]|e|] eqn:Hi; cbn [mbind outcome_bind]; [|done|done].
  destruct (handle_all items st1) as [[tr1 st1']|e|] eqn:Hl; cbn [mbind outcome_bind]; [|done|done].
  intros [= <- <-]. unfold own_items, own_trace. rewrite !list.filter_cons. cbn [fst].
  case_decide as Hc.
  - destruct (handle_agree c i st st2 evs st1 Hc E Hi) as (st2' & Hi2 & E2).
    destruct (IH _ _ _ E2 Hl) as (st3 & Hl2 & E3). exists st3. split; [|done].
    cbn [handle_all]. rewrite Hi2. cbn [mbind outcome_bind]. unfold own_items in Hl2. by rewrite Hl2.
  - apply (IH st1); [|done]. rewrite E. symmetry. by eapply handle_frame.
Qed.

(** ** Sweeps *)

(** No sweep of a run drops the connection's state: each leaves its entry. *)
Fixpoint sweeps_keep (c : Z) (items : list item) (st : Http.states) : Prop :=
  match items with
  | [] => True
  | i :: items' =>
      match i with Sweep now => Http.gc now st !! c = st !! c | _ => True end /\
      match handle i st with Ret (_, st') => sweeps_keep c items' st' | _ => True end
  end.

(** What is left of a run without its sweeps. *)
Definition unswept : list item -> list item := filter (fun i => ~ is_sweep i).
Definition unswept_trace : list (item * list ProtocolEvent) -> list (item * list ProtocolEvent) :=
  filter (fun x => ~ is_sweep (fst x)).

(** Sweeps that keep the connection's state change nothing for it. *)
Lemma handle_all_kept c items st st2 tr st' :
  st2 !! c = st !! c -> sweeps_keep c items st -> handle_all items st = Ret (tr, st') ->
  exists st2', handle_all (unswept (own_items c items)) st2 = Ret (unswept_trace (own_trace c tr), st2') /\
    st2' !! c = st' !! c.
Proof.
  unfold unswept, unswept_trace, own_items, own_trace.
  revert st st2 tr. induction items as [|i items IH]; intros st st2 tr E Hk; cbn [handle_all].
  { intros [= <- <-]. by exists st2. }
  cbn [sweeps_keep] in Hk. destruct Hk as [Hk Hks].
  destruct (handle i st) as [[evs st1]|e|] eqn:Hi; cbn [mbind outcome_bind]; [|done|done].
  destruct (handle_all items st1) as [[tr1 st1']|e|] eqn:Hl; cbn [mbind outcome_bind]; [|done|done].
  intros [= <- <-]. rewrite !(list.filter_cons (touches c)), !(list.filter_cons (fun x => touches c (fst x))). cbn [fst].
  case_decide as Hc.
  - rewrite !list.filter_cons. cbn [fst]. case_decide as Hs.
    + destruct (handle_agree c i st st2 evs st1 Hc E Hi) as (st2' & Hi2 & E2).
      destruct (IH _ _ _ E2 Hks Hl) as (st3 & Hl2 & E3). exists st3. split; [|done].
      cbn [handle_all]. rewrite Hi2. cbn [mbind outcome_bind]. by rewrite Hl2.
    + apply (IH st1); [|done|done]. destruct i as [| |now]; [by destruct Hs|by destruct Hs|].
      injection Hi as <- <-. by rewrite E, Hk.
  - apply (IH st1); [|done|done]. rewrite E. symmetry. by eapply handle_frame.
Qed.

(** Sweeps give no events. *)
Lemma unswept_events items st tr st' :
  handle_all items st = Ret (tr, st') -> concat (map snd (unswept_trace tr)) = concat (map snd tr).
Proof.
  revert st tr. induction items as [|i items IH]; intros st tr; cbn [handle_all]; [by intros [= <- _]|].
  destruct (handle i st) as [[evs st1]|e|] eqn:Hi; cbn [mbind outcome_bind]; [|done|done].
  destruct (handle_all items st1) as [[tr1 st1']|e|] eqn:Hl; cbn [mbind outcome_bind]; [|done|done].
  intros [= <- <-]. unfold unswept_trace. rewrite list.filter_cons. cbn [fst]. case_decide as Hs; cbn [map concat snd].
  - f_equal. by eapply IH.
  - destruct i as [| |now]; [by destruct Hs|by destruct Hs|]. injection Hi as <- _. by eapply IH.
Qed.

Lemma handle_all_app l k st :
  handle_all (l ++ k) st =
  ('(tr, st) ← handle_all l st; '(tr', st) ← handle_all k st; Ret (tr ++ tr', st)).
Proof.
  revert st. induction l as [|i l IH]; intros st; cbn [handle_all app mbind outcome_bind].
  - by destruct (handle_all k st) as [[tr st']|e|].
  - destruct (handle i st) as [[evs st1]|e|]; cbn [mbind outcome_bind]; [|done|done].
    rewrite IH. destruct (handle_all l st1) as [[tr st2]|e|]; cbn [mbind outcome_bind]; [|done|done].
    by destruct (handle_all k st2) as [[tr' st3]|e|].
Qed.

Lemma handle_all_items items st tr st' : handle_all items st = Ret (tr, st') -> map fst tr = items.
Proof.
  revert st tr. induction items as [|i items IH]; intros st tr; cbn [handle_all]; [by intros [= <- _]|].
  destruct (handle i st) as [[evs st1]|e|]; cbn [mbind outcome_bind]; [|done|done].
  destruct (handle_all items st1) as [[tr1 st1']|e|] eqn:Hl; cbn [mbind outcome_bind]; [|done|done].
  intros [= <- <-]. cbn [map fst]. by rewrite (IH _ _ Hl).
Qed.

(** C10: The dispatcher keeps connections apart. Its two loops handle messages of
    many connections and datagrams, and the janitor of the HTTP parser sweeps,
    in some order, without a panic. Then the items of a connection, with the
    sweeps, give the events, and leave the parsers' state of the connection, that
    they give on their own; so that any other order in which everything is
    handled, with other connections besides, gives the same events for the same
    items of this one. *)
Theorem dispatch_isolated c items st tr st' :
  handle_all items st = Ret (tr, st') ->
  map fst tr = items /\
  (exists st1, handle_all (own_items c items) st = Ret (own_trace c tr, st1) /\ st1 !! c = st' !! c) /\
  forall items2 st2 tr2 st2',
    handle_all items2 st2 = Ret (tr2, st2') -> own_items c items2 = own_items c items -> st2 !! c = st !! c ->
    own_trace c tr2 = own_trace c tr /\ st2' !! c = st' !! c.
Proof.
  intros Hr. split; [by eapply handle_all_items|]. destruct (handle_all_own c items st st tr st' eq_refl Hr) as (st1 & Hl1 & E1).
  split; [by exists st1|]. intros items2 st2 tr2 st2' Hr2 Hown Hst.
  destruct (handle_all_own c items2 st2 st tr2 st2' ltac:(done) Hr2) as (st3 & Hl3 & E3).
  rewrite Hown, Hl1 in Hl3. injection Hl3 as -> ->. by rewrite <- E1, <- E3.
Qed.
End Isolation.

(** ** Concrete connections *)

#[local] Existing Instances ascii_unicode head_http raw_flow raw_ip.

Definition sample_item (id : Z) (data : bytes) (cl : bool) : item :=
  TCPMessage 5 (fun _ => 7)
    {| Reassembly.Net := ([], []); Reassembly.Transport := ([], []); Reassembly.Data := data; Reassembly.IsClient := cl;
       Reassembly.Timestamp := None; Reassembly.Closed := false;
       Reassembly.Meta := {| Reassembly.SrcIP := []; Reassembly.DstIP := []; Reassembly.SrcPort := 40000;
         Reassembly.DstPort := 8000; Reassembly.ConnID := id |} |}.

(** Two HTTP connections, interleaved, and a sweep. *)
Definition sample_items : list item :=
  [sample_item 1 (str "GET /a HTTP/1.1" ++ CRLF ++ CRLF) true; sample_item 2 (str "GET /b HTTP/1.1" ++ CRLF ++ CRLF) true;
   Sweep Http.minute; sample_item 1 (str "HTTP/1.1 200 OK" ++ CRLF ++ CRLF) false].

Lemma dispatch_isolated_witness :
  exists tr st', handle_all 1024 6 sample_items ∅ = Ret (tr, st') /\
    length (own_trace 1 tr) = 3%nat /\ length (concat (map snd (own_trace 1 tr))) = 2%nat /\
    forall items2 st2 tr2 st2',
      handle_all 1024 6 items2 st2 = Ret (tr2, st2') -> own_items 1 items2 = own_items 1 sample_items -> st2 !! 1 = None ->
      own_trace 1 tr2 = own_trace 1 tr /\ st2' !! 1 = st' !! 1.
Proof.
  assert (Hc : match handle_all 1024 6 sample_items ∅ with
    | Ret (tr, _) => length (own_trace 1 tr) = 3%nat /\ length (concat (map snd (own_trace 1 tr))) = 2%nat
    | _ => False end) by (vm_compute; done).
  destruct (handle_all 1024 6 sample_items ∅) as [[tr st']|e|] eqn:E; [|done|done].
  exists tr, st'. split; [done|]. destruct Hc as [? ?]. split; [done|]. split; [done|].
  exact (proj2 (proj2 (dispatch_isolated 1024 6 1 sample_items ∅ tr st' E))).
Defined.
End Isolation.
