(* ===== verification/Attribution.v ===== *)
(** * Events and the connections they belong to

    What the parsers promise to the stages after them, whichever parser the
    registry picks: an event carries the addresses and ports it was parsed
    under, the parser's name and the section of that protocol; and a call
    returns unless its input is one of the three kinds that make the DNS, TLS
    and Redis parsers panic. The theorems compose the parsers with the
    dispatcher and the Kafka producer. *)

From S2P Require Import Prelude.
From S2P Require Import GoStrings.
From S2P Require Import Event.
From S2P Require Import Framing.
From S2P Require Import Mysql.
From S2P Require Import Postgres.
From S2P Require Import Mongodb.
From S2P Require Import Mqtt.
From S2P Require Import Redis.
From S2P Require Import Dns.
From S2P Require Import Tls.
From S2P Require Import LineProtocols.
From S2P Require Import Unknown.
From S2P Require Import Websocket.
From S2P Require Import Http.
From S2P Require Import Registry.
From S2P Require Import Parsers.
From S2P Require Import Reassembly.
From S2P Require Import Decode.
From S2P Require Import Dispatch.
From S2P Require Import Output.

(** ** Every parser attributes its events *)

(** A parser's result: the events of a successful call are attributed. *)
Definition attributes (name : bytes) (meta : ConnMeta) (r : result (list ProtocolEvent)) : Prop :=
  match r with OkR evs => Forall (attributed name meta) evs | ErrR _ => True end.

(** Events built from [NewEvent] and [fillMeta] are attributed by computation. *)
Ltac attribute := repeat split; done || (left; reflexivity) || (vm_compute; reflexivity).

(** Case analysis on the function that makes the event of one message. *)
Ltac one_event := let H := fresh in
  intros ? ? ? H; revert H; repeat case_match; intros H; simplify_eq/=; attribute.

Ltac yields_cases := repeat first
  [ apply yields_seq; intros ? | done
  | match goal with |- yields (if ?b then _ else _) _ => destruct b end
  | match goal with |- yields (match ?x with _ => _ end) _ => destruct x end
  | cbn [yields attributes]; constructor; [attribute|constructor]
  | cbn [yields attributes]; constructor ].

Section Attribution.
Context `{Unicode} `{NetHTTP}.

Lemma mysql_attributes p clk data meta cl :
  yields (Mysql.Parse p clk data meta cl) (attributes Mysql.Name meta).
Proof.
  rewrite Mysql.mysql_Parse_ret. cbn [yields attributes]. apply Forall_fold_append; [constructor|].
  unfold Mysql.packet_event. one_event.
Qed.

Lemma postgres_attributes p clk data meta cl :
  yields (Postgres.Parse p clk data meta cl) (attributes Postgres.Name meta).
Proof.
  rewrite Postgres.postgres_Parse_ret. cbn [yields attributes]. apply Forall_fold_append; [constructor|].
  unfold Postgres.message_event. one_event.
Qed.

Lemma mongodb_attributes p clk data meta cl :
  yields (Mongodb.Parse p clk data meta cl) (attributes Mongodb.Name meta).
Proof.
  rewrite Mongodb.mongodb_Parse_ret. cbn [yields attributes]. apply Forall_fold_append; [constructor|].
  unfold Mongodb.message_event. one_event.
Qed.

Lemma mqtt_attributes clk data meta cl :
  yields (Mqtt.Parse clk data meta cl) (attributes Mqtt.Name meta).
Proof.
  rewrite Mqtt.mqtt_Parse_ret. cbn [yields attributes]. apply Forall_fold_append; [constructor|].
  unfold Mqtt.packet_event. one_event.
Qed.

Lemma redis_decodeOne_attributed p now data meta cl :
  yields (Redis.decodeOne p now data meta cl)
    (fun '(ev, _) => forall e, ev = Some e -> attributed Redis.Name meta e).
Proof.
  unfold Redis.decodeOne, Redis.decodeArray, Redis.decodeError. repeat first
    [ apply yields_seq; intros ?
    | match goal with |- yields (if ?b then _ else _) _ => destruct b end
    | match goal with |- yields (match ?x with _ => _ end) _ => destruct x end
    | cbn [yields]; intros ? ?; simplify_eq; attribute | cbn [yields] ].
Qed.

Lemma redis_attributes p clk data meta cl :
  yields (Redis.Parse p clk data meta cl) (attributes Redis.Name meta).
Proof.
  unfold Redis.Parse. eapply yields_bind.
  - apply (yields_for_loop (fun '(_, evs) => Forall (attributed Redis.Name meta) evs)
             (Forall (attributed Redis.Name meta))); [|constructor].
    intros [d evs] He. unfold Redis.Parse_step. destruct (0 <? len d); [|done].
    eapply yields_bind; [apply redis_decodeOne_attributed|]. intros [ev n] Hev.
    destruct (n <=? 0); [done|]. apply yields_seq. intros d'. cbn [yields].
    destruct ev; [|done]. apply Forall_app. split; [done|]. by constructor; [apply Hev|constructor].
  - done.
Qed.

Lemma dns_attributes clk data meta cl :
  yields (Dns.Parse clk data meta cl) (attributes Dns.Name meta).
Proof. unfold Dns.Parse. yields_cases. Qed.

Lemma tls_attributes clk data spare meta cl :
  yields (Tls.Parse clk data spare meta cl) (attributes Tls.Name meta).
Proof. unfold Tls.Parse, Tls.parseClientHello. yields_cases. Qed.

Lemma line_attributes p clk data meta cl :
  yields (line_Parse p clk data meta cl) (attributes (line_name p) meta).
Proof.
  rewrite line_Parse_lines. unfold parse_lines. rewrite each_line_ret. cbn [yields attributes].
  apply Forall_fold_append; [constructor|]. intros l now ev He. unfold line_event in He.
  apply fmap_Some in He as (m & _ & ->). by destruct p; attribute.
Qed.

Lemma ssh_attributes clk data meta cl :
  yields (Ssh.Parse clk data meta cl) (attributes Ssh.Name meta).
Proof. unfold Ssh.Parse. yields_cases. Qed.

Lemma unknown_attributes clk data meta cl :
  yields (Unknown.Parse clk data meta cl) (attributes Unknown.Name meta).
Proof. unfold Unknown.Parse. yields_cases. Qed.

Lemma websocket_attributes clk data meta cl :
  yields (Websocket.Parse clk data meta cl) (attributes Websocket.Name meta).
Proof.
  unfold Websocket.Parse. eapply (yields_bind _ _ (fun o => forall e, o = Some e ->
    attributed Websocket.Name meta e)).
  - unfold Websocket.parseUpgrade. cbv zeta. destruct (negb _); [done|].
    apply yields_seq. intros ?. apply yields_seq. intros ?. cbn [yields]. intros ? ?. simplify_eq. attribute.
  - intros [ev|] He; [by constructor; [apply He|constructor]|]. unfold Websocket.parseFrame.
    eapply (yields_bind _ _ (fun o => forall e, o = Some e -> attributed Websocket.Name meta e)).
    + destruct (len data <? 2); [done|]. apply yields_seq. intros b0.
      destruct (Websocket.opcodeNames _); [|done]. apply yields_seq. intros b1.
      cbn [yields]. intros ? ?. simplify_eq. attribute.
    + intros [ev|] Hf; [by constructor; [apply Hf|constructor]|constructor].
Qed.

Lemma http_message_attributed p cl now reader meta s :
  yields (Http.read_message p cl now reader meta s) (fun r => match r with
    | inl _ => True | inr (ev, _, _) => attributed Http.Name meta ev end).
Proof.
  destruct cl; cbn [Http.read_message];
    [unfold Http.readRequest; destruct (ReadRequest reader) as [|[[m b] rest]]
    |unfold Http.readResponse; destruct (ReadResponse reader) as [|[[m b] rest]]]; try done;
    apply yields_seq; intros [buf tr]; split_and!; try done; right; (split; [done|]); (eexists; split; [|reflexivity]); by apply Z.mod_pos_bound.
Qed.

Lemma http_attributes p now clk data meta cl st :
  yields (Http.Parse p now clk data meta cl st) (fun '(r, _) => attributes Http.Name meta r).
Proof.
  unfold Http.Parse. cbv zeta. eapply yields_bind.
  - apply (yields_for_loop (fun '(_, evs, _) => Forall (attributed Http.Name meta) evs)
             (fun '(r, _) => attributes Http.Name meta r)); [|constructor].
    intros [[reader evs] s] He. unfold Http.Parse_step.
    eapply yields_bind; [apply http_message_attributed|]. intros [e|[[ev rest] s']] Hev.
    + cbn [yields]. destruct evs; [|done]. by destruct e; constructor.
    + cbn [yields]. apply Forall_app. split; [done|]. constructor; [done|constructor].
  - by intros [r s'].
Qed.

(** The events of a call of any registered parser are attributed. *)
Lemma Parse_attributes p now clk data spare meta cl st :
  yields (Parsers.Parse p now clk data spare meta cl st)
    (fun '(r, _) => attributes (parser_Name p) meta r).
Proof.
  destruct p; cbn [Parsers.Parse parser_Name parser_ops]; [apply http_attributes|..];
    (eapply yields_bind; [|intros r Hr; exact Hr]).
  - apply dns_attributes.
  - apply tls_attributes.
  - apply mysql_attributes.
  - apply postgres_attributes.
  - apply redis_attributes.
  - apply mongodb_attributes.
  - apply (line_attributes SMTP).
  - apply (line_attributes FTP).
  - apply (line_attributes IMAP).
  - apply (line_attributes POP3).
  - apply mqtt_attributes.
  - apply websocket_attributes.
  - apply ssh_attributes.
  - apply unknown_attributes.
Qed.

(** ** Which calls return *)

Lemma ssh_returns clk data meta cl : exists r, Ssh.Parse clk data meta cl = Ret r.
Proof.
  unfold Ssh.Parse. destruct (len data <? 4); [by eexists|].
  destruct (IndexByte data x0a) as [i|] eqn:E; [|by eexists].
  apply IndexByte_Some in E as (Hl & _). rewrite slice_to_ret by (unfold len; lia). by eexists.
Qed.

Lemma unknown_returns clk data meta cl : exists r, Unknown.Parse clk data meta cl = Ret r.
Proof.
  unfold Unknown.Parse, Unknown.maxExcerptLen. destruct (len data =? 0); [by eexists|].
  rewrite Unknown.intToStr_ret by apply len_nonneg.
  destruct (128 <? len data) eqn:E; [rewrite slice_to_ret by lia|]; by eexists.
Qed.

(** The HTTP parser's limit is a length. *)
Definition parser_ok (p : parser) : Prop :=
  match p with P_http q => 0 <= Http.maxBodyBytes q | _ => True end.

(** What the input of a parser must not be for the call to return: the three
    defects that the theorems of [Dns], [Tls] and [Redis] describe. The DNS and
    TLS conditions hold exactly of the data on which the call returns. *)
Definition safe_input (p : parser) (data spare : bytes) : Prop :=
  match p with
  | P_dns => Dns.name_answer data = false
  | P_tls => Tls.overrun data spare = false
  | P_redis _ => Redis.no_overflow data
  | _ => True
  end.

Lemma Parse_returns p now clk data spare meta cl st :
  parser_ok p -> safe_input p data spare ->
  exists r st', Parsers.Parse p now clk data spare meta cl st = Ret (r, st').
Proof.
  assert (Hs : forall o : outcome (result (list ProtocolEvent)), (exists r, o = Ret r) ->
    exists r st', (r ← o; Ret (r, st)) = Ret (r, st')).
  { intros o [r ->]. by exists r, st. }
  destruct p; cbn [parser_ok safe_input Parsers.Parse]; intros Hok Hp; [|apply Hs..].
  - pose proof (Http.Parse_wp p Hok now clk data meta cl st) as Hw.
    apply wp_returns in Hw as ([r st'] & Hr & _). by exists r, st'.
  - pose proof (Dns.Parse_returns_iff clk data meta cl) as Ho. by rewrite Hp in Ho.
  - pose proof (Tls.Parse_outcome clk data spare meta cl) as Ho. by rewrite Hp in Ho.
  - rewrite Mysql.mysql_Parse_ret. by eexists.
  - rewrite Postgres.postgres_Parse_ret. by eexists.
  - destruct (Redis.Parse_no_overflow p clk meta cl data Hp) as [evs ->]. by eexists.
  - rewrite Mongodb.mongodb_Parse_ret. by eexists.
  - destruct (line_Parse_ret SMTP clk data meta cl) as (evs & Hr & _). by eexists.
  - destruct (line_Parse_ret FTP clk data meta cl) as (evs & Hr & _). by eexists.
  - destruct (line_Parse_ret IMAP clk data meta cl) as (evs & Hr & _). by eexists.
  - destruct (line_Parse_ret POP3 clk data meta cl) as (evs & Hr & _). by eexists.
  - rewrite Mqtt.mqtt_Parse_ret. by eexists.
  - destruct (Websocket.websocket_Parse_ret clk data meta cl) as (evs & Hr & _). by eexists.
  - apply ssh_returns.
  - apply unknown_returns.
Qed.
End Attribution.

(** ** The dispatcher, for any registry of these parsers *)

Section Dispatcher.
Context `{Unicode} `{NetHTTP} `{GopacketFlow} `{NetIP} `{Serializer}.
Variable registry : Registry.Registry parser.

(** The events are those of one parser on the connection. *)
Definition from_connection (meta : Event.ConnMeta) (evs : list ProtocolEvent) : Prop :=
  exists p, Forall (attributed (parser_Name p) meta) evs.

Lemma from_connection_nil meta : from_connection meta [].
Proof. by exists P_unknown. Qed.

Lemma parse_and_emit_from p now clk data spare meta cl st :
  yields (Dispatch.parse_and_emit p now clk data spare meta cl st)
    (fun '(evs, _) => from_connection meta evs).
Proof.
  unfold Dispatch.parse_and_emit. eapply yields_bind; [apply Parse_attributes|].
  intros [[evs|e] st'] Hr; cbn [yields]; [by exists p|apply from_connection_nil].
Qed.

Lemma handleTCP_from now clk sd st :
  yields (Dispatch.handleTCP registry now clk sd st)
    (fun '(evs, _) => from_connection (Dispatch.tcp_meta (Reassembly.Meta sd)) evs).
Proof.
  unfold Dispatch.handleTCP. cbv zeta.
  destruct (Reassembly.Closed sd); [apply from_connection_nil|].
  destruct (len _ =? 0); [apply from_connection_nil|]. apply yields_seq.
  intros [p|]; [apply parse_and_emit_from|apply from_connection_nil].
Qed.

Lemma handleUDP_from now clk pkt spare st :
  yields (Dispatch.handleUDP registry now clk pkt spare st)
    (fun '(evs, _) => from_connection (Dispatch.udp_meta pkt) evs).
Proof.
  unfold Dispatch.handleUDP. cbv zeta.
  destruct (len _ =? 0); [apply from_connection_nil|]. apply yields_seq.
  intros [p|]; [apply parse_and_emit_from|apply from_connection_nil].
Qed.

Lemma tcpLoop_from msgs st :
  yields (Dispatch.tcpLoop registry msgs st) (fun '(evs, _) =>
    exists per_message, evs = concat per_message /\
      Forall2 (fun '(_, _, sd) => from_connection (Dispatch.tcp_meta (Reassembly.Meta sd)))
        msgs per_message).
Proof.
  revert st. induction msgs as [|[[now clk] sd] msgs IH]; intros st; cbn [Dispatch.tcpLoop].
  { by exists []. }
  eapply yields_bind; [apply handleTCP_from|]. intros [evs st1] He.
  eapply yields_bind; [apply IH|]. intros [evs' st2] (pm & -> & Hpm).
  exists (evs :: pm). split; [done|]. by constructor.
Qed.

(** C19: whatever the registry picks and however the messages of different
    connections interleave, the events of the TCP loop are, message by
    message and in order, events of one parser on that message's connection:
    its addresses and ports, the parser's name, the section of that protocol
    and no other, and a UID only for HTTP, which is the connection's id and a
    number. *)
Theorem dispatch_events_attributed msgs st evs st' :
  Dispatch.tcpLoop registry msgs st = Ret (evs, st') ->
  exists per_message, evs = concat per_message /\
    Forall2 (fun '(_, _, sd) => from_connection (Dispatch.tcp_meta (Reassembly.Meta sd)))
      msgs per_message.
Proof. intros Hr. pose proof (tcpLoop_from msgs st) as Hy. by rewrite Hr in Hy. Qed.

(** Every Kafka message of a TCP connection has the same key, in both
    directions and for all its events, so that one partition gets them all. *)
Theorem connection_events_one_key msgs st evs st' m :
  Forall (fun '(_, _, sd) => Reassembly.Meta sd = m) msgs ->
  Dispatch.tcpLoop registry msgs st = Ret (evs, st') ->
  Forall (fun k => Output.Key k = Output.flow_key (Dispatch.tcp_meta m)) (Output.worker evs).
Proof.
  intros Hm Hr. pose proof (tcpLoop_from msgs st) as Hy. rewrite Hr in Hy.
  destruct Hy as (pm & -> & Hpm). apply Output.worker_keys. clear Hr.
  induction Hpm as [|[[now clk] sd] evs msgs pm [p Hp] Hpm IH]; cbn [concat]; [constructor|].
  apply Forall_cons_iff in Hm as [<- Hm]. apply Forall_app. split; [|by apply IH].
  eapply Forall_impl; [|exact Hp]. by intros ev (_ & Hf & _).
Qed.
End Dispatcher.

(** ** The dispatcher on the registry of [main] *)

Section MainSafety.
Context `{Unicode} `{NetHTTP} `{GopacketFlow} `{NetIP}.
Variables (b q : Z).

Let registry := buildRegistry b q.

(** The parser that the registry picks for the data, if it picks one, does not
    panic on them; what the other parsers would do does not matter. *)
Definition safe_data (srcPort dstPort : Z) (data spare : bytes) (cl : bool) : Prop :=
  forall p, Registry.Resolve registry srcPort dstPort data cl = Ret (Some p) ->
    safe_input p data spare.

(** A stream message to parse, and a packet to parse. *)
Definition safe_message (sd : Reassembly.StreamData) : Prop :=
  Reassembly.Closed sd = false ->
  safe_data (Reassembly.SrcPort (Reassembly.Meta sd)) (Reassembly.DstPort (Reassembly.Meta sd))
    (Reassembly.Data sd) [] (Reassembly.IsClient sd).

Definition safe_packet (pkt : Decode.DecodedPacket) (spare : bytes) : Prop :=
  safe_data (Decode.SrcPort pkt) (Decode.DstPort pkt) (default [] (Decode.Payload pkt)) spare true.

Lemma Resolve_main data cl srcPort dstPort :
  exists o, Registry.Resolve registry srcPort dstPort data cl = Ret o /\
    forall p, o = Some p -> parser_ok p.
Proof.
  destruct (Registry.Resolve_spec data cl registry srcPort dstPort) as (o & Ho & _).
  exists o. split; [done|]. intros p ->. destruct (buildRegistry_indexed b q) as [Hi Ha].
  assert (Hp : p ∈ registered b q) by (rewrite <- Ha; by eapply Registry.Resolve_registered).
  unfold registered in Hp. rewrite !elem_of_cons in Hp.
  destruct_or! Hp; subst; cbn [parser_ok]; try done; [|by apply elem_of_nil in Hp].
  cbn. destruct (b <? 0) eqn:E; lia.
Qed.

Lemma parse_and_emit_returns p now clk data spare meta cl st :
  parser_ok p -> safe_input p data spare ->
  exists evs st', Dispatch.parse_and_emit p now clk data spare meta cl st = Ret (evs, st').
Proof.
  intros Hok Hs. destruct (Parse_returns p now clk data spare meta cl st Hok Hs) as (r & st' & Hr).
  unfold Dispatch.parse_and_emit. rewrite Hr. destruct r; by eexists _, _.
Qed.

Lemma handleTCP_returns now clk sd st :
  safe_message sd -> exists evs st', Dispatch.handleTCP registry now clk sd st = Ret (evs, st').
Proof.
  intros Hs. unfold Dispatch.handleTCP. cbv zeta.
  destruct (Reassembly.Closed sd) eqn:Ec; [by eexists _, _|]. specialize (Hs Ec).
  destruct (len _ =? 0); [by eexists _, _|].
  edestruct Resolve_main as (o & Ho & Hp). rewrite Ho. cbn [mbind outcome_bind].
  destruct o as [p|]; [|by eexists _, _]. apply parse_and_emit_returns; [by apply Hp|by apply Hs].
Qed.

Lemma handleUDP_returns now clk pkt spare st :
  safe_packet pkt spare -> exists evs st', Dispatch.handleUDP registry now clk pkt spare st = Ret (evs, st').
Proof.
  intros Hs. unfold Dispatch.handleUDP. cbv zeta. destruct (len _ =? 0); [by eexists _, _|].
  edestruct Resolve_main as (o & Ho & Hp). rewrite Ho. cbn [mbind outcome_bind].
  destruct o as [p|]; [|by eexists _, _]. apply parse_and_emit_returns; [by apply Hp|by apply Hs].
Qed.

Lemma tcpLoop_returns msgs st :
  Forall (fun '(_, _, sd) => safe_message sd) msgs ->
  exists evs st', Dispatch.tcpLoop registry msgs st = Ret (evs, st').
Proof.
  intros Hm. revert st. induction Hm as [|[[now clk] sd] msgs Hs Hm IH]; intros st; [by eexists _, _|].
  cbn [Dispatch.tcpLoop]. destruct (handleTCP_returns now clk sd st Hs) as (evs & st1 & ->).
  cbn [mbind outcome_bind]. destruct (IH st1) as (evs' & st2 & ->). by eexists _, _.
Qed.

Lemma udpLoop_returns pkts st :
  Forall (fun '(_, _, pkt, spare) => safe_packet pkt spare) pkts ->
  exists evs st', Dispatch.udpLoop registry pkts st = Ret (evs, st').
Proof.
  intros Hm. revert st.
  induction Hm as [|[[[now clk] pkt] spare] pkts Hs Hm IH]; intros st; [by eexists _, _|].
  cbn [Dispatch.udpLoop]. destruct (handleUDP_returns now clk pkt spare st Hs) as (evs & st1 & ->).
  cbn [mbind outcome_bind]. destruct (IH st1) as (evs' & st2 & ->). by eexists _, _.
Qed.

(** C1: on the registry that [main] builds, both dispatcher loops handle every
    stream message and every packet without a panic and to the end, in whatever
    states the parsers are, whenever the parser that the registry picks for the
    data's ports and content is not one of three, or is and the data are not of
    the kind it panics on: for DNS, a packet in which [Parse] reaches a complete
    NS, CNAME or PTR answer; for TLS, a ClientHello with a cipher list of odd
    length at the end of the data's array (these two are exact); for Redis, data
    in which, from some position on, a bulk string's length overflows. Nothing
    is asked of data that the registry gives to another parser or to none. *)
Theorem dispatch_loops_safe msgs pkts st :
  Forall (fun '(_, _, sd) => safe_message sd) msgs ->
  Forall (fun '(_, _, pkt, spare) => safe_packet pkt spare) pkts ->
  exists evs st1 evs' st2, Dispatch.tcpLoop registry msgs st = Ret (evs, st1) /\
    Dispatch.udpLoop registry pkts st1 = Ret (evs', st2).
Proof.
  intros Hm Hp. destruct (tcpLoop_returns msgs st Hm) as (evs & st1 & Hr).
  destruct (udpLoop_returns pkts st1 Hp) as (evs' & st2 & Hr'). by exists evs, st1, evs', st2.
Qed.

(** C38: two reassembled streams that crash the agent: data for the Redis port
    that starts with a bulk string of overflowing length, and data for port
    8443 that is a ClientHello with an odd cipher list at its end. *)
Theorem dispatch_stream_crashes now clk sd st :
  Reassembly.Closed sd = false ->
  (Reassembly.DstPort (Reassembly.Meta sd) = 6379 /\ Redis.bulk_overflow (Reassembly.Data sd) = true
     /\ len (Reassembly.Data sd) < 2 ^ 62) \/
  (Reassembly.DstPort (Reassembly.Meta sd) = 8443 /\ Tls.overrun (Reassembly.Data sd) [] = true) ->
  Dispatch.handleTCP registry now clk sd st = Panic SliceOutOfRange.
Proof.
  intros Hc Hcase. unfold Dispatch.handleTCP. cbv zeta. rewrite Hc.
  assert (Hres : forall port p,
    filter (fun p => port ∈ parser_Ports p) (registered b q) = [p] ->
    Registry.Resolve registry (Reassembly.SrcPort (Reassembly.Meta sd)) port (Reassembly.Data sd)
      (Reassembly.IsClient sd) = Ret (Some p)).
  { intros port p Hp. unfold Registry.Resolve, registry. by rewrite (Dispatch.candidates_of b q port [p] Hp). }
  destruct Hcase as [(Hp & Hb & Hl)|[Hp Ho]]; rewrite Hp.
  - replace (len _ =? 0) with false by (symmetry; destruct (Reassembly.Data sd); [done|lens]).
    rewrite (Hres 6379 (P_redis (Redis.NewParser q)) eq_refl). cbn [mbind outcome_bind].
    unfold Dispatch.parse_and_emit. cbn [Parsers.Parse]. by rewrite Redis.Parse_bulk_overflow.
  - replace (len _ =? 0) with false by (symmetry; destruct (Reassembly.Data sd); [done|lens]).
    rewrite (Hres 8443 P_tls eq_refl). cbn [mbind outcome_bind].
    unfold Dispatch.parse_and_emit. cbn [Parsers.Parse].
    pose proof (Tls.Parse_outcome clk (Reassembly.Data sd) [] (Dispatch.tcp_meta (Reassembly.Meta sd))
      (Reassembly.IsClient sd)) as Hpo. rewrite Ho in Hpo. by rewrite Hpo.
Qed.
End MainSafety.

(** ** A session *)

#[local] Existing Instances ascii_unicode head_http raw_flow raw_ip.

#[local] Existing Instance name_serializer.

Lemma dispatch_events_attributed_witness :
  exists evs st', Dispatch.tcpLoop (buildRegistry 1024 512) Dispatch.sample_session ∅ = Ret (evs, st') /\
    length evs = 3%nat /\
    exists per_message, evs = concat per_message /\
      Forall2 (fun '(_, _, sd) => from_connection (Dispatch.tcp_meta (Reassembly.Meta sd)))
        Dispatch.sample_session per_message.
Proof.
  eexists _, _. split; [vm_compute; reflexivity|]. split; [reflexivity|].
  eapply (dispatch_events_attributed (buildRegistry 1024 512) Dispatch.sample_session ∅).
  vm_compute. reflexivity.
Defined.

Lemma connection_events_one_key_witness :
  exists evs st', Dispatch.tcpLoop (buildRegistry 1024 512) Dispatch.sample_session ∅ = Ret (evs, st') /\
    length (Output.worker evs) = 3%nat /\
    Forall (fun k => Output.Key k = Output.flow_key (Dispatch.tcp_meta Dispatch.sample_conn)) (Output.worker evs).
Proof.
  eexists _, _. split; [vm_compute; reflexivity|]. split; [reflexivity|].
  eapply (connection_events_one_key (buildRegistry 1024 512) Dispatch.sample_session ∅).
  - repeat constructor.
  - vm_compute. reflexivity.
Defined.

(** What the registry picks, when it can be computed. *)
Lemma resolved_safe b q srcPort dstPort data spare cl p :
  Registry.Resolve (buildRegistry b q) srcPort dstPort data cl = Ret (Some p) ->
  safe_input p data spare -> safe_data b q srcPort dstPort data spare cl.
Proof. intros Hr Hs p' Hr'. rewrite Hr in Hr'. by injection Hr' as <-. Qed.

(** An HTTP connection, a response to a DNS query and a binary datagram that
    the registry gives to another parser though its bytes 6 and 7, read as DNS,
    count answers. *)
Lemma dispatch_loops_safe_witness :
  let pkts :=
    [(5, (fun _ => 7), Dispatch.sample_udp 53 40000 Dns.compressed_packet, [x2a]);
     (5, (fun _ => 7), Dispatch.sample_udp 40001 3306 (repeat x00 7 ++ [x01; x00; x05; x00; x02; x00; x0c]), [])] in
  exists evs st1 evs' st2,
    Dispatch.tcpLoop (buildRegistry 1024 512) Dispatch.sample_session ∅ = Ret (evs, st1) /\
    Dispatch.udpLoop (buildRegistry 1024 512) pkts st1 = Ret (evs', st2).
Proof.
  intros pkts. apply (dispatch_loops_safe 1024 512 Dispatch.sample_session pkts ∅).
  - unfold Dispatch.sample_session.
    do 3 (apply Forall_cons_2; [intros _; eapply resolved_safe; [vm_compute; reflexivity|exact I]|]).
    apply Forall_nil_2.
  - apply Forall_cons_2; [|apply Forall_cons_2; [|apply Forall_nil_2]].
    + unfold safe_packet. eapply resolved_safe; [vm_compute; reflexivity|]. vm_compute. reflexivity.
    + unfold safe_packet. eapply resolved_safe; [vm_compute; reflexivity|exact I].
Defined.

(** A reply to the Redis port. *)
Definition sample_redis_stream : Reassembly.StreamData :=
  {| Reassembly.Net := ([], []); Reassembly.Transport := ([], []);
     Reassembly.Data := str "$9223372036854775800" ++ CRLF; Reassembly.IsClient := false;
     Reassembly.Timestamp := Some 7;
     Reassembly.Meta := {| Reassembly.SrcIP := []; Reassembly.DstIP := []; Reassembly.SrcPort := 40000;
                           Reassembly.DstPort := 6379; Reassembly.ConnID := 9 |};
     Reassembly.Closed := false |}.

Lemma dispatch_stream_crashes_witness :
  Dispatch.handleTCP (buildRegistry 1024 512) 5 (fun _ => 7) sample_redis_stream ∅ = Panic SliceOutOfRange.
Proof.
  apply (dispatch_stream_crashes 1024 512 5 (fun _ => 7) sample_redis_stream ∅); [reflexivity|].
  left. repeat split; vm_compute; reflexivity.
Defined.
