(* ===== verification/Stream.v ===== *)
(** * From the segments of a connection to its Kafka messages

    The stages composed along the path of one TCP connection: the stream object
    of [internal/reassembly/stream.go], the loop of
    [internal/dispatch/dispatcher.go] with the registry of [main], and the
    worker of [internal/output/kafka.go]. *)

From S2P Require Import Prelude.
From S2P Require Import GoStrings.
From S2P Require Import Event.
From S2P Require Import Framing.
From S2P Require Import Mysql.
From S2P Require Import Http.
From S2P Require Import Registry.
From S2P Require Import Parsers.
From S2P Require Import Wire.
From S2P Require Import Reassembly.
From S2P Require Import Dispatch.
From S2P Require Import Output.
From S2P Require Import EventJson.
From S2P Require Import Attribution.

Module Stream.
Import Reassembly.Reassembly.

(** A mapped list that ends with a value ends with one that maps to it. *)
Lemma exists_last_map {A B} (f : A -> B) (l : list A) k x :
  map f l = k ++ [x] -> exists l' a, l = l' ++ [a] /\ f a = x.
Proof.
  intros E. destruct l as [|a l _] using rev_ind; [by destruct k|].
  rewrite map_app in E. apply app_inj_tail in E as [_ E]. eauto.
Qed.

Section Stream.
Context `{Unicode} `{NetHTTP} `{GopacketFlow} `{NetIP} `{Serializer}.
Variables (b q : Z).

Let registry := buildRegistry b q.

(** The output channel of the reassembler before its first message. *)
Definition empty_channel (cap : Z) : channel StreamData :=
  {| chan_buf := []; chan_cap := cap; chan_closed := false |}.

(** ** Small connections are parsed whole *)

(** The stream that holds the bytes [c] of the client and [d] of the server. *)
Definition holding (netFlow tcpFlow : flow) (c d : bytes) : biStream :=
  let s := New netFlow tcpFlow in
  {| net := net s; transport := transport s; connID := connID s; clientBuf := c; serverBuf := d |}.

(** The message with the bytes of a direction, if there are any. *)
Definition direction_messages (netFlow tcpFlow : flow) (ac : option Z) (cl : bool) (data : bytes)
    : list StreamData :=
  if len data =? 0 then [] else
  [{| Net := netFlow; Transport := tcpFlow; Data := data; IsClient := cl; Timestamp := ac;
      Meta := conn_meta (New netFlow tcpFlow); Closed := false |}].

(** The messages of a connection that is flushed only when it ends. *)
Definition whole_messages (netFlow tcpFlow : flow) (ac : option Z) (c d : bytes) : list StreamData :=
  direction_messages netFlow tcpFlow ac true c ++ direction_messages netFlow tcpFlow ac false d
  ++ [{| Net := netFlow; Transport := tcpFlow; Data := []; IsClient := false; Timestamp := None;
         Meta := conn_meta (New netFlow tcpFlow); Closed := true |}].

Lemma ReassembledSG_small s data cl ac out :
  len (buffer s cl ++ data) < maxBufferSize ->
  ReassembledSG s data cl ac out = Ret (set_buffer s cl (buffer s cl ++ data), out, []).
Proof.
  intros Hl. unfold ReassembledSG. cbv zeta. destruct (len data =? 0) eqn:E.
  - assert (data = []) as -> by (destruct data; [done|lens]). rewrite app_nil_r.
    by destruct s, cl.
  - rewrite buffer_set, eqb_reflx. by replace (maxBufferSize <=? _) with false by lia.
Qed.

Lemma run_small netFlow tcpFlow cap received ops c d :
  len (c ++ delivered_by_engine true ops) < maxBufferSize ->
  len (d ++ delivered_by_engine false ops) < maxBufferSize ->
  run ops (holding netFlow tcpFlow c d) (empty_channel cap) received
  = Ret (holding netFlow tcpFlow (c ++ delivered_by_engine true ops) (d ++ delivered_by_engine false ops),
         empty_channel cap, received, []).
Proof.
  revert c d. induction ops as [|o ops IH]; intros c d Hc Hd; cbn [run]; [by rewrite !app_nil_r|].
  unfold delivered_by_engine in *. cbn [map concat] in *. destruct o as [data cl ac|]; cbn [step].
  - destruct cl; cbn [Bool.eqb app] in *; rewrite ReassembledSG_small
      by (cbn [buffer clientBuf serverBuf holding]; rewrite ?app_assoc, ?len_app in *; lens);
      cbn [mbind outcome_bind buffer clientBuf serverBuf holding];
      [change (set_buffer _ true _) with (holding netFlow tcpFlow (c ++ data) d)
      |change (set_buffer _ false _) with (holding netFlow tcpFlow c (d ++ data))];
      rewrite IH by (rewrite <- ?app_assoc; done); by rewrite <- app_assoc.
  - cbn [recv_chan chan_buf chan_closed empty_channel mbind outcome_bind Bool.eqb app] in *. by rewrite IH.
Qed.

Lemma try_send_ret {A} (ch : channel A) x :
  chan_closed ch = false -> len (chan_buf ch) < chan_cap ch ->
  try_send ch x =
  Ret ({| chan_buf := chan_buf ch ++ [x]; chan_cap := chan_cap ch; chan_closed := false |}, true).
Proof. intros Hc Hl. unfold try_send. rewrite Hc. by replace (_ <? _) with true by lia. Qed.

(** One direction at the end of the connection, with room in the channel. *)
Lemma flush_ret s cl ac out :
  chan_closed out = false -> len (chan_buf out) < chan_cap out ->
  (if 0 <? len (buffer s cl) then flushDirectionLocked s cl ac out else Ret (s, out, [])) =
  let new := if len (buffer s cl) =? 0 then [] else
    [{| Net := net s; Transport := transport s; Data := buffer s cl; IsClient := cl;
        Timestamp := ac; Meta := conn_meta s; Closed := false |}] in
  Ret (set_buffer s cl [],
       {| chan_buf := chan_buf out ++ new; chan_cap := chan_cap out; chan_closed := false |},
       map (fun m => (m, true)) new).
Proof.
  intros Hc Hl. cbv zeta. unfold flushDirectionLocked. pose proof (len_nonneg (buffer s cl)).
  destruct (len (buffer s cl) =? 0) eqn:E.
  - replace (0 <? _) with false by lia. rewrite app_nil_r.
    assert (Hb : buffer s cl = []) by (destruct (buffer s cl); [done|lens]).
    destruct out, s, cl; cbn in *; by subst.
  - replace (0 <? _) with true by lia. rewrite extractPorts_ret. cbn [mbind outcome_bind].
    by rewrite try_send_ret.
Qed.

Ltac room :=
  cbn [chan_buf chan_cap empty_channel buffer set_buffer holding clientBuf serverBuf app];
  repeat case_match; lens.

Lemma Complete_holding netFlow tcpFlow cap ac c d :
  3 <= cap ->
  ReassemblyComplete (holding netFlow tcpFlow c d) ac (empty_channel cap)
  = Ret (false, holding netFlow tcpFlow [] [],
         {| chan_buf := whole_messages netFlow tcpFlow ac c d; chan_cap := cap; chan_closed := false |},
         map (fun m => (m, true)) (whole_messages netFlow tcpFlow ac c d)).
Proof.
  intros Hcap. unfold ReassemblyComplete.
  change (clientBuf (holding netFlow tcpFlow c d)) with (buffer (holding netFlow tcpFlow c d) true).
  rewrite flush_ret by (done || room). cbv zeta. cbn [mbind outcome_bind].
  match goal with |- context [serverBuf ?s] => change (serverBuf s) with (buffer s false) end.
  rewrite flush_ret by (done || room). cbv zeta. cbn [mbind outcome_bind].
  unfold emitCloseLocked. rewrite extractPorts_ret. cbn [mbind outcome_bind].
  rewrite try_send_ret by (done || room).
  cbn [mbind outcome_bind]. unfold whole_messages, direction_messages. cbn.
  by destruct (len c =? 0), (len d =? 0).
Qed.

(** How a connection is cut into segments does not matter. When neither
    direction reaches 256 KiB and the channel has room, then for every way the
    engine hands over the data of the two directions, the stream emits only
    at the end, and exactly: all the client's bytes in one message, all the
    server's bytes in one message (none for an empty direction), and the close
    marker. *)
Theorem small_connection_messages netFlow tcpFlow ops cap ac :
  3 <= cap ->
  len (delivered_by_engine true ops) < maxBufferSize ->
  len (delivered_by_engine false ops) < maxBufferSize ->
  let msgs := whole_messages netFlow tcpFlow ac (delivered_by_engine true ops) (delivered_by_engine false ops) in
  exists s,
    run ops (New netFlow tcpFlow) (empty_channel cap) [] = Ret (s, empty_channel cap, [], []) /\
    ReassemblyComplete s ac (empty_channel cap)
    = Ret (false, New netFlow tcpFlow,
           {| chan_buf := msgs; chan_cap := cap; chan_closed := false |}, map (fun m => (m, true)) msgs).
Proof.
  intros Hcap Hc Hd msgs. eexists. split; [exact (run_small netFlow tcpFlow cap [] ops [] [] Hc Hd)|].
  by apply Complete_holding.
Qed.

(** ** Any connection *)

(** The connection as the parsers see it. *)
Definition stream_meta_of (netFlow tcpFlow : flow) : Event.ConnMeta :=
  Dispatch.tcp_meta (conn_meta (New netFlow tcpFlow)).

Lemma delivered_metas netFlow tcpFlow log :
  Forall (message_ok (New netFlow tcpFlow)) log ->
  Forall (fun sd => Meta sd = conn_meta (New netFlow tcpFlow)) (delivered log).
Proof.
  intros Hl. induction Hl as [|[sd sent] log [Hm _] Hl IH]; [constructor|].
  unfold delivered. cbn [omap list_omap]. destruct sent; [by constructor|done].
Qed.

(** The events of one connection's messages, message by message. *)
Lemma loop_from netFlow tcpFlow msgs st evs st' :
  Forall (fun sd => Meta sd = conn_meta (New netFlow tcpFlow)) (map snd msgs) ->
  Dispatch.tcpLoop registry msgs st = Ret (evs, st') ->
  exists per_message, evs = concat per_message /\ length per_message = length msgs /\
    Forall (from_connection (stream_meta_of netFlow tcpFlow)) per_message.
Proof.
  intros Hm Hloop. pose proof (tcpLoop_from registry msgs st) as Hy. rewrite Hloop in Hy.
  destruct Hy as (pm & -> & Hpm). exists pm. split; [done|]. split; [symmetry; by eapply Forall2_length|].
  clear -Hm Hpm. induction Hpm as [|[[now clk] sd] evs msgs pm Hp Hpm IH]; [constructor|].
  cbn [map] in Hm. apply Forall_cons_1 in Hm as [Hsd Hm]. constructor; [|by apply IH].
  unfold stream_meta_of. cbn [snd] in Hsd. by rewrite <- Hsd.
Qed.

Lemma from_connection_keys meta per_message :
  Forall (from_connection meta) per_message ->
  Forall (fun k => Output.Key k = Output.flow_key meta) (Output.worker (concat per_message)).
Proof.
  intros Hfrom. apply Output.worker_keys. induction Hfrom as [|evs pm [p Hp] Hfrom IH]; [constructor|].
  cbn [concat]. apply Forall_app. split; [|done]. eapply Forall_impl; [|exact Hp]. by intros ev (_ & Hf & _).
Qed.

(** The path of a connection through the agent. For whatever segments in
    both directions, whatever room in the channel, and any dispatch of the
    messages that were not dropped: the events are, message by message, events
    of one parser on this connection; all their Kafka messages have the
    connection's key; and when the close marker was not dropped, no parser
    keeps state of the connection. *)
Theorem stream_to_kafka netFlow tcpFlow ops cap ac s out1 received log1 s' out' log2 msgs st evs st' :
  run ops (New netFlow tcpFlow) (empty_channel cap) [] = Ret (s, out1, received, log1) ->
  ReassemblyComplete s ac out1 = Ret (false, s', out', log2) ->
  map snd msgs = received ++ chan_buf out' ->
  Dispatch.tcpLoop registry msgs st = Ret (evs, st') ->
  let meta := stream_meta_of netFlow tcpFlow in
  (exists per_message, evs = concat per_message /\ length per_message = length msgs /\
     Forall (from_connection meta) per_message) /\
  Forall (fun k => Output.Key k = Output.flow_key meta) (Output.worker evs) /\
  ((exists log m, log1 ++ log2 = log ++ [(m, true)]) -> st' !! m_ConnID meta = None).
Proof.
  intros Hrun HC Hmsgs Hloop meta.
  pose proof (run_wp ops (New netFlow tcpFlow) (empty_channel cap) [] eq_refl ltac:(done)) as Hw.
  rewrite Hrun in Hw. destruct Hw as (Hopen & Hs & Hid & Hrc & Hdata & Hok & _).
  pose proof (ReassemblyComplete_wp s ac out1 Hopen) as Hw. rewrite HC in Hw.
  destruct Hw as (_ & _ & (_ & _ & Hbuf) & _ & log' & m & Hlog2 & Hclosed & Hok2 & _).
  assert (Hall : received ++ chan_buf out' = delivered (log1 ++ log2)).
  { rewrite Hbuf, app_assoc, Hrc. unfold delivered. by rewrite omap_app. }
  assert (Hm : Forall (fun sd => Meta sd = conn_meta (New netFlow tcpFlow)) (map snd msgs)).
  { rewrite Hmsgs, Hall. apply delivered_metas, Forall_app. split; [done|].
    unfold message_ok in *. by rewrite Hid in Hok2. }
  destruct (loop_from _ _ _ _ _ _ Hm Hloop) as (pm & -> & Hlen & Hfrom).
  split; [by exists pm|]. split; [by apply from_connection_keys|].
  - intros (log & m' & Hlast). rewrite Hlast in Hall. unfold delivered in Hall. rewrite omap_app in Hall.
    cbn in Hall. rewrite Hall in Hmsgs.
    assert (m = (m', true)) as ->.
    { rewrite Hlog2, app_assoc in Hlast. by apply app_inj_tail in Hlast as [_ ?]. }
    destruct (exists_last_map snd msgs _ m' Hmsgs) as (msgs' & [[now clk] sd] & -> & Hsd). cbn [snd] in Hsd. subst sd.
    assert (Hid' : m_ConnID meta = ConnID (Meta m')).
    { unfold meta, stream_meta_of. rewrite map_app in Hm. apply Forall_app in Hm as [_ Hm].
      apply Forall_cons_1 in Hm as [<- _]. done. }
    rewrite Hid'. by eapply (Dispatch.tcpLoop_close b q); [exact Hloop|].
Qed.

(** ** From segments to events *)

(** One direction, when the ports settle the parser. *)
Lemma direction_loop p netFlow tcpFlow ac cl data msgs :
  let meta := conn_meta (New netFlow tcpFlow) in
  Registry.by_port registry (SrcPort meta) (DstPort meta) p ->
  map snd msgs = direction_messages netFlow tcpFlow ac cl data ->
  (data = [] /\ msgs = []) \/
  exists now clk, forall st, Dispatch.tcpLoop registry msgs st
    = Dispatch.parse_and_emit p now clk data [] (stream_meta_of netFlow tcpFlow) cl st.
Proof.
  intros meta Hport Hmsgs. unfold direction_messages in Hmsgs. destruct (len data =? 0) eqn:E.
  - left. split; [destruct data; [done|lens]|by destruct msgs].
  - right. destruct msgs as [|[[now clk] sd] [|]]; try done. injection Hmsgs as ->. exists now, clk. intros st.
    cbn [Dispatch.tcpLoop]. unfold Dispatch.handleTCP. cbn [Closed Data Meta IsClient]. rewrite E.
    rewrite (Registry.Resolve_by_port _ _ _ p) by done. cbn [mbind outcome_bind]. unfold stream_meta_of.
    by destruct (Dispatch.parse_and_emit _ _ _ _ _ _ _ _) as [[evs st']|e|];
      cbn [mbind outcome_bind]; rewrite ?app_nil_r.
Qed.

(** A whole connection is its two directions and its close. *)
Lemma whole_messages_loop netFlow tcpFlow ac c d msgs :
  map snd msgs = whole_messages netFlow tcpFlow ac c d ->
  exists mc ms,
    map snd mc = direction_messages netFlow tcpFlow ac true c /\
    map snd ms = direction_messages netFlow tcpFlow ac false d /\
    forall st, Dispatch.tcpLoop registry msgs st =
      ('(e1, st1) ← Dispatch.tcpLoop registry mc st; '(e2, st2) ← Dispatch.tcpLoop registry ms st1;
       Ret (e1 ++ e2, Http.OnConnClose (m_ConnID (stream_meta_of netFlow tcpFlow)) st2)).
Proof.
  intros Hmsgs. unfold whole_messages in Hmsgs.
  apply map_eq_app in Hmsgs as (mc & rest & -> & Hmc & Hrest).
  apply map_eq_app in Hrest as (ms & mx & -> & Hms & Hmx).
  destruct mx as [|[[now clk] sd] [|]]; try done. injection Hmx as ->. exists mc, ms. split_and!; [done|done|].
  intros st. rewrite Dispatch.tcpLoop_app.
  destruct (Dispatch.tcpLoop registry mc st) as [[e1 st1]|e|]; cbn [mbind outcome_bind]; [|done|done].
  rewrite Dispatch.tcpLoop_app.
  destruct (Dispatch.tcpLoop registry ms st1) as [[e2 st2]|e|]; cbn [mbind outcome_bind]; [|done|done].
  cbn [Dispatch.tcpLoop]. unfold Dispatch.handleTCP. cbn [Closed Meta mbind outcome_bind].
  unfold registry. by rewrite Dispatch.NotifyClose_main, !app_nil_r.
Qed.

(** A direction that carries messages of the parser's wire format. *)
Lemma wire_direction p (W : WireFormat p) netFlow tcpFlow ac cl ms msgs st :
  let meta := conn_meta (New netFlow tcpFlow) in
  Registry.by_port registry (SrcPort meta) (DstPort meta) p ->
  Forall (wire_ok p) ms ->
  map snd msgs = direction_messages netFlow tcpFlow ac cl (wire p cl ms) ->
  exists evs, Dispatch.tcpLoop registry msgs st = Ret (evs, st) /\
    untimed <$> evs = omap (wire_event p (stream_meta_of netFlow tcpFlow) cl) ms.
Proof.
  intros meta Hport Hok Hmsgs. destruct (direction_loop p _ _ _ _ _ _ Hport Hmsgs) as [[He ->]|(now & clk & Hl)].
  - apply wire_nil in He as ->. by exists [].
  - rewrite Hl. unfold Dispatch.parse_and_emit.
    destruct (wire_parse p now clk (stream_meta_of netFlow tcpFlow) cl ms st Hok) as (evs & -> & He).
    by exists evs.
Qed.

(** The ports of a connection to or from a service; in the second case no
    parser declares the destination, so that the source decides. *)
Definition to_service (sv : service) (srcPort dstPort : Z) : Prop :=
  (dstPort ∈ service_ports sv) \/ (dstPort ∉ declared_ports) /\ (srcPort ∈ service_ports sv).

Lemma service_by_port sv srcPort dstPort :
  to_service sv srcPort dstPort -> Registry.by_port registry srcPort dstPort (service_parser q sv).
Proof.
  unfold Registry.by_port, registry. intros [Hd|[Hd Hs]]; [left|right; split].
  - by apply Dispatch.candidates_of, service_ports_own.
  - by apply Dispatch.candidates_of, candidates_undeclared.
  - by apply Dispatch.candidates_of, service_ports_own.
Qed.

Lemma service_events sv netFlow tcpFlow ac st :
  let p := service_parser q sv in
  let W := service_wire q sv in
  forall (cs ss : list (wire_msg p)) msgs,
  to_service sv (port_of (Src_Raw tcpFlow)) (port_of (Dst_Raw tcpFlow)) -> Forall (wire_ok p) (cs ++ ss) ->
  map snd msgs = whole_messages netFlow tcpFlow ac (wire p true cs) (wire p false ss) ->
  let meta := stream_meta_of netFlow tcpFlow in
  exists evs, Dispatch.tcpLoop registry msgs st = Ret (evs, delete (m_ConnID meta) st) /\
    untimed <$> evs = omap (wire_event p meta true) cs ++ omap (wire_event p meta false) ss.
Proof.
  intros p W cs ss msgs Hport [Hokc Hoks]%Forall_app Hmsgs meta. apply service_by_port in Hport.
  apply whole_messages_loop in Hmsgs as (mc & ms & Hmc & Hms & ->).
  destruct (wire_direction p W _ _ _ _ cs mc st Hport Hokc Hmc) as (ec & -> & Hec).
  cbn [mbind outcome_bind].
  destruct (wire_direction p W _ _ _ _ ss ms st Hport Hoks Hms) as (es & -> & Hes).
  cbn [mbind outcome_bind]. eexists. split; [reflexivity|]. by rewrite fmap_app, Hec, Hes.
Qed.

(** ** HTTP, from segments to paired events *)

(** The ports that only the HTTP parser declares *)
Definition http_ports : list Z := [8000; 8888; 3000].

Lemma http_by_port srcPort dstPort :
  dstPort ∈ http_ports -> Registry.by_port registry srcPort dstPort (P_http (Http.NewParser b)).
Proof.
  unfold http_ports. rewrite !elem_of_cons. intros Hp. left. unfold registry.
  destruct Hp as [->|[->|[->|[]%elem_of_nil]]]; by apply Dispatch.candidates_of.
Qed.

Lemma http_direction netFlow tcpFlow ac cl data msgs st :
  let c := m_ConnID (stream_meta_of netFlow tcpFlow) in
  port_of (Dst_Raw tcpFlow) ∈ http_ports ->
  map snd msgs = direction_messages netFlow tcpFlow ac cl data ->
  wp (Dispatch.tcpLoop registry msgs st) (fun '(evs, st') =>
    let s := Http.stateFor st c in
    map UID evs = Http.uids c (Http.seq_of cl s) (length evs) /\
    Http.seq_of (negb cl) (Http.stateFor st' c) = Http.seq_of (negb cl) s /\
    (forall k, k <> c -> st' !! k = st !! k)).
Proof.
  intros c Hport Hmsgs.
  destruct (direction_loop _ _ _ _ _ _ _ (http_by_port _ _ Hport) Hmsgs) as [[_ ->]|(now & clk & ->)]; [done|].
  unfold Dispatch.parse_and_emit. cbn [Parsers.Parse]. apply wp_bind.
  assert (Hb : 0 <= Http.maxBodyBytes (Http.NewParser b)) by (cbn; destruct (b <? 0) eqn:?; lia).
  eapply wp_mono; [by apply Http.Parse_wp|]. intros [r st'] (Hu & _ & Ho & Hfr). by destruct r.
Qed.

(** The two directions of an HTTP connection, dispatched whole. *)
Lemma http_events netFlow tcpFlow ac c d st msgs :
  let id := m_ConnID (stream_meta_of netFlow tcpFlow) in
  port_of (Dst_Raw tcpFlow) ∈ http_ports -> st !! id = None ->
  map snd msgs = whole_messages netFlow tcpFlow ac c d ->
  exists reqs resps, Dispatch.tcpLoop registry msgs st = Ret (reqs ++ resps, st) /\
    forall i rq rs, reqs !! i = Some rq -> resps !! i = Some rs ->
      UID rq = UID rs /\ UID rq = Http.makeUID id (uint64 (Z.of_nat i)).
Proof.
  intros id Hport Hst Hmsgs.
  apply whole_messages_loop in Hmsgs as (mc & ms & Hmc & Hms & Hloop).
  pose proof (http_direction _ _ _ _ _ mc st Hport Hmc) as Hw.
  apply wp_returns in Hw as ([reqs st1] & Hr1 & Hu1 & Ho1 & Hf1).
  pose proof (http_direction _ _ _ _ _ ms st1 Hport Hms) as Hw.
  apply wp_returns in Hw as ([resps st2] & Hr2 & Hu2 & _ & Hf2).
  fold id in Hu1, Ho1, Hf1, Hu2, Hf2, Hloop. exists reqs, resps. split.
  - rewrite Hloop, Hr1. cbn [mbind outcome_bind]. rewrite Hr2. cbn [mbind outcome_bind]. do 2 f_equal.
    apply map_eq. intros k. unfold Http.OnConnClose. destruct (decide (k = id)) as [->|Hk].
    + by rewrite lookup_delete_eq.
    + by rewrite lookup_delete_ne, Hf2, Hf1.
  - assert (Hfresh : Http.seq_of true (Http.stateFor st id) = 0 /\ Http.seq_of false (Http.stateFor st1 id) = 0).
    { cbn [negb] in Ho1. rewrite Ho1. unfold Http.stateFor. by rewrite Hst. }
    destruct Hfresh as [E1 E2]. rewrite E1 in Hu1. rewrite E2 in Hu2. intros i rq rs Hrq Hrs.
    assert (Hi : forall evs ev, map UID evs = Http.uids id 0 (length evs) -> evs !! i = Some ev ->
      UID ev = Http.makeUID id (uint64 (Z.of_nat i))).
    { intros evs ev Hu Hev. assert (Hl : map UID evs !! i = Some (UID ev)) by (by rewrite list_lookup_fmap, Hev).
      rewrite Hu in Hl. unfold Http.uids in Hl. rewrite list_lookup_fmap in Hl.
      apply fmap_Some in Hl as (j & Hj & ->). by apply lookup_seq in Hj as [-> _]. }
    rewrite (Hi _ _ Hu1 Hrq), (Hi _ _ Hu2 Hrs). done.
Qed.

(** HTTP from segments to paired events. A connection to a port of the HTTP
    parser alone, of whose id the parser holds no state, cut into segments in
    any way and shorter than 256 KiB: the events are those of the client's
    bytes followed by those of the server's; the [i]-th of the first and the
    [i]-th of the second have the same UID, which names the connection and
    [i]; and the parser's state is as before. *)
Theorem http_connection_pairs netFlow tcpFlow ops cap ac st :
  3 <= cap -> port_of (Dst_Raw tcpFlow) ∈ http_ports ->
  len (delivered_by_engine true ops) < maxBufferSize ->
  len (delivered_by_engine false ops) < maxBufferSize ->
  let c := m_ConnID (stream_meta_of netFlow tcpFlow) in
  st !! c = None ->
  exists s s' out' log,
    run ops (New netFlow tcpFlow) (empty_channel cap) [] = Ret (s, empty_channel cap, [], []) /\
    ReassemblyComplete s ac (empty_channel cap) = Ret (false, s', out', log) /\
    forall msgs, map snd msgs = chan_buf out' ->
      exists reqs resps, Dispatch.tcpLoop registry msgs st = Ret (reqs ++ resps, st) /\
        forall i rq rs, reqs !! i = Some rq -> resps !! i = Some rs ->
          UID rq = UID rs /\ UID rq = Http.makeUID c (uint64 (Z.of_nat i)).
Proof.
  intros Hcap Hport Hlc Hls c Hst.
  exists (holding netFlow tcpFlow (delivered_by_engine true ops) (delivered_by_engine false ops)).
  eexists _, _, _. split; [exact (run_small netFlow tcpFlow cap [] ops [] [] Hlc Hls)|].
  split; [by apply Complete_holding|]. cbn [chan_buf]. intros msgs Hmsgs.
  by eapply http_events.
Qed.
End Stream.

(** ** From segments to what a consumer reads *)

Section Consumers.
Context `{Unicode} `{NetHTTP} `{GopacketFlow} `{NetIP}.
Variables (b q : Z).

#[local] Existing Instance EventJson.JSONSerializer.

Lemma whole_messages_meta netFlow tcpFlow ac c d :
  Forall (fun sd => Meta sd = conn_meta (New netFlow tcpFlow)) (whole_messages netFlow tcpFlow ac c d).
Proof.
  unfold whole_messages, direction_messages. rewrite !Forall_app.
  split_and!; [by destruct (len c =? 0); repeat constructor|by destruct (len d =? 0); repeat constructor|].
  by repeat constructor.
Qed.

(** From segments to what a consumer reads. A connection with a MySQL,
    MongoDB, MQTT, Redis, PostgreSQL, SMTP, FTP, POP3 or IMAP service, whose two
    directions carry well-formed messages of the protocol, cut into segments in
    any way and shorter than 256 KiB: the agent's events are exactly those of
    the client's messages followed by those of the server's, each in order,
    whatever the clock reads; nothing of the connection stays behind; and the
    Kafka messages have one key and are read back as these events. *)
Theorem service_connection_events sv netFlow tcpFlow ops cap ac st :
  let p := service_parser q sv in
  let W := service_wire q sv in
  forall cs ss : list (wire_msg p),
  3 <= cap -> to_service sv (port_of (Src_Raw tcpFlow)) (port_of (Dst_Raw tcpFlow)) ->
  Forall (wire_ok p) (cs ++ ss) ->
  delivered_by_engine true ops = wire p true cs ->
  delivered_by_engine false ops = wire p false ss ->
  len (wire p true cs) < maxBufferSize -> len (wire p false ss) < maxBufferSize ->
  let meta := stream_meta_of netFlow tcpFlow in
  exists s s' out' log,
    run ops (New netFlow tcpFlow) (empty_channel cap) [] = Ret (s, empty_channel cap, [], []) /\
    ReassemblyComplete s ac (empty_channel cap) = Ret (false, s', out', log) /\
    forall msgs, map snd msgs = chan_buf out' ->
      exists evs, Dispatch.tcpLoop (buildRegistry b q) msgs st = Ret (evs, delete (m_ConnID meta) st) /\
        untimed <$> evs = omap (wire_event p meta true) cs ++ omap (wire_event p meta false) ss /\
        Forall (fun k => Output.Key k = Output.flow_key meta) (Output.worker evs) /\
        mapM (fun k => EventJson.Unmarshal (Output.Value k)) (Output.worker evs)
        = Some (map EventJson.clean_event evs).
Proof.
  intros p W cs ss Hcap Hport Hok Hc Hs Hlc Hls meta. rewrite <- Hc in Hlc. rewrite <- Hs in Hls.
  exists (holding netFlow tcpFlow (delivered_by_engine true ops) (delivered_by_engine false ops)).
  eexists _, _, _. split; [exact (run_small netFlow tcpFlow cap [] ops [] [] Hlc Hls)|].
  split; [by apply Complete_holding|]. cbn [chan_buf]. rewrite Hc, Hs. intros msgs Hmsgs.
  destruct (service_events b q sv _ _ _ st cs ss msgs Hport Hok Hmsgs) as (evs & Hloop & Hevs).
  exists evs. split; [done|]. split; [done|]. split; [|apply EventJson.worker_delivers].
  assert (Hm : Forall (fun sd => Meta sd = conn_meta (New netFlow tcpFlow)) (map snd msgs))
    by (rewrite Hmsgs; apply whole_messages_meta).
  destruct (loop_from b q _ _ _ _ _ _ Hm Hloop) as (pm & -> & _ & Hfrom). by apply from_connection_keys.
Qed.
End Consumers.

(** ** Concrete connections *)

#[local] Existing Instances ascii_unicode head_http raw_flow raw_ip name_serializer.

(** Two hosts, with the server on port 3306. *)
Definition sample_net : flow := ([x0a; x00; x00; x01], [x0a; x00; x00; x02]).
Definition sample_tcp : flow := ([x9c; x40], [x0c; xea]).

(** A query in two segments, and the server's answer. *)
Definition sample_ops : list op :=
  [OpData [x09; x00; x00; x00; x03; x53] true (Some 1); OpReceive; OpData (str "ELECT 1") true (Some 2);
   OpData [x01; x00; x00; x01; x00] false (Some 3)].

Lemma small_connection_messages_witness :
  let msgs := whole_messages sample_net sample_tcp (Some 4) (delivered_by_engine true sample_ops)
                (delivered_by_engine false sample_ops) in
  exists s,
    run sample_ops (New sample_net sample_tcp) (empty_channel 4) [] = Ret (s, empty_channel 4, [], []) /\
    ReassemblyComplete s (Some 4) (empty_channel 4)
    = Ret (false, New sample_net sample_tcp,
           {| chan_buf := msgs; chan_cap := 4; chan_closed := false |}, map (fun m => (m, true)) msgs).
Proof. apply (small_connection_messages sample_net sample_tcp sample_ops 4 (Some 4)); ground. Defined.

(** The stream at its end, its messages, and what the dispatcher makes of them. *)
Definition sample_end : biStream :=
  holding sample_net sample_tcp (delivered_by_engine true sample_ops) (delivered_by_engine false sample_ops).
Definition sample_messages : list StreamData :=
  whole_messages sample_net sample_tcp (Some 4) (delivered_by_engine true sample_ops)
    (delivered_by_engine false sample_ops).
Definition sample_stamped : list (Z * clock * StreamData) :=
  map (fun sd => (5, (fun _ => 7), sd)) sample_messages.
Definition sample_dispatched : list ProtocolEvent * Http.states :=
  match Dispatch.tcpLoop (buildRegistry 1024 6) sample_stamped ∅ with Ret r => r | _ => ([], ∅) end.

Lemma stream_to_kafka_witness :
  let meta := stream_meta_of sample_net sample_tcp in
  let evs := fst sample_dispatched in
  length evs = 2%nat /\
  (exists per_message, evs = concat per_message /\ length per_message = length sample_stamped /\
     Forall (from_connection meta) per_message) /\
  Forall (fun k => Output.Key k = Output.flow_key meta) (Output.worker evs) /\
  ((exists log m, [] ++ map (fun m => (m, true)) sample_messages = log ++ [(m, true)]) ->
   snd sample_dispatched !! m_ConnID meta = None).
Proof.
  intros meta evs. split; [vm_compute; reflexivity|].
  apply (stream_to_kafka 1024 6 sample_net sample_tcp sample_ops 4 (Some 4) sample_end (empty_channel 4) [] []
    (New sample_net sample_tcp) {| chan_buf := sample_messages; chan_cap := 4; chan_closed := false |}
    (map (fun m => (m, true)) sample_messages) sample_stamped ∅ (fst sample_dispatched) (snd sample_dispatched));
    vm_compute; reflexivity.
Defined.

Lemma service_connection_events_witness :
  let p := service_parser 6 S_mysql in
  let W := service_wire 6 S_mysql in
  let cs : list Mysql.packet := [{| Mysql.seq_id := x00; Mysql.payload := x03 :: str "SELECT 1" |}] in
  let ss : list Mysql.packet := [{| Mysql.seq_id := x01; Mysql.payload := [x00] |}] in
  let meta := stream_meta_of sample_net sample_tcp in
  exists s s' out' log,
    run sample_ops (New sample_net sample_tcp) (empty_channel 4) [] = Ret (s, empty_channel 4, [], []) /\
    ReassemblyComplete s (Some 4) (empty_channel 4) = Ret (false, s', out', log) /\
    forall msgs, map snd msgs = chan_buf out' ->
      exists evs, Dispatch.tcpLoop (buildRegistry 1024 6) msgs ∅ = Ret (evs, delete (m_ConnID meta) ∅) /\
        untimed <$> evs = omap (wire_event p meta true) cs ++ omap (wire_event p meta false) ss /\
        Forall (fun k => Output.Key k = Output.flow_key meta) (Output.worker (H := EventJson.JSONSerializer) evs) /\
        mapM (fun k => EventJson.Unmarshal (Output.Value k)) (Output.worker (H := EventJson.JSONSerializer) evs)
        = Some (map EventJson.clean_event evs).
Proof.
  intros p W cs ss meta.
  apply (service_connection_events 1024 6 S_mysql sample_net sample_tcp sample_ops 4 (Some 4) ∅ cs ss).
  - lia.
  - left. unfold service_ports. ground.
  - repeat constructor; cbn; lia.
  - reflexivity.
  - reflexivity.
  - vm_compute. reflexivity.
  - vm_compute. reflexivity.
Defined.

(** A query given to the dispatcher whole, and cut in two as by a flush: the
    parser reads each part on its own, and the event is lost. *)
Definition sample_cut (parts : list bytes) : list (Z * clock * StreamData) :=
  map (fun d => (5, (fun _ => 7), {| Net := sample_net; Transport := sample_tcp; Data := d; IsClient := true;
    Timestamp := None; Meta := conn_meta (New sample_net sample_tcp); Closed := false |})) parts.

Example cut_message_lost :
  let query := [x09; x00; x00; x00; x03] ++ str "SELECT 1" in
  let events parts := match Dispatch.tcpLoop (buildRegistry 1024 6) (sample_cut parts) ∅ with
    | Ret (evs, _) => length evs | _ => 9%nat end in
  events [query] = 1%nat /\ events [take 7 query; drop 7 query] = 0%nat.
Proof. split; vm_compute; reflexivity. Qed.

Definition sample_http_tcp : flow := ([x9c; x40], [x1f; x40]).

(** Two requests and their responses, cut across message boundaries. *)
Definition sample_http_ops : list op :=
  [OpData (str "GET /a HTTP/1.1" ++ CRLF ++ CRLF ++ str "GET /b") true (Some 1);
   OpData (str "HTTP/1.1 200 OK" ++ CRLF) false (Some 2); OpData (str " HTTP/1.1" ++ CRLF ++ CRLF) true (Some 3);
   OpData (CRLF ++ str "HTTP/1.1 404 Not" ++ CRLF ++ CRLF) false (Some 4)].

Lemma http_connection_pairs_witness :
  let c := m_ConnID (stream_meta_of sample_net sample_http_tcp) in
  exists s s' out' log,
    run sample_http_ops (New sample_net sample_http_tcp) (empty_channel 4) [] = Ret (s, empty_channel 4, [], []) /\
    ReassemblyComplete s (Some 5) (empty_channel 4) = Ret (false, s', out', log) /\
    forall msgs, map snd msgs = chan_buf out' ->
      exists reqs resps, Dispatch.tcpLoop (buildRegistry 1024 6) msgs ∅ = Ret (reqs ++ resps, ∅) /\
        forall i rq rs, reqs !! i = Some rq -> resps !! i = Some rs ->
          UID rq = UID rs /\ UID rq = Http.makeUID c (uint64 (Z.of_nat i)).
Proof.
  intros c.
  apply (http_connection_pairs 1024 6 sample_net sample_http_tcp sample_http_ops 4 (Some 5) ∅);
    [lia|ground|vm_compute; reflexivity|vm_compute; reflexivity|reflexivity].
Defined.
End Stream.
