(* ===== verification/Connections.v ===== *)
(** * From the segments of many connections to what a consumer reads

    The reassembly stage, the dispatcher and the producer with many connections
    at once: what is known of a connection alone ([Stream]) holds of it among
    others, because neither the streams ([Factory]) nor the parsers
    ([Isolation]) let one connection influence another. *)

From S2P Require Import Prelude.
From S2P Require Import GoStrings.
From S2P Require Import Event.
From S2P Require Import Http.
From S2P Require Import Registry.
From S2P Require Import Parsers.
From S2P Require Import Wire.
From S2P Require Import Mysql.
From S2P Require Import Reassembly.
From S2P Require Import Factory.
From S2P Require Import Decode.
From S2P Require Import Dispatch.
From S2P Require Import Output.
From S2P Require Import EventJson.
From S2P Require Import Isolation.
From S2P Require Import Attribution.
From S2P Require Import Stream.

Module Connections.
Import Reassembly.Reassembly Factory.Factory Isolation.Isolation Stream.Stream.

(** ** The pieces of one connection *)

Section Pieces.
Context `{GopacketFlow}.

Definition carried (cl : bool) (segs : list segment) : bytes := concat (side_segments cl segs).

Lemma small_chunks cl segs :
  len (carried cl segs) < maxBufferSize ->
  chunks_of [] (side_segments cl segs) = if len (carried cl segs) =? 0 then [] else [carried cl segs].
Proof. intros Hl. by apply (chunks_short []). Qed.

(** A short connection's messages are those of [Stream]. *)
Lemma short_messages n t segs ac c d :
  len (c ++ carried true segs) < maxBufferSize -> len (d ++ carried false segs) < maxBufferSize ->
  stream_messages (holding n t c d) segs ac = whole_messages n t ac (c ++ carried true segs) (d ++ carried false segs).
Proof.
  revert c d. induction segs as [|[[data cl] ac'] segs IH]; intros c d Hc Hd; cbn [stream_messages].
  - unfold carried. cbn [side_segments omap list_omap concat]. by rewrite !app_nil_r.
  - unfold sg_offers. cbv zeta. replace (maxBufferSize <=? _) with false.
    2: { unfold carried, side_segments in *. destruct cl; cbn in *; rewrite !len_app in *; lens. }
    cbn [app]. destruct cl.
    + change (set_buffer _ _ _) with (holding n t (c ++ data) d).
      change (carried true ((data, true, ac') :: segs)) with (data ++ carried true segs) in *.
      change (carried false ((data, true, ac') :: segs)) with (carried false segs) in *.
      rewrite app_assoc in Hc |- *. by apply IH.
    + change (set_buffer _ _ _) with (holding n t c (d ++ data)).
      change (carried true ((data, false, ac') :: segs)) with (carried true segs) in *.
      change (carried false ((data, false, ac') :: segs)) with (data ++ carried false segs) in *.
      rewrite app_assoc in Hd |- *. by apply IH.
Qed.
End Pieces.

(** ** One connection among others *)

Abbreviation messages := (map (fun '(now, clk, sd) => TCPMessage now clk sd)).

Section Connections.
Context `{Unicode} `{NetHTTP} `{GopacketFlow} `{NetIP}.
Variables (b q : Z).

(** The messages among what the dispatcher handles. *)
Definition tcp_messages (items : list item) : list StreamData :=
  omap (fun i => match i with TCPMessage _ _ sd => Some sd | _ => None end) items.

(** The items of a connection, but for the sweeps, are messages, for datagrams
    have the id 0. *)
Lemma own_items_tcp id items :
  id <> 0 ->
  exists msgs, unswept (own_items id items) = messages msgs /\
    map snd msgs = filter (fun sd => ConnID (Meta sd) = id) (tcp_messages items).
Proof.
  intros Hid. unfold unswept, own_items, tcp_messages. induction items as [|i items (msgs & E & Em)]; [by exists []|].
  rewrite (list.filter_cons (touches id)).
  destruct i as [now clk sd|now clk pkt spare|now]; cbn [omap list_omap].
  - rewrite (list.filter_cons (fun m => ConnID (Meta m) = id)). destruct (decide (ConnID (Meta sd) = id)) as [Hc|Hc].
    + rewrite (decide_True (P := touches id _)) by (by right). rewrite list.filter_cons, decide_True by (by intros ?).
      exists ((now, clk, sd) :: msgs). cbn [map]. by rewrite E, <- Em.
    + rewrite (decide_False (P := touches id _)) by (by intros [?|?]). by exists msgs.
  - rewrite decide_False by (intros [?|?]; [done|by apply Hid]). by exists msgs.
  - rewrite decide_True by (by left). rewrite list.filter_cons, decide_False by (intros Hs; by apply Hs). by exists msgs.
Qed.

(** The messages of a stream are those with its id, when no other stream has it. *)
Lemma delivered_own h id (log : list (nat * (StreamData * bool))) :
  Forall (fun m => fst m = h <-> ConnID (Meta (snd m)) = id) (offered log) ->
  Forall (fun '(h', (_, sent)) => h' = h -> sent = true) log ->
  filter (fun sd => ConnID (Meta sd) = id) (delivered (map snd log)) = own_messages h (offered log).
Proof.
  unfold own_messages, offered, delivered. induction log as [|[h' [sd sent]] log IH]; [done|].
  cbn [map]. intros [Hn Hns]%Forall_cons_1 [Hs Hss]%Forall_cons_1. cbn [omap list_omap fst snd] in *.
  specialize (IH Hns Hss). destruct (decide (h' = h)) as [Hh|Hh].
  - rewrite (Hs Hh), !list.filter_cons_True by (done || by apply Hn). cbn [map snd]. by rewrite <- IH.
  - rewrite (list.filter_cons_False (fun m => fst m = h)) by done. rewrite <- IH.
    destruct sent; [|done]. rewrite list.filter_cons_False; [done|]. by intros ?%Hn.
Qed.

(** The stage and the dispatcher have worked on many connections, one of which
    is the stream at [h], whose id no other has. [log] is what the streams gave
    to the channel, and whether it found room there. *)
Definition worked (h : nat) (n t : flow) (segs : list segment) (ac : option Z) (st : Http.states)
    (tr : list (item * list ProtocolEvent)) (st' : Http.states) (log : list (nat * (StreamData * bool))) : Prop :=
  connID (New n t) <> 0 /\
  exists calls cap stg items,
    own_calls h calls = connection h n t segs ac /\
    exec calls (start cap) = Ret (stg, log) /\
    (forall h' n' t', CallNew h' n' t' ∈ calls -> h' <> h -> connID (New n' t') <> connID (New n t)) /\
    tcp_messages items = received stg ++ chan_buf (output stg) /\
    handle_all b q items st = Ret (tr, st').

(** ... and all messages of that stream found room. *)
Definition among (h : nat) (n t : flow) (segs : list segment) (ac : option Z) (st : Http.states)
    (tr : list (item * list ProtocolEvent)) (st' : Http.states) : Prop :=
  exists log, worked h n t segs ac st tr st' log /\ Forall (fun '(h', (_, sent)) => h' = h -> sent = true) log.

(** The stream at [h] is made once. *)
Lemma connection_New h n t segs ac calls n' t' :
  own_calls h calls = connection h n t segs ac -> CallNew h n' t' ∈ calls -> n' = n /\ t' = t.
Proof.
  intros Hown Hin. assert (Ho : CallNew h n' t' ∈ own_calls h calls) by (by apply list_elem_of_filter).
  rewrite Hown in Ho. unfold connection in Ho. apply elem_of_cons in Ho as [[= -> ->]|Ho]; [done|].
  apply elem_of_app in Ho as [Ho|Ho].
  - apply list_elem_of_fmap in Ho as ([[d cl] ac'] & ? & _). done.
  - by apply list_elem_of_singleton in Ho.
Qed.

(** The messages of the connection that found room, which the dispatcher
    handled as on their own, with the sweeps. *)
Lemma delivered_items h n t segs ac st tr st' log :
  worked h n t segs ac st tr st' log ->
  let id := connID (New n t) in
  exists items msgs, handle_all b q items st = Ret (tr, st') /\ unswept (own_items id items) = messages msgs /\
    map snd msgs = filter (fun sd => ConnID (Meta sd) = id) (delivered (map snd log)) /\
    Forall (fun m => fst m = h <-> ConnID (Meta (snd m)) = id) (offered log) /\
    own_messages h (offered log) = stream_messages (New n t) segs ac.
Proof.
  intros (Hid & calls & cap & stg & items & Hown & Hexec & Hids & Hitems & Hall) id. fold id in Hid, Hids.
  pose proof (exec_refines calls (start cap) (start_ok cap)) as Hw. rewrite Hexec in Hw.
  destruct Hw as (Espec & _ & Hacc). unfold accounted in Hacc. cbn [start streams received output chan_buf app] in Espec, Hacc.
  destruct (own_items_tcp id items Hid) as (msgs & Emsgs & Hmsgs).
  exists items, msgs. split; [done|]. split; [done|]. split; [by rewrite Hmsgs, Hitems, Hacc|]. split.
  - pose proof (spec_named (fun h' m => h' = h <-> ConnID m = id) calls ∅) as Hn. rewrite Espec in Hn. apply Hn.
    + intros h' n' t' Hin. split; [intros ->; by destruct (connection_New _ _ _ _ _ _ _ _ Hown Hin) as [-> ->]|].
      intros Hc. destruct (decide (h' = h)) as [|Hne]; [done|]. by destruct (Hids h' n' t' Hin Hne).
    + apply map_Forall_empty.
  - rewrite <- (spec_connection h), <- Hown. destruct (spec_own h calls ∅ ∅ eq_refl) as [_ ->]. by rewrite Espec.
Qed.

Lemma connection_items h n t segs ac st tr st' :
  among h n t segs ac st tr st' ->
  let id := connID (New n t) in
  exists items msgs, handle_all b q items st = Ret (tr, st') /\ unswept (own_items id items) = messages msgs /\
    map snd msgs = stream_messages (New n t) segs ac.
Proof.
  intros (log & Hw & Hsent) id. destruct (delivered_items _ _ _ _ _ _ _ _ _ Hw) as (items & msgs & Hall & Hun & Hmsgs & Hnamed & Hown).
  exists items, msgs. split; [done|]. split; [done|]. by rewrite Hmsgs, (delivered_own h), Hown.
Qed.

(** Every item of the run has the id of a stream, or 0. *)
Lemma among_ids h n t segs ac st tr st' :
  among h n t segs ac st tr st' -> Forall (fun x => 0 <= conn_of (fst x) < 2 ^ 64) tr.
Proof.
  intros (log & (_ & calls & cap & stg & items & _ & Hexec & _ & Hitems & Hall) & _).
  pose proof (exec_refines calls (start cap) (start_ok cap)) as Hw. rewrite Hexec in Hw.
  destruct Hw as (Espec & _ & Hacc). unfold accounted in Hacc. cbn [start streams received output chan_buf app] in Espec, Hacc.
  pose proof (spec_named (fun _ m => 0 <= ConnID m < 2 ^ 64) calls ∅) as Hn. rewrite Espec in Hn.
  specialize (Hn (fun _ n t _ => New_connID n t) (map_Forall_empty _)). cbn [snd] in Hn.
  assert (Hmsgs : Forall (fun sd => 0 <= ConnID (Meta sd) < 2 ^ 64) (tcp_messages items)).
  { rewrite Hitems, Hacc. clear -Hn. unfold delivered, offered in *. induction log as [|[h' [sd sent]] log IH]; [constructor|].
    cbn [map omap list_omap fst snd] in *. apply Forall_cons_1 in Hn as [Hsd Hn]. destruct sent; [constructor; [done|]|]; by apply IH. }
  rewrite <- (handle_all_items _ _ _ _ _ _ Hall) in Hmsgs. clear -Hmsgs.
  induction tr as [|[i evs] tr IH]; [constructor|]. destruct i as [now clk sd|now clk pkt spare|now].
  - apply Forall_cons_1 in Hmsgs as [Hsd Hms]. constructor; [done|by apply IH].
  - constructor; [done|by apply IH].
  - constructor; [done|by apply IH].
Qed.

(** The events of a direction. *)
Definition side_events (cl : bool) (tr : list (item * list ProtocolEvent)) : list ProtocolEvent :=
  concat (map (fun '(i, evs) => match i with
    | TCPMessage _ _ sd => if Bool.eqb (Reassembly.IsClient sd) cl then evs else []
    | UDPPacket _ _ _ _ | Sweep _ => []
    end) tr).

Lemma side_events_app cl l k : side_events cl (l ++ k) = side_events cl l ++ side_events cl k.
Proof. unfold side_events. by rewrite map_app, concat_app. Qed.

Lemma side_events_unswept cl tr : side_events cl (unswept_trace tr) = side_events cl tr.
Proof.
  unfold side_events, unswept_trace. induction tr as [|[i evs] tr IH]; [done|]. rewrite list.filter_cons. cbn [fst].
  case_decide as Hs; cbn [map concat]; [by f_equal|]. destruct i; [by destruct Hs|by destruct Hs|exact IH].
Qed.

(** ** Sweeps and parsers that keep no state *)

(** The HTTP parser is the only one with state that outlives a call. *)
Definition keeps_state (p : parser) : Prop := match p with P_http _ => True | _ => False end.

Lemma parse_stateless p now clk data spare meta cl st :
  ~ keeps_state p ->
  Dispatch.parse_and_emit p now clk data spare meta cl st
  = ('(evs, _) ← Dispatch.parse_and_emit p now clk data spare meta cl ∅; Ret (evs, st)).
Proof.
  intros Hp. assert (E : Parsers.Parse p now clk data spare meta cl st
    = ('(r, _) ← Parsers.Parse p now clk data spare meta cl ∅; Ret (r, st))).
  { destruct p; [by destruct Hp|..]; unfold Parsers.Parse; cbv zeta;
      match goal with |- (r ← ?o; _) = _ => by destruct o end. }
  unfold Dispatch.parse_and_emit. rewrite E.
  by destruct (Parsers.Parse p now clk data spare meta cl ∅) as [[[evs|e] st1]|e|].
Qed.

(** A close marker, or a message to a port that settles a parser without state. *)
Definition stateless_message (m : StreamData) : Prop :=
  Closed m = true \/ exists p, Registry.by_port (buildRegistry b q) (SrcPort (Meta m)) (DstPort (Meta m)) p /\ ~ keeps_state p.

(** A sweep may have dropped the entry of the connection in the first state. *)
Definition swept (id : Z) (st st2 : Http.states) : Prop := st !! id = None \/ st !! id = st2 !! id.

Lemma handle_swept id now clk m st st2 evs st1 :
  stateless_message m -> swept id st st2 -> handle b q (TCPMessage now clk m) st = Ret (evs, st1) ->
  exists st2', handle b q (TCPMessage now clk m) st2 = Ret (evs, st2') /\ swept id st1 st2'.
Proof.
  intros Hm Hst. cbn [handle]. unfold Dispatch.handleTCP. destruct (Closed m) eqn:Hc.
  { rewrite !Dispatch.NotifyClose_main. intros [= <- <-]. eexists. split; [reflexivity|]. unfold swept, Http.OnConnClose in *.
    destruct (decide (ConnID (Meta m) = id)) as [<-|Hne]; [left; apply lookup_delete_eq|].
    by rewrite !lookup_delete_ne by done. }
  destruct Hm as [?|(p & Hp & Hn)]; [congruence|].
  destruct (len (Data m) =? 0); [intros [= <- <-]; by exists st2|].
  rewrite (Registry.Resolve_by_port _ _ _ p) by done. cbn [mbind outcome_bind]. 
  rewrite (parse_stateless p _ _ _ _ _ _ st Hn), (parse_stateless p _ _ _ _ _ _ st2 Hn).
  destruct (Dispatch.parse_and_emit p _ _ _ _ _ _ ∅) as [[evs' st0]|e|]; cbn [mbind outcome_bind]; [|done|done].
  intros [= <- <-]. by exists st2.
Qed.

(** Sweeps change nothing for a connection whose parser keeps no state. *)
Lemma handle_all_swept id items st st2 tr st' :
  Forall (fun i => exists now clk m, i = TCPMessage now clk m /\ stateless_message m) (unswept (own_items id items)) ->
  swept id st st2 -> handle_all b q items st = Ret (tr, st') ->
  exists st2', handle_all b q (unswept (own_items id items)) st2 = Ret (unswept_trace (own_trace id tr), st2') /\
    swept id st' st2'.
Proof.
  unfold unswept, unswept_trace, own_items, own_trace.
  revert st st2 tr. induction items as [|i items IH]; intros st st2 tr; cbn [handle_all].
  { intros _ Hst [= <- <-]. by exists st2. }
  rewrite !(list.filter_cons (touches id)). intros Hm Hst.
  destruct (handle b q i st) as [[evs st1]|e|] eqn:Hi; cbn [mbind outcome_bind]; [|done|done].
  destruct (handle_all b q items st1) as [[tr1 st1']|e|] eqn:Hl; cbn [mbind outcome_bind]; [|done|done].
  intros [= <- <-]. rewrite !(list.filter_cons (fun x => touches id (fst x))). cbn [fst].
  case_decide as Hc.
  - rewrite list.filter_cons in Hm |- *. rewrite (list.filter_cons (fun x => ~ is_sweep (fst x))). cbn [fst]. case_decide as Hs.
    + apply Forall_cons_1 in Hm as [(now & clk & m & -> & Hm) Hms].
      destruct (handle_swept id now clk m st st2 evs st1 Hm Hst Hi) as (st2' & Hi2 & E2).
      destruct (IH _ _ _ Hms E2 Hl) as (st3 & Hl2 & E3). exists st3. split; [|done].
      cbn [handle_all]. rewrite Hi2. cbn [mbind outcome_bind]. by rewrite Hl2.
    + apply (IH st1); [done| |done]. destruct i as [| |now]; [by destruct Hs|by destruct Hs|].
      injection Hi as <- <-. unfold swept in *. destruct (Http.gc now st !! id) as [o|] eqn:Eg; [|by left].
      apply Http.http_gc_lookup in Eg as [Eg _]. right. rewrite Eg in Hst. by destruct Hst.
  - apply (IH st1); [done| |done]. unfold swept in *. rewrite (handle_frame b q id i st evs st1 Hc Hi). done.
Qed.

Lemma unswept_own_events c items st tr st' :
  handle_all b q items st = Ret (tr, st') ->
  concat (map snd (unswept_trace (own_trace c tr))) = concat (map snd (own_trace c tr)).
Proof. intros Hall. destruct (handle_all_own b q c items st st tr st' eq_refl Hall) as (st1 & Hown & _). by eapply unswept_events. Qed.

(** The messages of a connection, when its parser keeps no state. *)
Lemma swept_run id items msgs st tr st' :
  unswept (own_items id items) = messages msgs -> Forall stateless_message (map snd msgs) ->
  handle_all b q items st = Ret (tr, st') ->
  exists utr st1, handle_all b q (messages msgs) st = Ret (utr, st1) /\ swept id st' st1 /\
    concat (map snd utr) = concat (map snd (own_trace id tr)) /\ forall cl, side_events cl utr = side_events cl (own_trace id tr).
Proof.
  intros Hun Hm Hall. exists (unswept_trace (own_trace id tr)).
  destruct (handle_all_swept id items st st tr st') as (st1 & Hown & Hst); [|by right|done|].
  - rewrite Hun. clear -Hm. induction msgs as [|[[now clk] m] msgs IH]; [constructor|]. cbn [map snd] in Hm |- *.
    apply Forall_cons_1 in Hm as [Hs Hm]. constructor; [by exists now, clk, m|by apply IH].
  - rewrite Hun in Hown. exists st1. split; [done|]. split; [done|].
    split; [by eapply unswept_own_events|]. intros cl. apply side_events_unswept.
Qed.

(** The messages of a connection whose state no sweep drops. *)
Lemma kept_run id items msgs st tr st' :
  unswept (own_items id items) = messages msgs -> sweeps_keep b q id (map fst tr) st ->
  handle_all b q items st = Ret (tr, st') ->
  exists utr st1, handle_all b q (messages msgs) st = Ret (utr, st1) /\ st1 !! id = st' !! id /\
    concat (map snd utr) = concat (map snd (own_trace id tr)) /\ forall cl, side_events cl utr = side_events cl (own_trace id tr).
Proof.
  intros Hun Hk Hall. rewrite (handle_all_items _ _ _ _ _ _ Hall) in Hk. exists (unswept_trace (own_trace id tr)).
  destruct (handle_all_kept b q id items st st tr st' eq_refl Hk Hall) as (st1 & Hown & Hst).
  rewrite Hun in Hown. exists st1. split; [done|]. split; [done|].
  split; [by eapply unswept_own_events|]. intros cl. apply side_events_unswept.
Qed.

(** A run that ends with the close marker of the connection. *)
Lemma handle_close msgs ms (m : StreamData) st tr st1 :
  map snd msgs = ms ++ [m] -> Closed m = true -> handle_all b q (messages msgs) st = Ret (tr, st1) ->
  exists msgs0 tr0 st0, map snd msgs0 = ms /\ handle_all b q (messages msgs0) st = Ret (tr0, st0) /\
    st1 = delete (ConnID (Meta m)) st0 /\ concat (map snd tr) = concat (map snd tr0) /\
    forall cl, side_events cl tr = side_events cl tr0.
Proof.
  intros Hm Hc Hall. apply map_eq_app in Hm as (msgs0 & last & -> & Hms & Hlast).
  destruct last as [|[[now clk] sd] [|]]; try done. injection Hlast as ->. rewrite map_app, handle_all_app in Hall.
  destruct (handle_all b q (messages msgs0) st) as [[tr0 st0]|e|] eqn:Hl; cbn [mbind outcome_bind] in Hall; [|done|done].
  cbn [map handle_all handle] in Hall. unfold Dispatch.handleTCP in Hall. rewrite Hc in Hall. cbn [mbind outcome_bind] in Hall.
  rewrite Dispatch.NotifyClose_main in Hall. injection Hall as <- <-. exists msgs0, tr0, st0. split; [done|]. split; [done|]. split; [reflexivity|].
  split; [by rewrite map_app, concat_app, app_nil_r|]. intros cl. rewrite side_events_app. unfold side_events at 2. cbn [map concat]. destruct (Bool.eqb _ _); by rewrite app_nil_r.
Qed.

(** ** HTTP, of any length *)

Definition http_message (c : Z) (m : StreamData) : Prop :=
  ConnID (Meta m) = c /\ DstPort (Meta m) ∈ http_ports /\ Closed m = false /\ Data m <> [].

(** A data message to a port that settles the parser. *)
Lemma handle_data p now clk (m : StreamData) st :
  Registry.by_port (buildRegistry b q) (SrcPort (Meta m)) (DstPort (Meta m)) p -> Closed m = false -> Data m <> [] ->
  handle b q (TCPMessage now clk m) st
  = Dispatch.parse_and_emit p now clk (Data m) [] (Dispatch.tcp_meta (Meta m)) (IsClient m) st.
Proof.
  intros Hp Hc Hd. cbn [handle]. unfold Dispatch.handleTCP. rewrite Hc.
  replace (len (Data m) =? 0) with false by (destruct (Data m); [done|lens]).
  by rewrite (Registry.Resolve_by_port _ _ _ p).
Qed.

Lemma http_messages_uids c msgs st tr st1 :
  Forall (http_message c) (map snd msgs) -> handle_all b q (messages msgs) st = Ret (tr, st1) ->
  forall cl, map UID (side_events cl tr) = Http.uids c (Http.seq_of cl (Http.stateFor st c)) (length (side_events cl tr)).
Proof.
  revert st tr. induction msgs as [|[[now clk] m] msgs IH]; intros st tr Hms; [by intros [= <- _]|]. cbn [map handle_all].
  rewrite map_cons in Hms. apply Forall_cons_1 in Hms as [(Hc & Hp & Ho & Hd) Hms].
  cbn [snd] in Hc, Hp, Ho, Hd.
  rewrite (handle_data _ _ _ _ _ (http_by_port b q _ _ Hp) Ho Hd). unfold Dispatch.parse_and_emit. cbn [Parsers.Parse].
  assert (Hb : 0 <= Http.maxBodyBytes (Http.NewParser b)) by (cbn; destruct (b <? 0) eqn:?; lia).
  pose proof (Http.Parse_wp (Http.NewParser b) Hb now clk (Data m) (Dispatch.tcp_meta (Meta m)) (IsClient m) st) as Hw.
  apply wp_returns in Hw as ([r st'] & -> & Hu & Hs & Hoth & _). cbn [mbind outcome_bind].
  change (m_ConnID (Dispatch.tcp_meta (Meta m))) with (ConnID (Meta m)) in *. rewrite Hc in *.
  replace (match r with OkR events => Ret (events, st') | ErrR _ => Ret ([], st') end) with (Ret (Http.events_of r, st')) by (by destruct r).
  cbn [mbind outcome_bind].
  destruct (handle_all b q (messages msgs) st') as [[tr1 st1']|e|] eqn:Hl; cbn [mbind outcome_bind]; [|done|done].
  intros [= <- <-] cl. specialize (IH _ _ Hms Hl cl). unfold side_events in *. cbn [map concat].
  destruct (Bool.eqb (IsClient m) cl) eqn:Ecl.
  - apply eqb_prop in Ecl as <-. rewrite map_app, length_app, Hu, IH. by apply Http.uids_app.
  - cbn [app]. replace cl with (negb (IsClient m)) in * by (by destruct (IsClient m), cl). by rewrite IH, Hoth.
Qed.

#[local] Existing Instance EventJson.JSONSerializer.

(** The services' parsers keep no state. *)
Lemma service_stateless sv n t (ms : list StreamData) :
  to_service sv (port_of (Src_Raw t)) (port_of (Dst_Raw t)) ->
  Forall (fun sd => Meta sd = conn_meta (New n t)) ms -> Forall stateless_message ms.
Proof.
  intros Hport Hm. eapply List.Forall_impl; [|exact Hm]. intros m Hmeta. right. exists (service_parser q sv).
  rewrite Hmeta. split; [exact (service_by_port b q _ _ _ Hport)|]. destruct sv as [| | | | |[]]; intros [].
Qed.

Lemma swept_delete id st st0 : swept id st (delete id st0) -> st !! id = None.
Proof. intros [?| ->]; [done|apply lookup_delete_eq]. Qed.

(** A service connection among others, down to what a consumer reads. The
    engine interleaves the calls on any number of streams, and the dispatcher
    the messages of all of them with datagrams. Of one connection, with a
    MySQL, MongoDB, MQTT, Redis, PostgreSQL, SMTP, FTP, POP3 or IMAP service,
    whose directions carry well-formed messages in less than 256 KiB, that is
    cut in any way, whose messages found room in the channel and whose id no
    other connection has: the events are exactly those of its client's messages
    followed by those of its server's, no parser keeps state of it, its Kafka
    messages have one key, and a consumer reads these events. *)
Theorem service_among_connections sv h n t segs ac st tr st' :
  let p := service_parser q sv in
  let W := service_wire q sv in
  forall cs ss : list (wire_msg p),
  among h n t segs ac st tr st' -> (forall cl, len (carried cl segs) < maxBufferSize) ->
  to_service sv (port_of (Src_Raw t)) (port_of (Dst_Raw t)) ->
  Forall (wire_ok p) (cs ++ ss) -> carried true segs = wire p true cs -> carried false segs = wire p false ss ->
  let meta := stream_meta_of n t in
  let evs := concat (map snd (own_trace (m_ConnID meta) tr)) in
  untimed <$> evs = omap (wire_event p meta true) cs ++ omap (wire_event p meta false) ss /\
  st' !! m_ConnID meta = None /\
  Forall (fun k => Output.Key k = Output.flow_key meta) (Output.worker evs) /\
  mapM (fun k => EventJson.Unmarshal (Output.Value k)) (Output.worker evs) = Some (map EventJson.clean_event evs).
Proof.
  intros p W cs ss Ham Hsmall Hport Hok Hc Hs meta evs.
  destruct (connection_items _ _ _ _ _ _ _ _ Ham) as (items & msgs & Hall & Hun & Hmsgs).
  pose proof (short_messages n t segs ac [] [] (Hsmall true) (Hsmall false)) as Eshort. cbn [app] in Eshort.
  change (holding n t [] []) with (New n t) in Eshort. rewrite Eshort in Hmsgs.
  assert (Hm : Forall (fun sd => Meta sd = conn_meta (New n t)) (map snd msgs))
    by (rewrite Hmsgs; apply whole_messages_meta).
  destruct (swept_run _ items msgs st tr st' Hun (service_stateless sv n t _ Hport Hm) Hall) as (utr & st1 & Hall1 & Est & Eevs & _).
  assert (Hloop : Dispatch.tcpLoop (buildRegistry b q) msgs st = Ret (evs, st1))
    by (rewrite tcpLoop_handle_all, Hall1; cbn [mbind outcome_bind]; by rewrite Eevs).
  destruct (loop_from b q _ _ _ _ _ _ Hm Hloop) as (pm & Epm & _ & Hfrom).
  rewrite Hc, Hs in Hmsgs.
  destruct (service_events b q sv _ _ _ st cs ss msgs Hport Hok Hmsgs) as (evs' & Hloop' & Hevs).
  rewrite Hloop in Hloop'. injection Hloop' as <- ->. split; [done|].
  split; [by eapply swept_delete|]. split; [|apply EventJson.worker_delivers].
  rewrite Epm. by apply from_connection_keys.
Qed.

(** ** Services, of any length *)

Section Pieces_of_messages.
Context {p : parser} `{W : !WireFormat p}.

(** The pieces of a direction hold whole messages, in total these. *)
Definition well_cut (cl : bool) (pieces : list bytes) (ms : list (wire_msg p)) : Prop :=
  exists mss, pieces = map (wire p cl) mss /\ concat mss = ms.

(** A direction that never reaches 256 KiB is one piece. *)
Lemma well_cut_short cl segs ms :
  carried cl segs = wire p cl ms -> len (carried cl segs) < maxBufferSize ->
  well_cut cl (chunks_of [] (side_segments cl segs)) ms.
Proof.
  intros Hw Hl. rewrite small_chunks by done. rewrite Hw. destruct (len (wire p cl ms) =? 0) eqn:E.
  - exists []. split; [done|]. symmetry. apply (wire_nil p cl). destruct (wire p cl ms); [done|lens].
  - exists [ms]. split; [done|]. cbn. by rewrite app_nil_r.
Qed.

(** When every segment holds whole messages, so does every piece, for a flush
    comes at the end of a segment. *)
Lemma flushes_aligned `{!Piecewise p} cl acc mss :
  exists gs rest, flushes (wire p cl acc) (map (wire p cl) mss) = (map (wire p cl) gs, wire p cl rest) /\
    concat gs ++ rest = acc ++ concat mss.
Proof.
  assert (Happ : forall l k, wire p cl l ++ wire p cl k = wire p cl (l ++ k)).
  { intros l k. pose proof (wire_concat cl [l; k]) as Hc. cbn [map concat] in Hc. by rewrite !app_nil_r in Hc. }
  assert (Hnil : wire p cl [] = []) by exact (wire_concat cl []).
  revert acc. induction mss as [|ms mss IH]; intros acc; cbn [map flushes concat].
  - exists [], acc. by rewrite app_nil_r.
  - rewrite Happ. destruct (maxBufferSize <=? _).
    + destruct (IH []) as (gs & rest & Hf & Hc). rewrite Hnil in Hf. rewrite Hf. exists ((acc ++ ms) :: gs), rest.
      split; [done|]. cbn [concat]. by rewrite <- app_assoc, Hc, <- app_assoc.
    + destruct (IH (acc ++ ms)) as (gs & rest & Hf & Hc). exists gs, rest. by rewrite Hf, Hc, app_assoc.
Qed.

Lemma well_cut_aligned `{!Piecewise p} cl segs mss :
  side_segments cl segs = map (wire p cl) mss ->
  well_cut cl (chunks_of [] (side_segments cl segs)) (concat mss).
Proof.
  intros ->. destruct (flushes_aligned cl [] mss) as (gs & rest & Hf & Hc).
  assert (Hnil : wire p cl [] = []) by exact (wire_concat cl []). rewrite Hnil in Hf.
  unfold chunks_of. rewrite Hf. cbn [app] in Hc. destruct (len (wire p cl rest) =? 0) eqn:E.
  - assert (rest = []) as -> by (apply (wire_nil p cl); destruct (wire p cl rest); [done|lens]).
    exists gs. by rewrite !app_nil_r in *.
  - exists (gs ++ [rest]). rewrite map_app, concat_app. cbn [map concat]. by rewrite app_nil_r.
Qed.

Definition data_message_of (meta : Reassembly.ConnMeta) (m : StreamData) : Prop :=
  Meta m = meta /\ Closed m = false /\ Data m <> [].

(** Messages with whole protocol messages give the events of these. *)
Lemma service_messages meta msgs gs st tr st1 :
  Registry.by_port (buildRegistry b q) (SrcPort meta) (DstPort meta) p ->
  Forall (data_message_of meta) (map snd msgs) ->
  (forall cl, datas cl (map snd msgs) = map (wire p cl) (gs cl)) ->
  (forall cl, Forall (wire_ok p) (concat (gs cl))) ->
  handle_all b q (messages msgs) st = Ret (tr, st1) ->
  st1 = st /\ forall cl, untimed <$> side_events cl tr = omap (wire_event p (Dispatch.tcp_meta meta) cl) (concat (gs cl)).
Proof.
  intros Hp. revert gs tr. induction msgs as [|[[now clk] m] msgs IH]; intros gs tr Hms Hd Hok.
  { intros [= <- <-]. split; [done|]. intros cl. specialize (Hd cl). by destruct (gs cl). }
  rewrite map_cons in Hms. apply Forall_cons_1 in Hms as [(Hmeta & Hc & Hne) Hms]. cbn [snd] in Hmeta, Hc, Hne.
  cbn [map handle_all]. rewrite <- Hmeta in Hp.
  pose proof (Hd (IsClient m)) as Hg. unfold datas in Hg. cbn [map omap list_omap snd] in Hg. rewrite eqb_reflx in Hg.
  destruct (gs (IsClient m)) as [|g rest] eqn:Eg; [done|]. injection Hg as Hg _.
  rewrite (handle_data p) by done. unfold Dispatch.parse_and_emit. rewrite Hg.
  destruct (wire_parse p now clk (Dispatch.tcp_meta (Meta m)) (IsClient m) g st) as (evs & -> & He).
  { specialize (Hok (IsClient m)). rewrite Eg in Hok. by apply Forall_app in Hok as [? _]. }
  cbn [mbind outcome_bind].
  destruct (handle_all b q (messages msgs) st) as [[tr1 st1']|e|] eqn:Hl; cbn [mbind outcome_bind]; [|done|done].
  intros [= <- <-]. rewrite Hmeta in Hp.
  destruct (IH (fun cl => if Bool.eqb cl (IsClient m) then rest else gs cl) tr1) as [-> Hev]; [exact Hms| | |reflexivity|].
  - intros cl. specialize (Hd cl). unfold datas in Hd. cbn [map omap list_omap snd] in Hd.
    destruct (Bool.eqb cl (IsClient m)) eqn:Ecl.
    + apply eqb_prop in Ecl as ->. rewrite eqb_reflx, Eg in Hd. by injection Hd.
    + replace (Bool.eqb (IsClient m) cl) with false in Hd by (by destruct (IsClient m), cl). exact Hd.
  - intros cl. specialize (Hok cl). destruct (Bool.eqb cl (IsClient m)) eqn:Ecl; [|done].
    apply eqb_prop in Ecl as ->. rewrite Eg in Hok. by apply Forall_app in Hok as [_ ?].
  - split; [done|]. intros cl. specialize (Hev cl). unfold side_events in *. cbn [map concat]. rewrite fmap_app, Hev.
    destruct (Bool.eqb cl (IsClient m)) eqn:Ecl.
    + apply eqb_prop in Ecl as ->. rewrite eqb_reflx, He, Eg, <- Hmeta. cbn [concat]. by rewrite omap_app.
    + by replace (Bool.eqb (IsClient m) cl) with false by (by destruct (IsClient m), cl).
Qed.

(** The first piece of a direction, among the messages of a connection. *)
Lemma first_piece meta msgs cl first t ds st tr st1 :
  Registry.by_port (buildRegistry b q) (SrcPort meta) (DstPort meta) p -> Prefixed p ->
  Forall (data_message_of meta) (map snd msgs) ->
  datas cl (map snd msgs) = (wire p cl first ++ t) :: ds -> Forall (wire_ok p) first ->
  handle_all b q (messages msgs) st = Ret (tr, st1) ->
  omap (wire_event p (Dispatch.tcp_meta meta) cl) first `prefix_of` untimed <$> side_events cl tr.
Proof.
  intros Hp Hpre Hms Hd Hok. revert st tr Hms Hd. induction msgs as [|[[now clk] m] msgs IH]; intros st tr Hms Hd; [done|].
  rewrite map_cons in Hms. apply Forall_cons_1 in Hms as [(Hmeta & Hc & Hne) Hms]. cbn [snd] in Hmeta, Hc, Hne.
  cbn [map handle_all]. rewrite <- Hmeta in Hp. rewrite (handle_data p) by done. unfold Dispatch.parse_and_emit.
  destruct (Parsers.Parse p now clk (Data m) [] _ _ st) as [[r st2]|e|] eqn:Ep; cbn [mbind outcome_bind]; [|done|done].
  replace (match r with OkR events => Ret (events, st2) | ErrR _ => Ret ([], st2) end)
    with (Ret (Http.events_of r, st2)) by (by destruct r). cbn [mbind outcome_bind].
  destruct (handle_all b q (messages msgs) st2) as [[tr1 st1']|e|] eqn:Hl; cbn [mbind outcome_bind]; [|done|done].
  intros [= <- <-]. rewrite Hmeta in Hp. unfold datas in Hd. cbn [map omap list_omap snd] in Hd.
  unfold side_events in *. cbn [map concat]. destruct (Bool.eqb (IsClient m) cl) eqn:Ecl.
  - apply eqb_prop in Ecl as <-. injection Hd as Hd _. rewrite fmap_app. apply prefix_app_r.
    pose proof (wire_prefix now clk (Dispatch.tcp_meta (Meta m)) (IsClient m) first t st Hok) as Hw.
    rewrite <- Hd, Ep in Hw. destruct Hw as (evs & -> & He). by rewrite <- Hmeta.
  - cbn [app]. by apply (IH st2).
Qed.
End Pieces_of_messages.

(** The pieces of both directions, in messages. *)
Lemma cut_pieces sv segs :
  let p := service_parser q sv in
  let W := service_wire q sv in
  forall ms : bool -> list (wire_msg p),
  (forall cl, carried cl segs = wire p cl (ms cl) /\ len (carried cl segs) < maxBufferSize \/
     piecewise sv /\ exists mss, side_segments cl segs = map (wire p cl) mss /\ concat mss = ms cl) ->
  exists gs : bool -> list (list (wire_msg p)),
    forall cl, chunks_of [] (side_segments cl segs) = map (wire p cl) (gs cl) /\ concat (gs cl) = ms cl.
Proof.
  intros p W ms Hcut. assert (Hwell : forall cl, well_cut cl (chunks_of [] (side_segments cl segs)) (ms cl)).
  { intros cl. destruct (Hcut cl) as [[Hc Hl]|(Hpw & mss & Hs & <-)]; [by apply well_cut_short|].
    pose proof (service_piecewise q sv Hpw). by apply well_cut_aligned. }
  destruct (Hwell true) as (gt & Ht), (Hwell false) as (gf & Hf). exists (fun cl : bool => if cl then gt else gf). by intros [].
Qed.

(** Messages that name a connection give Kafka messages of its key. *)
Lemma own_keys n t msgs st tr st1 :
  Forall (fun sd => Meta sd = conn_meta (New n t)) (map snd msgs) ->
  handle_all b q (messages msgs) st = Ret (tr, st1) ->
  Forall (fun k => Output.Key k = Output.flow_key (stream_meta_of n t)) (Output.worker (concat (map snd tr))).
Proof.
  intros Hm Hall. assert (Hloop : Dispatch.tcpLoop (buildRegistry b q) msgs st = Ret (concat (map snd tr), st1))
    by (by rewrite tcpLoop_handle_all, Hall).
  destruct (loop_from b q _ _ _ _ _ _ Hm Hloop) as (pm & -> & _ & Hfrom). by apply from_connection_keys.
Qed.

(** C5: A service connection among others, of any length. The engine interleaves
    the calls on any number of streams, and the dispatcher the messages of all
    of them with datagrams. Of one connection with a MySQL, MongoDB, MQTT,
    Redis, PostgreSQL, SMTP, FTP, POP3 or IMAP service, whose messages found
    room in the channel and whose id no other connection has: when each
    direction either carries well-formed messages in less than 256 KiB, cut in
    any way, or (but for PostgreSQL, with its preamble) comes in segments of
    whole messages, however many, the events of a direction are exactly those of
    its messages, in order; no parser keeps state of the connection; all its
    Kafka messages have one key, and a consumer reads these events. *)
Theorem long_service_among_connections sv h n t segs ac st tr st' :
  let p := service_parser q sv in
  let W := service_wire q sv in
  forall ms : bool -> list (wire_msg p),
  among h n t segs ac st tr st' ->
  to_service sv (port_of (Src_Raw t)) (port_of (Dst_Raw t)) ->
  (forall cl, Forall (wire_ok p) (ms cl)) ->
  (forall cl, carried cl segs = wire p cl (ms cl) /\ len (carried cl segs) < maxBufferSize \/
     piecewise sv /\ exists mss, side_segments cl segs = map (wire p cl) mss /\ concat mss = ms cl) ->
  let meta := stream_meta_of n t in
  let mine := own_trace (m_ConnID meta) tr in
  (forall cl, untimed <$> side_events cl mine = omap (wire_event p meta cl) (ms cl)) /\
  st' !! m_ConnID meta = None /\
  let evs := concat (map snd mine) in
  Forall (fun k => Output.Key k = Output.flow_key meta) (Output.worker evs) /\
  mapM (fun k => EventJson.Unmarshal (Output.Value k)) (Output.worker evs) = Some (map EventJson.clean_event evs).
Proof.
  intros p W ms Ham Hport Hok Hcut meta mine.
  destruct (connection_items _ _ _ _ _ _ _ _ Ham) as (items & msgs & Hall' & Hun & Hmsgs).
  destruct (stream_messages_spec segs ac (New n t)) as (dms & s' & Espec & Hs' & Hms & Hd). rewrite Espec in Hmsgs.
  assert (Hmeta : Forall (fun sd => Meta sd = conn_meta (New n t)) (map snd msgs)).
  { rewrite Hmsgs. apply Forall_app. split; [|by repeat constructor]. eapply List.Forall_impl; [|exact Hms]. by intros m [? _]. }
  destruct (swept_run _ items msgs st tr st' Hun (service_stateless sv n t _ Hport Hmeta) Hall')
    as (utr & st1 & Hall & Est & Eevs & Eside).
  pose proof (handle_close _ _ _ _ _ _ Hmsgs eq_refl Hall) as (msgs0 & tr0 & st0 & Hm0 & Hall0 & -> & _ & Hev).
  destruct (cut_pieces sv segs ms Hcut) as (gs & Hgs).
  destruct (service_messages (conn_meta (New n t)) msgs0 gs st tr0 st0) as [-> Hse]; [|..|exact Hall0|].
  - exact (service_by_port b q _ _ _ Hport).
  - rewrite Hm0. exact Hms.
  - intros cl. rewrite Hm0, Hd, <- (proj1 (Hgs cl)). by destruct cl.
  - intros cl. rewrite (proj2 (Hgs cl)). apply Hok.
  - split; [intros cl; unfold mine; rewrite <- (proj2 (Hgs cl)), <- Hse; f_equal; rewrite <- Hev; symmetry; exact (Eside cl)|]. split.
    { change (st' !! connID (New n t) = None). cbn [close_message Meta] in Est. rewrite Hs' in Est. by eapply swept_delete. }
    cbv zeta. split; [|apply EventJson.worker_delivers]. unfold mine. change (m_ConnID meta) with (connID (New n t)).
    rewrite <- Eevs. by refine (own_keys n t msgs st _ _ _ Hall).
Qed.

(** The first 256 KiB of a service connection among others. The engine
    interleaves the calls on any number of streams, and the dispatcher the
    messages of all of them with datagrams. Of one connection with a MySQL,
    MongoDB, MQTT, Redis, PostgreSQL, SMTP, FTP, POP3 or IMAP service, whose
    messages found room in the channel and whose id no other connection has:
    when a direction starts with well-formed messages that take at most 256 KiB,
    the events of the direction start with exactly those of these messages, in
    order, however the direction is cut and whatever follows them in it, of any
    length. *)
Lemma first_messages_among_connections sv h n t segs ac st tr st' :
  let p := service_parser q sv in
  let W := service_wire q sv in
  forall cl (first : list (wire_msg p)) rest,
  among h n t segs ac st tr st' ->
  to_service sv (port_of (Src_Raw t)) (port_of (Dst_Raw t)) ->
  Forall (wire_ok p) first ->
  carried cl segs = wire p cl first ++ rest -> len (wire p cl first) <= maxBufferSize ->
  let meta := stream_meta_of n t in
  omap (wire_event p meta cl) first `prefix_of` untimed <$> side_events cl (own_trace (m_ConnID meta) tr).
Proof.
  intros p W cl first rest Ham Hport Hok Hc Hl meta.
  destruct (connection_items _ _ _ _ _ _ _ _ Ham) as (items & msgs & Hall' & Hun & Hmsgs).
  destruct (stream_messages_spec segs ac (New n t)) as (dms & s' & Espec & Hs' & Hms & Hd). rewrite Espec in Hmsgs.
  assert (Hmeta : Forall (fun sd => Meta sd = conn_meta (New n t)) (map snd msgs)).
  { rewrite Hmsgs. apply Forall_app. split; [|by repeat constructor]. eapply List.Forall_impl; [|exact Hms]. by intros m [? _]. }
  destruct (swept_run _ items msgs st tr st' Hun (service_stateless sv n t _ Hport Hmeta) Hall') as (utr & st1 & Hall & _ & _ & Eside).
  destruct (handle_close _ _ _ _ _ _ Hmsgs eq_refl Hall) as (msgs0 & tr0 & st0 & Hm0 & Hall0 & _ & _ & Hev).
  change (m_ConnID meta) with (connID (New n t)). rewrite <- Eside, Hev.
  destruct (decide (wire p cl first = [])) as [He|He].
  { apply (wire_nil p) in He as ->. apply prefix_nil. }
  destruct (chunks_first (wire p cl first) rest (side_segments cl segs) Hc He Hl) as (d & ds & Ec & [t' ->]).
  eapply (first_piece (conn_meta (New n t)) msgs0 cl first t' ds st tr0 st0); [| | | |exact Hok|exact Hall0].
  - exact (service_by_port b q _ _ _ Hport).
  - apply service_prefixed.
  - rewrite Hm0. exact Hms.
  - rewrite Hm0, Hd, <- Ec. by destruct cl.
Qed.

(** The data messages of an HTTP connection, as on their own. *)
Lemma http_run h n t segs ac st tr st' :
  among h n t segs ac st tr st' -> port_of (Dst_Raw t) ∈ http_ports ->
  let id := connID (New n t) in
  sweeps_keep b q id (map fst tr) st ->
  exists msgs tr0 st0, Forall (http_message id) (map snd msgs) /\ handle_all b q (messages msgs) st = Ret (tr0, st0) /\
    st' !! id = None /\ concat (map snd tr0) = concat (map snd (own_trace id tr)) /\
    forall cl, side_events cl tr0 = side_events cl (own_trace id tr).
Proof.
  intros Ham Hport id Hkeep. destruct (connection_items _ _ _ _ _ _ _ _ Ham) as (items & msgs & Hall' & Hun & Hmsgs).
  destruct (stream_messages_spec segs ac (New n t)) as (ms & s' & Espec & Hs' & Hms & _). rewrite Espec in Hmsgs.
  destruct (kept_run _ items msgs st tr st' Hun Hkeep Hall') as (utr & st1 & Hall & Est & Eevs & Eside).
  destruct (handle_close _ _ _ _ _ _ Hmsgs eq_refl Hall) as (msgs0 & tr0 & st0 & Hm0 & Hall0 & -> & Eall & Hev).
  exists msgs0, tr0, st0. split; [|split; [exact Hall0|split; [|split]]].
  - rewrite Hm0. eapply List.Forall_impl; [|exact Hms]. intros m (Hmeta & Hc & Hd). unfold http_message. by rewrite Hmeta.
  - fold id in Est. rewrite <- Est. cbn [close_message Meta]. rewrite Hs'. apply lookup_delete_eq.
  - by rewrite <- Eall.
  - intros cl. by rewrite <- Hev.
Qed.

(** C7: An HTTP connection among others, of any length. The engine interleaves
    the calls on any number of streams, and the dispatcher the messages of all
    of them with datagrams and with sweeps of the HTTP parser's janitor, all of
    it without a panic. Of one connection to a port of the HTTP parser alone,
    whose messages found room in the channel, whose id is not zero and of no
    other connection, of whose id the parser holds no state before, and whose
    state no sweep drops, for it is never idle for longer than the limit at a
    sweep: however its data is cut, also by flushes, the [i]-th event of its
    client and the [i]-th event of its server have the same UID, which names the
    connection and [i]; and no state of it stays. *)
Theorem http_among_connections h n t segs ac st tr st' :
  among h n t segs ac st tr st' ->
  port_of (Dst_Raw t) ∈ http_ports -> st !! connID (New n t) = None ->
  let id := connID (New n t) in
  sweeps_keep b q id (map fst tr) st ->
  let events cl := side_events cl (own_trace id tr) in
  st' !! id = None /\
  (forall cl i ev, events cl !! i = Some ev -> UID ev = Http.makeUID id (uint64 (Z.of_nat i))) /\
  (forall i rq rs, events true !! i = Some rq -> events false !! i = Some rs -> UID rq = UID rs).
Proof.
  intros Ham Hport Hst id Hkeep events. change (st !! id = None) in Hst.
  destruct (http_run _ _ _ _ _ _ _ _ Ham Hport Hkeep) as (msgs0 & tr0 & st0 & Hhttp & Hall0 & Est & _ & Hev).
  assert (Hu : forall cl i ev, events cl !! i = Some ev -> UID ev = Http.makeUID id (uint64 (Z.of_nat i))).
  { intros cl i ev Hi. unfold events in Hi. fold id in Hev. rewrite <- Hev in Hi.
    pose proof (http_messages_uids id msgs0 st tr0 st0 Hhttp Hall0 cl) as Huids.
    assert (Hl : map UID (side_events cl tr0) !! i = Some (UID ev)) by (by rewrite list_lookup_fmap, Hi).
    rewrite Huids in Hl. unfold Http.stateFor in Hl. rewrite Hst in Hl. unfold Http.uids in Hl.
    rewrite list_lookup_fmap in Hl. apply fmap_Some in Hl as (j & Hj & ->). apply lookup_seq in Hj as [-> _].
    by destruct cl. }
  split; [exact Est|split; [exact Hu|]].
  intros i rq rs Hrq Hrs. by rewrite (Hu _ _ _ Hrq), (Hu _ _ _ Hrs).
Qed.
End Connections.

(** ** Concrete connections *)

#[local] Existing Instances ascii_unicode head_http raw_flow raw_ip.

(** A MySQL connection and an HTTP connection between the same two hosts. *)
Definition sample_mysql_segs : list segment :=
  [([x09; x00; x00; x00; x03; x53], true, Some 1); (str "ELECT 1", true, Some 2);
   ([x01; x00; x00; x01; x00], false, Some 3)].
Definition sample_http_segs : list segment :=
  [(str "GET /a HTTP/1.1" ++ CRLF, true, Some 1); (str "HTTP/1.1 200 OK" ++ CRLF ++ CRLF, false, Some 2);
   (CRLF, true, Some 2)].

(** The engine's calls for both, with receives of the consumer. *)
Definition sample_calls : list call :=
  [CallNew 0 sample_net sample_tcp;
   CallReassembledSG 0 [x09; x00; x00; x00; x03; x53] true (Some 1);
   CallNew 1 sample_net sample_http_tcp;
   CallReassembledSG 1 (str "GET /a HTTP/1.1" ++ CRLF) true (Some 1);
   CallReassembledSG 0 (str "ELECT 1") true (Some 2);
   CallReassembledSG 1 (str "HTTP/1.1 200 OK" ++ CRLF ++ CRLF) false (Some 2);
   CallReassembledSG 1 CRLF true (Some 2); CallReassemblyComplete 1 (Some 3); Receive;
   CallReassembledSG 0 [x01; x00; x00; x01; x00] false (Some 3); CallReassemblyComplete 0 (Some 4); Receive].

Definition sample_exec : stage * list (nat * (StreamData * bool)) :=
  match exec sample_calls (start 8) with Ret r => r | _ => (start 0, []) end.

(** A datagram to the port of HTTP and a sweep, between the messages. *)
Definition sample_datagram : item :=
  UDPPacket 5 (fun _ => 7)
    {| Decode.Timestamp := 0; Decode.SrcIP := []; Decode.DstIP := []; Decode.SrcPort := 40000; Decode.DstPort := 8000;
       Decode.TransProto := 17; Decode.Flags := Decode.no_flags; Decode.Payload := Some (str "GET /b HTTP/1.1" ++ CRLF ++ CRLF);
       Decode.TCP := None; Decode.RawPacket := [] |} [].

Definition sample_dispatched : list item :=
  match map (fun sd => TCPMessage 5 (fun _ => 7) sd) (received (fst sample_exec) ++ chan_buf (output (fst sample_exec))) with
  | i :: items => i :: sample_datagram :: Sweep Http.minute :: items
  | [] => []
  end.

Lemma sample_calls_streams h n t : CallNew h n t ∈ sample_calls -> n = sample_net /\ (h = 0%nat /\ t = sample_tcp \/ h = 1%nat /\ t = sample_http_tcp).
Proof. unfold sample_calls. rewrite !elem_of_cons, elem_of_nil. naive_solver. Qed.

Lemma sample_ids : connID (New sample_net sample_tcp) <> connID (New sample_net sample_http_tcp).
Proof. vm_compute. done. Qed.

Lemma sample_exec_ret : exec sample_calls (start 8) = Ret (fst sample_exec, snd sample_exec).
Proof.
  assert (Hc : match exec sample_calls (start 8) with Ret _ => True | _ => False end) by (vm_compute; exact I).
  unfold sample_exec. by destruct (exec sample_calls (start 8)) as [[]| |].
Qed.

Lemma sample_among h t segs ac tr st' :
  (h = 0%nat /\ t = sample_tcp \/ h = 1%nat /\ t = sample_http_tcp) ->
  own_calls h sample_calls = connection h sample_net t segs ac ->
  handle_all 1024 6 sample_dispatched ∅ = Ret (tr, st') ->
  among 1024 6 h sample_net t segs ac ∅ tr st'.
Proof.
  intros Ht Hown Hall. exists (snd sample_exec). split; [split; [by destruct Ht as [[_ ->]|[_ ->]]|]|].
  2: { assert (Hs : forallb (fun m => snd (snd m)) (snd sample_exec) = true) by (vm_compute; reflexivity).
    apply List.Forall_forall. intros [h' [sd sent]] Hin _. by apply (proj1 (forallb_forall _ _) Hs) in Hin. }
  exists sample_calls, 8, (fst sample_exec), sample_dispatched.
  split; [exact Hown|]. split; [exact sample_exec_ret|]. split; [|split; [vm_compute; reflexivity|exact Hall]].
  intros h' n' t' Hin Hne. apply sample_calls_streams in Hin as [-> Ht'].
    destruct Ht as [[-> ->]|[-> ->]], Ht' as [[-> ->]|[-> ->]]; [by destruct Hne|apply not_eq_sym, sample_ids|apply sample_ids|by destruct Hne].
Qed.

Lemma sample_handled :
  exists tr st', handle_all 1024 6 sample_dispatched ∅ = Ret (tr, st') /\ length (concat (map snd tr)) = 5%nat.
Proof.
  assert (Hc : match handle_all 1024 6 sample_dispatched ∅ with
    | Ret (tr, _) => length (concat (map snd tr)) = 5%nat | _ => False end) by (vm_compute; done).
  destruct (handle_all 1024 6 sample_dispatched ∅) as [[tr st']|e|]; [eauto|done|done].
Qed.

(** The sweep finds the datagram's state and the connection's, and keeps both. *)
Lemma sample_kept tr st' :
  handle_all 1024 6 sample_dispatched ∅ = Ret (tr, st') ->
  sweeps_keep 1024 6 (connID (New sample_net sample_http_tcp)) (map fst tr) ∅.
Proof.
  intros Hall. rewrite (handle_all_items _ _ _ _ _ _ Hall).
  vm_compute. repeat split.
Qed.

Lemma service_among_connections_witness :
  let p := service_parser 6 S_mysql in
  let W := service_wire 6 S_mysql in
  let cs : list Mysql.packet := [{| Mysql.seq_id := x00; Mysql.payload := x03 :: str "SELECT 1" |}] in
  let ss : list Mysql.packet := [{| Mysql.seq_id := x01; Mysql.payload := [x00] |}] in
  let meta := stream_meta_of sample_net sample_tcp in
  exists tr st', handle_all 1024 6 sample_dispatched ∅ = Ret (tr, st') /\
    let evs := concat (map snd (own_trace (m_ConnID meta) tr)) in
    untimed <$> evs = omap (wire_event p meta true) cs ++ omap (wire_event p meta false) ss /\
    st' !! m_ConnID meta = None /\
    Forall (fun k => Output.Key k = Output.flow_key meta) (Output.worker (H := EventJson.JSONSerializer) evs) /\
    mapM (fun k => EventJson.Unmarshal (Output.Value k)) (Output.worker (H := EventJson.JSONSerializer) evs)
    = Some (map EventJson.clean_event evs).
Proof.
  intros p W cs ss meta. destruct sample_handled as (tr & st' & Hall & _). exists tr, st'. split; [exact Hall|].
  apply (service_among_connections 1024 6 S_mysql 0 sample_net sample_tcp sample_mysql_segs (Some 4) ∅ tr st' cs ss).
  - apply sample_among; [left; split; reflexivity|reflexivity|exact Hall].
  - intros []; reflexivity.
  - left. unfold service_ports. ground.
  - repeat constructor; cbn; lia.
  - vm_compute. reflexivity.
  - vm_compute. reflexivity.
Defined.

(** The client's query is cut in the middle, the server's answer is a segment. *)
Lemma long_service_among_connections_witness :
  let p := service_parser 6 S_mysql in
  let W := service_wire 6 S_mysql in
  let ms (cl : bool) : list Mysql.packet :=
    if cl then [{| Mysql.seq_id := x00; Mysql.payload := x03 :: str "SELECT 1" |}]
    else [{| Mysql.seq_id := x01; Mysql.payload := [x00] |}] in
  let meta := stream_meta_of sample_net sample_tcp in
  exists tr st', handle_all 1024 6 sample_dispatched ∅ = Ret (tr, st') /\
    let mine := own_trace (m_ConnID meta) tr in
    (forall cl, untimed <$> side_events cl mine = omap (wire_event p meta cl) (ms cl)) /\
    st' !! m_ConnID meta = None /\
    let evs := concat (map snd mine) in
    Forall (fun k => Output.Key k = Output.flow_key meta) (Output.worker (H := EventJson.JSONSerializer) evs) /\
    mapM (fun k => EventJson.Unmarshal (Output.Value k)) (Output.worker (H := EventJson.JSONSerializer) evs)
    = Some (map EventJson.clean_event evs).
Proof.
  intros p W ms meta. destruct sample_handled as (tr & st' & Hall & _). exists tr, st'. split; [exact Hall|].
  apply (long_service_among_connections 1024 6 S_mysql 0 sample_net sample_tcp sample_mysql_segs (Some 4) ∅ tr st' ms).
  - apply sample_among; [left; split; reflexivity|reflexivity|exact Hall].
  - left. unfold service_ports. ground.
  - intros []; repeat constructor; cbn; lia.
  - intros [].
    + left. split; vm_compute; reflexivity.
    + right. split; [exact I|]. exists [ms false]. split; reflexivity.
Defined.

Lemma http_among_connections_witness :
  let id := connID (New sample_net sample_http_tcp) in
  exists tr st', handle_all 1024 6 sample_dispatched ∅ = Ret (tr, st') /\
    let events cl := side_events cl (own_trace id tr) in
    st' !! id = None /\
    (forall cl i ev, events cl !! i = Some ev -> UID ev = Http.makeUID id (uint64 (Z.of_nat i))) /\
    (forall i rq rs, events true !! i = Some rq -> events false !! i = Some rs -> UID rq = UID rs).
Proof.
  intros id; destruct sample_handled as (tr & st' & Hall & _). exists tr, st'. split; [exact Hall|].
  apply (http_among_connections 1024 6 1 sample_net sample_http_tcp sample_http_segs (Some 3) ∅ tr st').
  - apply sample_among; [right; split; reflexivity|reflexivity|exact Hall].
  - ground.
  - apply lookup_empty.
  - exact (sample_kept tr st' Hall).
Defined.
End Connections.
