(* ===== verification/Losses.v ===== *)
(** * A service connection some of whose messages find no room

    The streams drop what does not fit their channel. What remains of a
    connection among others ([Connections]): nothing is made up of the pieces
    that are left, and nothing changes its order. *)

From S2P Require Import Prelude.
From S2P Require Import GoStrings.
From S2P Require Import Event.
From S2P Require Import Http.
From S2P Require Import Registry.
From S2P Require Import Parsers.
From S2P Require Import Wire.
From S2P Require Import Reassembly.
From S2P Require Import Factory.
From S2P Require Import Decode.
From S2P Require Import Dispatch.
From S2P Require Import Output.
From S2P Require Import EventJson.
From S2P Require Import Isolation.
From S2P Require Import Attribution.
From S2P Require Import Stream.
From S2P Require Import Connections.
From S2P Require Import Mysql.

Module Losses.
Import Reassembly.Reassembly Factory.Factory Isolation.Isolation Stream.Stream Connections.Connections.

(** ** Parts of a list *)

Lemma sublist_concat {A} (ls ks : list (list A)) : ls `sublist_of` ks -> concat ls `sublist_of` concat ks.
Proof.
  induction 1 as [|x ls ks _ IH|x ls ks _ IH]; cbn [concat]; [done|by apply sublist_app|].
  by apply sublist_inserts_l.
Qed.

Lemma sublist_omap {A B} (f : A -> option B) (l k : list A) : l `sublist_of` k -> omap f l `sublist_of` omap f k.
Proof.
  induction 1 as [|x l k _ IH|x l k _ IH]; cbn; [done| |]; destruct (f x); [by constructor|done|by constructor|done].
Qed.

Lemma sublist_Forall {A} (P : A -> Prop) (l k : list A) : l `sublist_of` k -> Forall P k -> Forall P l.
Proof.
  induction 1 as [|x l k _ IH|x l k _ IH]; [done| |]; intros [Hx Hk]%Forall_cons_1; [constructor; auto|auto].
Qed.

Lemma sublist_of_map {A B} (f : A -> B) l k : l `sublist_of` map f k -> exists k', l = map f k' /\ k' `sublist_of` k.
Proof.
  revert l. induction k as [|x k IH]; intros l Hl; cbn [map] in Hl.
  - apply sublist_nil_r in Hl as ->. by exists [].
  - apply sublist_cons_r in Hl as [Hl|(l' & -> & Hl)]; destruct (IH _ Hl) as (k' & -> & Hk).
    + exists k'. split; [done|by constructor].
    + exists (x :: k'). split; [done|by constructor].
Qed.

Section Losses.
Context `{Unicode} `{NetHTTP} `{GopacketFlow} `{NetIP}.
Variables (b q : Z).

(** The delivered messages of a stream are part of what it gave to the channel. *)
Lemma delivered_part h id (log : list (nat * (StreamData * bool))) :
  Forall (fun m => fst m = h <-> ConnID (Meta (snd m)) = id) (offered log) ->
  filter (fun sd => ConnID (Meta sd) = id) (delivered (map snd log)) `sublist_of` own_messages h (offered log).
Proof.
  unfold own_messages, offered, delivered. induction log as [|[h' [sd sent]] log IH]; [done|].
  cbn [map]. intros [Hn Hns]%Forall_cons_1. cbn [omap list_omap fst snd] in *.
  specialize (IH Hns). destruct (decide (h' = h)) as [Hh|Hh].
  - rewrite (list.filter_cons_True (fun m => fst m = h)) by done. cbn [map snd].
    destruct sent; [|by constructor]. rewrite list.filter_cons_True by (by apply Hn). by constructor.
  - rewrite (list.filter_cons_False (fun m => fst m = h)) by done.
    destruct sent; [|done]. rewrite list.filter_cons_False; [done|]. by intros ?%Hn.
Qed.

(** The data messages that are left, and then perhaps the close marker. *)
Lemma left_messages ms (m : StreamData) kept :
  kept `sublist_of` ms ++ [m] -> exists kept0, kept0 `sublist_of` ms /\ (kept = kept0 \/ kept = kept0 ++ [m]).
Proof.
  intros Hs. apply sublist_app_r in Hs as (k1 & k2 & -> & Hk1 & Hk2). exists k1. split; [done|].
  apply sublist_cons_r in Hk2 as [Hk2|(l & -> & Hk2)]; apply sublist_nil_r in Hk2 as ->; [left; apply app_nil_r|by right].
Qed.

#[local] Existing Instance EventJson.JSONSerializer.

(** The connection's messages that are left: the data messages, in their order,
    whose effect is that of the run, but for the close marker. *)
Lemma left_run msgs ms (m : StreamData) st tr st1 :
  map snd msgs `sublist_of` ms ++ [m] -> Closed m = true -> handle_all b q (messages msgs) st = Ret (tr, st1) ->
  exists msgs0 tr0 st0, map snd msgs0 `sublist_of` ms /\ handle_all b q (messages msgs0) st = Ret (tr0, st0) /\
    (st1 = st0 \/ st1 = delete (ConnID (Meta m)) st0) /\ forall cl, side_events cl tr = side_events cl tr0.
Proof.
  intros Hs Hc Hall. destruct (left_messages _ _ _ Hs) as (kept & Hk & [E|E]).
  - exists msgs, tr, st1. rewrite E. split; [done|]. split; [done|]. split; [by left|done].
  - destruct (handle_close _ _ _ _ _ _ _ _ E Hc Hall) as (msgs0 & tr0 & st0 & <- & Hall0 & -> & _ & Hev).
    exists msgs0, tr0, st0. split; [done|]. split; [done|]. split; [by right|done].
Qed.

(** The pieces that are left of a direction, in messages. *)
Lemma left_pieces {p : parser} `{W : !WireFormat p} cl kept ms gs :
  kept `sublist_of` ms -> datas cl ms = map (wire p cl) gs ->
  exists gs', datas cl kept = map (wire p cl) gs' /\ gs' `sublist_of` gs.
Proof. intros Hs Hd. apply sublist_of_map. rewrite <- Hd. by apply sublist_omap. Qed.

(** C6: A service connection among others, some of whose messages are dropped
    because the channel of the streams is full. Of one connection with a MySQL,
    MongoDB, MQTT, Redis, PostgreSQL, SMTP, FTP, POP3 or IMAP service, whose id
    no other connection has: when each direction either carries well-formed
    messages in less than 256 KiB, cut in any way, or (but for PostgreSQL) comes
    in segments of whole messages, however many, the events of a direction are
    those of some of its messages, in order: none is made up, none comes twice.
    No parser keeps new state of the connection; all its Kafka messages have one
    key, and a consumer reads these events. *)
Theorem lossy_service_among_connections sv h n t segs ac st tr st' log :
  let p := service_parser q sv in
  let W := service_wire q sv in
  forall ms : bool -> list (wire_msg p),
  worked b q h n t segs ac st tr st' log ->
  to_service sv (port_of (Src_Raw t)) (port_of (Dst_Raw t)) ->
  (forall cl, Forall (wire_ok p) (ms cl)) ->
  (forall cl, carried cl segs = wire p cl (ms cl) /\ len (carried cl segs) < maxBufferSize \/
     piecewise sv /\ exists mss, side_segments cl segs = map (wire p cl) mss /\ concat mss = ms cl) ->
  let meta := stream_meta_of n t in
  let mine := own_trace (m_ConnID meta) tr in
  (forall cl, untimed <$> side_events cl mine `sublist_of` omap (wire_event p meta cl) (ms cl)) /\
  (st' !! m_ConnID meta = None \/ st' !! m_ConnID meta = st !! m_ConnID meta) /\
  let evs := concat (map snd mine) in
  Forall (fun k => Output.Key k = Output.flow_key meta) (Output.worker evs) /\
  mapM (fun k => EventJson.Unmarshal (Output.Value k)) (Output.worker evs) = Some (map EventJson.clean_event evs).
Proof.
  intros p W ms Hw Hport Hok Hcut meta mine.
  destruct (delivered_items _ _ _ _ _ _ _ _ _ _ _ Hw) as (items & msgs & Hall' & Hun & Hmsgs & Hnamed & Hown).
  destruct (stream_messages_spec segs ac (New n t)) as (dms & s' & Espec & Hs' & Hms & Hd).
  assert (Hpart : map snd msgs `sublist_of` dms ++ [close_message s']).
  { rewrite <- Espec, <- Hown, Hmsgs. by apply delivered_part. }
  assert (Hmeta : Forall (fun sd => Meta sd = conn_meta (New n t)) (map snd msgs)).
  { eapply sublist_Forall; [exact Hpart|]. apply Forall_app. split; [|by repeat constructor].
    eapply List.Forall_impl; [|exact Hms]. by intros m [? _]. }
  destruct (swept_run b q _ items msgs st tr st' Hun (service_stateless b q sv n t _ Hport Hmeta) Hall')
    as (utr & st1 & Hall & Est & Eevs & Eside).
  destruct (left_run _ _ _ _ _ _ Hpart eq_refl Hall) as (msgs0 & tr0 & st0 & Hm0 & Hall0 & Hst & Hev).
  destruct (cut_pieces q sv segs ms Hcut) as (gs & Hgs).
  assert (Hleft : forall cl, exists gs', datas cl (map snd msgs0) = map (wire p cl) gs' /\ gs' `sublist_of` gs cl).
  { intros cl. apply (left_pieces cl _ dms); [done|]. rewrite Hd. etransitivity; [|exact (proj1 (Hgs cl))]. by destruct cl. }
  destruct (Hleft true) as (gt & Ht), (Hleft false) as (gf & Hf). set (gs' := fun cl : bool => if cl then gt else gf).
  assert (Hgs' : forall cl, datas cl (map snd msgs0) = map (wire p cl) (gs' cl) /\ concat (gs' cl) `sublist_of` ms cl).
  { intros cl. rewrite <- (proj2 (Hgs cl)). destruct cl; (split; [apply Ht || apply Hf|apply sublist_concat]); apply Ht || apply Hf. }
  destruct (service_messages b q (conn_meta (New n t)) msgs0 gs' st tr0 st0) as [-> Hse]; [|..|exact Hall0|].
  - exact (service_by_port b q _ _ _ Hport).
  - by eapply sublist_Forall.
  - intros cl. apply Hgs'.
  - intros cl. eapply sublist_Forall; [apply Hgs'|apply Hok].
  - split; [|split].
    + intros cl. unfold mine. change (m_ConnID meta) with (connID (New n t)). rewrite <- Eside, Hev, Hse. apply sublist_omap, Hgs'.
    + change (m_ConnID meta) with (connID (New n t)). destruct Hst as [->| ->]; [done|].
      left. cbn [close_message Meta] in Est. rewrite Hs' in Est. by eapply swept_delete.
    + cbv zeta. split; [|apply EventJson.worker_delivers]. unfold mine. change (m_ConnID meta) with (connID (New n t)).
      rewrite <- Eevs. by refine (own_keys b q n t msgs st _ _ _ Hall).
Qed.
End Losses.

(** ** A channel with room for one message *)

#[local] Existing Instances ascii_unicode head_http raw_flow raw_ip.

Definition lossy_exec : stage * list (nat * (StreamData * bool)) :=
  match exec sample_calls (start 1) with Ret r => r | _ => (start 0, []) end.

Definition lossy_dispatched : list item :=
  map (fun sd => TCPMessage 5 (fun _ => 7) sd) (received (fst lossy_exec) ++ chan_buf (output (fst lossy_exec))) ++ [Sweep Http.minute].

Lemma lossy_exec_ret : exec sample_calls (start 1) = Ret (fst lossy_exec, snd lossy_exec).
Proof.
  assert (Hc : match exec sample_calls (start 1) with Ret _ => True | _ => False end) by (vm_compute; exact I).
  unfold lossy_exec. by destruct (exec sample_calls (start 1)) as [[]| |].
Qed.

(** The client's query is delivered, the server's answer and the close marker
    are not. *)
Lemma lossy_log : map (fun m => snd (snd m)) (filter (fun m => fst m = 0%nat) (snd lossy_exec)) = [true; false; false].
Proof. vm_compute. reflexivity. Qed.

Lemma lossy_worked tr st' :
  handle_all 1024 6 lossy_dispatched ∅ = Ret (tr, st') ->
  worked 1024 6 0 sample_net sample_tcp sample_mysql_segs (Some 4) ∅ tr st' (snd lossy_exec).
Proof.
  intros Hall. split; [done|]. exists sample_calls, 1, (fst lossy_exec), lossy_dispatched.
  split; [reflexivity|]. split; [exact lossy_exec_ret|]. split; [|split; [vm_compute; reflexivity|exact Hall]].
  intros h' n' t' Hin Hne. apply sample_calls_streams in Hin as [-> Ht'].
  destruct Ht' as [[-> ->]|[-> ->]]; [by destruct Hne|apply not_eq_sym, sample_ids].
Qed.

Lemma lossy_handled : exists tr st', handle_all 1024 6 lossy_dispatched ∅ = Ret (tr, st').
Proof.
  assert (Hc : match handle_all 1024 6 lossy_dispatched ∅ with Ret _ => True | _ => False end) by (vm_compute; exact I).
  destruct (handle_all 1024 6 lossy_dispatched ∅) as [[tr st']|e|]; [by exists tr, st'|destruct Hc|destruct Hc].
Qed.

Lemma lossy_service_among_connections_witness :
  let p := service_parser 6 S_mysql in
  let W := service_wire 6 S_mysql in
  let ms (cl : bool) : list Mysql.packet :=
    if cl then [{| Mysql.seq_id := x00; Mysql.payload := x03 :: str "SELECT 1" |}]
    else [{| Mysql.seq_id := x01; Mysql.payload := [x00] |}] in
  let meta := stream_meta_of sample_net sample_tcp in
  exists tr st', handle_all 1024 6 lossy_dispatched ∅ = Ret (tr, st') /\
    let mine := own_trace (m_ConnID meta) tr in
    (forall cl, untimed <$> side_events cl mine `sublist_of` omap (wire_event p meta cl) (ms cl)) /\
    (st' !! m_ConnID meta = None \/ st' !! m_ConnID meta = (∅ : Http.states) !! m_ConnID meta) /\
    let evs := concat (map snd mine) in
    Forall (fun k => Output.Key k = Output.flow_key meta) (Output.worker (H := EventJson.JSONSerializer) evs) /\
    mapM (fun k => EventJson.Unmarshal (Output.Value k)) (Output.worker (H := EventJson.JSONSerializer) evs)
    = Some (map EventJson.clean_event evs).
Proof.
  intros p W ms meta. destruct lossy_handled as (tr & st' & Hall). exists tr, st'. split; [exact Hall|].
  apply (lossy_service_among_connections 1024 6 S_mysql 0 sample_net sample_tcp sample_mysql_segs (Some 4) ∅ tr st'
    (snd lossy_exec) ms).
  - apply lossy_worked. exact Hall.
  - left. unfold service_ports. ground.
  - intros []; repeat constructor; cbn; lia.
  - intros [].
    + left. split; vm_compute; reflexivity.
    + right. split; [exact I|]. exists [ms false]. split; reflexivity.
Defined.
End Losses.
