(* ===== verification/Consumer.v ===== *)
(** * The documented consumer of the events (docs/user-guide.md)

    The Go consumer of the user's guide, which pairs HTTP requests with their
    responses by UID, on the messages the producer writes: it pairs them by
    position on their connection, whatever else is in the topic. *)

From S2P Require Import Prelude.
From S2P Require Import GoStrings.
From S2P Require Import Json.
From S2P Require Import Event.
From S2P Require Import Http.
From S2P Require Import Registry.
From S2P Require Import Parsers.
From S2P Require Import Reassembly.
From S2P Require Import Factory.
From S2P Require Import Decode.
From S2P Require Import Dispatch.
From S2P Require Import Output.
From S2P Require Import Workers.
From S2P Require Import EventJson.
From S2P Require Import Isolation.
From S2P Require Import Attribution.
From S2P Require Import Stream.
From S2P Require Import Connections.

Module Consumer.
Import Json.Json Reassembly.Reassembly Factory.Factory Isolation.Isolation Stream.Stream Connections.Connections.

(** ** The consumer *)

(** A line that [handleHTTP] prints: a response with its request, or one whose
    request is not pending. *)
Inductive line :=
| Matched (req resp : ProtocolEvent)
| Orphan (resp : ProtocolEvent).

Definition handleHTTP (pending : gmap bytes ProtocolEvent) (ev : ProtocolEvent) : gmap bytes ProtocolEvent * list line :=
  match HTTP ev with
  | None => (pending, [])
  | Some _ =>
      if bool_decide (UID ev = []) then (pending, []) else
      match Dir ev with
      | DirectionRequest => (<[UID ev := ev]> pending, [])
      | DirectionResponse =>
          match pending !! UID ev with
          | None => (pending, [Orphan ev])
          | Some req => (delete (UID ev) pending, [Matched req ev])
          end
      | DirectionUnknown => (pending, [])
      end
  end.

(** The [switch] on the protocol; the other cases do not pair anything. *)
Definition handleEvent (pending : gmap bytes ProtocolEvent) (ev : ProtocolEvent) : gmap bytes ProtocolEvent * list line :=
  if bool_decide (Protocol ev = str "http") then handleHTTP pending ev else (pending, []).

(** The loop of [main] on the values of the messages it reads. *)
Fixpoint consume (pending : gmap bytes ProtocolEvent) (values : list bytes) : list line :=
  match values with
  | [] => []
  | v :: values' =>
      match EventJson.Unmarshal v with
      | None => consume pending values'
      | Some ev => let '(pending, out) := handleEvent pending ev in out ++ consume pending values'
      end
  end.

(** On the events it reads. *)
Fixpoint consume_events (pending : gmap bytes ProtocolEvent) (evs : list ProtocolEvent) : list line :=
  match evs with
  | [] => []
  | ev :: evs' => let '(pending, out) := handleEvent pending ev in out ++ consume_events pending evs'
  end.

#[local] Existing Instance EventJson.JSONSerializer.

Lemma consume_values ms read pending :
  Forall2 (fun m ev => EventJson.Unmarshal (Output.Value m) = Some ev) ms read ->
  consume pending (map Output.Value ms) = consume_events pending read.
Proof.
  intros Hv. revert pending. induction Hv as [|m ev ms read Hm Hv IH]; intros pending; [done|].
  cbn [map consume consume_events]. rewrite Hm. destruct (handleEvent pending ev) as [pending' out]. by rewrite IH.
Qed.

Lemma consume_worker pending evs :
  consume pending (map Output.Value (Output.worker evs)) = consume_events pending (map EventJson.clean_event evs).
Proof. apply consume_values, mapM_Some, EventJson.worker_delivers. Qed.

(** ** Events of other connections do not matter *)

Definition line_uid (l : line) : bytes := match l with Matched _ r | Orphan r => UID r end.

Section Filter.
Variable P : bytes -> Prop.
Context `{!forall u, Decision (P u)}.

Definition agree (m k : gmap bytes ProtocolEvent) : Prop := forall u, P u -> m !! u = k !! u.

Lemma handle_other m ev :
  ~ P (UID ev) ->
  agree (fst (handleEvent m ev)) m /\ filter (fun l => P (line_uid l)) (snd (handleEvent m ev)) = [].
Proof.
  intros Hp. unfold handleEvent, handleHTTP.
  assert (Hkeep : agree m m) by (by intros ? _).
  destruct (bool_decide _); [|done]. destruct (HTTP ev); [|done]. destruct (bool_decide _); [done|].
  destruct (Dir ev); [done| |].
  - split; [|done]. intros u Hu. cbn [fst]. rewrite lookup_insert_ne; [done|]. by intros <-.
  - destruct (m !! UID ev); cbn [fst snd].
    + split; [intros u Hu; rewrite lookup_delete_ne; [done|]; by intros <-|]. by rewrite list.filter_cons_False.
    + split; [done|]. by rewrite list.filter_cons_False.
Qed.

Lemma handle_own m k ev :
  P (UID ev) -> agree m k ->
  agree (fst (handleEvent m ev)) (fst (handleEvent k ev)) /\ snd (handleEvent m ev) = snd (handleEvent k ev) /\
  Forall (fun l => P (line_uid l)) (snd (handleEvent m ev)).
Proof.
  intros Hp Ha. unfold handleEvent, handleHTTP. destruct (bool_decide _); [|done].
  destruct (HTTP ev); [|done]. destruct (bool_decide _); [done|]. destruct (Dir ev); [done| |].
  - split; [|done]. intros u Hu. cbn [fst]. destruct (decide (u = UID ev)) as [->|Hne];
      [by rewrite !lookup_insert_eq|rewrite !lookup_insert_ne by done; by apply Ha].
  - rewrite (Ha _ Hp). destruct (k !! UID ev); cbn [fst snd]; [|split; [done|]; split; [done|]; by repeat constructor].
    split; [|split; [done|by repeat constructor]]. intros u Hu.
    destruct (decide (u = UID ev)) as [->|Hne]; [by rewrite !lookup_delete_eq|rewrite !lookup_delete_ne by done; by apply Ha].
Qed.

(** The lines about some UIDs depend on the events with these UIDs. *)
Lemma consume_filter m k evs :
  agree m k ->
  filter (fun l => P (line_uid l)) (consume_events m evs) = consume_events k (filter (fun ev => P (UID ev)) evs).
Proof.
  revert m k. induction evs as [|ev evs IH]; intros m k Ha; [done|]. rewrite list.filter_cons. cbn [consume_events].
  case_decide as Hp.
  - destruct (handle_own m k ev Hp Ha) as (Ha' & Ho & Hl). cbn [consume_events].
    destruct (handleEvent m ev) as [m' out], (handleEvent k ev) as [k' out']. cbn [fst snd] in *. subst out'.
    rewrite list.filter_app, (IH _ k' Ha'). f_equal. by apply filter_all.
  - destruct (handle_other m ev Hp) as [Ha' Ho]. destruct (handleEvent m ev) as [m' out]. cbn [fst snd] in *.
    rewrite list.filter_app, Ho. cbn [app]. apply IH. intros u Hu. by rewrite (Ha' u Hu), (Ha u Hu).
Qed.
End Filter.

(** ** Pairing by position *)

(** The reference: a response goes with the request at its own position among
    the connection's requests, if that one has been read. [j] counts the
    responses so far. *)
Fixpoint in_order (reqs : list ProtocolEvent) (j : nat) (evs : list ProtocolEvent) : list line :=
  match evs with
  | [] => []
  | ev :: evs' =>
      match Dir ev with
      | DirectionRequest => in_order (reqs ++ [ev]) j evs'
      | DirectionResponse => (match reqs !! j with Some req => Matched req ev | None => Orphan ev end) :: in_order reqs (S j) evs'
      | DirectionUnknown => in_order reqs j evs'
      end
  end.

Ltac decided := repeat first [rewrite decide_True by done | rewrite decide_False by done].
Ltac decided_in H := repeat first [rewrite decide_True in H by done | rewrite decide_False in H by done].

(** When no response comes before the request of its position, every response
    is paired with it. *)
Lemma in_order_zip (reqs evs : list ProtocolEvent) j :
  (j <= length reqs)%nat ->
  Forall (fun ev => Dir ev <> DirectionUnknown) evs ->
  let requests := filter (fun ev => Dir ev = DirectionRequest) in
  let responses := filter (fun ev => Dir ev = DirectionResponse) in
  (forall k, (j + length (responses (take k evs)) <= length reqs + length (requests (take k evs)))%nat) ->
  in_order reqs j evs = zip_with Matched (drop j reqs ++ requests evs) (responses evs).
Proof.
  intros Hj Hd requests responses. revert reqs j Hj. induction Hd as [|ev evs Hev Hd IH]; intros reqs j Hj Hk.
  { cbn. by rewrite zip_with_nil_r. }
  cbn [in_order]. unfold requests, responses in *. rewrite !list.filter_cons.
  destruct (Dir ev) eqn:E; [done| |].
  - decided. rewrite IH.
    + rewrite drop_app_le by done. by rewrite <- app_assoc.
    + rewrite length_app. lia.
    + intros k. specialize (Hk (S k)). cbn [take] in Hk. rewrite !list.filter_cons, E in Hk.
      decided_in Hk. cbn [length] in Hk. rewrite length_app. cbn [length]. lia.
  - decided.
    pose proof (Hk 1%nat) as H1. cbn [take] in H1. rewrite !list.filter_cons, E in H1.
    decided_in H1. rewrite take_0 in H1. cbn in H1.
    destruct (lookup_lt_is_Some_2 reqs j ltac:(lia)) as [req Hreq]. rewrite Hreq.
    rewrite (drop_S reqs req j Hreq). cbn [app zip_with]. f_equal. apply IH; [lia|].
    intros k. specialize (Hk (S k)). cbn [take] in Hk. rewrite !list.filter_cons, E in Hk.
    decided_in Hk. cbn [length] in Hk. lia.
Qed.

(** HTTP events of connection [c], numbered in each direction from [i] and [j]. *)
Inductive numbered (c : Z) : nat -> nat -> list ProtocolEvent -> Prop :=
| numbered_nil i j : numbered c i j []
| numbered_request i j ev evs :
    Protocol ev = Http.Name -> is_Some (HTTP ev) -> Dir ev = DirectionRequest ->
    UID ev = Http.makeUID c (uint64 (Z.of_nat i)) -> numbered c (S i) j evs -> numbered c i j (ev :: evs)
| numbered_response i j ev evs :
    Protocol ev = Http.Name -> is_Some (HTTP ev) -> Dir ev = DirectionResponse ->
    UID ev = Http.makeUID c (uint64 (Z.of_nat j)) -> numbered c i (S j) evs -> numbered c i j (ev :: evs).

(** Positions below 2^64 have their own UIDs. *)
Lemma makeUID_position c i j :
  0 <= c < 2 ^ 64 -> Z.of_nat i < 2 ^ 64 -> Z.of_nat j < 2 ^ 64 ->
  Http.makeUID c (uint64 (Z.of_nat i)) = Http.makeUID c (uint64 (Z.of_nat j)) -> i = j.
Proof.
  intros Hc Hi Hj E. unfold uint64 in E. rewrite !Z.mod_small in E by lia.
  apply Http.makeUID_inj in E as [_ E]; lia.
Qed.

Lemma makeUID_not_nil c n : Http.makeUID c n <> [].
Proof. unfold Http.makeUID. intros E. apply (f_equal length) in E. rewrite !length_app, length_hex_encode, length_be_bytes in E. done. Qed.

(** The consumer pairs numbered events by position. *)
Lemma consume_numbered c evs reqs j pending :
  0 <= c < 2 ^ 64 -> Z.of_nat (length reqs + length evs) < 2 ^ 64 -> Z.of_nat (j + length evs) < 2 ^ 64 ->
  numbered c (length reqs) j evs ->
  (forall i, (j <= i)%nat -> Z.of_nat i < 2 ^ 64 -> pending !! Http.makeUID c (uint64 (Z.of_nat i)) = reqs !! i) ->
  consume_events pending evs = in_order reqs j evs.
Proof.
  intros Hc. remember (length reqs) as i eqn:Ei. intros Hl Hj Hn. revert reqs pending Ei Hl Hj.
  induction Hn as [|i j ev evs Hp [d Hh] Hd Hu Hn IH|i j ev evs Hp [d Hh] Hd Hu Hn IH]; intros reqs pending Ei Hl Hj Hpend; [done|..];
    cbn [length] in Hl, Hj; cbn [consume_events in_order]; unfold handleEvent, handleHTTP; rewrite Hp, Hh, Hd;
    rewrite bool_decide_eq_true_2 by done; rewrite bool_decide_eq_false_2 by (rewrite Hu; apply makeUID_not_nil).
  - cbn [app]. apply IH; [rewrite length_app; cbn [length]; lia|lia|lia|].
    intros k Hk Hb. rewrite Hu. destruct (decide (k = i)) as [->|Hne].
    + rewrite lookup_insert_eq, Ei, lookup_app_r by lia. by rewrite Nat.sub_diag.
    + rewrite lookup_insert_ne by (intros E; apply makeUID_position in E; [lia|done|lia|done]).
      rewrite Hpend by done. destruct (decide (k < i)%nat).
      * by rewrite lookup_app_l by lia.
      * rewrite !lookup_ge_None_2; [done|rewrite length_app; cbn [length]; lia|lia].
  - rewrite Hu, Hpend by lia. destruct (reqs !! j) as [req|] eqn:Er; cbn [app]; f_equal.
    + apply IH; [done|lia|lia|]. intros k Hk Hb.
      rewrite lookup_delete_ne by (intros E; apply makeUID_position in E; [lia|done|lia|done]). apply Hpend; [lia|done].
    + apply IH; [done|lia|lia|]. intros k Hk Hb. apply Hpend; [lia|done].
Qed.

(** ** HTTP connections give numbered events *)

Section Numbered.
Context `{Unicode} `{NetHTTP} `{GopacketFlow} `{NetIP}.
Variables (b q : Z).

Definition http_shape (cl : bool) (ev : ProtocolEvent) : Prop :=
  Protocol ev = Http.Name /\ is_Some (HTTP ev) /\ Dir ev = side_dir cl.

Lemma Parse_shape p now clk data meta cl st :
  yields (Http.Parse p now clk data meta cl st) (fun '(r, _) => Forall (http_shape cl) (Http.events_of r)).
Proof.
  unfold Http.Parse. cbv zeta. eapply yields_bind.
  - apply (yields_for_loop (fun '(_, evs, _) => Forall (http_shape cl) evs)
             (fun '(r, _) => Forall (http_shape cl) (Http.events_of r))); [|constructor].
    intros [[reader evs] s] He. unfold Http.Parse_step.
    apply (yields_bind _ _ (fun r => match r with inl _ => True | inr (ev, _, _) => http_shape cl ev end)).
    + unfold http_shape. destruct cl; cbn [Http.read_message];
        [unfold Http.readRequest; destruct (ReadRequest reader) as [|[[m bd] rest]]
        |unfold Http.readResponse; destruct (ReadResponse reader) as [|[[m bd] rest]]]; try done;
        apply yields_seq; intros [buf tr]; cbn [yields]; split_and!; try done; by eexists.
    + intros [e|[[ev rest] s']] Hev; cbn [yields].
      * destruct evs; [|done]. by destruct e.
      * apply Forall_app. split; [done|]. constructor; [done|constructor].
  - by intros [r s'].
Qed.

Lemma numbered_batch c cl evs rest (z : Z) i j :
  Forall (http_shape cl) evs -> map UID evs = Http.uids c z (length evs) ->
  uint64 z = uint64 (Z.of_nat (if cl then i else j)) ->
  (if cl then numbered c (i + length evs) j rest else numbered c i (j + length evs) rest) ->
  numbered c i j (evs ++ rest).
Proof.
  intros Hs. revert z i j. induction Hs as [|ev evs (Hp & Hh & Hd) Hs IH]; intros z i j Hu Hz Hrest.
  { cbn [length app] in *. rewrite !Nat.add_0_r in Hrest. by destruct cl. }
  cbn [map length] in Hu. unfold Http.uids in Hu. cbn [seq map] in Hu. injection Hu as Hu Hus.
  rewrite Z.add_0_r in Hu. rewrite Hz in Hu.
  assert (Hus' : map UID evs = Http.uids c (z + 1) (length evs)).
  { rewrite Hus. unfold Http.uids. rewrite <- seq_shift, map_map. apply map_ext. intros k. do 2 f_equal. lia. }
  assert (Hz' : uint64 (z + 1) = uint64 (Z.of_nat (S (if cl then i else j)))).
  { unfold uint64 in *. rewrite Zplus_mod, Hz, <- Zplus_mod. f_equal. lia. }
  cbn [app]. destruct cl; cbn [side_dir] in Hd; [apply numbered_request|apply numbered_response]; try done;
    apply (IH (z + 1)); try done; cbn [length] in Hrest; by rewrite Nat.add_succ_comm.
Qed.

Lemma http_messages_numbered c msgs st tr st1 i j :
  Forall (Connections.http_message c) (map snd msgs) ->
  Isolation.handle_all b q (Connections.messages msgs) st = Ret (tr, st1) ->
  uint64 (Http.reqSeq (Http.stateFor st c)) = uint64 (Z.of_nat i) ->
  uint64 (Http.respSeq (Http.stateFor st c)) = uint64 (Z.of_nat j) ->
  numbered c i j (concat (map snd tr)).
Proof.
  revert st tr i j. induction msgs as [|[[now clk] m] msgs IH]; intros st tr i j Hms; [intros [= <- _]; constructor|].
  cbn [map Isolation.handle_all]. rewrite map_cons in Hms. apply Forall_cons_1 in Hms as [(Hc & Hp & Ho & Hd) Hms].
  cbn [snd] in Hc, Hp, Ho, Hd.
  rewrite (Connections.handle_data b q _ _ _ _ _ (Stream.http_by_port b q _ _ Hp) Ho Hd). unfold Dispatch.parse_and_emit. cbn [Parsers.Parse].
  assert (Hb : 0 <= Http.maxBodyBytes (Http.NewParser b)) by (cbn; destruct (b <? 0) eqn:?; lia).
  set (cl := Reassembly.IsClient m).
  pose proof (Http.Parse_wp (Http.NewParser b) Hb now clk (Reassembly.Data m) (Dispatch.tcp_meta (Reassembly.Meta m)) cl st) as Hw.
  pose proof (Parse_shape (Http.NewParser b) now clk (Reassembly.Data m) (Dispatch.tcp_meta (Reassembly.Meta m)) cl st) as Hsh.
  apply wp_returns in Hw as ([r st'] & Er & Hu & Hs & Hoth & _). rewrite Er in Hsh |- *. cbn [yields] in Hsh.
  cbn [mbind outcome_bind]. change (m_ConnID (Dispatch.tcp_meta (Reassembly.Meta m))) with (Reassembly.ConnID (Reassembly.Meta m)) in *.
  rewrite Hc in *.
  replace (match r with OkR events => Ret (events, st') | ErrR _ => Ret ([], st') end) with (Ret (Http.events_of r, st')) by (by destruct r).
  cbn [mbind outcome_bind].
  destruct (Isolation.handle_all b q (Connections.messages msgs) st') as [[tr1 st1']|e|] eqn:Hl; cbn [mbind outcome_bind]; [|done|done].
  intros [= <- <-] Hi Hj. cbn [map concat snd].
  apply (numbered_batch c cl _ _ (Http.seq_of cl (Http.stateFor st c))); [done|done|by destruct cl|].
  set (n := length (Http.events_of r)) in *.
  assert (Hadd : forall x k, uint64 x = uint64 (Z.of_nat k) -> uint64 (x + Z.of_nat n) = uint64 (Z.of_nat (k + n))).
  { intros x k Hx. unfold uint64 in *. rewrite Zplus_mod, Hx, <- Zplus_mod. f_equal. lia. }
  destruct cl; cbn [Http.seq_of negb] in Hs, Hoth; eapply (IH st' tr1); try done; rewrite ?Hs, ?Hoth; try done; by apply Hadd.
Qed.
End Numbered.

(** ** The events of the run *)

Lemma hex_digit_ascii a : 0 <= a < 16 -> ascii (hex_digit a).
Proof. intros Ha. unfold hex_digit, ascii. destruct (a <? 10) eqn:?; rewrite u8_byte_of_small; lia. Qed.

Lemma hex_encode_ascii l : Forall ascii (hex_encode l).
Proof.
  unfold hex_encode. induction l as [|b l IH]; [constructor|]. cbn [concat map]. apply Forall_app. split; [|exact IH].
  pose proof (u8_range b). repeat constructor; apply hex_digit_ascii; Z.div_mod_to_equations; lia.
Qed.

Lemma Itoa_ascii n : 0 <= n -> Forall ascii (Itoa n).
Proof.
  intros Hn. destruct (Itoa_nonneg n Hn) as (_ & Hd & _). apply List.Forall_forall. intros b Hb.
  apply (proj1 (forallb_forall _ _) Hd) in Hb. unfold is_digit in Hb. unfold ascii. lia.
Qed.

(** UIDs survive the trip through JSON, whatever strings are around them. *)
Lemma clean_uid name meta u : uid_of name meta u -> sanitize u = u.
Proof.
  intros [->|(_ & n & Hn & ->)]; [done|]. apply sanitize_utf8, utf8_ascii. rewrite !Forall_app.
  split; [apply hex_encode_ascii|]. split; [by repeat constructor|by apply Itoa_ascii].
Qed.

Lemma clean_http_uid c n : sanitize (Http.makeUID c (uint64 n)) = Http.makeUID c (uint64 n).
Proof.
  apply sanitize_utf8, utf8_ascii. unfold Http.makeUID. rewrite !Forall_app.
  split; [apply hex_encode_ascii|]. split; [by repeat constructor|apply Itoa_ascii; by apply Z.mod_pos_bound].
Qed.

Lemma numbered_clean c i j evs : numbered c i j evs -> numbered c i j (map EventJson.clean_event evs).
Proof.
  assert (Hname : EventJson.clean EventJson.text Http.Name = Http.Name) by (vm_compute; reflexivity).
  induction 1 as [|i j ev evs Hp [d Hh] Hd Hu Hn IH|i j ev evs Hp [d Hh] Hd Hu Hn IH]; [constructor|..]; cbn [map].
  - apply numbered_request; try done; cbn [EventJson.clean_event Protocol HTTP UID].
    + by rewrite Hp.
    + rewrite Hh. by eexists.
    + rewrite Hu. apply clean_http_uid.
  - apply numbered_response; try done; cbn [EventJson.clean_event Protocol HTTP UID].
    + by rewrite Hp.
    + rewrite Hh. by eexists.
    + rewrite Hu. apply clean_http_uid.
Qed.

Lemma numbered_directions c i j evs : numbered c i j evs -> Forall (fun ev => Dir ev <> DirectionUnknown) evs.
Proof. induction 1; constructor; congruence. Qed.

Lemma numbered_uids c i j evs : numbered c i j evs -> Forall (fun ev => exists n, UID ev = Http.makeUID c n) evs.
Proof. induction 1; constructor; eauto. Qed.

(** The UIDs of a connection. *)
Definition uid_names (c : Z) (u : bytes) : Prop := take 16 u = hex_encode (be_bytes 8 c).

#[global] Instance uid_names_dec c u : Decision (uid_names c u) := decide (take 16 u = hex_encode (be_bytes 8 c)).

Section Documented.
Context `{Unicode} `{NetHTTP} `{GopacketFlow} `{NetIP}.
Variables (b q : Z).
#[local] Existing Instance EventJson.JSONSerializer.

(** The events of an item are those of one parser, and have UIDs of its id; a
    sweep gives none. *)
Definition item_events (x : item * list ProtocolEvent) : Prop :=
  (exists name meta, m_ConnID meta = conn_of (fst x) /\ Forall (fun ev => uid_of name meta (UID ev)) (snd x)) /\
  (is_sweep (fst x) -> snd x = []).

Lemma handle_events i st : yields (handle b q i st) (fun '(evs, _) => item_events (i, evs)).
Proof.
  assert (Hfrom : forall meta evs, from_connection meta evs -> m_ConnID meta = conn_of i -> ~ is_sweep i -> item_events (i, evs)).
  { intros meta evs [p Hp] Hid Hs. split; [|by intros ?%Hs]. exists (parser_Name p), meta. split; [done|].
    eapply List.Forall_impl; [|exact Hp]. by intros ev (_ & _ & _ & Hu). }
  destruct i as [now clk sd|now clk pkt spare|now]; cbn [handle];
    [| |split; [exists [], {| m_SrcIP := []; m_DstIP := []; m_SrcPort := 0; m_DstPort := 0; m_ConnID := 0 |}|]; done];
    [pose proof (handleTCP_from (buildRegistry b q) now clk sd st) as Hf; destruct (Dispatch.handleTCP _ _ _ _ _) as [[evs st']|e|]
    |pose proof (handleUDP_from (buildRegistry b q) now clk pkt spare st) as Hf; destruct (Dispatch.handleUDP _ _ _ _ _ _) as [[evs st']|e|]];
    try done; (eapply Hfrom; [exact Hf|done|by intros []]).
Qed.

Lemma handle_all_events items st tr st' : handle_all b q items st = Ret (tr, st') -> Forall item_events tr.
Proof.
  revert st tr. induction items as [|i items IH]; intros st tr; cbn [handle_all]; [intros [= <- _]; constructor|].
  pose proof (handle_events i st) as Hi. destruct (handle b q i st) as [[evs st1]|e|]; cbn [mbind outcome_bind]; [|done|done].
  destruct (handle_all b q items st1) as [[tr1 st1']|e|] eqn:Hl; cbn [mbind outcome_bind]; [|done|done].
  intros [= <- <-]. constructor; [exact Hi|]. by eapply IH.
Qed.

Lemma uid_of_names name meta c u :
  0 <= m_ConnID meta < 2 ^ 64 -> 0 <= c < 2 ^ 64 -> uid_of name meta u -> uid_names c u -> c = m_ConnID meta.
Proof.
  intros Hm Hc [->|(_ & n & _ & ->)]; unfold uid_names.
  - intros E. apply (f_equal length) in E. rewrite length_hex_encode, length_be_bytes in E. done.
  - rewrite take_app_le by (by rewrite length_hex_encode, length_be_bytes).
    rewrite take_ge by (by rewrite length_hex_encode, length_be_bytes).
    intros E. apply hex_encode_inj, Http.be_bytes_inj in E; done.
Qed.

Lemma makeUID_names c n : uid_names c (Http.makeUID c n).
Proof.
  unfold uid_names, Http.makeUID. rewrite take_app_le by (by rewrite length_hex_encode, length_be_bytes).
  by rewrite take_ge by (by rewrite length_hex_encode, length_be_bytes).
Qed.

(** The events named by a connection, among all those read. *)
Lemma trace_named c tr :
  0 <= c < 2 ^ 64 -> Forall item_events tr -> Forall (fun x => 0 <= conn_of (fst x) < 2 ^ 64) tr ->
  Forall (fun ev => uid_names c (UID ev)) (concat (map snd (own_trace c tr))) ->
  filter (fun ev => uid_names c (UID ev)) (map EventJson.clean_event (concat (map snd tr)))
  = map EventJson.clean_event (concat (map snd (own_trace c tr))).
Proof.
  intros Hc Hev Hids. induction Hev as [|[i evs] tr [(name & meta & Hm & Hu) Hsweep] Hev IH]; [done|].
  apply Forall_cons_1 in Hids as [Hid Hids]. cbn [fst snd] in *. unfold own_trace in *.
  assert (Hclean : forall Q : bytes -> Prop, Forall (fun ev => Q (UID ev)) evs -> Forall (fun ev => Q (UID ev)) (map EventJson.clean_event evs)).
  { intros Q HQ. clear -Hu HQ. induction Hu as [|ev evs Hev Hu IH]; [constructor|]. apply Forall_cons_1 in HQ as [Hq HQ].
    constructor; [|by apply IH]. cbn [EventJson.clean_event UID EventJson.clean EventJson.text]. by rewrite (clean_uid name meta). }
  rewrite list.filter_cons. cbn [map concat snd fst]. rewrite map_app, list.filter_app. case_decide as Hown.
  - cbn [map concat snd]. rewrite Forall_app. intros [Hn Hrest]. rewrite map_app, IH by done. f_equal.
    apply filter_all. by apply Hclean.
  - intros Hrest. rewrite IH by done. rewrite filter_none; [done|]. apply (Hclean (fun u => ~ uid_names c u)).
    eapply List.Forall_impl; [|exact Hu]. intros ev Hev' Hn. apply Hown. right. symmetry. rewrite <- Hm. rewrite <- Hm in Hid.
    exact (uid_of_names name meta c (UID ev) Hid Hc Hev' Hn).
Qed.

(** The pairs of a connection, whatever is around it. *)
Lemma pairs_by_position h n t segs ac st tr st' :
  among b q h n t segs ac st tr st' ->
  port_of (Dst_Raw t) ∈ http_ports -> st !! connID (New n t) = None ->
  let id := connID (New n t) in
  sweeps_keep b q id (map fst tr) st ->
  let own := map EventJson.clean_event (concat (map snd (own_trace id tr))) in
  let requests := filter (fun ev => Dir ev = DirectionRequest) : list ProtocolEvent -> list ProtocolEvent in
  let responses := filter (fun ev => Dir ev = DirectionResponse) : list ProtocolEvent -> list ProtocolEvent in
  let printed : list line := filter (fun l => uid_names id (line_uid l))
                 (consume ∅ (map Output.Value (Output.worker (concat (map snd tr))))) in
  Z.of_nat (length own) < 2 ^ 64 ->
  printed = in_order [] 0 own /\
  ((forall k, (length (responses (take k own)) <= length (requests (take k own)))%nat) ->
   printed = zip_with Matched (requests own) (responses own)).
Proof.
  intros Ham Hport Hst id Hkeep own requests responses printed Hlen. change (st !! id = None) in Hst.
  destruct (http_run _ _ _ _ _ _ _ _ _ _ Ham Hport Hkeep) as (msgs0 & tr0 & st0 & Hhttp & Hall0 & _ & Hev & _).
  assert (Hnum : numbered id 0 0 (concat (map snd (own_trace id tr)))).
  { fold id in Hev. rewrite <- Hev. apply (http_messages_numbered b q id msgs0 st tr0 st0); [exact Hhttp|exact Hall0|..].
    - unfold Http.stateFor. by rewrite Hst.
    - unfold Http.stateFor. by rewrite Hst. }
  assert (Hid : 0 <= id < 2 ^ 64) by apply New_connID.
  pose proof (numbered_clean _ _ _ _ Hnum) as Hown. change (numbered id 0 0 own) in Hown.
  assert (Hlines : printed = in_order [] 0 own).
  { unfold printed. rewrite consume_worker, (consume_filter _ ∅ ∅) by done.
    rewrite (trace_named id); [|done| |by eapply among_ids|].
    - apply (consume_numbered id own [] 0); [done|done|done|exact Hown|]. intros i _ _. by rewrite lookup_empty, lookup_nil.
    - destruct Ham as (log & (_ & calls & cap & stg & items & _ & _ & _ & _ & Hrun) & _). by eapply handle_all_events.
    - eapply List.Forall_impl; [|apply (numbered_uids _ _ _ _ Hnum)]. intros ev [k ->]. apply makeUID_names. }
  split; [exact Hlines|]. intros Hk. rewrite Hlines.
  rewrite (in_order_zip [] own 0); [done|done|by eapply numbered_directions|exact Hk].
Qed.

(** C8: The consumer of the guide pairs by position. Of a connection to a port
    of the HTTP parser, among others and of any length, whose messages found
    room in the channel, whose id is not zero and of no other connection, of
    whose id the parser holds no state before, whose state no sweep of the
    janitor drops, and which has fewer than 2^64 events, in a run without a
    panic: when one worker of the producer
    writes the events of the run, in the order in which the dispatcher gave them,
    and each of its messages is delivered once, in order, the lines about the
    connection are those of the reference, which gives the [i]-th response of the
    connection the [i]-th request when it has come; in particular, when no
    response comes before its request, every response is printed with it, in
    order. *)
Theorem documented_consumer_pairs h n t segs ac st tr st' :
  among b q h n t segs ac st tr st' ->
  port_of (Dst_Raw t) ∈ http_ports -> st !! connID (New n t) = None ->
  let id := connID (New n t) in
  sweeps_keep b q id (map fst tr) st ->
  let own := map EventJson.clean_event (concat (map snd (own_trace id tr))) in
  let requests := filter (fun ev => Dir ev = DirectionRequest) : list ProtocolEvent -> list ProtocolEvent in
  let responses := filter (fun ev => Dir ev = DirectionResponse) : list ProtocolEvent -> list ProtocolEvent in
  let printed : list line := filter (fun l => uid_names id (line_uid l))
                 (consume ∅ (map Output.Value (Output.worker (concat (map snd tr))))) in
  Z.of_nat (length own) < 2 ^ 64 ->
  printed = in_order [] 0 own /\
  ((forall k, (length (responses (take k own)) <= length (requests (take k own)))%nat) ->
   printed = zip_with Matched (requests own) (responses own)).
Proof. apply pairs_by_position. Qed.
End Documented.

(** ** With several workers *)

#[local] Existing Instance EventJson.JSONSerializer.

Lemma handle_orphan pending ev u :
  Protocol ev = Http.Name -> is_Some (HTTP ev) -> Dir ev = DirectionResponse -> UID ev = u -> u <> [] ->
  pending !! u = None -> handleEvent pending ev = (pending, [Orphan ev]).
Proof.
  intros Hp [d Hh] Hd <- Hne Hu. unfold handleEvent, handleHTTP.
  by rewrite Hp, Hh, Hd, bool_decide_eq_true_2, bool_decide_eq_false_2, Hu by done.
Qed.

Lemma handle_request pending ev :
  Protocol ev = Http.Name -> is_Some (HTTP ev) -> Dir ev = DirectionRequest -> UID ev <> [] ->
  handleEvent pending ev = (<[UID ev := ev]> pending, []).
Proof.
  intros Hp [d Hh] Hd Hne. unfold handleEvent, handleHTTP.
  by rewrite Hp, Hh, Hd, bool_decide_eq_true_2, bool_decide_eq_false_2 by done.
Qed.

(** C26: With several workers, of which the producer has two by default, the
    consumer can meet a response first. For any request of an HTTP connection
    and its response, next to each other in the producer's input, with any other
    events around them, of which none has their UID, there is a run of the
    workers that delivers all events, after which the consumer has printed the
    response as an orphan, once, and no other line about that UID: not the pair. *)
Theorem two_workers_orphan cfg n c i rq rs pre post :
  (2 <= n)%nat -> numbered c i i [rq; rs] -> Dir rq = DirectionRequest -> Dir rs = DirectionResponse ->
  Forall (fun ev => UID (EventJson.clean_event ev) <> UID rq) (pre ++ post) ->
  exists s, Workers.reachable cfg n (pre ++ rq :: rs :: post) s /\
    Workers.queue s = [] /\ Workers.held (Workers.pcs s) = [] /\ Workers.pending s = [] /\
    Workers.topic s = Output.worker (pre ++ rs :: rq :: post) /\
    filter (fun l => line_uid l = UID rq) (consume ∅ (map Output.Value (Workers.topic s)))
    = [Orphan (EventJson.clean_event rs)].
Proof.
  intros Hn Hnum Hd Hd' Hothers.
  destruct (Workers.swapped cfg n pre rq rs post Hn) as (s & Hr & Ht & Hq & Hheld & Hpend).
  exists s. split_and!; try done. rewrite Ht, consume_worker.
  etrans; [exact (consume_filter (fun u => u = UID rq) ∅ ∅ _ (fun _ _ => eq_refl))|].
  assert (Hnone : forall l, Forall (fun ev => UID (EventJson.clean_event ev) <> UID rq) l ->
    filter (fun ev => UID ev = UID rq) (map EventJson.clean_event l) = []).
  { intros l Hl. apply filter_none. by apply Forall_map. }
  apply Forall_app in Hothers as [Hpre Hpost].
  assert (Huids : UID rs = UID rq).
  { inversion_clear Hnum as [|? ? ? ? _ _ _ Hu Hrest|? ? ? ? _ _ Hx _ _]; [|congruence].
    inversion_clear Hrest as [|? ? ? ? _ _ Hx _ _|? ? ? ? _ _ _ Hu' _]; [congruence|]. by rewrite Hu, Hu'. }
  pose proof (numbered_clean _ _ _ _ Hnum) as Hclean. cbn [map] in Hclean.
  inversion_clear Hclean as [|? ? ? ? Hp Hh _ Hu Hrest|? ? ? ? _ _ Hx _ _]; [|exfalso; cbn in Hx; congruence].
  inversion_clear Hrest as [|? ? ? ? _ _ Hx _ _|? ? ? ? Hp' Hh' _ Hu' _]; [exfalso; cbn in Hx; congruence|].
  assert (Huid : UID rq = Http.makeUID c (uint64 (Z.of_nat i))).
  { by inversion_clear Hnum as [|? ? ? ? _ _ _ Hx _|? ? ? ? _ _ Hx _ _]; [|congruence]. }
  rewrite map_app, list.filter_app, (Hnone pre Hpre). cbn [map app].
  rewrite !list.filter_cons, !decide_True by congruence. rewrite (Hnone post Hpost).
  cbn [consume_events]. rewrite (handle_orphan _ _ _ Hp' Hh' Hd' Hu' (makeUID_not_nil _ _)) by apply lookup_empty.
  rewrite handle_request; [done|done|done|done|]. rewrite Hu. apply makeUID_not_nil.
Qed.

(** ** The sample connections *)

#[local] Existing Instances ascii_unicode head_http raw_flow raw_ip EventJson.JSONSerializer.

Lemma sample_own :
  let id := connID (New sample_net sample_http_tcp) in
  exists tr st', handle_all 1024 6 sample_dispatched ∅ = Ret (tr, st') /\
    map Dir (map EventJson.clean_event (concat (map snd (own_trace id tr)))) = [DirectionRequest; DirectionResponse].
Proof.
  intros id. assert (Hc : match handle_all 1024 6 sample_dispatched ∅ with
    | Ret (tr, _) => map Dir (map EventJson.clean_event (concat (map snd (own_trace id tr)))) = [DirectionRequest; DirectionResponse]
    | _ => False end) by (vm_compute; reflexivity).
  destruct (handle_all 1024 6 sample_dispatched ∅) as [[tr st']|e|]; [eauto|done|done].
Qed.

(** Among the lines about MySQL, a datagram and HTTP, the request with its
    response. *)
Lemma documented_consumer_pairs_witness :
  let id := connID (New sample_net sample_http_tcp) in
  exists tr st' rq rs, handle_all 1024 6 sample_dispatched ∅ = Ret (tr, st') /\
    map EventJson.clean_event (concat (map snd (own_trace id tr))) = [rq; rs] /\
    filter (fun l => uid_names id (line_uid l))
      (consume ∅ (map Output.Value (Output.worker (concat (map snd tr))))) = [Matched rq rs].
Proof.
  intros id. destruct sample_own as (tr & st' & Hall & Hd). exists tr, st'.
  destruct (map EventJson.clean_event _) as [|rq [|rs [|]]] eqn:Eown; try discriminate Hd.
  injection Hd as Hrq Hrs. exists rq, rs. split; [exact Hall|]. split; [reflexivity|].
  destruct (documented_consumer_pairs 1024 6 1 sample_net sample_http_tcp sample_http_segs (Some 3) ∅ tr st') as [_ Hzip].
  - apply sample_among; [right; split; reflexivity|reflexivity|exact Hall].
  - unfold http_ports. ground.
  - apply lookup_empty.
  - exact (sample_kept tr st' Hall).
  - rewrite Eown. reflexivity.
  - rewrite Eown in Hzip. unfold id. rewrite Hzip.
    + by rewrite !list.filter_cons, Hrq, Hrs.
    + intros [|[|k]]; cbn [take]; rewrite ?take_nil, ?list.filter_cons, ?Hrq, ?Hrs; vm_compute; lia.
Defined.

(** The first request and response of connection 7. *)
Definition sample_message (d : Direction) : ProtocolEvent :=
  set_HTTP (set_UID (NewEvent 5 Http.Name d) (Http.makeUID 7 (uint64 0)))
    {| http_Method := []; http_URL := []; http_Host := []; http_StatusCode := 0; http_Headers := ∅;
       http_ContentType := []; http_BodyLength := 0; http_Body := []; http_BodyTruncated := false |}.

(** Between two requests of connection 8. *)
Definition sample_neighbour : ProtocolEvent := set_UID (sample_message DirectionRequest) (Http.makeUID 8 (uint64 0)).

Lemma two_workers_orphan_witness :
  let rq := sample_message DirectionRequest in
  let rs := sample_message DirectionResponse in
  exists s, Workers.reachable Workers.sample_config 2 [sample_neighbour; rq; rs; sample_neighbour] s /\
    Workers.queue s = [] /\ Workers.held (Workers.pcs s) = [] /\ Workers.pending s = [] /\
    Workers.topic s = Output.worker [sample_neighbour; rs; rq; sample_neighbour] /\
    filter (fun l => line_uid l = UID rq) (consume ∅ (map Output.Value (Workers.topic s)))
    = [Orphan (EventJson.clean_event rs)].
Proof.
  intros rq rs. apply (two_workers_orphan Workers.sample_config 2 7 0 rq rs [sample_neighbour] [sample_neighbour]).
  - lia.
  - apply numbered_request; try reflexivity; [by eexists|].
    apply numbered_response; try reflexivity; [by eexists|constructor].
  - reflexivity.
  - reflexivity.
  - repeat constructor; vm_compute; discriminate.
Defined.
End Consumer.
