(* ===== verification/Engine.v ===== *)
(** * The reassembly engine's contract

    What the stage of [internal/reassembly/tcp.go] asks of gopacket's engine,
    the packets of a connection that come in order, and what the engine promises
    of them: one stream, whose segments carry the connection's bytes. An engine
    that keeps a table of connections meets the contract. *)

From S2P Require Import Prelude.
From S2P Require Import GoStrings.
From S2P Require Import Event.
From S2P Require Import Reassembly.
From S2P Require Import Factory.
From S2P Require Import Decode.
From S2P Require Import Connections.

Module Engine.
Import Reassembly.Reassembly Factory.Factory.

(** ** The operations of the stage *)

Inductive op :=
| Assemble (src dst : bytes) (tcp : TCPLayer) (time size : Z)
| CloseOlderThan (limit : Z).

Definition packet_op (pkt : Decode.DecodedPacket) (tcp : TCPLayer) : op :=
  Assemble (Decode.SrcIP pkt) (Decode.DstIP pkt) tcp (Decode.Timestamp pkt) (len (Decode.RawPacket pkt)).

(** The operations of [run] on the cases its [select] takes. *)
Fixpoint run_ops (cfg : Reassembler.ReassemblyConfig) (events : list Reassembler.event) : list op :=
  match events with
  | [] | Reassembler.CtxDone :: _ | Reassembler.Input None :: _ => []
  | Reassembler.Input (Some pkt) :: events' =>
      match Decode.TCP pkt with
      | None => run_ops cfg events'
      | Some tcp => packet_op pkt tcp :: run_ops cfg events'
      end
  | Reassembler.Tick now :: events' =>
      CloseOlderThan (now - Reassembler.ConnectionTimeout cfg) :: run_ops cfg events'
  end.

Section Stage.
Context `{ReassemblyEngine}.

Definition apply (a : assembler) (o : op) : assembler :=
  match o with
  | Assemble src dst tcp time size => AssembleWithContext src dst tcp time size a
  | CloseOlderThan limit => FlushCloseOlderThan limit a
  end.

Lemma run_apply cfg events a : Reassembler.run cfg events a = fold_left apply (run_ops cfg events) a.
Proof.
  revert a. induction events as [|[|[pkt|]|now] events IH]; intros a; cbn [Reassembler.run run_ops]; try done.
  destruct (Decode.TCP pkt) as [tcp|]; [|done]. cbn [fold_left]. by rewrite IH.
Qed.
End Stage.

(** ** The packets of a connection *)

(** A connection, seen from its client. *)
Record endpoints := { client : bytes; server : bytes; client_port : Z; server_port : Z }.

#[export] Instance endpoints_eq_dec : EqDecision endpoints.
Proof. solve_decision. Defined.

#[export, program] Instance endpoints_countable : Countable endpoints :=
  inj_countable' (fun c => (client c, server c, client_port c, server_port c))
    (fun '(a, b, p, q) => {| client := a; server := b; client_port := p; server_port := q |}) _.
Next Obligation. by intros []. Qed.

Definition flip (c : endpoints) : endpoints :=
  {| client := server c; server := client c; client_port := server_port c; server_port := client_port c |}.

Lemma flip_flip c : flip (flip c) = c.
Proof. by destruct c. Qed.

Definition sender (src dst : bytes) (tcp : TCPLayer) : endpoints :=
  {| client := src; server := dst; client_port := tcp_SrcPort tcp; server_port := tcp_DstPort tcp |}.

(** The direction of a packet of the connection: [true] from the client. *)
Definition side (c : endpoints) (o : op) : option bool :=
  match o with
  | Assemble src dst tcp _ _ =>
      if decide (sender src dst tcp = c) then Some true
      else if decide (sender src dst tcp = flip c) then Some false else None
  | CloseOlderThan _ => None
  end.

Definition payload (o : op) : bytes :=
  match o with Assemble _ _ tcp _ _ => default [] (tcp_Payload tcp) | CloseOlderThan _ => [] end.

(** The bytes of a direction, as its packets bring them. *)
Definition payloads (c : endpoints) (cl : bool) (ops : list op) : bytes :=
  concat (map payload (filter (fun o => side c o = Some cl) ops)).

(** ** Packets in order *)

(** A direction: the sequence number it goes on with after its SYN, whether it
    has sent its FIN, and the time of its last packet. *)
Record half := { next : option Z; finished : bool; last_seen : Z }.

Definition uint32 (z : Z) : Z := z mod 2 ^ 32.

(** The next packet of a direction: a SYN without data first, then data at the
    expected number up to a FIN, then only acknowledgements. *)
Definition advance (h : half) (tcp : TCPLayer) (time : Z) : option half :=
  let data := default [] (tcp_Payload tcp) in
  match next h with
  | None =>
      if tcp_SYN tcp && negb (tcp_FIN tcp) && negb (tcp_RST tcp) && (len data =? 0)
      then Some {| next := Some (uint32 (tcp_Seq tcp + 1)); finished := finished h; last_seen := time |} else None
  | Some n =>
      if (tcp_Seq tcp =? n) && negb (tcp_SYN tcp) && negb (tcp_RST tcp)
         && (negb (finished h) || negb (tcp_FIN tcp) && (len data =? 0))
      then Some {| next := Some (uint32 (n + len data + (if tcp_FIN tcp then 1 else 0)));
                   finished := finished h || tcp_FIN tcp; last_seen := time |} else None
  end.

(** The two directions, from the client and from the server. *)
Definition track : Type := half * half.

Definition half_of (t : track) (cl : bool) : half := if cl then fst t else snd t.
Definition set_half (t : track) (cl : bool) (h : half) : track := if cl then (h, snd t) else (fst t, h).
Definition unopened (time : Z) : half := {| next := None; finished := false; last_seen := time |}.

Definition both_finished (t : track) : bool := finished (fst t) && finished (snd t).

(** The packets of the connection come in order, the client's SYN first, up to
    the FINs of both directions and perhaps their acknowledgements; and until
    then no flush is for packets as late as the last one of a direction. *)
Fixpoint in_order_from (c : endpoints) (t : option track) (ops : list op) : bool :=
  match ops with
  | [] => match t with Some t => both_finished t | None => false end
  | CloseOlderThan limit :: ops' =>
      match t with
      | None => true
      | Some t => both_finished t || (limit <=? last_seen (fst t)) && (limit <=? last_seen (snd t))
      end && in_order_from c t ops'
  | Assemble src dst tcp time size as o :: ops' =>
      match side c o with
      | None => in_order_from c t ops'
      | Some cl =>
          match t, cl with
          | None, false => false
          | None, true =>
              match advance (unopened time) tcp time with
              | Some h => in_order_from c (Some (h, unopened time)) ops'
              | None => false
              end
          | Some t, _ =>
              match advance (half_of t cl) tcp time with
              | Some h => in_order_from c (Some (set_half t cl h)) ops'
              | None => false
              end
          end
      end
  end.

Definition in_order (c : endpoints) (ops : list op) : Prop := flip c <> c /\ in_order_from c None ops = true.

(** ** The contract *)

(** The flows of a packet: the stage makes the one of the addresses, the engine
    the one of the ports. *)
Class PacketFlows `{GopacketFlow} := {
  ip_flow : bytes -> bytes -> flow;
  port_flow : Z -> Z -> flow;
  port_flow_raw s d : Src_Raw (port_flow s d) = be_bytes 2 s /\ Dst_Raw (port_flow s d) = be_bytes 2 d;
}.

Section Contract.
Context `{PacketFlows}.

Definition net_flow (c : endpoints) : flow := ip_flow (client c) (server c).
Definition tcp_flow (c : endpoints) : flow := port_flow (client_port c) (server_port c).

(** The calls of the engine have one stream for the connection, with its bytes;
    the other streams are of other connections. *)
Definition delivered_in_order (c : endpoints) (ops : list op) (calls : list call) : Prop :=
  exists h segs ac, own_calls h calls = connection h (net_flow c) (tcp_flow c) segs ac /\
    (forall cl, Connections.carried cl segs = payloads c cl ops) /\
    (forall h' n t, CallNew h' n t ∈ calls -> h' <> h ->
       exists src dst tcp time size, Assemble src dst tcp time size ∈ ops /\
         side c (Assemble src dst tcp time size) = None /\
         n = net_flow (sender src dst tcp) /\ t = tcp_flow (sender src dst tcp)).
End Contract.

(** The engine on a new pool, and the calls it has made on the factory and its
    streams: a connection whose packets came in order, with the FINs of both
    directions, has been delivered, without a flush of what is left. *)
Class InOrderDelivery `{ReassemblyEngine} `{PacketFlows} := {
  new_assembler : assembler;
  calls_made : assembler -> list call;
  in_order_delivery c ops : in_order c ops ->
    delivered_in_order c ops (calls_made (fold_left apply ops new_assembler));
}.

(** ** An engine that meets it *)

#[local] Existing Instance raw_flow.

Definition raw_packet_flows : PacketFlows :=
  {| ip_flow src dst := (src, dst); port_flow s d := (be_bytes 2 s, be_bytes 2 d);
     port_flow_raw s d := conj eq_refl eq_refl |}.

#[local] Existing Instance raw_packet_flows.

(** It gives every packet of a connection it has seen the SYN of to the stream,
    as it comes, until both directions have sent their FIN, which completes the
    stream; a flush of everything completes the others. A connection has its
    stream and the FINs of its client and its server. *)
Record table := { streams_of : gmap endpoints (nat * (bool * bool)); made : list call; fresh : nat }.

Definition both (fins : bool * bool) : bool := fst fins && snd fins.
Definition mark (cl fin : bool) (fins : bool * bool) : bool * bool :=
  if cl then (fst fins || fin, snd fins) else (fst fins, snd fins || fin).

Definition ending (h : nat) (fins : bool * bool) (ac : option Z) : list call :=
  if both fins then [CallReassemblyComplete h ac] else [].

Definition deliver (k : endpoints) (h : nat) (fins : bool * bool) (cl : bool) (tcp : TCPLayer) (time : Z) (a : table) : table :=
  if both fins then a else
  let fins := mark cl (tcp_FIN tcp) fins in
  {| streams_of := <[k := (h, fins)]> (streams_of a);
     made := made a ++ CallReassembledSG h (default [] (tcp_Payload tcp)) cl (Some time) :: ending h fins (Some time);
     fresh := fresh a |}.

Definition assemble (src dst : bytes) (tcp : TCPLayer) (time size : Z) (a : table) : table :=
  let k := sender src dst tcp in
  match streams_of a !! k, streams_of a !! flip k with
  | Some (h, fins), _ => deliver k h fins true tcp time a
  | None, Some (h, fins) => deliver (flip k) h fins false tcp time a
  | None, None =>
      if tcp_SYN tcp
      then {| streams_of := <[k := (fresh a, (false, false))]> (streams_of a);
              made := made a ++ [CallNew (fresh a) (net_flow k) (tcp_flow k)]; fresh := S (fresh a) |}
      else a
  end.

Definition flush_table (a : table) : table :=
  {| streams_of := ∅;
     made := made a ++ map (fun h => CallReassemblyComplete h None)
               (omap (fun '(_, (h, fins)) => if both fins then None else Some h) (map_to_list (streams_of a)));
     fresh := fresh a |}.

Definition table_engine : ReassemblyEngine :=
  {| assembler := table; AssembleWithContext := assemble; FlushCloseOlderThan _ a := a; FlushAll := flush_table |}.

#[local] Existing Instance table_engine.

(** *** The table while the connection's packets come *)

Section Table.
Variable c : endpoints.
Hypothesis not_self : flip c <> c.

Definition opened_by_other (ops : list op) (n t : flow) : Prop :=
  exists src dst tcp time size, Assemble src dst tcp time size ∈ ops /\
    side c (Assemble src dst tcp time size) = None /\
    n = net_flow (sender src dst tcp) /\ t = tcp_flow (sender src dst tcp).

Definition stream_opened (h : nat) (segs : list segment) : list call :=
  CallNew h (net_flow c) (tcp_flow c) :: map (fun '(d, cl, ac) => CallReassembledSG h d cl ac) segs.

(** Streams are numbered, each for one connection. *)
Record table_ok (a : table) : Prop := {
  numbered_streams k h fins : streams_of a !! k = Some (h, fins) -> (h < fresh a)%nat;
  one_stream k k' h fins fins' :
    streams_of a !! k = Some (h, fins) -> streams_of a !! k' = Some (h, fins') -> k = k';
  numbered_calls x h : x ∈ made a -> stream_of x = Some h -> (h < fresh a)%nat;
}.

(** What the connection has: its stream, the FINs and the segments. *)
Definition own_state : Type := nat * (bool * bool) * list segment.
Definition own_entry (o : own_state) : nat * (bool * bool) := fst o.
Definition own_stream (o : own_state) : nat := fst (fst o).

(** After the operations [ops]: the connection has its stream and segments, or
    its first packet is still to come. *)
Record tracked (ops : list op) (a : table) (own : option own_state) : Prop := {
  tracked_ok : table_ok a;
  tracked_flip : streams_of a !! flip c = None;
  tracked_own : streams_of a !! c = own_entry <$> own;
  tracked_others h n t : CallNew h n t ∈ made a -> Some h <> own_stream <$> own -> opened_by_other ops n t;
  tracked_calls : match own with
    | None => True
    | Some (h, fins, segs) => exists ac, own_calls h (made a) = stream_opened h segs ++ ending h fins ac
    end;
  tracked_bytes cl : Connections.carried cl (from_option snd [] own) = payloads c cl ops;
}.

Lemma payloads_snoc cl ops o :
  payloads c cl (ops ++ [o]) = payloads c cl ops ++ (if decide (side c o = Some cl) then payload o else []).
Proof.
  unfold payloads. rewrite list.filter_app, map_app, concat_app, list.filter_cons.
  case_decide; cbn [filter map concat]; by rewrite ?app_nil_r.
Qed.

Lemma carried_snoc cl segs d cl' ac :
  Connections.carried cl (segs ++ [(d, cl', ac)]) = Connections.carried cl segs ++ (if Bool.eqb cl' cl then d else []).
Proof.
  unfold Connections.carried, side_segments. rewrite omap_app, concat_app. cbn.
  destruct (Bool.eqb cl' cl); cbn; by rewrite ?app_nil_r.
Qed.

Lemma opened_mono ops o n t : opened_by_other ops n t -> opened_by_other (ops ++ [o]) n t.
Proof.
  intros (src & dst & tcp & time & size & Hin & Hr). exists src, dst, tcp, time, size.
  split; [apply elem_of_app; by left|done].
Qed.

Lemma side_cases src dst tcp time size :
  let k := sender src dst tcp in
  match side c (Assemble src dst tcp time size) with
  | Some true => k = c
  | Some false => k = flip c
  | None => k <> c /\ k <> flip c
  end.
Proof. intros k. unfold side. fold k. by repeat case_decide. Qed.

Lemma ending_calls h fins ac x : x ∈ ending h fins ac -> x = CallReassemblyComplete h ac.
Proof. unfold ending. destruct (both fins); [by intros ?%list_elem_of_singleton|by intros ?%elem_of_nil]. Qed.

(** The calls of one delivery are all on its stream. *)
Lemma own_calls_deliver h h' calls d cl ac fins :
  own_calls h (calls ++ CallReassembledSG h' d cl ac :: ending h' fins ac)
  = own_calls h calls ++ (if decide (h' = h) then CallReassembledSG h' d cl ac :: ending h' fins ac else []).
Proof.
  unfold own_calls. rewrite list.filter_app. f_equal.
  assert (Hon : Forall (fun x => stream_of x = Some h') (CallReassembledSG h' d cl ac :: ending h' fins ac)).
  { constructor; [done|]. apply List.Forall_forall. intros x Hx. apply list_elem_of_In in Hx. by apply ending_calls in Hx as ->. }
  case_decide as Hh; [subst; by apply filter_all|]. apply filter_none. eapply List.Forall_impl; [|exact Hon].
  intros x Hx. rewrite Hx. congruence.
Qed.

Lemma own_calls_new h h' calls n t :
  own_calls h (calls ++ [CallNew h' n t]) = own_calls h calls ++ (if decide (h' = h) then [CallNew h' n t] else []).
Proof.
  unfold own_calls. rewrite list.filter_app, list.filter_cons. cbn [stream_of filter list_filter].
  destruct (decide (h' = h)) as [->|Hh]; [by rewrite decide_True|]. rewrite decide_False; [done|congruence].
Qed.

(** An operation that leaves the connection alone. *)
Lemma tracked_other ops a o a' own :
  tracked ops a own -> table_ok a' -> side c o = None ->
  streams_of a' !! c = streams_of a !! c -> streams_of a' !! flip c = streams_of a !! flip c ->
  (forall s, own = Some s -> own_calls (own_stream s) (made a') = own_calls (own_stream s) (made a)) ->
  (forall h n t, CallNew h n t ∈ made a' -> CallNew h n t ∈ made a \/ opened_by_other (ops ++ [o]) n t) ->
  tracked (ops ++ [o]) a' own.
Proof.
  intros [Hok Hf Ho Hoth Hcalls Hb] Hok' Hs Ec Ef Hown Hnew. split; [done|congruence|congruence| | |].
  - intros h n t Hin Hne. destruct (Hnew _ _ _ Hin) as [Hold|]; [|done]. by eapply opened_mono, Hoth.
  - destruct own as [[[h fins] segs]|]; [|done]. specialize (Hown _ eq_refl). cbn [own_stream fst] in Hown. by rewrite Hown.
  - intros cl. rewrite payloads_snoc, Hs, decide_False, app_nil_r by done. apply Hb.
Qed.

(** What [assemble] does keeps the numbering. *)
Lemma deliver_ok a k h fins cl tcp time :
  table_ok a -> streams_of a !! k = Some (h, fins) -> table_ok (deliver k h fins cl tcp time a).
Proof.
  intros Hok Hk. pose proof Hok as [H1 H2 H3]. unfold deliver. destruct (both fins); [done|].
  pose proof (H1 _ _ _ Hk) as Hh. split; cbn [streams_of made fresh].
  - intros k' h' f' [[-> [= <- <-]]|[_ Hl]]%lookup_insert_Some; [done|]. by eapply H1.
  - intros k1 k2 h' f1 f2 [[-> [= <- <-]]|[Hn1 Hl1]]%lookup_insert_Some [[-> E]|[Hn2 Hl2]]%lookup_insert_Some; try done.
    + by eapply H2.
    + injection E as -> _. by eapply H2.
    + by eapply H2.
  - intros x h' Hin E. apply elem_of_app in Hin as [Hin|Hin]; [by eapply H3|].
    apply elem_of_cons in Hin as [->|Hin]; [by injection E as <-|]. apply ending_calls in Hin as ->. by injection E as <-.
Qed.

Lemma open_ok a k n t fins :
  table_ok a -> streams_of a !! k = None ->
  table_ok {| streams_of := <[k := (fresh a, fins)]> (streams_of a); made := made a ++ [CallNew (fresh a) n t];
              fresh := S (fresh a) |}.
Proof.
  intros [H1 H2 H3] Hk. split; cbn [streams_of made fresh].
  - intros k' h f [[-> [= <- <-]]|[_ Hl]]%lookup_insert_Some; [lia|]. apply H1 in Hl. lia.
  - intros k1 k2 h f1 f2 [[-> [= <- <-]]|[Hn1 Hl1]]%lookup_insert_Some [[-> E]|[Hn2 Hl2]]%lookup_insert_Some; try done.
    + apply H1 in Hl2. lia.
    + injection E as E _. apply H1 in Hl1. lia.
    + by eapply H2.
  - intros x h Hin E. apply elem_of_app in Hin as [Hin|Hin]; [specialize (H3 _ _ Hin E); lia|].
    apply list_elem_of_singleton in Hin as ->. injection E as <-. lia.
Qed.

(** A delivery on the stream of another connection. *)
Lemma other_delivery ops a own o k h fins cl tcp time :
  tracked ops a own -> side c o = None -> streams_of a !! k = Some (h, fins) -> k <> c -> k <> flip c ->
  tracked (ops ++ [o]) (deliver k h fins cl tcp time a) own.
Proof.
  intros Ht Hs Hk Hc Hf. pose proof Ht as [Hok _ Ho _ _ _].
  eapply tracked_other; [exact Ht|by apply deliver_ok|done|..]; unfold deliver; destruct (both fins); try done;
    cbn [streams_of made].
  - by apply lookup_insert_ne.
  - by apply lookup_insert_ne.
  - intros [[h0 f0] segs] ->. cbn [own_stream fst]. rewrite own_calls_deliver, decide_False, app_nil_r; [done|].
    intros ->. apply Hc. by eapply (one_stream a Hok).
  - intros h0 n t Hin. by left.
  - intros h0 n t Hin. apply elem_of_app in Hin as [|Hin]; [by left|].
    apply elem_of_cons in Hin as [|Hin]; [done|]. by apply ending_calls in Hin.
Qed.

(** A packet of another connection. *)
Lemma other_packet ops a own src dst tcp time size :
  tracked ops a own -> side c (Assemble src dst tcp time size) = None ->
  tracked (ops ++ [Assemble src dst tcp time size]) (assemble src dst tcp time size a) own.
Proof.
  intros Ht Hs. pose proof (side_cases src dst tcp time size) as Hk. rewrite Hs in Hk. cbv zeta in Hk.
  pose proof Ht as [Hok Hf Ho _ _ _]. set (k := sender src dst tcp) in *.
  assert (Hflip : flip k <> c /\ flip k <> flip c).
  { split; intros E; destruct Hk as [H1 H2]; [apply H2; by rewrite <- E, flip_flip|].
    apply H1. by rewrite <- (flip_flip k), E, flip_flip. }
  unfold assemble. fold k.
  destruct (streams_of a !! k) as [[h fins]|] eqn:E1; [by apply other_delivery; try done; apply Hk|].
  destruct (streams_of a !! flip k) as [[h fins]|] eqn:E2; [by apply other_delivery; try done; apply Hflip|].
  destruct (tcp_SYN tcp); [|eapply tracked_other; [exact Ht|done|done|done|done|done|by left]].
  eapply tracked_other; try done.
  - by apply open_ok.
  - cbn [streams_of]. apply lookup_insert_ne, Hk.
  - cbn [streams_of]. apply lookup_insert_ne, Hk.
  - intros [[h fins] segs] ->. cbn [made own_stream fst]. rewrite own_calls_new, decide_False, app_nil_r; [done|].
    intros E. apply (numbered_streams a Hok) in Ho. lia.
  - intros h n t Hin. cbn [made] in Hin. apply elem_of_app in Hin as [|Hin]; [by left|right].
    apply list_elem_of_singleton in Hin as [= -> -> ->]. exists src, dst, tcp, time, size.
    split; [apply elem_of_app; right; by apply list_elem_of_singleton|]. done.
Qed.

(** The connection's first packet. *)
Lemma first_packet ops a src dst tcp time size :
  tracked ops a None -> side c (Assemble src dst tcp time size) = Some true ->
  tcp_SYN tcp = true -> default [] (tcp_Payload tcp) = [] ->
  tracked (ops ++ [Assemble src dst tcp time size]) (assemble src dst tcp time size a) (Some (fresh a, (false, false), [])).
Proof.
  intros [Hok Hf Ho Hoth _ Hb] Hs Hsyn Hd. pose proof (side_cases src dst tcp time size) as Hk. rewrite Hs in Hk.
  cbv zeta in Hk. unfold assemble. rewrite Hk, Ho, Hf, Hsyn.
  split; cbn [streams_of made own_entry own_stream fst fmap option_fmap option_map].
  - by apply open_ok.
  - by rewrite lookup_insert_ne.
  - apply lookup_insert_eq.
  - intros h n t Hin Hne. apply elem_of_app in Hin as [Hin|Hin]; [by eapply opened_mono, Hoth|].
    apply list_elem_of_singleton in Hin. congruence.
  - exists None. rewrite own_calls_new, decide_True by done.
    replace (own_calls (fresh a) (made a)) with ([] : list call); [done|]. symmetry. apply filter_none.
    apply List.Forall_forall. intros x Hin E. apply list_elem_of_In in Hin. apply (numbered_calls a Hok _ _ Hin) in E. lia.
  - intros cl. rewrite payloads_snoc, <- Hb. cbn [from_option snd payload]. rewrite Hd. by case_decide.
Qed.

(** A later packet of the connection: the engine gives it to the stream, unless
    the stream is complete. *)
Lemma assemble_own ops a h fins segs src dst tcp time size cl :
  tracked ops a (Some (h, fins, segs)) -> side c (Assemble src dst tcp time size) = Some cl ->
  assemble src dst tcp time size a = deliver c h fins cl tcp time a.
Proof.
  intros [_ Hf Ho _ _ _] Hs. pose proof (side_cases src dst tcp time size) as Hk. rewrite Hs in Hk. cbv zeta in Hk.
  cbn [own_entry fst fmap option_fmap option_map] in Ho. unfold assemble.
  destruct cl; rewrite Hk, ?flip_flip, ?Ho, ?Hf; done.
Qed.

Lemma later_packet ops a h fins segs src dst tcp time size cl :
  tracked ops a (Some (h, fins, segs)) -> side c (Assemble src dst tcp time size) = Some cl -> both fins = false ->
  tracked (ops ++ [Assemble src dst tcp time size]) (assemble src dst tcp time size a)
    (Some (h, mark cl (tcp_FIN tcp) fins, segs ++ [(default [] (tcp_Payload tcp), cl, Some time)])).
Proof.
  intros Ht Hs Hopen. rewrite (assemble_own _ _ _ _ _ _ _ _ _ _ _ Ht Hs). destruct Ht as [Hok Hf Ho Hoth Hcalls Hb].
  cbn [own_entry fst fmap option_fmap option_map] in Ho.
  split; [by apply deliver_ok|..]; unfold deliver; rewrite ?Hopen;
    cbn [streams_of made own_entry own_stream fst fmap option_fmap option_map from_option snd].
  - by rewrite lookup_insert_ne.
  - apply lookup_insert_eq.
  - intros h' n t Hin Hne. apply elem_of_app in Hin as [Hin|Hin]; [by eapply opened_mono, Hoth|].
    apply elem_of_cons in Hin as [|Hin]; [done|]. by apply ending_calls in Hin.
  - destruct Hcalls as [ac Hcalls]. exists (Some time). rewrite own_calls_deliver, decide_True, Hcalls by done.
    unfold ending at 1. rewrite Hopen, app_nil_r. unfold stream_opened. rewrite map_app. cbn [map app].
    by rewrite <- app_assoc.
  - intros cl'. rewrite payloads_snoc, carried_snoc. cbn [from_option snd] in Hb. rewrite Hb, Hs. cbn [payload].
    f_equal. case_decide as Hc; [injection Hc as ->; by rewrite eqb_reflx|].
    destruct (Bool.eqb cl cl') eqn:Ecl; [|done]. apply eqb_prop in Ecl. congruence.
Qed.

(** An acknowledgement after both FINs. *)
Lemma last_packet ops a h fins segs src dst tcp time size cl :
  tracked ops a (Some (h, fins, segs)) -> side c (Assemble src dst tcp time size) = Some cl -> both fins = true ->
  default [] (tcp_Payload tcp) = [] ->
  tracked (ops ++ [Assemble src dst tcp time size]) (assemble src dst tcp time size a) (Some (h, fins, segs)).
Proof.
  intros Ht Hs Hboth Hd. rewrite (assemble_own _ _ _ _ _ _ _ _ _ _ _ Ht Hs). unfold deliver. rewrite Hboth.
  destruct Ht as [Hok Hf Ho Hoth Hcalls Hb]. split; try done.
  - intros h' n t Hin Hne. by eapply opened_mono, Hoth.
  - intros cl'. rewrite payloads_snoc, <- Hb. cbn [payload]. rewrite Hd. case_decide; by rewrite app_nil_r.
Qed.

Lemma advance_syn h tcp time h' :
  next h = None -> advance h tcp time = Some h' -> tcp_SYN tcp = true /\ default [] (tcp_Payload tcp) = [].
Proof.
  intros Hn. unfold advance. cbv zeta. rewrite Hn. destruct (tcp_SYN tcp); [|done].
  destruct (default [] (tcp_Payload tcp)) as [|b l] eqn:E; [done|]. rewrite andb_false_intro2 by lens. done.
Qed.

(** A direction is finished by its FIN, after which nothing comes but
    acknowledgements. *)
Lemma advance_finished h tcp time h' :
  advance h tcp time = Some h' ->
  finished h' = finished h || tcp_FIN tcp /\
  (finished h = true -> tcp_FIN tcp = false /\ default [] (tcp_Payload tcp) = []).
Proof.
  unfold advance. cbv zeta. assert (Hnil : forall d : bytes, (len d =? 0) = true -> d = []) by (intros [|b d]; [done|lens]).
  destruct (next h) as [n|].
  - destruct (tcp_FIN tcp), (finished h), (len (default [] (tcp_Payload tcp)) =? 0) eqn:E; cbn [negb andb orb];
      rewrite ?andb_false_r; try done; (destruct (_ && _); [|done]); intros [= <-]; cbn [finished];
      split; try done; intros _; split; auto.
  - destruct (tcp_SYN tcp), (tcp_FIN tcp), (tcp_RST tcp), (len (default [] (tcp_Payload tcp)) =? 0) eqn:E; cbn [negb andb];
      try done. intros [= <-]. cbn [finished]. by rewrite orb_false_r; auto.
Qed.

Definition fins_of (t : track) : bool * bool := (finished (fst t), finished (snd t)).

(** Whatever comes with the connection's packets in order. *)
Lemma table_delivers ops_done ops a t own :
  tracked ops_done a own -> (fun o => snd (own_entry o)) <$> own = fins_of <$> t -> in_order_from c t ops = true ->
  exists h fins segs, tracked (ops_done ++ ops) (fold_left apply ops a) (Some (h, fins, segs)) /\ both fins = true.
Proof.
  revert ops_done a t own. induction ops as [|o ops IH]; intros ops_done a t own Ht Hown Hin.
  { destruct t as [t|]; [|done]. destruct own as [[[h fins] segs]|]; [|done]. injection Hown as ->.
    exists h, (fins_of t), segs. by rewrite app_nil_r. }
  replace (ops_done ++ o :: ops) with ((ops_done ++ [o]) ++ ops) by (by rewrite <- app_assoc). cbn [fold_left]. cbn [in_order_from] in Hin.
  destruct o as [src dst tcp time size|limit].
  - change (@apply table_engine a (Assemble src dst tcp time size)) with (assemble src dst tcp time size a).
    destruct (side c (Assemble src dst tcp time size)) as [cl|] eqn:Hs.
    2: { eapply IH; [by apply other_packet|exact Hown|exact Hin]. }
    destruct own as [[[h fins] segs]|], t as [t|]; try done.
    + injection Hown as ->. destruct (advance _ tcp time) as [hf|] eqn:Ha; [|done].
      apply advance_finished in Ha as [Hfin Hdone].
      assert (Hmark : fins_of (set_half t cl hf) = mark cl (tcp_FIN tcp) (fins_of t)) by (destruct cl; unfold fins_of; cbn in *; by rewrite Hfin).
      destruct (both (fins_of t)) eqn:Hboth.
      * assert (Hf : finished (half_of t cl) = true) by (apply andb_true_iff in Hboth as [? ?]; by destruct cl).
        destruct (Hdone Hf) as [Hfin' Hd]. eapply IH; [by eapply last_packet| |exact Hin].
        cbn. rewrite Hmark, Hfin'. unfold mark, fins_of. destruct cl; cbn; by rewrite orb_false_r.
      * eapply IH; [by apply later_packet| |exact Hin]. cbn. by rewrite Hmark.
    + destruct cl; [|done]. destruct (advance (unopened time) tcp time) as [hf|] eqn:Ha; [|done].
      pose proof Ha as Hf. apply advance_finished in Hf as [Hfin Hdone].
      assert (Hno : tcp_FIN tcp = false) by (revert Ha; unfold advance; cbn; destruct (tcp_SYN tcp), (tcp_FIN tcp); done).
      apply advance_syn in Ha as [Hsyn Hd]; [|done].
      eapply IH; [by apply first_packet| |exact Hin]. cbn in Hfin |- *. unfold fins_of. cbn. by rewrite Hfin, Hno.
  - apply andb_true_iff in Hin as [_ Hin]. eapply IH; [|exact Hown|exact Hin].
    eapply tracked_other; try done; [apply Ht|]. intros h n t' Hc. by left.
Qed.

(** Once both directions have sent their FIN, the stream is complete. *)
Lemma complete_delivers ops a h fins segs :
  tracked ops a (Some (h, fins, segs)) -> both fins = true -> delivered_in_order c ops (made a).
Proof.
  intros [Hok _ Ho Hoth [ac Hcalls] Hb] Hboth. exists h, segs, ac. split; [|split; [exact Hb|]].
  - rewrite Hcalls. unfold ending. rewrite Hboth. done.
  - intros h' n t Hin Hne. apply (Hoth h'); [done|]. cbn. congruence.
Qed.
End Table.

Definition empty_table : table := {| streams_of := ∅; made := []; fresh := 0 |}.

Lemma empty_tracked c : tracked c [] empty_table None.
Proof.
  split; try done; [|by intros h n t Hin; apply elem_of_nil in Hin].
  split; cbn [empty_table streams_of made]; [intros k h fins|intros k k' h fins fins'|intros x h Hin; by apply elem_of_nil in Hin]; by rewrite lookup_empty.
Qed.

Lemma table_in_order_delivery c ops :
  in_order c ops -> delivered_in_order c ops (made (fold_left apply ops empty_table)).
Proof.
  intros [Hself Hin]. destruct (table_delivers c Hself [] ops empty_table None None) as (h & fins & segs & Ht & Hboth); [apply empty_tracked|done|done|].
  by eapply complete_delivers.
Qed.

Definition table_delivery : InOrderDelivery :=
  {| new_assembler := empty_table : assembler; calls_made := made; in_order_delivery := table_in_order_delivery |}.
End Engine.
