(* ===== verification/Captured.v ===== *)
(** * From captured packets to what a consumer reads: services and HTTP over TCP

    The stages composed along the path of a TCP connection: the decode workers
    and the splitter, the stage of the reassembler with an engine that keeps its
    contract, the streams, the dispatcher with the registry of [main], the
    parsers with the janitor of the HTTP parser, the worker of the producer with
    the JSON serializer, and the documented consumer. The run is the one of a
    live agent: the messages that the reassembler's [Stop] flushes come when the
    dispatcher's loops have ended, so they are not in it. *)

From S2P Require Import Prelude.
From S2P Require Import GoStrings.
From S2P Require Import Event.
From S2P Require Import Http.
From S2P Require Import Registry.
From S2P Require Import Parsers.
From S2P Require Import Wire.
From S2P Require Import Mysql.
From S2P Require Import Reassembly.
From S2P Require Import Factory.
From S2P Require Import Decode.
From S2P Require Import DecodeWorkers.
From S2P Require Import Dispatch.
From S2P Require Import Output.
From S2P Require Import EventJson.
From S2P Require Import Isolation.
From S2P Require Import Attribution.
From S2P Require Import Stream.
From S2P Require Import Connections.
From S2P Require Import Consumer.
From S2P Require Import Engine.

Module Captured.
Import Reassembly.Reassembly Factory.Factory Isolation.Isolation Stream.Stream Connections.Connections Engine.Engine.

(** The packets that [run] takes from its input before it returns. *)
Fixpoint taken (events : list Reassembler.event) : list Decode.DecodedPacket :=
  match events with
  | [] | Reassembler.CtxDone :: _ | Reassembler.Input None :: _ => []
  | Reassembler.Input (Some pkt) :: events' => pkt :: taken events'
  | Reassembler.Tick _ :: events' => taken events'
  end.

(** The calls of the engine among those of the run; the others are receives. *)
Definition engine_calls `{GopacketFlow} : list call -> list call := filter (fun x => stream_of x <> None).

Section Captured.
Context `{Unicode} `{NetHTTP} `{NetIP} `{GopacketDecoder} `{InOrderDelivery}.
Variables (b q : Z).

Definition conn_id (c : endpoints) : Z := connID (New (net_flow c) (tcp_flow c)).

(** A run of the agent on captured packets. The decode workers have forwarded
    some of them, and the reassembler takes the TCP packets that they and the
    splitter give it, with ticks in between; among them are those of a
    connection, in order, from its SYN to the FINs of both directions, whose id
    is not zero and of no other connection. The dispatcher takes the messages of
    the streams at any time, and those of the connection find room. It handles
    all of them, among datagrams and sweeps of the janitor, without a panic. *)
Record captured (c : endpoints) (v : layer_vars) (packets : list Packet) (cfg : Reassembler.ReassemblyConfig)
    (events : list Reassembler.event) (st : Http.states) (tr : list (item * list ProtocolEvent)) (st' : Http.states) : Prop := {
  captured_decoded : exists cap n s, DecodeWorkers.reachable cap n v packets s /\
    taken events = fst (Splitter.split (DecodeWorkers.taken s));
  captured_order : in_order c (run_ops cfg events);
  captured_id : conn_id c <> 0;
  captured_ids src dst tcp time size : Assemble src dst tcp time size ∈ run_ops cfg events ->
    side c (Assemble src dst tcp time size) = None -> conn_id (sender src dst tcp) <> conn_id c;
  captured_run : exists calls cap stg log items,
    engine_calls calls = calls_made (Reassembler.run cfg events new_assembler) /\
    exec calls (start cap) = Ret (stg, log) /\
    Forall (fun '(_, (m, sent)) => ConnID (Meta m) = conn_id c -> sent = true) log /\
    tcp_messages items = received stg ++ chan_buf (output stg) /\
    handle_all b q items st = Ret (tr, st');
}.

Lemma own_engine_calls h calls : own_calls h (engine_calls calls) = own_calls h calls.
Proof.
  unfold own_calls, engine_calls. rewrite list.list_filter_filter. apply list.list_filter_iff. intros x. split; [tauto|]. intros E. by rewrite E.
Qed.

Lemma captured_among c v packets cfg events st tr st' :
  captured c v packets cfg events st tr st' ->
  exists h segs ac, among b q h (net_flow c) (tcp_flow c) segs ac st tr st' /\
    forall cl, carried cl segs = payloads c cl (run_ops cfg events).
Proof.
  intros [_ Hord Hid Hids (calls & cap & stg & log & items & Hcalls & Hexec & Hsent & Hitems & Hall)].
  pose proof (in_order_delivery c _ Hord) as (h & segs & ac & Hown & Hb & Hoth).
  rewrite run_apply in Hcalls. rewrite <- Hcalls in Hown, Hoth.
  rewrite own_engine_calls in Hown. exists h, segs, ac. split; [|exact Hb]. exists log. split.
  { split; [exact Hid|]. exists calls, cap, stg, items. split; [done|]. split; [done|]. split; [|done].
    intros h' n t Hin Hne. destruct (Hoth h' n t) as (src & dst & tcp & time & size & Ho & Hs & -> & ->);
      [by apply list_elem_of_filter|done|]. by eapply Hids. }
  pose proof (exec_refines calls (start cap) (start_ok cap)) as Hw. rewrite Hexec in Hw.
  destruct Hw as (Espec & _ & _). cbn [start streams] in Espec.
  pose proof (spec_named (fun h' m => h' = h -> ConnID m = conn_id c) calls ∅) as Hn. rewrite Espec in Hn. cbn [snd] in Hn.
  specialize (Hn ltac:(intros h' n t Hin ->; by destruct (connection_New _ _ _ _ _ _ _ _ Hown Hin) as [-> ->]) (map_Forall_empty _)).
  unfold offered in Hn. rewrite Forall_map in Hn. apply List.Forall_forall. intros [h' [m sent]] Hin Hh.
  rewrite List.Forall_forall in Hn, Hsent. specialize (Hn _ Hin Hh). exact (Hsent _ Hin Hn).
Qed.

Lemma port_of_be z : 0 <= z < 65536 -> port_of (be_bytes 2 z) = z.
Proof.
  intros Hz. unfold port_of. rewrite len_be_bytes, take_ge by (by rewrite length_be_bytes). by apply (be_uint_be_bytes 2).
Qed.

Lemma tcp_flow_ports c :
  0 <= client_port c < 65536 -> 0 <= server_port c < 65536 ->
  port_of (Src_Raw (tcp_flow c)) = client_port c /\ port_of (Dst_Raw (tcp_flow c)) = server_port c.
Proof.
  intros Hc Hs. unfold tcp_flow. destruct (port_flow_raw (client_port c) (server_port c)) as [-> ->].
  by rewrite !port_of_be.
Qed.

#[local] Existing Instance EventJson.JSONSerializer.

(** C2: A service connection from captured packets to what a consumer reads.
    Whatever packets the decode workers get, if among the TCP packets they
    forward those of a connection with a MySQL, MongoDB, MQTT, Redis,
    PostgreSQL, SMTP, FTP, POP3 or IMAP service come in order, from its SYN to
    the FINs of both directions, each direction with well-formed messages in
    less than 256 KiB, cut into packets in any way; if no flush before the end is
    for packets as late as the connection's, its messages find room in the
    channel of the streams, its id is not zero and of no other connection, and
    the dispatcher handles what is in the channel, among datagrams and sweeps of
    the janitor, without a panic: then the events of the connection are those of
    its client's messages followed by those of its server's, no parser keeps
    state of it, its Kafka messages have one key, and a consumer reads these
    events. *)
Theorem captured_service_connection sv c v packets cfg events st tr st' :
  let p := service_parser q sv in
  let W := service_wire q sv in
  let carried_bytes cl := payloads c cl (run_ops cfg events) in
  forall cs ss : list (wire_msg p),
  captured c v packets cfg events st tr st' ->
  0 <= client_port c < 65536 -> 0 <= server_port c < 65536 -> to_service sv (client_port c) (server_port c) ->
  Forall (wire_ok p) (cs ++ ss) -> carried_bytes true = wire p true cs -> carried_bytes false = wire p false ss ->
  (forall cl, len (carried_bytes cl) < maxBufferSize) ->
  let meta := stream_meta_of (net_flow c) (tcp_flow c) in
  let evs := concat (map snd (own_trace (m_ConnID meta) tr)) in
  untimed <$> evs = omap (wire_event p meta true) cs ++ omap (wire_event p meta false) ss /\
  st' !! m_ConnID meta = None /\
  Forall (fun k => Output.Key k = Output.flow_key meta) (Output.worker evs) /\
  mapM (fun k => EventJson.Unmarshal (Output.Value k)) (Output.worker evs) = Some (map EventJson.clean_event evs).
Proof.
  intros p W carried_bytes cs ss Hcap Hcp Hsp Hport Hok Hc Hs Hsmall meta evs.
  destruct (captured_among _ _ _ _ _ _ _ _ Hcap) as (h & segs & ac & Ham & Hb).
  destruct (tcp_flow_ports c Hcp Hsp) as [Esrc Edst].
  apply (service_among_connections b q sv h _ _ segs ac st tr st' cs ss); [done| |by rewrite Esrc, Edst|done|by rewrite Hb..].
  intros cl. rewrite Hb. apply Hsmall.
Qed.

(** C3: HTTP from captured packets to the pairs of the documented consumer.
    Whatever packets the decode workers get, if among the TCP packets they
    forward those of a connection to a port of the HTTP parser come in order,
    from its SYN to the FINs of both directions; if no flush before the end is
    for packets as late as the connection's, its messages find room in the
    channel of the streams, its id is not zero and of no other connection, the
    dispatcher handles what is in the channel, among datagrams, without a panic,
    the parser holds no state of the id before and no sweep of the janitor drops
    it, and the connection has fewer than 2^64 events: then what the consumer of the guide prints about the connection,
    when one worker of the producer writes the events of the run in their order
    and each message is delivered once, in order, is each response with the
    request of its position, if that has come; and when no response comes before
    its request, all of them in order. *)
Theorem captured_http_pairs c v packets cfg events st tr st' :
  captured c v packets cfg events st tr st' ->
  0 <= client_port c < 65536 -> server_port c ∈ http_ports -> st !! conn_id c = None ->
  let id := conn_id c in
  sweeps_keep b q id (map fst tr) st ->
  let own := map EventJson.clean_event (concat (map snd (own_trace id tr))) in
  let requests := filter (fun ev => Dir ev = DirectionRequest) : list ProtocolEvent -> list ProtocolEvent in
  let responses := filter (fun ev => Dir ev = DirectionResponse) : list ProtocolEvent -> list ProtocolEvent in
  let printed := filter (fun l => Consumer.uid_names id (Consumer.line_uid l))
                   (Consumer.consume ∅ (map Output.Value (Output.worker (concat (map snd tr))))) in
  Z.of_nat (length own) < 2 ^ 64 ->
  printed = Consumer.in_order [] 0 own /\
  ((forall k, (length (responses (take k own)) <= length (requests (take k own)))%nat) ->
   printed = zip_with Consumer.Matched (requests own) (responses own)).
Proof.
  intros Hcap Hcp Hsp Hst id Hkeep own requests responses printed Hlen.
  destruct (captured_among _ _ _ _ _ _ _ _ Hcap) as (h & segs & ac & Ham & _).
  assert (Hs : 0 <= server_port c < 65536).
  { unfold http_ports in Hsp. rewrite !elem_of_cons, elem_of_nil in Hsp. lia. }
  destruct (tcp_flow_ports c Hcp Hs) as [_ Edst].
  apply (Consumer.pairs_by_position b q h _ _ segs ac st tr st' Ham); [by rewrite Edst|exact Hst|exact Hkeep|exact Hlen].
Qed.

(** C4: The first 256 KiB of a service connection, from captured packets.
    Whatever packets the decode workers get, if among the TCP packets they
    forward those of a connection with a MySQL, MongoDB, MQTT, Redis,
    PostgreSQL, SMTP, FTP, POP3 or IMAP service come in order, from its SYN to
    the FINs of both directions, and a direction starts with well-formed messages
    that take at most 256 KiB; if no flush before the end is for packets as late
    as the connection's, its messages find room in the channel of the streams,
    its id is not zero and of no other connection, and the dispatcher handles
    what is in the channel, among datagrams and sweeps of the janitor, without a
    panic: then the events of the direction start with exactly those of these
    messages, in order, however the direction is cut into packets and whatever
    bytes follow, of any length. *)
Theorem captured_first_messages sv c v packets cfg events st tr st' :
  let p := service_parser q sv in
  let W := service_wire q sv in
  forall cl (first : list (wire_msg p)) rest,
  captured c v packets cfg events st tr st' ->
  0 <= client_port c < 65536 -> 0 <= server_port c < 65536 -> to_service sv (client_port c) (server_port c) ->
  Forall (wire_ok p) first -> payloads c cl (run_ops cfg events) = wire p cl first ++ rest ->
  len (wire p cl first) <= maxBufferSize ->
  let meta := stream_meta_of (net_flow c) (tcp_flow c) in
  omap (wire_event p meta cl) first `prefix_of` untimed <$> side_events cl (own_trace (m_ConnID meta) tr).
Proof.
  intros p W cl first rest Hcap Hcp Hsp Hport Hok Hc Hl meta.
  destruct (captured_among _ _ _ _ _ _ _ _ Hcap) as (h & segs & ac & Ham & Hb).
  destruct (tcp_flow_ports c Hcp Hsp) as [Esrc Edst].
  apply (first_messages_among_connections b q sv h _ _ segs ac st tr st' cl first rest);
    [done|by rewrite Esrc, Edst|done|by rewrite Hb|done].
Qed.
End Captured.

(** ** Captured connections *)

#[local] Existing Instances ascii_unicode head_http raw_flow raw_ip raw_packet_flows table_engine table_delivery.

(** A decoder of packets that hold the TCP flags, the last byte of each address,
    the ports, the sequence number and the payload. *)
Definition tcp_layers (v : layer_vars) (d : bytes) : layer_vars * list LayerType * option bytes :=
  match d with
  | f :: a :: z :: s1 :: s0 :: t1 :: t0 :: n3 :: n2 :: n1 :: n0 :: payload =>
      ({| v_ip4 := {| ip_SrcIP := [x0a; x00; x00; a]; ip_DstIP := [x0a; x00; x00; z] |}; v_ip6 := v_ip6 v;
          v_tcp := {| tcp_SrcPort := be_uint [s1; s0]; tcp_DstPort := be_uint [t1; t0]; tcp_Seq := be_uint [n3; n2; n1; n0];
                      tcp_SYN := Z.testbit (u8 f) 1; tcp_ACK := Z.testbit (u8 f) 4; tcp_FIN := Z.testbit (u8 f) 0;
                      tcp_RST := Z.testbit (u8 f) 2; tcp_PSH := Z.testbit (u8 f) 3; tcp_Payload := Some payload |};
          v_udp := v_udp v; v_payload := v_payload v |}, [LayerTypeEthernet; LayerTypeIPv4; LayerTypeTCP], None)
  | _ => (v, [], Some (str "truncated"))
  end.

Lemma tcp_layers_same v w d :
  snd (fst (tcp_layers v d)) = snd (fst (tcp_layers w d)) /\ snd (tcp_layers v d) = snd (tcp_layers w d).
Proof. by do 11 (destruct d as [|? d]; [done|]). Qed.

Lemma tcp_layers_fresh v w d lt :
  lt ∈ snd (fst (tcp_layers v d)) -> same_layer lt (fst (fst (tcp_layers v d))) (fst (fst (tcp_layers w d))).
Proof.
  do 11 (destruct d as [|? d]; [by intros ?%elem_of_nil|]).
  cbn. rewrite !elem_of_cons, elem_of_nil. by intros [->|[->|[->|[]]]].
Qed.

#[local] Instance tcp_decoder : GopacketDecoder :=
  {| DecodeLayers := tcp_layers; DecodeLayers_same := tcp_layers_same; DecodeLayers_fresh := tcp_layers_fresh |}.

(** A packet between the hosts 10.0.0.1, on [port], and 10.0.0.2, on [service]. *)
Definition sample_tcp_packet (flags : byte) (cl : bool) (port service seq : Z) (payload : bytes) : Packet :=
  Decode.sample_packet
    (flags :: (if cl then [x01; x02] ++ be_bytes 2 port ++ be_bytes 2 service
               else [x02; x01] ++ be_bytes 2 service ++ be_bytes 2 port) ++ be_bytes 4 seq ++ payload).

(** A MySQL connection from port 40000 and an HTTP connection from port 40001,
    their packets mixed, and a packet that is not decoded. *)
Definition sample_packets : list Packet :=
  let mysql f cl := sample_tcp_packet f cl 40000 3306 in
  let http f cl := sample_tcp_packet f cl 40001 8000 in
  [mysql x02 true 100 []; mysql x12 false 500 []; http x02 true 4294967290 []; Decode.sample_packet [x01];
   mysql x18 true 101 ([x09; x00; x00; x00; x03] ++ str "SEL"); http x12 false 7 [];
   http x18 true 4294967291 (str "GET /a HTTP/1.1" ++ CRLF ++ CRLF); mysql x18 true 109 (str "ECT 1");
   mysql x11 false 501 [x01; x00; x00; x01; x00]; http x18 false 8 (str "HTTP/1.1 200 OK" ++ CRLF ++ CRLF);
   mysql x11 true 114 []; http x11 false 27 []; http x11 true 14 []; mysql x10 false 507 []; http x10 false 28 []].

Definition mysql_conn : endpoints :=
  {| client := [x0a; x00; x00; x01]; server := [x0a; x00; x00; x02]; client_port := 40000; server_port := 3306 |}.
Definition http_conn : endpoints :=
  {| client := [x0a; x00; x00; x01]; server := [x0a; x00; x00; x02]; client_port := 40001; server_port := 8000 |}.

Definition sample_cfg : Reassembler.ReassemblyConfig :=
  {| Reassembler.MaxBufferedPagesPerConn := 4000; Reassembler.MaxBufferedPagesTotal := 150000;
     Reassembler.ConnectionTimeout := 120; Reassembler.MaxConnectionAge := 0; Reassembler.FlushInterval := 30;
     Reassembler.ChannelBuffer := 8 |}.

Definition sample_events : list Reassembler.event :=
  match map (fun pkt => Reassembler.Input (Some pkt)) (fst (Splitter.split (Decode.decodeWorker Decode.sample_vars sample_packets))) with
  | e :: es => e :: Reassembler.Tick 100 :: es ++ [Reassembler.Input None]
  | [] => []
  end.

Definition sample_engine_calls : list call :=
  calls_made (Reassembler.run sample_cfg sample_events new_assembler).

Definition sample_calls : list call := take 10 sample_engine_calls ++ [Receive] ++ drop 10 sample_engine_calls ++ [Receive].

Definition sample_run : stage * list (nat * (StreamData * bool)) :=
  match exec sample_calls (start 8) with Ret r => r | _ => (start 0, []) end.

Definition sample_items : list item :=
  match map (fun sd => TCPMessage 5 (fun _ => 7) sd) (received (fst sample_run) ++ chan_buf (output (fst sample_run))) with
  | i :: items => i :: sample_datagram :: Sweep Http.minute :: items
  | [] => []
  end.

Definition others_differ (c : endpoints) (ops : list op) : bool :=
  forallb (fun o => match o with
    | Assemble src dst tcp _ _ =>
        match side c o with None => negb (conn_id (sender src dst tcp) =? conn_id c) | Some _ => true end
    | CloseOlderThan _ => true
    end) ops.

Lemma sample_run_ret : exec sample_calls (start 8) = Ret (fst sample_run, snd sample_run).
Proof.
  assert (Hr : match exec sample_calls (start 8) with Ret _ => True | _ => False end) by (vm_compute; exact I).
  unfold sample_run. by destruct (exec sample_calls (start 8)) as [[]| |].
Qed.

Lemma sample_run_sent : forallb (fun m => snd (snd m)) (snd sample_run) = true.
Proof. vm_compute. reflexivity. Qed.

Lemma sample_taken :
  taken sample_events = fst (Splitter.split (Decode.decodeWorker Decode.sample_vars sample_packets)).
Proof. vm_compute. reflexivity. Qed.

Lemma sample_engine :
  engine_calls sample_calls = calls_made (Reassembler.run sample_cfg sample_events new_assembler).
Proof. vm_compute. reflexivity. Qed.

Lemma sample_messages : tcp_messages sample_items = received (fst sample_run) ++ chan_buf (output (fst sample_run)).
Proof. vm_compute. reflexivity. Qed.

Lemma sample_connection c :
  c ∈ [mysql_conn; http_conn] ->
  bool_decide (flip c = c) = false /\ in_order_from c None (run_ops sample_cfg sample_events) = true /\
  (conn_id c =? 0) = false /\ others_differ c (run_ops sample_cfg sample_events) = true.
Proof. rewrite !elem_of_cons, elem_of_nil. intros [->|[->|[]]]; split_and!; vm_compute; reflexivity. Qed.

Lemma others_differ_ids c ops src dst tcp time size :
  others_differ c ops = true -> Assemble src dst tcp time size ∈ ops ->
  side c (Assemble src dst tcp time size) = None -> conn_id (sender src dst tcp) <> conn_id c.
Proof.
  intros Hoth Hin Hs E. unfold others_differ in Hoth. rewrite forallb_forall in Hoth.
  apply list_elem_of_In in Hin. specialize (Hoth _ Hin). cbv beta iota in Hoth. rewrite Hs, E, Z.eqb_refl in Hoth. discriminate Hoth.
Qed.

Lemma sample_sent (id : Z) : Forall (fun '(_, (m, sent)) => ConnID (Meta m) = id -> sent = true) (snd sample_run).
Proof.
  apply List.Forall_forall. intros [h' [sd sent]] Hin _. exact (proj1 (forallb_forall _ _) sample_run_sent _ Hin).
Qed.

(** The sweep keeps the state of the HTTP connection. *)
Lemma captured_kept tr st' :
  handle_all 1024 6 sample_items ∅ = Ret (tr, st') -> sweeps_keep 1024 6 (conn_id http_conn) (map fst tr) ∅.
Proof. intros Hall. rewrite (handle_all_items _ _ _ _ _ _ Hall). vm_compute. repeat split. Qed.

Lemma sample_captured c tr st' :
  c ∈ [mysql_conn; http_conn] -> handle_all 1024 6 sample_items ∅ = Ret (tr, st') ->
  captured 1024 6 c Decode.sample_vars sample_packets sample_cfg sample_events ∅ tr st'.
Proof.
  intros Hc Hall.
  destruct (sample_connection c Hc) as (Hflip & Hord & Hid & Hoth). apply bool_decide_eq_false in Hflip. split.
  - destruct (DecodeWorkers.sequential_reachable 1 2 Decode.sample_vars sample_packets) as (s & Hr & Et); [lia|lia|].
    exists 1%nat, 2%nat, s. split; [exact Hr|]. rewrite Et. exact sample_taken.
  - split; [exact Hflip|exact Hord].
  - by apply Z.eqb_neq in Hid.
  - intros src dst tcp time size. exact (others_differ_ids c _ src dst tcp time size Hoth).
  - exists sample_calls, 8, (fst sample_run), (snd sample_run), sample_items.
    split; [exact sample_engine|]. split; [|split; [|split; [exact sample_messages|exact Hall]]].
    + exact sample_run_ret.
    + apply sample_sent.
Qed.

(** The client's query is in two packets, the server's answer comes with its FIN. *)
Lemma captured_service_connection_witness :
  let p := service_parser 6 S_mysql in
  let W := service_wire 6 S_mysql in
  let cs : list Mysql.packet := [{| Mysql.seq_id := x00; Mysql.payload := x03 :: str "SELECT 1" |}] in
  let ss : list Mysql.packet := [{| Mysql.seq_id := x01; Mysql.payload := [x00] |}] in
  let meta := stream_meta_of (net_flow mysql_conn) (tcp_flow mysql_conn) in
  exists tr st', handle_all 1024 6 sample_items ∅ = Ret (tr, st') /\
    let evs := concat (map snd (own_trace (m_ConnID meta) tr)) in
    untimed <$> evs = omap (wire_event p meta true) cs ++ omap (wire_event p meta false) ss /\
    st' !! m_ConnID meta = None /\
    Forall (fun k => Output.Key k = Output.flow_key meta) (Output.worker (H := EventJson.JSONSerializer) evs) /\
    mapM (fun k => EventJson.Unmarshal (Output.Value k)) (Output.worker (H := EventJson.JSONSerializer) evs)
    = Some (map EventJson.clean_event evs).
Proof.
  intros p W cs ss meta.
  assert (Hc : match handle_all 1024 6 sample_items ∅ with Ret _ => True | _ => False end) by (vm_compute; exact I).
  destruct (handle_all 1024 6 sample_items ∅) as [[tr st']|e|] eqn:Hall; [|destruct Hc|destruct Hc].
  exists tr, st'. split; [reflexivity|].
  apply (captured_service_connection 1024 6 S_mysql mysql_conn Decode.sample_vars sample_packets sample_cfg sample_events
    ∅ tr st' cs ss).
  - apply sample_captured; [left|exact Hall].
  - cbn. lia.
  - cbn. lia.
  - left. unfold service_ports. ground.
  - repeat constructor; cbn; lia.
  - vm_compute. reflexivity.
  - vm_compute. reflexivity.
  - intros []; vm_compute; reflexivity.
Defined.

(** The query of the client, which nothing follows. *)
Lemma captured_first_messages_witness :
  let p := service_parser 6 S_mysql in
  let W := service_wire 6 S_mysql in
  let first : list Mysql.packet := [{| Mysql.seq_id := x00; Mysql.payload := x03 :: str "SELECT 1" |}] in
  let meta := stream_meta_of (net_flow mysql_conn) (tcp_flow mysql_conn) in
  exists tr st', handle_all 1024 6 sample_items ∅ = Ret (tr, st') /\
    omap (wire_event p meta true) first `prefix_of` untimed <$> side_events true (own_trace (m_ConnID meta) tr).
Proof.
  intros p W first meta.
  assert (Hc : match handle_all 1024 6 sample_items ∅ with Ret _ => True | _ => False end) by (vm_compute; exact I).
  destruct (handle_all 1024 6 sample_items ∅) as [[tr st']|e|] eqn:Hall; [|destruct Hc|destruct Hc].
  exists tr, st'. split; [reflexivity|].
  apply (captured_first_messages 1024 6 S_mysql mysql_conn Decode.sample_vars sample_packets sample_cfg sample_events
    ∅ tr st' true first []).
  - apply sample_captured; [left|exact Hall].
  - cbn. lia.
  - cbn. lia.
  - left. unfold service_ports. ground.
  - repeat constructor; cbn; lia.
  - vm_compute. reflexivity.
  - vm_compute. discriminate.
Defined.

#[local] Existing Instance EventJson.JSONSerializer.

Lemma captured_http_pairs_witness :
  let id := conn_id http_conn in
  exists tr st' rq rs, handle_all 1024 6 sample_items ∅ = Ret (tr, st') /\
    map EventJson.clean_event (concat (map snd (own_trace id tr))) = [rq; rs] /\
    filter (fun l => Consumer.uid_names id (Consumer.line_uid l))
      (Consumer.consume ∅ (map Output.Value (Output.worker (concat (map snd tr))))) = [Consumer.Matched rq rs].
Proof.
  intros id.
  assert (Hc : match handle_all 1024 6 sample_items ∅ with
    | Ret (tr, _) => map Dir (map EventJson.clean_event (concat (map snd (own_trace id tr)))) = [DirectionRequest; DirectionResponse]
    | _ => False end) by (vm_compute; reflexivity).
  destruct (handle_all 1024 6 sample_items ∅) as [[tr st']|e|] eqn:Hall; [|destruct Hc|destruct Hc].
  exists tr, st'. destruct (map EventJson.clean_event _) as [|rq [|rs [|]]] eqn:Eown; try discriminate Hc.
  injection Hc as Hrq Hrs. exists rq, rs. split; [reflexivity|]. split; [reflexivity|]. unfold id in *.
  destruct (captured_http_pairs 1024 6 http_conn Decode.sample_vars sample_packets sample_cfg sample_events ∅ tr st') as [_ Hzip].
  - apply sample_captured; [right; left|exact Hall].
  - cbn. lia.
  - unfold http_ports. ground.
  - apply lookup_empty.
  - exact (captured_kept tr st' Hall).
  - rewrite Eown. reflexivity.
  - rewrite Eown in Hzip. rewrite Hzip.
    + by rewrite !list.filter_cons, Hrq, Hrs.
    + intros [|[|k]]; cbn [take]; rewrite ?take_nil, ?list.filter_cons, ?Hrq, ?Hrs; vm_compute; lia.
Defined.
End Captured.
