(* ===== verification/Pipeline.v ===== *)
(** * The pipeline ([internal/pipeline/pipeline.go])

    An ordered list of stages: started in order, stopped in reverse order, and
    rolled back when one of them fails to start. A stage acts on the world,
    whose state is a parameter; its [Stop] may never return. *)

From S2P Require Import Prelude.
From S2P Require Import GoStrings.

Module Pipeline.
Section Pipeline.
Context {W : Type}.

(** [pipeline.Stage]; [None] is a nil error. *)
Record Stage := {
  Name : bytes;
  Start : W -> option bytes * W;
  Stop : W -> call (option bytes * W);
}.

Record Pipeline := { stages : list Stage }.

Definition New : Pipeline := {| stages := [] |}.

Definition AddStage (p : Pipeline) (s : Stage) : Pipeline := {| stages := stages p ++ [s] |}.

(** The loop of [stopInReverse] over the stages from last to first:
    [firstErr] is the error it holds. *)
Fixpoint stop_all (rev_stages : list Stage) (firstErr : option bytes) (w : W) : call (option bytes * W) :=
  match rev_stages with
  | [] => Returned (firstErr, w)
  | s :: rest =>
      '(err, w) ← Stop s w;
      let firstErr := match err, firstErr with Some e, None => Some e | _, f => f end in
      stop_all rest firstErr w
  end.

Definition stopInReverse (ss : list Stage) (w : W) : call (option bytes * W) :=
  stop_all (reverse ss) None w.

(** The loop of [Run]; [started] are the stages already started. *)
Fixpoint start_all (ss started : list Stage) (w : W) : call (option bytes * W) :=
  match ss with
  | [] => Returned (None, w)
  | s :: rest =>
      let '(err, w) := Start s w in
      match err with
      | Some e =>
          '(_, w) ← stopInReverse started w;
          Returned (Some (str "start stage " ++ Name s ++ str ": " ++ e), w)
      | None => start_all rest (started ++ [s]) w
      end
  end.

Definition Run (p : Pipeline) (w : W) : call (option bytes * W) := start_all (stages p) [] w.
Definition Shutdown (p : Pipeline) (w : W) : call (option bytes * W) := stopInReverse (stages p) w.

(** ** What they do *)

(** The stages of a list start one after the other. *)
Inductive starts : list Stage -> W -> W -> Prop :=
| starts_nil w : starts [] w w
| starts_cons s ss w w1 w2 : Start s w = (None, w1) -> starts ss w1 w2 -> starts (s :: ss) w w2.

(** Their [Stop]s return one after the other, with these errors. *)
Inductive stops : list Stage -> W -> list (option bytes) -> W -> Prop :=
| stops_nil w : stops [] w [] w
| stops_cons s ss w e w1 es w2 :
    Stop s w = Returned (e, w1) -> stops ss w1 es w2 -> stops (s :: ss) w (e :: es) w2.

(** The [Stop] of one of them never returns, after those before it have. *)
Definition blocks (ss : list Stage) (w : W) (s : Stage) : Prop :=
  exists before after es w1, ss = before ++ s :: after /\ stops before w es w1 /\ Stop s w1 = Waits.

(** The first error, if any. *)
Definition first_error (es : list (option bytes)) : option bytes := head (omap id es).

Lemma stop_all_spec ss firstErr w :
  match stop_all ss firstErr w with
  | Returned (e, w') => exists es, stops ss w es w' /\ e = first_error (firstErr :: es)
  | Waits => exists s, blocks ss w s
  end.
Proof.
  revert firstErr w. induction ss as [|s ss IH]; intros firstErr w; cbn [stop_all].
  { exists []. split; [constructor|by destruct firstErr]. }
  destruct (Stop s w) as [|[err w1]] eqn:E; cbn [mbind call_bind].
  { exists s, [], ss, [], w. split; [done|]. split; [constructor|done]. }
  specialize (IH (match err, firstErr with Some e, None => Some e | _, f => f end) w1).
  destruct (stop_all ss _ w1) as [|[e w']].
  - destruct IH as (x & before & after & es & w2 & -> & Hs & Hx).
    exists x, (s :: before), after, (err :: es), w2. split; [done|]. split; [by econstructor|done].
  - destruct IH as (es & Hs & ->). exists (err :: es). split; [by econstructor|by destruct err, firstErr].
Qed.

Lemma start_all_spec ss started w :
  match start_all ss started w with
  | Returned (None, w') => starts ss w w'
  | Returned (Some e, w') => exists ok s rest w1 err w2 es,
      ss = ok ++ s :: rest /\ starts ok w w1 /\ Start s w1 = (Some err, w2) /\
      e = str "start stage " ++ Name s ++ str ": " ++ err /\ stops (reverse (started ++ ok)) w2 es w'
  | Waits => exists ok s rest w1 err w2 x,
      ss = ok ++ s :: rest /\ starts ok w w1 /\ Start s w1 = (Some err, w2) /\ blocks (reverse (started ++ ok)) w2 x
  end.
Proof.
  revert started w. induction ss as [|s ss IH]; intros started w; cbn [start_all]; [constructor|].
  destruct (Start s w) as [[err|] w1] eqn:E.
  - unfold stopInReverse. pose proof (stop_all_spec (reverse started) None w1) as Hs.
    destruct (stop_all _ _ _) as [|[e w']]; cbn [mbind call_bind].
    + destruct Hs as [x Hx]. exists [], s, ss, w, err, w1, x. rewrite app_nil_r. by repeat constructor.
    + destruct Hs as (es & Hs & _). exists [], s, ss, w, err, w1, es. rewrite app_nil_r. by repeat constructor.
  - specialize (IH (started ++ [s]) w1). destruct (start_all ss _ w1) as [|[[e|] w']].
    + destruct IH as (ok & s' & rest & w2 & err & w3 & x & -> & Hok & Hs & Hx).
      exists (s :: ok), s', rest, w2, err, w3, x. rewrite <- app_assoc in Hx. split_and!; [done|by econstructor|done|done].
    + destruct IH as (ok & s' & rest & w2 & err & w3 & es & -> & Hok & Hs & -> & Hx).
      exists (s :: ok), s', rest, w2, err, w3, es. rewrite <- app_assoc in Hx. split_and!; [done|by econstructor|done|done|done].
    + by econstructor.
Qed.

(** [Run] starts the stages in order. When one fails, exactly the stages
    started before it are stopped, in reverse order, the later ones are
    neither started nor stopped, and the error names the stage; it does not
    return when one of these [Stop]s does not. *)
Theorem pipeline_Run_rollback p w :
  match Run p w with
  | Returned (None, w') => starts (stages p) w w'
  | Returned (Some e, w') => exists ok s rest w1 err w2 es,
      stages p = ok ++ s :: rest /\ starts ok w w1 /\ Start s w1 = (Some err, w2) /\
      e = str "start stage " ++ Name s ++ str ": " ++ err /\ stops (reverse ok) w2 es w'
  | Waits => exists ok s rest w1 err w2 x,
      stages p = ok ++ s :: rest /\ starts ok w w1 /\ Start s w1 = (Some err, w2) /\ blocks (reverse ok) w2 x
  end.
Proof. exact (start_all_spec (stages p) [] w). Qed.

(** [Shutdown] stops every stage, in reverse order, whatever errors occur, and
    returns the first of them, unless one of the [Stop]s never returns. *)
Theorem pipeline_Shutdown_stops_all p w :
  match Shutdown p w with
  | Returned (e, w') => exists es, stops (reverse (stages p)) w es w' /\ e = first_error es
  | Waits => exists s, blocks (reverse (stages p)) w s
  end.
Proof.
  pose proof (stop_all_spec (reverse (stages p)) None w) as Hs. unfold Shutdown, stopInReverse.
  destruct (stop_all _ _ _) as [|[e w']]; exact Hs.
Qed.

End Pipeline.
Arguments Stage : clear implicits.
Arguments Pipeline : clear implicits.

(** A stage that logs its starts and stops, and may fail to start or never
    stop. *)
Definition logged (name : bytes) (fails waits : bool) : Stage (list bytes) := {|
  Name := name;
  Start w := (if fails then Some (str "no") else None, w ++ [str "start " ++ name]);
  Stop w := if waits then Waits else Returned (None, w ++ [str "stop " ++ name]);
|}.

Lemma pipeline_Run_rollback_example :
  Run {| stages := [logged (str "a") false false; logged (str "b") false false; logged (str "c") true false;
                    logged (str "d") false false] |} []
  = Returned (Some (str "start stage c: no"), [str "start a"; str "start b"; str "start c"; str "stop b"; str "stop a"]).
Proof. reflexivity. Qed.

End Pipeline.
