(* ===== verification/Shutdown.v ===== *)
(** * The goroutines at shutdown ([cmd/netcap/main.go] and the [Stop] methods)

    A step relation on the goroutines of the capture, of the stages and the main
    goroutine, from a running pipeline through the signal to [Shutdown] and the
    [Close] of the capture, and through the rollback of a start that fails. The packet splitter is the only stage
    goroutine that ignores the context: it ends when its input, the decoder's
    output, is closed. The decoder closes it in its [Stop], which
    [stopInReverse] calls after the splitter's. Packets are abstracted to where
    they go. *)

From S2P Require Import Prelude.
From S2P Require Import Event.
From S2P Require Import Reassembly.
From S2P Require Import Decode.

Module Shutdown.

(** The stages in the order [stopInReverse] stops them. *)
Inductive stage := Metrics | Dispatcher | KafkaProducer | Reassembler | PacketSplitter | Decoder.

#[export] Instance stage_eq_dec : EqDecision stage.
Proof. solve_decision. Defined.

(** The stages [main] adds; the metrics server is optional. *)
Definition added (metrics : bool) : list stage :=
  [Decoder; PacketSplitter; Reassembler; KafkaProducer; Dispatcher] ++ (if metrics then [Metrics] else []).

Definition stop_order (metrics : bool) : list stage := reverse (added metrics).

(** Where the splitter's goroutine is: receiving, blocked on a send, or done. *)
Inductive splitter_pc := Receiving | SendingTCP | SendingUDP | Finished.

(** Where the main goroutine is: waiting for the signal, in [Shutdown] with
    these stages left to stop, the first of them being stopped, or past the
    [Close] of the capture. *)
Inductive main_pc := Waiting | Stopping (left : list stage) | Closed.

(** The capture loops, the packets in their output or held by a decode worker,
    and whether the output is closed. *)
Record capture := Cap { loops : nat; captured : nat; captured_closed : bool }.

(** The decode workers, the decoder's output (by where a packet goes) and
    whether it is closed, the splitter, the packets in [tcpCh] and [udpCh] and
    whether these are closed. *)
Record front := Front {
  workers : nat; decoded : list Splitter.route; decoded_closed : bool;
  splitter : splitter_pc; tcp : nat; udp : nat; split_closed : bool;
}.

(** The reassembly goroutine and whether its output is closed, the dispatcher's
    two goroutines, the producer's workers and whether its input is closed. *)
Record back := Back {
  reasm : bool; streams_closed : bool; tcp_loop : bool; udp_loop : bool;
  kafka_workers : nat; kafka_closed : bool;
}.

Record state := St { ctx_done : bool; cp : capture; fr : front; bk : back; main : main_pc }.

Section Steps.
(** The capacities of the four channels, and whether there is a metrics
    server. *)
Variables (packets_cap decoded_cap tcp_cap udp_cap : nat) (metrics : bool).

Definition after_recv (r : Splitter.route) : splitter_pc :=
  match r with
  | Splitter.ToTCP => SendingTCP | Splitter.ToUDP => SendingUDP | Splitter.Ignored => Receiving
  end.

(** The [Stop] of a stage returns; the kafka producer closes its input first,
    in [step]. *)
Inductive stop_returns : stage -> front -> back -> front -> back -> Prop :=
| stop_metrics f b : stop_returns Metrics f b f b
| stop_dispatcher f r sc kw kc :
    stop_returns Dispatcher f (Back r sc false false kw kc) f (Back r sc false false kw kc)
| stop_kafka f r sc tl ul :
    stop_returns KafkaProducer f (Back r sc tl ul O true) f (Back r sc tl ul O true)
| stop_reassembler f tl ul kw kc :
    stop_returns Reassembler f (Back false false tl ul kw kc) f (Back false true tl ul kw kc)
| stop_splitter w d dc t u sc b :
    stop_returns PacketSplitter (Front w d dc Finished t u sc) b (Front w d dc Finished t u sc) b
| stop_decoder d sp t u sc b :
    stop_returns Decoder (Front O d false sp t u sc) b (Front O d true sp t u sc) b.

Inductive step : state -> state -> Prop :=
(* the signal; every goroutine that selects on the context may see it *)
| signal p f b m : step (St false p f b m) (St true p f b m)
(* captureLoop: a packet that does not fit is dropped *)
| loop_captures c n q w d dc sp t u sc b m :
    (q < packets_cap + w)%nat ->
    step (St c (Cap (S n) q false) (Front w d dc sp t u sc) b m) (St c (Cap (S n) (S q) false) (Front w d dc sp t u sc) b m)
(* ... which ends on the signal, or with an error of its socket at any time *)
| loop_ends c n q qc f b m :
    step (St c (Cap (S n) q qc) f b m) (St c (Cap n q qc) f b m)
(* the goroutine of Start that waits for the loops *)
| capture_closes c q f b m :
    step (St c (Cap 0 q false) f b m) (St c (Cap 0 q true) f b m)
(* decodeWorker *)
| worker_sends c n q qc w d sp t u sc b m r :
    (length d < decoded_cap)%nat ->
    step (St c (Cap n (S q) qc) (Front (S w) d false sp t u sc) b m)
         (St c (Cap n q qc) (Front (S w) (d ++ [r]) false sp t u sc) b m)
(* ... which does not forward every packet *)
| worker_skips c n q qc w d dc sp t u sc b m :
    step (St c (Cap n (S q) qc) (Front (S w) d dc sp t u sc) b m) (St c (Cap n q qc) (Front (S w) d dc sp t u sc) b m)
(* ... and ends on the signal, or when its input is closed and empty *)
| worker_ends c n q qc w d dc sp t u sc b m :
    c = true \/ (qc = true /\ q = O) ->
    step (St c (Cap n q qc) (Front (S w) d dc sp t u sc) b m) (St c (Cap n q qc) (Front w d dc sp t u sc) b m)
(* packetSplitter *)
| splitter_receives c p w r d dc t u sc b m :
    step (St c p (Front w (r :: d) dc Receiving t u sc) b m)
         (St c p (Front w d dc (after_recv r) t u sc) b m)
| splitter_sends_tcp c p w d dc t u sc b m :
    (t < tcp_cap)%nat ->
    step (St c p (Front w d dc SendingTCP t u sc) b m) (St c p (Front w d dc Receiving (S t) u sc) b m)
| splitter_sends_udp c p w d dc t u sc b m :
    (u < udp_cap)%nat ->
    step (St c p (Front w d dc SendingUDP t u sc) b m) (St c p (Front w d dc Receiving t (S u) sc) b m)
(* ... and hands a packet over on a channel without a buffer *)
| splitter_hands_tcp c p w d dc u sc oc tl ul kw kc m :
    tcp_cap = O ->
    step (St c p (Front w d dc SendingTCP 0 u sc) (Back true oc tl ul kw kc) m)
         (St c p (Front w d dc Receiving 0 u sc) (Back true oc tl ul kw kc) m)
| splitter_hands_udp c p w d dc t sc r oc tl kw kc m :
    udp_cap = O ->
    step (St c p (Front w d dc SendingUDP t 0 sc) (Back r oc tl true kw kc) m)
         (St c p (Front w d dc Receiving t 0 sc) (Back r oc tl true kw kc) m)
| splitter_ends c p w t u b m :
    step (St c p (Front w [] true Receiving t u false) b m) (St c p (Front w [] true Finished t u true) b m)
(* TCPReassembler.run *)
| reasm_receives c p w d dc sp t u sc oc tl ul kw kc m :
    step (St c p (Front w d dc sp (S t) u sc) (Back true oc tl ul kw kc) m)
         (St c p (Front w d dc sp t u sc) (Back true oc tl ul kw kc) m)
| reasm_ends c p w d dc sp t u sc oc tl ul kw kc m :
    c = true \/ (sc = true /\ t = O) ->
    step (St c p (Front w d dc sp t u sc) (Back true oc tl ul kw kc) m)
         (St c p (Front w d dc sp t u sc) (Back false oc tl ul kw kc) m)
(* Dispatcher.udpLoop and tcpLoop *)
| udp_receives c p w d dc sp t u sc r oc tl kw kc m :
    step (St c p (Front w d dc sp t (S u) sc) (Back r oc tl true kw kc) m)
         (St c p (Front w d dc sp t u sc) (Back r oc tl true kw kc) m)
| udp_ends c p w d dc sp t u sc r oc tl kw kc m :
    c = true \/ (sc = true /\ u = O) ->
    step (St c p (Front w d dc sp t u sc) (Back r oc tl true kw kc) m)
         (St c p (Front w d dc sp t u sc) (Back r oc tl false kw kc) m)
| tcp_ends c p f r oc ul kw kc m :
    c = true \/ oc = true ->
    step (St c p f (Back r oc true ul kw kc) m) (St c p f (Back r oc false ul kw kc) m)
(* Producer.worker *)
| kafka_ends c p f r oc tl ul kw kc m :
    c = true \/ kc = true ->
    step (St c p f (Back r oc tl ul (S kw) kc) m) (St c p f (Back r oc tl ul kw kc) m)
(* main: [<-ctx.Done()], then [Shutdown] *)
| main_shutdown p f b :
    step (St true p f b Waiting) (St true p f b (Stopping (stop_order metrics)))
| main_closes_kafka c p f r oc tl ul kw l :
    step (St c p f (Back r oc tl ul kw false) (Stopping (KafkaProducer :: l)))
         (St c p f (Back r oc tl ul kw true) (Stopping (KafkaProducer :: l)))
| main_stops c p f b x l f' b' :
    stop_returns x f b f' b' ->
    step (St c p f b (Stopping (x :: l))) (St c p f' b' (Stopping l))
(* ... and then [capturer.Close()], which waits for the loops *)
| main_closes_capture c q qc f b :
    step (St c (Cap 0 q qc) f b (Stopping [])) (St c (Cap 0 q qc) f b Closed).

(** A running pipeline with its goroutines started and its channels empty: [l]
    capture loops, [n] decode workers and [k] workers of the producer. *)
Definition init (l n k : nat) : state :=
  St false (Cap l 0 false) (Front n [] false Receiving 0 0 false) (Back true false true true k false) Waiting.

Definition reachable (l n k : nat) (s : state) : Prop := rtc step (init l n k) s.

(** ** [Shutdown] never gets past the splitter *)

(** The decoder's output is open, the splitter has not ended, and the decoder
    and the splitter are still to be stopped. *)
Definition inv (s : state) : Prop :=
  decoded_closed (fr s) = false /\ splitter (fr s) <> Finished /\ split_closed (fr s) = false /\
  (main s = Waiting /\ streams_closed (bk s) = false \/
   exists gone l, main s = Stopping (l ++ [PacketSplitter; Decoder]) /\
     stop_order metrics = gone ++ l ++ [PacketSplitter; Decoder] /\
     (Reassembler ∈ l -> streams_closed (bk s) = false)).

Lemma init_inv l n k : inv (init l n k).
Proof. do 3 (split; [done|]). by left. Qed.

Lemma stop_order_eq :
  stop_order metrics = (if metrics then [Metrics] else [])
    ++ [Dispatcher; KafkaProducer; Reassembler] ++ [PacketSplitter; Decoder].
Proof. by destruct metrics. Qed.

Lemma dispatcher_added : Dispatcher ∈ stop_order metrics.
Proof. rewrite stop_order_eq. destruct metrics; [right; left|left]. Qed.

Lemma stop_returns_keeps x f b f' b' :
  stop_returns x f b f' b' ->
  (x <> Decoder -> f' = f) /\ (x <> Reassembler -> streams_closed b' = streams_closed b).
Proof. by destruct 1. Qed.

Lemma stop_order_NoDup : NoDup (stop_order metrics).
Proof. apply (bool_decide_unpack _). by destruct metrics; vm_compute. Qed.

(** The stages before the splitter in the order. *)
Lemma left_stages gone l :
  stop_order metrics = gone ++ l ++ [PacketSplitter; Decoder] ->
  NoDup l /\ forall x, x ∈ l -> x = Metrics \/ x = Dispatcher \/ x = KafkaProducer \/ x = Reassembler.
Proof.
  intros E. pose proof stop_order_NoDup as Hnd. rewrite E in Hnd.
  apply list.NoDup_app in Hnd as (_ & _ & Hnd). apply list.NoDup_app in Hnd as (Hnd & Hdis & _).
  split; [done|]. intros x Hx. specialize (Hdis x Hx).
  destruct x; auto; exfalso; apply Hdis; set_solver.
Qed.

Lemma step_inv s s' : inv s -> step s s' -> inv s'.
Proof.
  intros (Hd & Hsp & Hsc & Hm) Hs.
  destruct Hs; cbn [fr bk decoded_closed splitter split_closed streams_closed main] in *; try done.
  - split; [done|]. split; [by destruct r|done].
  - do 3 (split; [done|]). right. destruct Hm as [[_ Hoc]|(? & ? & Hm & _)]; [|done].
    exists [], ((if metrics then [Metrics] else []) ++ [Dispatcher; KafkaProducer; Reassembler]).
    cbn [main bk]. rewrite stop_order_eq, <- app_assoc. done.
  - destruct Hm as [[Hm _]|(gone & l' & Hm & Hord & Hoc)]; [done|]. injection Hm as Hm.
    destruct l' as [|y l']; cbn [app] in Hm; injection Hm as -> ->.
    + match goal with Hr : stop_returns _ _ _ _ _ |- _ => inversion Hr; subst; done end.
    + destruct (left_stages _ _ Hord) as [Hnd Hl].
      match goal with Hr : stop_returns _ _ _ _ _ |- _ =>
        apply stop_returns_keeps in Hr as [Hf Hb] end.
      rewrite Hf by (intros ->; destruct (Hl Decoder ltac:(left)) as [|[|[|]]]; done).
      do 3 (split; [done|]). right. exists (gone ++ [y]), l'. split; [done|].
      split; [by rewrite Hord, <- app_assoc|]. intros Hin.
      apply list.NoDup_cons in Hnd as [Hy _]. cbn [bk]. rewrite Hb by (by intros ->).
      apply Hoc. by right.
  - exfalso. destruct Hm as [[Hm _]|(gone & l & Hm & _)]; [done|]. injection Hm as Hm. by destruct l.
Qed.

(** The splitter and the decoder are still to be stopped. *)
Lemma inv_main s : inv s -> main s <> Stopping [] /\ main s <> Closed.
Proof.
  intros (_ & _ & _ & Hm). split; intros E; rewrite E in Hm; destruct Hm as [[? _]|(g & r & Hl & _)]; try done.
  injection Hl as Hl. by destruct r.
Qed.

Lemma steps_inv s s' : inv s -> rtc step s s' -> inv s'.
Proof. intros Hi Hr. induction Hr as [|s0 s1 s2 Hs _ IH]; [done|]. apply IH. by eapply step_inv. Qed.

Lemma reachable_inv l n k s : reachable l n k s -> inv s.
Proof. apply steps_inv, init_inv. Qed.

(** The splitter and the decoder are the last stages that are left. *)
Lemma inv_left s left :
  inv s -> main s = Stopping left -> exists gone, left = gone ++ [PacketSplitter; Decoder].
Proof.
  intros (_ & _ & _ & Hm) E. rewrite E in Hm.
  destruct Hm as [[? _]|(g & r' & Hl & _)]; [done|]. injection Hl as ->. by exists r'.
Qed.

(** A stage whose [Stop] closes a channel after its wait finds it open. *)
Lemma inv_stop_open s x l :
  inv s -> main s = Stopping (x :: l) ->
  decoded_closed (fr s) = false /\ (x = Reassembler -> streams_closed (bk s) = false).
Proof.
  intros (Hd & _ & _ & Hm) E. split; [done|]. intros ->. rewrite E in Hm.
  destruct Hm as [[? _]|(g & r & Hl & _ & Ho)]; [done|]. injection Hl as Hl. apply Ho.
  destruct r as [|y r]; [done|]. injection Hl as <- _. left.
Qed.

(** C21: [Shutdown] never returns, and so the capture is never closed: in every
    reachable state the splitter and the decoder are still to be stopped, because
    the splitter's [Stop] waits for the decoder's output to be closed and only
    the decoder's [Stop], which comes after it, closes it. *)
Theorem shutdown_never_returns l n k s :
  reachable l n k s ->
  main s <> Stopping [] /\ main s <> Closed /\ decoded_closed (fr s) = false /\
  forall left, main s = Stopping left -> exists gone, left = gone ++ [PacketSplitter; Decoder].
Proof.
  intros Hr. pose proof (reachable_inv l n k s Hr) as Hi. destruct (inv_main s Hi). destruct Hi as (Hd & _).
  split; [done|]. split; [done|]. split; [done|]. intros r. eapply inv_left, reachable_inv, Hr.
Qed.

(** ** The deadlock can always be reached *)

Definition stuck (s : state) : Prop := forall s', ~ step s s'.

Lemma signalled c p f b m : rtc step (St c p f b m) (St true p f b m).
Proof. destruct c; [done|apply rtc_once, signal]. Qed.

Lemma drain_workers p n d sp t u sc b m :
  rtc step (St true p (Front n d false sp t u sc) b m) (St true p (Front 0 d false sp t u sc) b m).
Proof. destruct p as [l q qc]. induction n as [|n IH]; [done|]. eapply rtc_l; [apply worker_ends; by left|done]. Qed.

Lemma drain_capture n q qc f b m : rtc step (St true (Cap n q qc) f b m) (St true (Cap 0 q true) f b m).
Proof.
  induction n as [|n IH]; [destruct qc; [done|apply rtc_once, capture_closes]|].
  eapply rtc_l; [apply loop_ends|done].
Qed.

Lemma drain_kafka p f r oc tl ul n kc m :
  rtc step (St true p f (Back r oc tl ul n kc) m) (St true p f (Back r oc tl ul 0 kc) m).
Proof. induction n as [|n IH]; [done|]. eapply rtc_l; [apply kafka_ends; by left|done]. Qed.

Lemma end_back p w d dc sp t u sc r oc tl ul kw kc m :
  rtc step (St true p (Front w d dc sp t u sc) (Back r oc tl ul kw kc) m)
           (St true p (Front w d dc sp t u sc) (Back false oc false false 0 kc) m).
Proof.
  etrans; [apply (drain_kafka p _ r oc tl ul kw kc)|].
  etrans; [destruct r; [apply rtc_once, reasm_ends; by left|done]|].
  etrans; [destruct tl; [apply rtc_once, tcp_ends; by left|done]|].
  destruct ul; [apply rtc_once, udp_ends; by left|done].
Qed.

(** The splitter consumes what is left until it blocks. *)
Lemma drain_splitter p d sp t u b m :
  sp <> Finished ->
  exists d' sp' t' u',
    rtc step (St true p (Front 0 d false sp t u false) b m) (St true p (Front 0 d' false sp' t' u' false) b m)
    /\ ((sp' = Receiving /\ d' = []) \/ (sp' = SendingTCP /\ (tcp_cap <= t')%nat)
        \/ (sp' = SendingUDP /\ (udp_cap <= u')%nat)).
Proof.
  revert sp t u. induction d as [|r d IH]; intros sp t u Hsp.
  - destruct sp; [| | |done].
    + exists [], Receiving, t, u. split; [done|auto].
    + destruct (decide (t < tcp_cap)%nat).
      * exists [], Receiving, (S t), u. split; [by apply rtc_once, splitter_sends_tcp|auto].
      * exists [], SendingTCP, t, u. split; [done|]. right. left. split; [done|lia].
    + destruct (decide (u < udp_cap)%nat).
      * exists [], Receiving, t, (S u). split; [by apply rtc_once, splitter_sends_udp|auto].
      * exists [], SendingUDP, t, u. split; [done|]. do 2 right. split; [done|lia].
  - assert (Hgo : forall t u, exists d' sp' t' u',
      rtc step (St true p (Front 0 (r :: d) false Receiving t u false) b m)
               (St true p (Front 0 d' false sp' t' u' false) b m)
      /\ ((sp' = Receiving /\ d' = []) \/ (sp' = SendingTCP /\ (tcp_cap <= t')%nat)
        \/ (sp' = SendingUDP /\ (udp_cap <= u')%nat))).
    { intros t' u'. destruct (IH (after_recv r) t' u' ltac:(by destruct r)) as (d1 & sp1 & t1 & u1 & Hr & Hend).
      exists d1, sp1, t1, u1. split; [|done]. eapply rtc_l; [apply splitter_receives|done]. }
    destruct sp; [by apply Hgo| | |done].
    + destruct (decide (t < tcp_cap)%nat).
      * destruct (Hgo (S t) u) as (d1 & sp1 & t1 & u1 & Hr & Hend). exists d1, sp1, t1, u1.
        split; [|done]. eapply rtc_l; [by apply splitter_sends_tcp|done].
      * exists (r :: d), SendingTCP, t, u. split; [done|]. right. left. split; [done|lia].
    + destruct (decide (u < udp_cap)%nat).
      * destruct (Hgo t (S u)) as (d1 & sp1 & t1 & u1 & Hr & Hend). exists d1, sp1, t1, u1.
        split; [|done]. eapply rtc_l; [by apply splitter_sends_udp|done].
      * exists (r :: d), SendingUDP, t, u. split; [done|]. do 2 right. split; [done|lia].
Qed.

(** The stops before the splitter's, once the goroutines behind it ended. *)
Lemma stop_back p f r oc tl ul kw kc l l' :
  (forall x, x ∈ l -> x = Metrics \/ x = Dispatcher \/ x = KafkaProducer \/ x = Reassembler) ->
  NoDup l -> r = false -> tl = false -> ul = false -> kw = O ->
  (Reassembler ∈ l -> oc = false) ->
  exists oc' kc',
    rtc step (St true p f (Back r oc tl ul kw kc) (Stopping (l ++ l')))
             (St true p f (Back r oc' tl ul kw kc') (Stopping l')).
Proof.
  intros Hl Hnd -> -> -> ->. revert oc kc. induction Hnd as [|x l Hx Hnd IH]; intros oc kc Hoc; [by exists oc, kc|].
  assert (IH' : forall oc kc, (Reassembler ∈ l -> oc = false) -> exists oc' kc',
    rtc step (St true p f (Back false oc false false 0 kc) (Stopping (l ++ l')))
             (St true p f (Back false oc' false false 0 kc') (Stopping l'))).
  { intros oc1 kc1 H1. apply IH; [|done]. intros y Hy. apply Hl. by right. }
  cbn [app]. destruct (Hl x ltac:(left)) as [-> | [-> | [-> | ->]]].
  - destruct (IH' oc kc) as (oc' & kc' & Hr); [intros; apply Hoc; by right|]. exists oc', kc'.
    eapply rtc_l; [apply main_stops, stop_metrics|done].
  - destruct (IH' oc kc) as (oc' & kc' & Hr); [intros; apply Hoc; by right|]. exists oc', kc'.
    eapply rtc_l; [apply main_stops, stop_dispatcher|done].
  - destruct (IH' oc true) as (oc' & kc' & Hr); [intros; apply Hoc; by right|]. exists oc', kc'.
    assert (Hc : rtc step (St true p f (Back false oc false false 0 kc) (Stopping (KafkaProducer :: l ++ l')))
                          (St true p f (Back false oc false false 0 true) (Stopping (KafkaProducer :: l ++ l')))).
    { destruct kc; [done|]. apply rtc_once, main_closes_kafka. }
    etrans; [exact Hc|]. eapply rtc_l; [apply main_stops, stop_kafka|done].
  - rewrite (Hoc ltac:(left)). destruct (IH' true kc) as (oc' & kc' & Hr).
    { intros Hin. done. }
    exists oc', kc'. eapply rtc_l; [apply main_stops, stop_reassembler|done].
Qed.

Lemma blocked_stuck q d sp t u oc kc :
  (sp = Receiving /\ d = []) \/ (sp = SendingTCP /\ (tcp_cap <= t)%nat)
    \/ (sp = SendingUDP /\ (udp_cap <= u)%nat) ->
  stuck (St true (Cap 0 q true) (Front 0 d false sp t u false) (Back false oc false false 0 kc)
           (Stopping [PacketSplitter; Decoder])).
Proof.
  intros Hsp s' Hs. inversion Hs; subst; try lia;
    try (destruct Hsp as [[E ?]|[[E ?]|[E ?]]]; done || (injection E; lia) || lia).
  match goal with Hr : stop_returns _ _ _ _ _ |- _ => inversion Hr; subst end.
  by destruct Hsp as [[? _]|[[? _]|[? _]]].
Qed.

(** ** No goroutine sends on a closed channel *)

(** Every goroutine that may still send finds its channel open: the capture
    loops, the decode
    workers, the splitter, the reassembly goroutine and the [Stop] of the
    reassembler, which flushes, and the two loops of the dispatcher. *)
Definition senders_open (s : state) : Prop :=
  (loops (cp s) <> O -> captured_closed (cp s) = false) /\
  (workers (fr s) <> O -> decoded_closed (fr s) = false) /\
  (splitter (fr s) <> Finished -> split_closed (fr s) = false) /\
  (reasm (bk s) = true \/ (exists l, main s = Stopping (Reassembler :: l)) -> streams_closed (bk s) = false) /\
  (tcp_loop (bk s) = true \/ udp_loop (bk s) = true -> kafka_closed (bk s) = false).

(** The dispatcher is stopped, and its loops have ended, before the producer's
    input is closed. *)
Definition closes_in_order (s : state) : Prop :=
  (streams_closed (bk s) = true -> reasm (bk s) = false) /\
  match main s with
  | Waiting => kafka_closed (bk s) = false
  | Stopping l => (Dispatcher ∈ l -> kafka_closed (bk s) = false) /\
                  (Dispatcher ∉ l -> tcp_loop (bk s) = false /\ udp_loop (bk s) = false)
  | Closed => True
  end.

(** The capture loops have ended before their output is closed. *)
Definition loops_first (s : state) : Prop := captured_closed (cp s) = true -> loops (cp s) = O.

Lemma step_loops s s' : loops_first s -> step s s' -> loops_first s'.
Proof.
  intros Hl Hs. unfold loops_first in *. destruct Hs; cbn [cp captured_closed loops] in *; try done.
  intros Hc. by specialize (Hl Hc).
Qed.

(** What follows an element of a list without duplicates. *)
Lemma NoDup_after {A} (x : A) k l k' l' :
  NoDup (k ++ x :: l) -> k ++ x :: l = k' ++ x :: l' -> l' = l.
Proof.
  revert k'. induction k as [|y k IH]; intros [|y' k'] Hnd [= E]; subst; cbn in *; simplify_eq.
  - done.
  - apply list.NoDup_cons in Hnd as [Hx _]. set_solver.
  - apply list.NoDup_cons in Hnd as [Hx _]. set_solver.
  - apply list.NoDup_cons in Hnd as [_ Hnd]. by apply (IH k').
Qed.

Lemma dispatcher_before_producer s l :
  inv s -> main s = Stopping (KafkaProducer :: l) -> Dispatcher ∉ l.
Proof.
  intros (_ & _ & _ & [[Hm _]|(gone & l' & Hm & Hord & _)]) E; rewrite E in Hm; [done|]. injection Hm as Hm.
  rewrite <- Hm in Hord.
  set (k := if metrics then [Metrics; Dispatcher] else [Dispatcher]).
  assert (Ho : stop_order metrics = k ++ KafkaProducer :: [Reassembler; PacketSplitter; Decoder])
    by (unfold k; by destruct metrics).
  pose proof stop_order_NoDup as Hnd. rewrite Ho in Hnd, Hord.
  rewrite (NoDup_after _ _ _ _ _ Hnd Hord). by apply (bool_decide_unpack _).
Qed.

Lemma step_closes s s' : inv s -> closes_in_order s -> step s s' -> closes_in_order s'.
Proof.
  intros Hi [Hr Hm] Hs. pose proof (dispatcher_before_producer s) as Hd.
  destruct Hs; cbn [bk main streams_closed reasm tcp_loop udp_loop kafka_closed] in *;
    try (split; [by auto|]; destruct m as [|lm|]; [done| |done]; destruct Hm as [H1 H2];
         split; [done|]; intros Hn; by destruct (H2 Hn)).
  - split; [done|]. split; [done|]. intros Hn. exfalso. apply Hn, dispatcher_added.
  - destruct Hm as [_ H2]. specialize (Hd l Hi eq_refl). split; [done|].
    split; [|done]. intros [?|Hin]%elem_of_cons; [done|by destruct (Hd Hin)].
  - destruct Hm as [H1 H2].
    match goal with Hr : stop_returns _ _ _ _ _ |- _ => destruct Hr end;
      cbn [streams_closed reasm tcp_loop udp_loop kafka_closed] in *; (split; [done|]);
      (split; [intros; apply H1; by right|intros Hn; first [done|apply H2, not_elem_of_cons; by split]]).
  - by split.
Qed.

Lemma senders_open_inv s : inv s -> loops_first s -> closes_in_order s -> senders_open s.
Proof.
  intros (Hd & _ & Hsc & Hm) Hl [Hr Hk]. split.
  { intros Hne. destruct (captured_closed (cp s)) eqn:E; [|done]. by destruct (Hne (Hl E)). }
  split; [done|]. split; [done|]. split.
  - intros [Hre|[l Hs]].
    + destruct (streams_closed (bk s)); [|done]. rewrite Hr in Hre by done. done.
    + destruct Hm as [[_ Ho]|(gone & l' & Hm & _ & Ho)]; [done|]. apply Ho. rewrite Hm in Hs. injection Hs as Hs.
      destruct l' as [|x l']; [done|]. injection Hs as -> _. left.
  - intros Hloop. destruct (main s) as [|l|] eqn:E; [done| |by destruct Hm as [[? _]|(? & ? & ? & _)]]. destruct Hk as [Hin Hout].
    destruct (decide (Dispatcher ∈ l)) as [Hx|Hx]; [by apply Hin|].
    destruct (Hout Hx) as [Ht Hu]. rewrite Ht, Hu in Hloop. by destruct Hloop.
Qed.

Lemma senders_open_from s0 s : inv s0 -> loops_first s0 -> closes_in_order s0 -> rtc step s0 s -> senders_open s.
Proof.
  intros Hi Hl Hc Hs. induction Hs as [s|s0 s1 s2 Hs _ IH]; [by apply senders_open_inv|].
  apply IH; [by eapply step_inv|by eapply step_loops|by eapply step_closes].
Qed.

(** C22: from every reachable state the agent can get into a deadlock in which
    the main goroutine waits in the splitter's [Stop], every other goroutine
    of the stages has ended or is blocked, and no step is possible. *)
Theorem shutdown_deadlock ls n k s :
  reachable ls n k s ->
  exists s', rtc step s s' /\ stuck s' /\ main s' = Stopping [PacketSplitter; Decoder].
Proof.
  intros Hr. destruct (reachable_inv ls n k s Hr) as (Hd & Hsp & Hsc & Hm). clear Hr.
  destruct s as [c [cl cq cc] [w d dc sp t u sc] [r oc tl ul kw kc] m].
  cbn [fr bk decoded_closed splitter split_closed streams_closed main] in *. subst dc sc.
  destruct (drain_splitter (Cap 0 cq true) d sp t u (Back r oc tl ul kw kc) m Hsp) as (d' & sp' & t' & u' & Hdr & Hend).
  assert (H1 : rtc step (St c (Cap cl cq cc) (Front w d false sp t u false) (Back r oc tl ul kw kc) m)
                        (St true (Cap 0 cq true) (Front 0 d' false sp' t' u' false) (Back false oc false false 0 kc) m)).
  { etrans; [apply signalled|]. etrans; [apply drain_capture|].
    etrans; [apply drain_workers|]. etrans; [exact Hdr|]. apply end_back. }
  assert (H2 : exists l, (forall x, x ∈ l -> x = Metrics \/ x = Dispatcher \/ x = KafkaProducer \/ x = Reassembler)
    /\ NoDup l /\ (Reassembler ∈ l -> oc = false) /\
    rtc step (St true (Cap 0 cq true) (Front 0 d' false sp' t' u' false) (Back false oc false false 0 kc) m)
      (St true (Cap 0 cq true) (Front 0 d' false sp' t' u' false) (Back false oc false false 0 kc)
         (Stopping (l ++ [PacketSplitter; Decoder])))).
  { destruct Hm as [[-> Hoc]|(gone & l & -> & Hord & Hoc)].
    - pose proof stop_order_eq as Hord. rewrite app_assoc in Hord.
      destruct (left_stages [] _ Hord) as [Hnd Hl]. eexists. split; [exact Hl|]. split; [done|].
      split; [done|]. rewrite <- Hord. apply rtc_once, main_shutdown.
    - destruct (left_stages _ _ Hord) as [Hnd Hl]. exists l. done. }
  destruct H2 as (l & Hl & Hnd & Hoc & H2).
  destruct (stop_back (Cap 0 cq true) (Front 0 d' false sp' t' u' false) false oc false false 0 kc l
    [PacketSplitter; Decoder]) as (oc' & kc' & H3); try done.
  eexists. split; [etrans; [exact H1|]; etrans; [exact H2|exact H3]|].
  split; [by apply blocked_stuck|done].
Qed.
End Steps.

(** ** A stage that fails to start *)

(** [Run] when the metrics server, the last stage, fails to start: the other
    stages run, nobody has cancelled the context, and [Run] stops them. *)
Definition rollback (l n k : nat) : state :=
  St false (Cap l 0 false) (Front n [] false Receiving 0 0 false) (Back true false true true k false)
    (Stopping (stop_order false)).

Section Rollback.
Variables (packets_cap decoded_cap tcp_cap udp_cap : nat).

(** Without the signal, the dispatcher's loop over the streams runs on and its
    [Stop] waits for it. *)
Definition waits_for_loop (s : state) : Prop :=
  ctx_done s = false ->
  main s = Stopping (stop_order false) /\ tcp_loop (bk s) = true /\ streams_closed (bk s) = false.

Lemma step_waits s s' :
  waits_for_loop s -> step packets_cap decoded_cap tcp_cap udp_cap false s s' -> waits_for_loop s'.
Proof.
  intros Hw Hs Hc. destruct Hs; cbn [ctx_done main bk tcp_loop streams_closed] in *; subst; try done;
    destruct (Hw eq_refl) as (Hm & Ht & Ho); cbn [main bk tcp_loop streams_closed] in *; subst; try done.
  - by destruct_or!.
  - injection Hm as -> ->. match goal with Hr : stop_returns _ _ _ _ _ |- _ => inversion Hr; subst; done end.
Qed.

Lemma rollback_inv l n k : inv false (rollback l n k).
Proof. do 3 (split; [done|]). right. by exists [], [Dispatcher; KafkaProducer; Reassembler]. Qed.

(** C23: A metrics address in use hangs the agent. When the metrics server fails
    to start, [Run] never returns its error: until a signal comes it waits in
    the dispatcher's [Stop], and even after a signal it never gets past the
    splitter's, which together with the decoder's is always still to come. *)
Theorem failed_start_never_returns l n k s :
  rtc (step packets_cap decoded_cap tcp_cap udp_cap false) (rollback l n k) s ->
  main s <> Stopping [] /\ main s <> Closed /\ (ctx_done s = false -> main s = Stopping (stop_order false)) /\
  forall left, main s = Stopping left -> exists gone, left = gone ++ [PacketSplitter; Decoder].
Proof.
  intros Hr. assert (Hi : inv false s) by (eapply steps_inv; [apply rollback_inv|exact Hr]).
  destruct (inv_main _ _ Hi). split; [done|]. split; [done|]. split; [|intros left; by eapply inv_left].
  assert (Hw : waits_for_loop (rollback l n k)) by done. clear Hi.
  induction Hr as [s|s0 s1 s2 Hs _ IH]; [by intros Hc; apply Hw|]. apply IH; [done|done|by eapply step_waits].
Qed.
End Rollback.

(** What the pipeline can get to: from a start of all stages, or, when the
    metrics server fails to start, from the rollback. *)
Definition started (packets_cap decoded_cap tcp_cap udp_cap : nat) (metrics : bool) (l n k : nat) (s : state) : Prop :=
  rtc (step packets_cap decoded_cap tcp_cap udp_cap metrics) (init l n k) s \/
  (metrics = false /\ rtc (step packets_cap decoded_cap tcp_cap udp_cap metrics) (rollback l n k) s).

Lemma started_inv packets_cap decoded_cap tcp_cap udp_cap metrics l n k s :
  started packets_cap decoded_cap tcp_cap udp_cap metrics l n k s -> inv metrics s.
Proof.
  intros [Hr|[-> Hr]]; (eapply steps_inv; [|exact Hr]); [apply init_inv|apply rollback_inv].
Qed.

(** C24: What does work: no send on a closed channel. From the running pipeline
    through [Shutdown], and from a failed start through the rollback, under
    every interleaving, a goroutine that may still send on a channel finds it
    open; so neither panics. *)
Theorem shutdown_no_send_on_closed packets_cap decoded_cap tcp_cap udp_cap metrics l n k s :
  rtc (step packets_cap decoded_cap tcp_cap udp_cap metrics) (init l n k) s \/
  (metrics = false /\ rtc (step packets_cap decoded_cap tcp_cap udp_cap metrics) (rollback l n k) s) ->
  senders_open s.
Proof.
  intros [Hs|[-> Hs]]; revert Hs; apply senders_open_from.
  - apply init_inv.
  - done.
  - done.
  - apply rollback_inv.
  - done.
  - split; [done|]. split; [done|]. intros Hn. exfalso. apply Hn. apply (bool_decide_unpack _). by vm_compute.
Qed.

(** A run in which a packet is on its way when the signal arrives. *)
Definition sample_state : state :=
  St true (Cap 1 0 false) (Front 2 [] false SendingTCP 0 0 false) (Back true false true true 1 false)
    (Stopping (stop_order false)).

Lemma sample_run : reachable 8 8 8 8 false 1 2 1 sample_state.
Proof.
  eapply rtc_l; [apply loop_captures; cbn; lia|].
  eapply rtc_l; [apply worker_sends with (r := Splitter.ToTCP); cbn; lia|].
  eapply rtc_l; [apply splitter_receives|].
  eapply rtc_l; [apply signal|]. eapply rtc_l; [apply main_shutdown|]. apply rtc_refl.
Defined.

Lemma shutdown_never_returns_witness :
  main sample_state <> Stopping [] /\ main sample_state <> Closed /\ decoded_closed (fr sample_state) = false /\
  forall left, main sample_state = Stopping left -> exists gone, left = gone ++ [PacketSplitter; Decoder].
Proof. apply (shutdown_never_returns 8 8 8 8 false 1 2 1 _ sample_run). Defined.

Lemma shutdown_deadlock_witness :
  exists s s', reachable 8 8 8 8 false 1 2 1 s /\ rtc (step 8 8 8 8 false) s s' /\ stuck 8 8 8 8 false s' /\
    main s' = Stopping [PacketSplitter; Decoder].
Proof.
  exists sample_state. destruct (shutdown_deadlock 8 8 8 8 false 1 2 1 _ sample_run) as (s' & Hr & Hs & Hm).
  exists s'. split; [apply sample_run|done].
Defined.

Lemma shutdown_no_send_on_closed_witness : senders_open sample_state.
Proof. apply (shutdown_no_send_on_closed 8 8 8 8 false 1 2 1). left. apply sample_run. Defined.

(** The failed start, and the first packet. *)
Lemma failed_start_never_returns_witness :
  let s := St false (Cap 1 1 false) (Front 2 [] false Receiving 0 0 false) (Back true false true true 1 false)
             (Stopping (stop_order false)) in
  main s <> Stopping [] /\ main s <> Closed /\ (ctx_done s = false -> main s = Stopping (stop_order false)) /\
  forall left, main s = Stopping left -> exists gone, left = gone ++ [PacketSplitter; Decoder].
Proof.
  apply (failed_start_never_returns 8 8 8 8 1 2 1). apply rtc_once.
  apply loop_captures. cbn. lia.
Defined.

End Shutdown.
