(* ===== verification/Stages.v ===== *)
(** * The stages' constructors, [Start] and [Stop]

    The stages [main] puts into the pipeline, with the counters of their wait
    groups, the channels they close, and what their [Stop] waits for; and the
    relation of all this to the step relation of [Shutdown]: a [Stop] returns
    exactly when a step there lets it return, with the same effect. *)

From S2P Require Import Prelude.
From S2P Require Import GoStrings.
From S2P Require Import Event.
From S2P Require Import Http.
From S2P Require Import Registry.
From S2P Require Import Parsers.
From S2P Require Import Reassembly.
From S2P Require Import Decode.
From S2P Require Import Output.
From S2P Require Import Shutdown.

(** [wg.Wait()], and what follows it. *)
Definition wait {A} (wg : nat) (rest : outcome A) : outcome (call A) :=
  match wg with O => (a ← rest; Ret (Returned a)) | S _ => Ret Waits end.

(** ** [decode.Decoder] *)

Module DecoderStage.

Record Decoder := { cfg : Decode.DecoderConfig; output : channel Decode.DecodedPacket; wg : nat }.

Definition New (c : Decode.DecoderConfig) : outcome Decoder :=
  let c := Decode.New c in
  ch ← make_chan (Decode.ChannelBuffer c); Ret {| cfg := c; output := ch; wg := 0 |}.

Definition Start (d : Decoder) : Decoder :=
  {| cfg := cfg d; output := output d; wg := wg d + Z.to_nat (Decode.Workers (cfg d)) |}.

Definition Stop (d : Decoder) : outcome (call Decoder) :=
  wait (wg d) (ch ← close_chan (output d); Ret {| cfg := cfg d; output := ch; wg := wg d |}).

End DecoderStage.

(** ** [packetSplitter] *)

Module SplitterStage.

(** [done] is nil before [Start]; it carries no values. *)
Record packetSplitter := {
  tcp : channel Decode.DecodedPacket; udp : channel Decode.DecodedPacket; done : option (channel unit);
}.

Definition Start (s : packetSplitter) : outcome packetSplitter :=
  ch ← make_chan 0; Ret {| tcp := tcp s; udp := udp s; done := Some ch |}.

(** The end of its goroutine, when its input is closed and drained. *)
Definition goroutine_ends (s : packetSplitter) : outcome packetSplitter :=
  t ← close_chan (tcp s); u ← close_chan (udp s);
  match done s with
  | None => Ret {| tcp := t; udp := u; done := None |}
  | Some ch => ch ← close_chan ch; Ret {| tcp := t; udp := u; done := Some ch |}
  end.

Definition Stop (s : packetSplitter) : call packetSplitter :=
  match done s with
  | None => Returned s
  | Some ch => match recv_chan ch with None => Waits | Some _ => Returned s end
  end.

End SplitterStage.

(** ** [reassembly.TCPReassembler] *)

(** gopacket's [AssemblerOptions] *)
Record AssemblerOptions := { MaxBufferedPagesTotal : Z; MaxBufferedPagesPerConnection : Z }.

Module ReassemblerStage.
Section ReassemblerStage.
Context `{GopacketFlow} `{ReassemblyEngine}.

Record TCPReassembler := {
  cfg : Reassembler.ReassemblyConfig; output : channel Reassembly.StreamData; options : AssemblerOptions;
  engine : assembler; wg : nat;
}.

(** [New]; the assembler and its options are those of a new one. *)
Definition New (c : Reassembler.ReassemblyConfig) (opts : AssemblerOptions) (a : assembler)
    : outcome TCPReassembler :=
  let c := Reassembler.New c in
  ch ← make_chan (Reassembler.ChannelBuffer c);
  let total := Reassembler.MaxBufferedPagesTotal c in
  let per_conn := Reassembler.MaxBufferedPagesPerConn c in
  Ret {| cfg := c; output := ch;
         options := {| MaxBufferedPagesTotal := if 0 <? total then total else MaxBufferedPagesTotal opts;
                       MaxBufferedPagesPerConnection :=
                         if 0 <? per_conn then per_conn else MaxBufferedPagesPerConnection opts |};
         engine := a; wg := 0 |}.

Definition Start (r : TCPReassembler) : TCPReassembler :=
  {| cfg := cfg r; output := output r; options := options r; engine := engine r; wg := wg r + 1 |}.

(** The messages that [FlushAll] gives to the output are not in the model: the
    engine calls the streams. *)
Definition Stop (r : TCPReassembler) : outcome (call TCPReassembler) :=
  wait (wg r) (
    let a := Reassembler.Stop (engine r) in
    ch ← close_chan (output r);
    Ret {| cfg := cfg r; output := ch; options := options r; engine := a; wg := wg r |}).
End ReassemblerStage.
End ReassemblerStage.

(** ** [output.Producer] *)

Module ProducerStage.

Record Producer := { producer : Output.Producer; wg : nat }.

(** [Start] spawns a worker per writer. *)
Definition Start (p : Producer) : outcome Producer :=
  ws ← Output.Start (producer p); Ret {| producer := producer p; wg := wg p + length ws |}.

(** [Stop] up to its wait, and from it. *)
Definition Stop_closes (p : Producer) : outcome Producer :=
  ch ← close_chan (Output.input (producer p));
  Ret {| producer := {| Output.cfg := Output.cfg (producer p); Output.writers := Output.writers (producer p);
                        Output.input := ch |}; wg := wg p |}.

Definition Stop_waits (close_error : Output.Writer -> option bytes) (p : Producer)
    : call (option bytes * Producer) :=
  match wg p with
  | O => Returned (head (omap close_error (Output.writers (producer p))), p)
  | S _ => Waits
  end.

(** The whole [Stop]: the input is closed, which panics when it is closed
    already; then it waits for the workers, and closes the writers. *)
Definition Stop (close_error : Output.Writer -> option bytes) (p : Producer)
    : outcome (call (option bytes * Producer)) :=
  p ← Stop_closes p; Ret (Stop_waits close_error p).

(** Once the workers are done it is [Output.Stop]. *)
Lemma Stop_parts close_error p :
  wg p = O ->
  Stop close_error p =
  ('(e, q) ← Output.Stop close_error (producer p); Ret (Returned (e, {| producer := q; wg := 0 |}))).
Proof.
  intros Hw. unfold Stop, Stop_closes, Output.Stop, Stop_waits.
  destruct (close_chan (Output.input (producer p))) as [ch|e|]; cbn [mbind outcome_bind]; [|done|done].
  cbn [wg]. by rewrite Hw.
Qed.
End ProducerStage.

(** ** [dispatch.Dispatcher] *)

Module DispatcherStage.

Record Dispatcher := { registry : Registry.Registry parser; wg : nat }.

Definition New (r : Registry.Registry parser) : Dispatcher := {| registry := r; wg := 0 |}.
Definition Start (d : Dispatcher) : Dispatcher := {| registry := registry d; wg := wg d + 2 |}.
Definition Stop (d : Dispatcher) : outcome (call Dispatcher) := wait (wg d) (Ret d).

End DispatcherStage.

(** ** All stages *)

Module Stages.
Section Stages.
Context `{GopacketFlow} `{ReassemblyEngine}.
Variable close_error : Output.Writer -> option bytes.

Record world := World {
  decoder : DecoderStage.Decoder; splitter : SplitterStage.packetSplitter;
  reassembler : ReassemblerStage.TCPReassembler; producer : ProducerStage.Producer;
  dispatcher : DispatcherStage.Dispatcher;
}.

Abbreviation lift f c := (match c with Waits => Waits | Returned a => Returned (f a) end).

(** The [Stop] of a stage up to its wait: only the producer's does something
    there. *)
Definition enter (x : Shutdown.stage) (w : world) : outcome world :=
  match x with
  | Shutdown.KafkaProducer =>
      p ← ProducerStage.Stop_closes (producer w);
      Ret (World (decoder w) (splitter w) (reassembler w) p (dispatcher w))
  | _ => Ret w
  end.

(** ... and from its wait on. *)
Definition leave (x : Shutdown.stage) (w : world) : outcome (call world) :=
  let '(World d s r p ds) := w in
  match x with
  | Shutdown.Metrics => Ret (Returned w)
  | Shutdown.Dispatcher => c ← DispatcherStage.Stop ds; Ret (lift (fun ds => World d s r p ds) c)
  | Shutdown.KafkaProducer =>
      Ret (lift (fun '(_, p) => World d s r p ds) (ProducerStage.Stop_waits close_error p))
  | Shutdown.Reassembler => c ← ReassemblerStage.Stop r; Ret (lift (fun r => World d s r p ds) c)
  | Shutdown.PacketSplitter => Ret (lift (fun s => World d s r p ds) (SplitterStage.Stop s))
  | Shutdown.Decoder => c ← DecoderStage.Stop d; Ret (lift (fun d => World d s r p ds) c)
  end.

(** The [Stop] of a stage, in a pipeline. *)
Definition Stop (x : Shutdown.stage) (w : world) : outcome (call world) :=
  let '(World d s r p ds) := w in
  match x with
  | Shutdown.KafkaProducer =>
      c ← ProducerStage.Stop close_error p; Ret (lift (fun '(_, p) => World d s r p ds) c)
  | _ => leave x w
  end.

Lemma Stop_enter_leave x w : Stop x w = (w ← enter x w; leave x w).
Proof.
  destruct w as [d s r p ds]. destruct x; try done. cbn [Stop enter producer decoder splitter reassembler dispatcher].
  unfold ProducerStage.Stop. by destruct (ProducerStage.Stop_closes p).
Qed.

(** ** The states of [Shutdown] as views of the stages *)

Definition flag (b : bool) : nat := if b then 1 else 0.

Definition finished (pc : Shutdown.splitter_pc) : bool :=
  match pc with Shutdown.Finished => true | _ => false end.

Definition matches (w : world) (f : Shutdown.front) (b : Shutdown.back) : Prop :=
  DecoderStage.wg (decoder w) = Shutdown.workers f /\
  chan_closed (DecoderStage.output (decoder w)) = Shutdown.decoded_closed f /\
  map Splitter.route_of (chan_buf (DecoderStage.output (decoder w))) = Shutdown.decoded f /\
  (exists ch, SplitterStage.done (splitter w) = Some ch /\ chan_buf ch = [] /\
     chan_closed ch = finished (Shutdown.splitter f)) /\
  length (chan_buf (SplitterStage.tcp (splitter w))) = Shutdown.tcp f /\
  length (chan_buf (SplitterStage.udp (splitter w))) = Shutdown.udp f /\
  chan_closed (SplitterStage.tcp (splitter w)) = Shutdown.split_closed f /\
  chan_closed (SplitterStage.udp (splitter w)) = Shutdown.split_closed f /\
  ReassemblerStage.wg (reassembler w) = flag (Shutdown.reasm b) /\
  chan_closed (ReassemblerStage.output (reassembler w)) = Shutdown.streams_closed b /\
  ProducerStage.wg (producer w) = Shutdown.kafka_workers b /\
  chan_closed (Output.input (ProducerStage.producer (producer w))) = Shutdown.kafka_closed b /\
  DispatcherStage.wg (dispatcher w) = (flag (Shutdown.tcp_loop b) + flag (Shutdown.udp_loop b))%nat.

(** The channel a stage's [Stop] closes after its wait. *)
Definition closed_again (x : Shutdown.stage) (f : Shutdown.front) (b : Shutdown.back) : Prop :=
  (x = Shutdown.Decoder /\ Shutdown.decoded_closed f = true) \/
  (x = Shutdown.Reassembler /\ Shutdown.streams_closed b = true).

Lemma flags_zero r t : (flag r + flag t)%nat = O <-> r = false /\ t = false.
Proof. destruct r, t; cbn; split; (done || lia || intros []; done). Qed.

(** The producer's [Stop] first closes its input, as the step of [main] does
    that leaves its wait to the next one. *)
Lemma closes_input w f b :
  matches w f b -> Shutdown.kafka_closed b = false ->
  exists p', ProducerStage.Stop_closes (producer w) = Ret p' /\
  matches (World (decoder w) (splitter w) (reassembler w) p' (dispatcher w)) f
    (Shutdown.Back (Shutdown.reasm b) (Shutdown.streams_closed b) (Shutdown.tcp_loop b) (Shutdown.udp_loop b)
       (Shutdown.kafka_workers b) true).
Proof.
  intros Hm Hk. unfold ProducerStage.Stop_closes, close_chan. destruct Hm as (? & ? & ? & ? & ? & ? & ? & ? & ? & ? & ? & Hc & ?).
  rewrite Hc, Hk. eexists. split; [reflexivity|]. unfold matches. by split_and!.
Qed.

Ltac matched :=
  eexists _, _; split; [constructor|]; unfold matches; cbn; split_and!; eauto; by (done || congruence).

(** From its wait on, the [Stop] of a stage does what the relation says; it can
    only panic on a channel that is closed already. *)
Lemma leave_returns x w f b :
  matches w f b -> (x = Shutdown.KafkaProducer -> Shutdown.kafka_closed b = true) ->
  match leave x w with
  | Ret (Returned w') => exists f' b', Shutdown.stop_returns x f b f' b' /\ matches w' f' b'
  | Ret Waits => forall f' b', ~ Shutdown.stop_returns x f b f' b'
  | Panic e => e = CloseOfClosedChannel /\ closed_again x f b
  | NoFuel => False
  end.
Proof.
  destruct w as [d s r p ds], f as [wk dec dc sp t u sc], b as [rs oc tl ul kw kc]. unfold matches.
  cbn [decoder splitter reassembler producer dispatcher Shutdown.workers Shutdown.decoded Shutdown.decoded_closed
    Shutdown.splitter Shutdown.tcp Shutdown.udp Shutdown.split_closed Shutdown.reasm Shutdown.streams_closed
    Shutdown.kafka_workers Shutdown.kafka_closed Shutdown.tcp_loop Shutdown.udp_loop].
  intros (Hd1 & Hd2 & Hd3 & (ch & Hs1 & Hs2 & Hs3) & Hs4 & Hs5 & Hs6 & Hs7 & Hr1 & Hr2 & Hp1 & Hp2 & Hds) Hkc.
  destruct x; cbn [leave].
  - matched.
  - unfold DispatcherStage.Stop, wait. destruct (DispatcherStage.wg ds) eqn:E; cbn [mbind outcome_bind].
    + symmetry in Hds. apply flags_zero in Hds as [-> ->]. matched.
    + intros f' b' Hr. by inversion Hr; subst.
  - unfold ProducerStage.Stop_waits. destruct (ProducerStage.wg p) eqn:E.
    + rewrite (Hkc eq_refl) in *. subst kw. matched.
    + intros f' b' Hr. by inversion Hr; subst.
  - unfold ReassemblerStage.Stop, wait. destruct (ReassemblerStage.wg r) eqn:E.
    + destruct rs; [done|]. unfold close_chan. rewrite Hr2. destruct oc; cbn [mbind outcome_bind].
      * split; [done|]. by right.
      * matched.
    + cbn. intros f' b' Hr. by inversion Hr; subst.
  - unfold SplitterStage.Stop. rewrite Hs1. unfold recv_chan. rewrite Hs2, Hs3.
    destruct sp; cbn [finished]; try (intros f' b' Hr; by inversion Hr). matched.
  - unfold DecoderStage.Stop, wait. destruct (DecoderStage.wg d) eqn:E.
    + subst wk. unfold close_chan. rewrite Hd2. destruct dc; cbn [mbind outcome_bind].
      * split; [done|]. by left.
      * matched.
    + cbn. intros f' b' Hr. by inversion Hr; subst.
Qed.

(** [Shutdown] takes the step past a stage exactly by letting its [Stop] return. *)
Lemma step_past packets_cap decoded_cap tcp_cap udp_cap metrics s x l s' :
  Shutdown.main s = Shutdown.Stopping (x :: l) ->
  Shutdown.step packets_cap decoded_cap tcp_cap udp_cap metrics s s' -> Shutdown.main s' = Shutdown.Stopping l ->
  exists f' b', Shutdown.stop_returns x (Shutdown.fr s) (Shutdown.bk s) f' b'.
Proof.
  intros Hm Hs Hm'. assert (Hne : x :: l <> l) by (intros E; apply (f_equal length) in E; cbn in E; lia).
  destruct Hs; cbn [Shutdown.main Shutdown.fr Shutdown.bk] in *; subst; try congruence.
  injection Hm as -> ->. eauto.
Qed.

(** C25: The [Stop] of every stage implements the steps of [Shutdown]. In every
    state that the pipeline can get to, from a start of all stages or from the
    rollback of a failed one, and every world that matches it, let a stage be
    the next to be stopped. Its [Stop] begins without a panic: the producer's
    closes its input, which is a step of [Shutdown] after which the worlds
    match again, the others only wait. From the wait on, in every state the
    wait is seen in: when the [Stop] returns, a step gets past the stage and the
    worlds match again; when it waits, no step gets past the stage; and it
    never panics. *)
Theorem stage_Stop_refines packets_cap decoded_cap tcp_cap udp_cap metrics ls n k s x l w :
  let step := Shutdown.step packets_cap decoded_cap tcp_cap udp_cap metrics in
  Shutdown.started packets_cap decoded_cap tcp_cap udp_cap metrics ls n k s ->
  Shutdown.main s = Shutdown.Stopping (x :: l) ->
  matches w (Shutdown.fr s) (Shutdown.bk s) ->
  let waiting := x = Shutdown.KafkaProducer -> Shutdown.kafka_closed (Shutdown.bk s) = true in
  (~ waiting -> exists w1 s1, Stop x w = leave x w1 /\ step s s1 /\
     Shutdown.main s1 = Shutdown.Stopping (x :: l) /\ Shutdown.kafka_closed (Shutdown.bk s1) = true /\
     matches w1 (Shutdown.fr s1) (Shutdown.bk s1)) /\
  (x <> Shutdown.KafkaProducer -> Stop x w = leave x w) /\
  (waiting -> match leave x w with
   | Ret (Returned w') => exists s', step s s' /\ Shutdown.main s' = Shutdown.Stopping l /\
       matches w' (Shutdown.fr s') (Shutdown.bk s')
   | Ret Waits => forall s', step s s' -> Shutdown.main s' <> Shutdown.Stopping l
   | _ => False
   end).
Proof.
  intros step Hst Hm Hw waiting. rewrite Stop_enter_leave.
  destruct (Shutdown.inv_stop_open _ _ _ _ (Shutdown.started_inv _ _ _ _ _ _ _ _ _ Hst) Hm) as [Hd Hr].
  split; [|split].
  - intros Hx. destruct (Shutdown.stage_eq_dec x Shutdown.KafkaProducer) as [->|Hne]; [|destruct Hx; intros ->; by destruct Hne].
    destruct (Shutdown.kafka_closed (Shutdown.bk s)) eqn:Hk; [by destruct Hx|].
    destruct (closes_input w _ _ Hw Hk) as (p & Hp & Hw1). cbn [enter]. rewrite Hp. cbn [mbind outcome_bind].
    eexists _, (Shutdown.St (Shutdown.ctx_done s) (Shutdown.cp s) (Shutdown.fr s) _ (Shutdown.main s)).
    split; [reflexivity|]. split; [|split; [exact Hm|split; [|exact Hw1]]]; [|done].
    destruct s as [c p0 f [? ? ? ? ? ?] m]. cbn in Hm, Hk |- *. subst. constructor.
  - by destruct x.
  - intros Hx. pose proof (leave_returns x w _ _ Hw Hx) as Hl. destruct (leave x w) as [[|w']|e|]; [| | |done].
    + intros s' Hs' Hm'. by destruct (step_past _ _ _ _ _ _ _ _ _ Hm Hs' Hm') as (f' & b' & Hf%Hl).
    + destruct Hl as (f' & b' & Hf & Hw').
      exists (Shutdown.St (Shutdown.ctx_done s) (Shutdown.cp s) f' b' (Shutdown.Stopping l)).
      split; [|done]. destruct s as [c p0 f b m]. cbn in Hm, Hf |- *. subst. by constructor.
    + destruct Hl as [_ [[-> Hc]|[-> Hc]]]; [congruence|]. rewrite Hr in Hc; done.
Qed.

(** ** From the constructors to a running pipeline *)

(** The stages as [main] makes them, and then starts them. *)
Definition build (dec : Decode.DecoderConfig) (cap : Z) (re : Reassembler.ReassemblyConfig)
    (opts : AssemblerOptions) (a : assembler) (p : Output.Producer) (r : Registry.Registry parser)
    : outcome world :=
  d ← DecoderStage.New dec;
  t ← make_chan cap; u ← make_chan cap;
  re ← ReassemblerStage.New re opts a;
  Ret (World d {| SplitterStage.tcp := t; SplitterStage.udp := u; SplitterStage.done := None |} re
         {| ProducerStage.producer := p; ProducerStage.wg := 0 |} (DispatcherStage.New r)).

Definition start (w : world) : outcome world :=
  s ← SplitterStage.Start (splitter w);
  p ← ProducerStage.Start (producer w);
  Ret (World (DecoderStage.Start (decoder w)) s (ReassemblerStage.Start (reassembler w)) p
         (DispatcherStage.Start (dispatcher w))).

Lemma make_chan_default {A} n : make_chan (A := A) (if n <=? 0 then 4096 else n)
  = Ret {| chan_buf := []; chan_cap := if n <=? 0 then 4096 else n; chan_closed := false |}.
Proof. unfold make_chan. by replace (_ <? 0) with false by (destruct (n <=? 0) eqn:?; lia). Qed.

(** The stages, once made and started, are in the initial state of [Shutdown]:
    one goroutine per decode worker and Kafka worker of the configuration, at
    least one of each, and the other four running, with empty open channels,
    whatever the capture loops. *)
Theorem stages_start_init dec cap re opts a c n r p loops :
  0 <= cap -> Output.NewProducer c n = Ret p ->
  exists w w', build dec cap re opts a p r = Ret w /\ start w = Ret w' /\
    let s := Shutdown.init loops (Z.to_nat (Z.max 1 (Decode.Workers dec))) (Z.to_nat (Z.max 1 (Output.NumWorkers c))) in
    matches w' (Shutdown.fr s) (Shutdown.bk s).
Proof.
  intros Hcap Hp.
  assert (Hn : 0 <= n).
  { unfold Output.NewProducer, make_chan in Hp. destruct (n <? 0) eqn:E; [done|lia]. }
  destruct (Output.producer_lifecycle c n (fun _ => None) Hn) as (p' & _ & _ & Hp' & Hst & Hw & Hws & _ & _).
  rewrite Hp in Hp'. injection Hp' as <-.
  assert (Hin : chan_closed (Output.input p) = false /\ Output.NumWorkers (Output.cfg p) = Z.max 1 (Output.NumWorkers c)).
  { unfold Output.NewProducer, make_chan in Hp. replace (n <? 0) with false in Hp by lia. injection Hp as <-.
    split; [done|]. cbn. destruct (Output.NumWorkers c <=? 0) eqn:E; lia. }
  destruct Hin as [Hcl Hnum].
  unfold build, DecoderStage.New, ReassemblerStage.New. cbn [Decode.New Decode.ChannelBuffer Reassembler.New Reassembler.ChannelBuffer].
  rewrite !make_chan_default. unfold make_chan. replace (cap <? 0) with false by lia. cbn [mbind outcome_bind].
  eexists _, _. split; [reflexivity|]. unfold start, SplitterStage.Start, ProducerStage.Start. cbn [mbind outcome_bind producer splitter].
  cbn [ProducerStage.producer]. rewrite Hst. split; [reflexivity|]. unfold matches. cbn.
  split_and!; try done; [destruct (Decode.Workers dec <=? 0) eqn:E; lia|eexists; split_and!; reflexivity|].
  rewrite <- Hnum, <- Hw. unfold len. lia.
Qed.
End Stages.

(** ** A concrete pipeline *)

#[local] Existing Instances ascii_unicode head_http raw_flow.

(** An engine that keeps the payloads it is given. *)
Definition keeping_engine : ReassemblyEngine :=
  {| assembler := list bytes; AssembleWithContext _ _ t _ _ a := a ++ [default [] (tcp_Payload t)];
     FlushCloseOlderThan _ a := a; FlushAll _ := [] |}.

#[local] Existing Instance keeping_engine.

Definition no_data : assembler := ([] : list bytes).

Definition sample_config : Output.KafkaConfig :=
  {| Output.Brokers := [str "b:9092"]; Output.Topic := str "t"; Output.BatchSize := 0; Output.BatchTimeout := 0;
     Output.Compression := []; Output.RequiredAcks := 0; Output.NumWorkers := 2; Output.MaxMessageBytes := 0 |}.

Definition sample_producer : Output.Producer :=
  match Output.NewProducer sample_config 8 with Ret p => p | _ => Output.Build_Producer sample_config [] (Build_channel _ [] 0 false) end.

Definition sample_re : Reassembler.ReassemblyConfig :=
  {| Reassembler.MaxBufferedPagesPerConn := 256; Reassembler.MaxBufferedPagesTotal := 0;
     Reassembler.ConnectionTimeout := 0; Reassembler.MaxConnectionAge := 0; Reassembler.FlushInterval := 0;
     Reassembler.ChannelBuffer := 8 |}.

Definition sample_world : outcome world :=
  w ← build {| Decode.Workers := 4; Decode.ChannelBuffer := 8 |} 8 sample_re
        {| MaxBufferedPagesTotal := 0; MaxBufferedPagesPerConnection := 0 |} no_data sample_producer (buildRegistry 0 0);
  start w.

Lemma stages_start_init_witness :
  exists w w', build {| Decode.Workers := 4; Decode.ChannelBuffer := 8 |} 8 sample_re
      {| MaxBufferedPagesTotal := 0; MaxBufferedPagesPerConnection := 0 |} no_data sample_producer (buildRegistry 0 0)
      = Ret w /\ start w = Ret w' /\
    let s := Shutdown.init 1 4 2 in matches w' (Shutdown.fr s) (Shutdown.bk s).
Proof.
  apply (stages_start_init {| Decode.Workers := 4; Decode.ChannelBuffer := 8 |} 8 sample_re
    {| MaxBufferedPagesTotal := 0; MaxBufferedPagesPerConnection := 0 |} no_data sample_config 8 (buildRegistry 0 0) sample_producer 1);
    [lia|reflexivity].
Defined.

(** A failed start with four decode workers, two workers of the producer and
    no capture loop, once the signal and the context have ended everything
    behind the splitter. *)
Definition stopping (left : list Shutdown.stage) (kafka : bool) : Shutdown.state :=
  Shutdown.St true (Shutdown.Cap 0 0 false) (Shutdown.Front 4 [] false Shutdown.Receiving 0 0 false)
    (Shutdown.Back true false false false (if kafka then 2 else 0) false) (Shutdown.Stopping left).

Lemma stopping_started :
  Shutdown.started 8 8 8 8 false 0 4 2 (stopping [Shutdown.KafkaProducer; Shutdown.Reassembler; Shutdown.PacketSplitter; Shutdown.Decoder] true).
Proof.
  right. split; [done|]. eapply rtc_l; [apply Shutdown.signal|].
  eapply rtc_l; [apply Shutdown.udp_ends; by left|]. eapply rtc_l; [apply Shutdown.tcp_ends; by left|].
  apply rtc_once. apply (Shutdown.main_stops _ _ _ _ _ true _ _ _ Shutdown.Dispatcher). constructor.
Qed.

Definition stopping_world : outcome world :=
  w ← sample_world;
  Ret (World (decoder w) (splitter w) (reassembler w) (producer w) {| DispatcherStage.registry := buildRegistry 0 0; DispatcherStage.wg := 0 |}).

(** The producer's [Stop] closes its input and waits for its workers. *)
Lemma stage_Stop_refines_witness :
  match stopping_world with
  | Ret w =>
      let s := stopping [Shutdown.KafkaProducer; Shutdown.Reassembler; Shutdown.PacketSplitter; Shutdown.Decoder] true in
      exists w1 s1, Stop (fun _ => None) Shutdown.KafkaProducer w = leave (fun _ => None) Shutdown.KafkaProducer w1 /\
        Shutdown.step 8 8 8 8 false s s1 /\ Shutdown.main s1 = Shutdown.main s /\
        Shutdown.kafka_closed (Shutdown.bk s1) = true /\ matches w1 (Shutdown.fr s1) (Shutdown.bk s1)
  | _ => False
  end.
Proof.
  assert (Hm : match stopping_world with
    | Ret w => matches w (Shutdown.fr (stopping [] true)) (Shutdown.bk (stopping [] true)) | _ => False end).
  { cbn. unfold matches. cbn. split_and!; try reflexivity. eexists. split_and!; reflexivity. }
  destruct stopping_world as [w|e|]; [|done|done]. intros s.
  refine (proj1 (stage_Stop_refines (fun _ => None) 8 8 8 8 false 0 4 2 _ _ _ w stopping_started eq_refl Hm) _).
  intros Hx. discriminate (Hx eq_refl).
Defined.
End Stages.
