(* ===== verification/Config.v ===== *)
(** * Configuration ([internal/config/config.go])

    The configuration record, its defaults and its validation, and what [main]
    does with it before the pipeline runs. Reading the YAML file is viper's. *)

From S2P Require Import Prelude.
From S2P Require Import GoStrings.

Module Config.

Record FanoutConfig := { Enabled : bool; GroupID : Z; Type_ : bytes; Size : Z }.

Record CaptureConfig := {
  Interface : bytes; Mode : bytes; NumQueues : Z; BufferSize : Z; SnapLength : Z;
  BPFFilter : bytes; Fanout : FanoutConfig;
}.

Record DecodeConfig := { Workers : Z; ChannelBuffer : Z }.

Record ReassemblyConfig := {
  MaxBufferedPagesPerConn : Z; MaxBufferedPagesTotal : Z; ConnectionTimeout : Z;
  MaxConnectionAge : Z; FlushInterval : Z;
}.

Record HTTPConfig := { MaxBodyCapture : Z; CaptureHeaders : bool }.
Record TLSConfig := { ExtractJA3 : bool; ExtractCertificates : bool }.
Record DBConfig := { MaxQueryLength : Z }.

Record ProtocolsConfig := {
  EnabledProtocols : list bytes; HTTP : HTTPConfig; TLS : TLSConfig; DB : DBConfig;
}.

Record KafkaConfig := {
  Brokers : list bytes; Topic : bytes; BatchSize : Z; BatchTimeout : Z; Compression : bytes;
  RequiredAcks : Z; NumWorkers : Z; MaxMessageBytes : Z;
}.

Record MetricsConfig := { MetricsEnabled : bool; Listen : bytes; Path : bytes }.
Record LoggingConfig := { Level : bytes; Format : bytes; Output : bytes }.
Record RuntimeConfig := { GOMAXPROCS : Z }.

Record Config := {
  Capture : CaptureConfig; Decode : DecodeConfig; Reassembly : ReassemblyConfig;
  Protocols : ProtocolsConfig; Kafka : KafkaConfig; Metrics : MetricsConfig;
  Logging : LoggingConfig; Runtime : RuntimeConfig;
}.

(** Durations in nanoseconds. *)
Definition second : Z := 1000000000.

Definition Defaults : Config := {|
  Capture := {| Interface := str "eth0"; Mode := str "afpacket"; NumQueues := 1;
                BufferSize := 4 * 1024 * 1024; SnapLength := 9000; BPFFilter := [];
                Fanout := {| Enabled := false; GroupID := 1; Type_ := str "hash"; Size := 4 |} |};
  Decode := {| Workers := 4; ChannelBuffer := 4096 |};
  Reassembly := {| MaxBufferedPagesPerConn := 256; MaxBufferedPagesTotal := 65536;
                   ConnectionTimeout := 2 * 60 * second; MaxConnectionAge := 10 * 60 * second;
                   FlushInterval := 30 * second |};
  Protocols := {| EnabledProtocols := [str "http"; str "dns"; str "tls"];
                  HTTP := {| MaxBodyCapture := 65536; CaptureHeaders := true |};
                  TLS := {| ExtractJA3 := true; ExtractCertificates := false |};
                  DB := {| MaxQueryLength := 4096 |} |};
  Kafka := {| Brokers := [str "localhost:9092"]; Topic := str "netcap-events"; BatchSize := 100;
              BatchTimeout := 500 * 1000000; Compression := str "lz4"; RequiredAcks := 1;
              NumWorkers := 2; MaxMessageBytes := 2 ^ 20 |};
  Metrics := {| MetricsEnabled := true; Listen := str ":9090"; Path := str "/metrics" |};
  Logging := {| Level := str "info"; Format := str "json"; Output := str "stderr" |};
  Runtime := {| GOMAXPROCS := 0 |};
|}.

(** The messages [Validate] collects, in order. *)
Definition validation_errors (c : Config) : list bytes :=
  (if bool_decide (Interface (Capture c) = []) then [str "capture.interface is required"] else [])
  ++ (if SnapLength (Capture c) <=? 0 then [str "capture.snap_length must be positive"] else [])
  ++ (if Workers (Decode c) <=? 0 then [str "decode.workers must be positive"] else [])
  ++ (if len (Brokers (Kafka c)) =? 0 then [str "kafka.brokers must not be empty"] else [])
  ++ (if bool_decide (Topic (Kafka c) = []) then [str "kafka.topic is required"] else []).

(** [Validate]; [None] is a nil error. *)
Definition Validate (c : Config) : option bytes :=
  let errs := validation_errors c in
  if 0 <? len errs then Some (str "config validation failed: " ++ Join errs (str "; ")) else None.

(** [Load], given what viper reads from the file into the defaults. *)
Definition Load (read : Config -> result Config) : result Config :=
  match read Defaults with
  | ErrR e => ErrR e
  | OkR cfg =>
      match Validate cfg with
      | Some e => ErrR (str "validate config: " ++ e)
      | None => OkR cfg
      end
  end.

(** What a valid configuration promises. *)
Definition valid (c : Config) : Prop :=
  Interface (Capture c) <> [] /\ 0 < SnapLength (Capture c) /\ 0 < Workers (Decode c) /\
  Brokers (Kafka c) <> [] /\ Topic (Kafka c) <> [].

Lemma one_error (b : bool) (e : bytes) : (if b then [e] else []) = [] <-> b = false.
Proof. by destruct b. Qed.

Lemma no_errors c : validation_errors c = [] <-> valid c.
Proof.
  assert (Happ : forall k l : list bytes, k ++ l = [] <-> k = [] /\ l = []).
  { intros k l. split; [apply app_eq_nil|by intros [-> ->]]. }
  unfold validation_errors, valid. rewrite !Happ, !one_error, !bool_decide_eq_false.
  assert (Hb : (len (Brokers (Kafka c)) =? 0) = false <-> Brokers (Kafka c) <> []).
  { destruct (Brokers (Kafka c)); [done|]. split; [done|lens]. }
  rewrite Hb. split; intros (? & ? & ? & ? & ?); repeat split; done || lia.
Qed.

Lemma Validate_valid c : Validate c = None <-> valid c.
Proof.
  rewrite <- no_errors. unfold Validate. cbv zeta.
  destruct (validation_errors c) as [|e errs]; [done|].
  by replace (0 <? len (e :: errs)) with true by lens.
Qed.

Lemma Load_valid read cfg : Load read = OkR cfg <-> read Defaults = OkR cfg /\ valid cfg.
Proof.
  unfold Load. destruct (read Defaults) as [c|e].
  - destruct (Validate c) as [e|] eqn:E.
    + split; [done|]. intros [[= <-] Hv]. apply Validate_valid in Hv. congruence.
    + apply Validate_valid in E. split; [by intros [= <-]|by intros [? _]].
  - split; [done|by intros [? _]].
Qed.

(** [Load] succeeds exactly when the file is read and the interface, the
    brokers and the topic are given and the snapshot length and the number of
    workers are positive; the defaults are such a configuration. *)
Theorem config_Load_valid read cfg :
  (Load read = OkR cfg <-> read Defaults = OkR cfg /\ valid cfg) /\ valid Defaults.
Proof. split; [apply Load_valid|by apply Validate_valid]. Qed.

(** ** The channels [main] makes *)

(** [tcpCh], [udpCh] and the producer's input have the capacity
    [decode.channel_buffer], as configured. *)
Definition make_channels {A B : Type} (cfg : Config)
    : outcome (channel A * channel A * channel B) :=
  tcpCh ← make_chan (ChannelBuffer (Decode cfg));
  udpCh ← make_chan (ChannelBuffer (Decode cfg));
  input ← make_chan (ChannelBuffer (Decode cfg));
  Ret (tcpCh, udpCh, input).

(** A negative [decode.channel_buffer] passes validation, and [main] then
    panics when it makes its channels; with any other value it does not. *)
Theorem config_channel_buffer_unchecked cfg n :
  valid cfg ->
  let cfg' := {| Capture := Capture cfg;
                 Decode := {| Workers := Workers (Decode cfg); ChannelBuffer := n |};
                 Reassembly := Reassembly cfg; Protocols := Protocols cfg; Kafka := Kafka cfg;
                 Metrics := Metrics cfg; Logging := Logging cfg; Runtime := Runtime cfg |} in
  Validate cfg' = None /\
  (make_channels (A := unit) (B := unit) cfg' = Panic MakeChanSize <-> n < 0).
Proof.
  intros Hv cfg'. split; [by apply Validate_valid|]. unfold make_channels, make_chan.
  cbn [Decode ChannelBuffer cfg']. destruct (n <? 0) eqn:E; cbn; split; done || lia.
Qed.

Lemma config_channel_buffer_unchecked_witness :
  let cfg := {| Capture := Capture Defaults;
                Decode := {| Workers := Workers (Decode Defaults); ChannelBuffer := -1 |};
                Reassembly := Reassembly Defaults; Protocols := Protocols Defaults; Kafka := Kafka Defaults;
                Metrics := Metrics Defaults; Logging := Logging Defaults; Runtime := Runtime Defaults |} in
  Validate cfg = None /\ (make_channels (A := unit) (B := unit) cfg = Panic MakeChanSize <-> -1 < 0).
Proof. apply (config_channel_buffer_unchecked Defaults (-1)). by apply Validate_valid. Defined.
End Config.
