(* ===== verification/Capture.v ===== *)
(** * Packet capture ([internal/capture/afpacket/afpacket.go],
      [internal/util/pool.go])

    The capturer's configuration, the loop that reads a socket into the output
    channel and its counters, and the byte-order helper. Sockets are the
    kernel's: a call of [poll] and [recvfrom] is an input of the loop. *)

From S2P Require Import Prelude.
From S2P Require Import GoStrings.
From S2P Require Import Decode.

Module Capture.

Definition fanoutHash : Z := 0.
Definition fanoutLB : Z := 1.
Definition fanoutCPU : Z := 2.

Record Config := {
  Interface : bytes; NumQueues : Z; BufferSizeMB : Z; SnapLength : Z; BPFFilter : bytes;
  FanoutType : bytes; FanoutGroupID : Z; OutputBuffer : Z;
}.

Definition defaults (c : Config) : Config :=
  {| Interface := Interface c;
     NumQueues := if NumQueues c <=? 0 then 1 else NumQueues c;
     BufferSizeMB := if BufferSizeMB c <=? 0 then 64 else BufferSizeMB c;
     SnapLength := if SnapLength c <=? 0 then 65535 else SnapLength c;
     BPFFilter := BPFFilter c;
     FanoutType := if bool_decide (FanoutType c = []) then str "hash" else FanoutType c;
     FanoutGroupID := if FanoutGroupID c <=? 0 then 1 else FanoutGroupID c;
     OutputBuffer := if OutputBuffer c <=? 0 then 4096 else OutputBuffer c |}.

(** [%q] of a string is a parameter: only the message depends on it. *)
Definition parseFanoutType (quote : bytes -> bytes) (s : bytes) : result Z :=
  if bool_decide (s = str "hash") then OkR fanoutHash
  else if bool_decide (s = str "lb") then OkR fanoutLB
  else if bool_decide (s = str "cpu") then OkR fanoutCPU
  else ErrR (str "afpacket: unsupported fanout type " ++ quote s ++ str " (valid: hash, lb, cpu)").

(** The argument of PACKET_FANOUT *)
Definition fanoutArg (groupID type : Z) : Z := Z.lor groupID (Z.shiftl type 16).

(** [htons] on a little-endian host: the two bytes of [v] in memory order, read
    in network order. *)
Definition htons (v : Z) : Z := be_uint (le_bytes 2 v).

(** ** The capture loop *)

(** What the kernel calls of an iteration return: the context is checked first;
    a datagram longer than the buffer is cut by [recvfrom]. *)
Inductive poll :=
| PollCtxDone
| PollEINTR
| PollError
| PollTimeout
| PollRecvRetry            (* EINTR or EAGAIN from recvfrom *)
| PollRecvError
| PollRecv (datagram : bytes) (now : Z).

Record capturer := { output : channel Packet; received : Z; dropped : Z }.

(** [capture.Stats], and the method of the capturer: it gives its two counters,
    and leaves the third at 0. *)
Record stats := { PacketsReceived : Z; PacketsDropped : Z; PacketsIfDropped : Z }.

Definition Stats (a : capturer) : stats :=
  {| PacketsReceived := received a; PacketsDropped := dropped a; PacketsIfDropped := 0 |}.

(** One iteration: [None] when the loop returns. *)
Definition capture_step (snap : Z) (a : capturer) (p : poll) : outcome (option capturer) :=
  match p with
  | PollCtxDone | PollError | PollRecvError => Ret None
  | PollEINTR | PollTimeout | PollRecvRetry => Ret (Some a)
  | PollRecv datagram now =>
      let buf := take (Z.to_nat snap) datagram in
      let nRead := len buf in
      if nRead =? 0 then Ret (Some a) else
      data ← slice_to buf nRead;
      let pkt := {| p_Data := data; p_Timestamp := now; p_CaptureLen := nRead; p_OrigLen := nRead |} in
      '(out, sent) ← try_send (output a) pkt;
      Ret (Some (if sent : bool
                 then {| output := out; received := uint64 (received a + 1); dropped := dropped a |}
                 else {| output := out; received := received a; dropped := uint64 (dropped a + 1) |}))
  end.

(** The loop interleaved with the receives of the consumer. *)
Inductive op := OpPoll (p : poll) | OpReceive.

Fixpoint captureLoop (snap : Z) (ops : list op) (a : capturer) (taken : list Packet)
    : outcome (capturer * list Packet) :=
  match ops with
  | [] => Ret (a, taken)
  | OpReceive :: ops' =>
      match recv_chan (output a) with
      | Some (Some pkt, out) =>
          captureLoop snap ops' {| output := out; received := received a; dropped := dropped a |}
            (taken ++ [pkt])
      | _ => captureLoop snap ops' a taken
      end
  | OpPoll p :: ops' =>
      a' ← capture_step snap a p;
      match a' with
      | Some a' => captureLoop snap ops' a' taken
      | None => Ret (a, taken)
      end
  end.

(** The packets the loop reads before it returns. *)
Fixpoint read_packets (snap : Z) (ops : list op) : list Packet :=
  match ops with
  | [] => []
  | OpReceive :: ops' => read_packets snap ops'
  | OpPoll (PollCtxDone | PollError | PollRecvError) :: _ => []
  | OpPoll (PollEINTR | PollTimeout | PollRecvRetry) :: ops' => read_packets snap ops'
  | OpPoll (PollRecv datagram now) :: ops' =>
      let buf := take (Z.to_nat snap) datagram in
      if len buf =? 0 then read_packets snap ops'
      else {| p_Data := buf; p_Timestamp := now; p_CaptureLen := len buf; p_OrigLen := len buf |}
             :: read_packets snap ops'
  end.

(** What was read is passed on, taken or not yet, or counted as dropped. *)
Definition conserved (read taken : list Packet) (a : capturer) : Prop :=
  chan_closed (output a) = false /\
  sublist (taken ++ chan_buf (output a)) read /\
  received a = uint64 (len (taken ++ chan_buf (output a))) /\
  uint64 (received a + dropped a) = uint64 (len read).

Lemma uint64_plus_one x y : uint64 x = uint64 y -> uint64 (x + 1) = uint64 (y + 1).
Proof. unfold uint64. intros E. by rewrite Zplus_mod, E, <- Zplus_mod. Qed.

(** A packet that was read is sent or dropped. *)
Lemma read_conserved snap read taken a datagram now :
  let buf := take (Z.to_nat snap) datagram in
  let pkt := {| p_Data := buf; p_Timestamp := now; p_CaptureLen := len buf; p_OrigLen := len buf |} in
  conserved read taken a -> (len buf =? 0) = false ->
  wp (capture_step snap a (PollRecv datagram now)) (fun a' => exists b, a' = Some b /\ conserved (read ++ [pkt]) taken b).
Proof.
  intros buf pkt (Hc & Hsub & Hr & Hsum) Hb. cbn [capture_step]. cbv zeta. fold buf. rewrite Hb.
  rewrite slice_to_ret by (pose proof (len_nonneg buf); lia). cbn [mbind outcome_bind].
  replace (take (Z.to_nat (len buf)) buf) with buf by (rewrite take_ge; [done|unfold len; lia]). fold pkt.
  apply wp_bind, try_send_wp; [done|]. intros sent _. apply wp_ret. eexists. split; [done|].
  apply uint64_plus_one in Hsum. unfold conserved.
  destruct sent; cbn [output chan_closed chan_buf received dropped]; (split; [done|]).
  - rewrite app_assoc. split; [by apply sublist_app|]. split.
    + rewrite len_app, Hr. change (len [pkt]) with 1. unfold uint64. by rewrite Zplus_mod_idemp_l.
    + rewrite len_app. change (len [pkt]) with 1. rewrite <- Hsum. unfold uint64. rewrite Zplus_mod_idemp_l. f_equal. lia.
  - split; [by apply sublist_inserts_r|]. split; [done|].
    rewrite len_app. change (len [pkt]) with 1. rewrite <- Hsum. unfold uint64. rewrite Zplus_mod_idemp_r. f_equal. lia.
Qed.

Lemma captureLoop_conserved snap ops read taken a :
  conserved read taken a ->
  wp (captureLoop snap ops a taken) (fun '(a', taken') => conserved (read ++ read_packets snap ops) taken' a').
Proof.
  revert read taken a. induction ops as [|o ops IH]; intros read taken a Ha; cbn [captureLoop read_packets].
  { cbn [wp]. by rewrite app_nil_r. }
  destruct o as [[| | | | | |d now]|]; try (cbn [capture_step mbind outcome_bind wp]; rewrite app_nil_r; exact Ha);
    try (by apply IH).
  - cbv zeta. destruct (len (take (Z.to_nat snap) d) =? 0) eqn:E0.
    { cbn [capture_step]. cbv zeta. rewrite E0. cbn [mbind outcome_bind]. by apply IH. }
    pose proof (read_conserved snap read taken a d now Ha E0) as Hw. cbv zeta in Hw.
    apply wp_bind. eapply wp_mono; [exact Hw|]. intros ? (b & -> & Hb).
    eapply wp_mono; [apply IH; exact Hb|]. intros [a' taken']. by rewrite <- app_assoc.
  - destruct Ha as (Hc & Hrest). unfold recv_chan. destruct (chan_buf (output a)) as [|pkt b] eqn:Eb.
    + rewrite Hc. apply IH. by rewrite <- Eb in Hrest.
    + apply IH. unfold conserved. cbn [output chan_closed chan_buf received dropped]. by rewrite <- !app_assoc.
Qed.

(** C20: the capture loop, for any interleaving of reads, errors and receives by
    the decoder: each packet read is either passed on, in order and with the
    datagram's first [snap] bytes, or counted as dropped; the two counters add
    up to the number of packets read, and the received counter is the number of
    packets passed on. *)
Theorem capture_conservation snap ops cap :
  let out := {| chan_buf := []; chan_cap := cap; chan_closed := false |} in
  exists a taken,
    captureLoop snap ops {| output := out; received := 0; dropped := 0 |} [] = Ret (a, taken) /\
    sublist (taken ++ chan_buf (output a)) (read_packets snap ops) /\
    received a = uint64 (len (taken ++ chan_buf (output a))) /\
    uint64 (received a + dropped a) = uint64 (len (read_packets snap ops)).
Proof.
  intros out. pose proof (captureLoop_conserved snap ops [] [] {| output := out; received := 0; dropped := 0 |}) as Hw.
  apply wp_returns in Hw as ([a taken] & Hrun & _ & Hres); [by exists a, taken|].
  split; [done|]. split; [apply sublist_nil_l|done].
Qed.

(** The capturer's configuration is usable whatever it is given, and filling
    in the defaults again changes nothing. *)
Theorem capture_defaults c :
  let d := defaults c in
  0 < NumQueues d /\ 0 < BufferSizeMB d /\ 0 < SnapLength d /\ 0 < FanoutGroupID d /\
  0 < OutputBuffer d /\ FanoutType d <> [] /\ defaults d = d.
Proof.
  destruct c as [i nq bs sl bpf ft fg ob]. unfold defaults. cbn.
  destruct (nq <=? 0) eqn:E1, (bs <=? 0) eqn:E2, (sl <=? 0) eqn:E3, (fg <=? 0) eqn:E4, (ob <=? 0) eqn:E5;
    cbn; rewrite ?E1, ?E2, ?E3, ?E4, ?E5; (repeat split; try lia; try done);
    destruct (bool_decide_reflect (ft = [])); rewrite ?bool_decide_eq_false_2 by done; done.
Qed.

Lemma byte_swap v : 0 <= v < 65536 -> htons v = 256 * (v mod 256) + v / 256.
Proof.
  intros Hv. unfold htons. change (le_bytes 2 v) with [byte_of v; byte_of (v / 256)].
  change (be_uint [byte_of v; byte_of (v / 256)])
    with (u8 (byte_of v) * 256 ^ 1 + (u8 (byte_of (v / 256)) * 256 ^ 0 + 0)).
  rewrite !u8_byte_of. rewrite (Z.mod_small (v / 256)); [lia|].
  split; [apply Z.div_pos; lia|apply Z.div_lt_upper_bound; lia].
Qed.

(** [htons] swaps the two bytes of a 16-bit value, and undoes itself. *)
Theorem capture_htons_involutive v :
  0 <= v < 65536 -> 0 <= htons v < 65536 /\ htons (htons v) = v.
Proof.
  intros Hv. assert (Hr : 0 <= htons v < 65536).
  { rewrite byte_swap by done. Z.div_mod_to_equations. lia. }
  split; [done|]. rewrite byte_swap by done. rewrite byte_swap by done.
  Z.div_mod_to_equations. lia.
Qed.
End Capture.

(** ** The buffer pool ([internal/util/pool.go]) *)

Module Pool.

Definition defaultBufferSize : Z := 9000.

(** [GetBuffer] when the pool makes a buffer: its bytes, and nothing spare. *)
Definition NewBuffer : bytes := repeat x00 (Z.to_nat defaultBufferSize).

(** [PutBuffer] of a buffer whose array holds [spare] after it: the buffer the
    pool gets back; [None] is the nil pointer. *)
Definition PutBuffer (buf : option (bytes * bytes)) : outcome (option bytes) :=
  match buf with
  | None => Ret None
  | Some (b, spare) => b ← slice_cap b spare 0 defaultBufferSize; Ret (Some b)
  end.

(** [PutBuffer] gives a buffer its full size back, whatever length it was
    cut to, and panics on a buffer with a smaller array. *)
Theorem pool_PutBuffer b spare :
  PutBuffer (Some (b, spare)) =
  if 9000 <=? len (b ++ spare) then Ret (Some (take (Z.to_nat 9000) (b ++ spare))) else Panic SliceOutOfRange.
Proof.
  unfold PutBuffer, slice_cap, defaultBufferSize. destruct (9000 <=? len (b ++ spare)) eqn:E.
  - rewrite slice_ret by lia. done.
  - by rewrite slice_panic by lia.
Qed.
End Pool.
