(* ===== verification/Sockets.v ===== *)
(** * The sockets of the capturer ([internal/capture/afpacket/afpacket.go])

    Opening, configuring and closing the AF_PACKET sockets: [Start],
    [openSocket], [closeAllFDs] and [Close]. The system calls are a class; its
    laws say what the calls do to the process's open descriptors. *)

From S2P Require Import Prelude.
From S2P Require Import GoStrings.
From S2P Require Import Decode.
From S2P Require Import Capture.

(** [golang.org/x/sys/unix] and [net.InterfaceByName] on a state of the kernel;
    an error is given by its message. *)
Class Kernel := {
  kernel : Type;
  open_fds : kernel -> gset Z;
  InterfaceByName : bytes -> kernel -> result Z;
  unix_Socket : Z -> Z -> Z -> kernel -> result Z * kernel;
  unix_Bind : Z -> Z -> Z -> kernel -> option bytes * kernel;
  unix_SetsockoptInt : Z -> Z -> Z -> Z -> kernel -> option bytes * kernel;
  unix_Close : Z -> kernel -> kernel;
}.

(** A socket gets a descriptor that is not open, a failing call opens nothing,
    configuring a socket opens and closes nothing, and closing closes. *)
Class LawfulKernel `{Kernel} := {
  Socket_ok d t p k fd k' : unix_Socket d t p k = (OkR fd, k') ->
    (fd ∉ open_fds k) /\ open_fds k' = ({[fd]} ∪ open_fds k);
  Socket_err d t p k e k' : unix_Socket d t p k = (ErrR e, k') -> open_fds k' = open_fds k;
  Bind_fds fd p i k : open_fds (snd (unix_Bind fd p i k)) = open_fds k;
  Setsockopt_fds fd l o v k : open_fds (snd (unix_SetsockoptInt fd l o v k)) = open_fds k;
  Close_fds fd k : open_fds (unix_Close fd k) = open_fds k ∖ {[fd]};
}.

Module Sockets.
Import Capture.Capture.

(** Constants of [unix] *)
Definition AF_PACKET : Z := 17.
Definition SOCK_RAW : Z := 3.
Definition ETH_P_ALL : Z := 3.
Definition SOL_SOCKET : Z := 1.
Definition SO_RCVBUF : Z := 8.
Definition SOL_PACKET : Z := 263.
Definition PACKET_FANOUT : Z := 18.

Section Sockets.
Context `{Kernel}.
(** [%q] *)
Variable quoted : bytes -> bytes.

(** [AFPacketCapturer]: [ctx] is whether the context that [Start] made has been
    cancelled, [loops] are the capture loops that have been started and that no
    [Close] has waited for, as descriptor and queue, and [closer] is whether the
    goroutine that closes the output has been started. What a loop does is in
    [Capture]: it returns when the context is cancelled, or when its descriptor
    gives an error, as a closed one does at its next poll or receive. *)
Record AFPacketCapturer := {
  cfg : Config; fds : list Z; out : option (channel Packet);
  ctx : option bool; loops : list (Z * Z); closer : bool;
}.

Definition New (c : Config) : AFPacketCapturer :=
  {| cfg := defaults c; fds := []; out := None; ctx := None; loops := []; closer := false |}.

Definition set_fds (a : AFPacketCapturer) (l : list Z) : AFPacketCapturer :=
  {| cfg := cfg a; fds := l; out := out a; ctx := ctx a; loops := loops a; closer := closer a |}.

(** [a.wg.Add(1); go a.captureLoop(ctx, fd, i)] *)
Definition spawn (a : AFPacketCapturer) (fd i : Z) : AFPacketCapturer :=
  {| cfg := cfg a; fds := fds a; out := out a; ctx := ctx a; loops := loops a ++ [(fd, i)];
     closer := closer a |}.

Definition closeAllFDs (a : AFPacketCapturer) (k : kernel) : AFPacketCapturer * kernel :=
  (set_fds a [], fold_left (fun k fd => unix_Close fd k) (fds a) k).

Definition openSocket (ifIndex bufBytes : Z) (k : kernel) : result Z * kernel :=
  match unix_Socket AF_PACKET SOCK_RAW (htons ETH_P_ALL) k with
  | (ErrR e, k) => (ErrR (str "socket: " ++ e), k)
  | (OkR fd, k) =>
      match unix_Bind fd (htons ETH_P_ALL) ifIndex k with
      | (Some e, k) => (ErrR (str "bind: " ++ e), unix_Close fd k)
      | (None, k) =>
          match unix_SetsockoptInt fd SOL_SOCKET SO_RCVBUF bufBytes k with
          | (Some e, k) => (ErrR (str "set SO_RCVBUF: " ++ e), unix_Close fd k)
          | (None, k) => (OkR fd, k)
          end
      end
  end.

(** The body of the loop of [Start] for queue [i]: the error that it returns,
    if any. *)
Definition start_queue (ifIndex bufBytes fanoutType i : Z) (a : AFPacketCapturer) (k : kernel)
    : option bytes * AFPacketCapturer * kernel :=
  match openSocket ifIndex bufBytes k with
  | (ErrR e, k) =>
      let '(a, k) := closeAllFDs a k in
      (Some (str "afpacket: open socket " ++ Itoa i ++ str ": " ++ e), a, k)
  | (OkR fd, k) =>
      let a := set_fds a (fds a ++ [fd]) in
      if 1 <? NumQueues (cfg a) then
        match unix_SetsockoptInt fd SOL_PACKET PACKET_FANOUT
                (fanoutArg (FanoutGroupID (cfg a)) fanoutType) k with
        | (Some e, k) =>
            let '(a, k) := closeAllFDs a k in
            (Some (str "afpacket: set fanout on socket " ++ Itoa i ++ str ": " ++ e), a, k)
        | (None, k) => (None, spawn a fd i, k)
        end
      else (None, spawn a fd i, k)
  end.

(** Queues [i], [i + 1], ... for [n] more queues. *)
Fixpoint start_queues (ifIndex bufBytes fanoutType : Z) (n : nat) (i : Z)
    (a : AFPacketCapturer) (k : kernel) : option bytes * AFPacketCapturer * kernel :=
  match n with
  | O => (None, a, k)
  | S n =>
      match start_queue ifIndex bufBytes fanoutType i a k with
      | (Some e, a, k) => (Some e, a, k)
      | (None, a, k) => start_queues ifIndex bufBytes fanoutType n (i + 1) a k
      end
  end.

(** [Start]: an error, or the output channel, which the capturer holds. (Sizes
    of channels and slices that exceed the memory are not modelled.) *)
Definition Start (a : AFPacketCapturer) (k : kernel)
    : outcome (option bytes * AFPacketCapturer * kernel) :=
  if bool_decide (Interface (cfg a) = [])
  then Ret (Some (str "afpacket: interface name is required"), a, k) else
  match InterfaceByName (Interface (cfg a)) k with
  | ErrR e =>
      Ret (Some (str "afpacket: lookup interface " ++ quoted (Interface (cfg a)) ++ str ": " ++ e), a, k)
  | OkR ifIndex =>
      match parseFanoutType quoted (FanoutType (cfg a)) with
      | ErrR e => Ret (Some e, a, k)
      | OkR fanoutType =>
          ch ← make_chan (OutputBuffer (cfg a));
          let a := {| cfg := cfg a; fds := []; out := Some ch; ctx := Some false;
                      loops := loops a; closer := closer a |} in
          let bufBytes := int64 (int64 (BufferSizeMB (cfg a) * 1024) * 1024) in
          match start_queues ifIndex bufBytes fanoutType (Z.to_nat (NumQueues (cfg a))) 0 a k with
          | (Some e, a, k) => Ret (Some e, a, k)
          | (None, a, k) =>
              Ret (None, {| cfg := cfg a; fds := fds a; out := out a; ctx := ctx a;
                            loops := loops a; closer := true |}, k)
          end
      end
  end.

(** [Close]. [wg.Wait] returns when every loop has returned, which each does
    when it next looks at the cancelled context. *)
Definition Close (a : AFPacketCapturer) (k : kernel) : AFPacketCapturer * kernel :=
  let a := {| cfg := cfg a; fds := fds a; out := out a;
              ctx := match ctx a with Some _ => Some true | None => None end;
              loops := []; closer := closer a |} in
  closeAllFDs a k.

(** ** Descriptors *)

Context `{!LawfulKernel}.

Lemma openSocket_spec ifIndex bufBytes k r k' :
  openSocket ifIndex bufBytes k = (r, k') ->
  match r with
  | OkR fd => (fd ∉ open_fds k) /\ open_fds k' = ({[fd]} ∪ open_fds k)
  | ErrR _ => open_fds k' = open_fds k
  end.
Proof.
  unfold openSocket. destruct (unix_Socket _ _ _ k) as [[fd|e] k1] eqn:E1.
  2: { intros [= <- <-]. by eapply Socket_err. }
  apply Socket_ok in E1 as [Hf E1].
  pose proof (Bind_fds fd (htons ETH_P_ALL) ifIndex k1) as E2.
  destruct (unix_Bind _ _ _ k1) as [[e|] k2]; cbn [snd] in E2.
  { intros [= <- <-]. rewrite Close_fds, E2, E1. set_solver. }
  pose proof (Setsockopt_fds fd SOL_SOCKET SO_RCVBUF bufBytes k2) as E3.
  destruct (unix_SetsockoptInt _ _ _ _ k2) as [[e|] k3]; cbn [snd] in E3; intros [= <- <-].
  - rewrite Close_fds, E3, E2, E1. set_solver.
  - split; [done|congruence].
Qed.

Lemma closeAllFDs_fds a k :
  open_fds (snd (closeAllFDs a k)) = open_fds k ∖ list_to_set (fds a).
Proof.
  unfold closeAllFDs. cbn [snd]. revert k. induction (fds a) as [|fd l IH]; intros k; cbn; [set_solver|].
  rewrite IH, Close_fds. set_solver.
Qed.

(** The capturer owns its descriptors: they are open, distinct, and those of
    the process besides are the ones of before. *)
Definition owns (before : gset Z) (a : AFPacketCapturer) (k : kernel) : Prop :=
  NoDup (fds a) /\ list_to_set (fds a) ## before /\ open_fds k = list_to_set (fds a) ∪ before.

(** Each descriptor has its loop. *)
Definition loops_on (a : AFPacketCapturer) : Prop :=
  map fst (loops a) = fds a /\ map snd (loops a) = seqZ 0 (len (fds a)).

Lemma closeAll_owned before a k :
  owns before a k -> open_fds (snd (closeAllFDs a k)) = before.
Proof. intros (_ & Hd & Ho). rewrite closeAllFDs_fds, Ho. set_solver. Qed.

(** What [Start] does to the capturer, apart from descriptors and loops. *)
Definition same_setup (a a' : AFPacketCapturer) : Prop :=
  cfg a' = cfg a /\ out a' = out a /\ ctx a' = ctx a /\ closer a' = closer a.

(** After a failure everything is closed again. *)
Definition rolled_back (before : gset Z) (a a' : AFPacketCapturer) (k : kernel) : Prop :=
  open_fds k = before /\ fds a' = [] /\ same_setup a a'.

(** The error of a queue that cannot be set up. *)
Definition names_queue (i : Z) (err : bytes) : Prop :=
  exists msg, err = str "afpacket: open socket " ++ Itoa i ++ str ": " ++ msg \/
    err = str "afpacket: set fanout on socket " ++ Itoa i ++ str ": " ++ msg.

Lemma start_queue_spec before ifIndex bufBytes ft a k e a' k' :
  owns before a k -> loops_on a ->
  start_queue ifIndex bufBytes ft (len (fds a)) a k = (e, a', k') ->
  match e with
  | None => owns before a' k' /\ loops_on a' /\ length (fds a') = S (length (fds a)) /\ same_setup a a'
  | Some err => rolled_back before a a' k' /\ loops a' = loops a /\ names_queue (len (fds a)) err
  end.
Proof.
  intros Ho [Hl1 Hl2]. pose proof Ho as (Hnd & Hdis & Hk). unfold start_queue.
  destruct (openSocket ifIndex bufBytes k) as [[fd|err] k1] eqn:E1;
    pose proof (openSocket_spec _ _ _ _ _ E1) as Hs.
  2: { destruct (closeAllFDs a k1) as [a2 k2] eqn:E2. intros [= <- <- <-].
       pose proof (closeAll_owned before a k1) as Hc. rewrite E2 in Hc. injection E2 as <- _.
       split; [|split; [done|by exists err; left]]. split; [|done]. apply Hc. unfold owns. by rewrite Hs. }
  destruct Hs as [Hfd Hk1]. set (a1 := set_fds a (fds a ++ [fd])).
  assert (Ho1 : owns before a1 k1).
  { unfold owns. cbn [a1 set_fds fds]. rewrite Hk1, list_to_set_app_L, Hk. rewrite Hk in Hfd.
    split; [|split; [set_solver|cbn; set_solver]]. apply list.NoDup_app. split; [done|].
    split; [|apply NoDup_singleton]. intros x Hx Hx'. apply list_elem_of_singleton in Hx'. subst.
    apply Hfd, elem_of_union_l. by apply elem_of_list_to_set. }
  assert (Hsp : loops_on (spawn a1 fd (len (fds a)))).
  { unfold loops_on. cbn [spawn loops fds a1 set_fds]. rewrite !map_app, Hl1, Hl2. split; [done|].
    unfold len. rewrite length_app. cbn [length map snd]. replace (Z.of_nat (length (fds a) + 1))
      with (Z.of_nat (length (fds a)) + 1) by lia. by rewrite seqZ_app, Z.add_0_l by lia. }
  assert (Hlen : length (fds a1) = S (length (fds a))) by (cbn; rewrite length_app; simpl; lia).
  destruct (1 <? NumQueues (cfg a1)).
  - pose proof (Setsockopt_fds fd SOL_PACKET PACKET_FANOUT (fanoutArg (FanoutGroupID (cfg a1)) ft) k1) as Hf.
    destruct (unix_SetsockoptInt _ _ _ _ k1) as [[err|] k2]; cbn [snd] in Hf.
    + destruct (closeAllFDs a1 k2) as [a3 k3] eqn:E3. intros [= <- <- <-].
      pose proof (closeAll_owned before a1 k2) as Hc. rewrite E3 in Hc. injection E3 as <- _.
      split; [|split; [done|by exists err; right]]. split; [|done]. apply Hc. unfold owns in *. by rewrite Hf.
    + intros [= <- <- <-]. split; [|done]. unfold owns in *. by rewrite Hf.
  - intros [= <- <- <-]. done.
Qed.

Lemma start_queues_spec before ifIndex bufBytes ft n a k e a' k' :
  owns before a k -> loops_on a ->
  start_queues ifIndex bufBytes ft n (len (fds a)) a k = (e, a', k') ->
  match e with
  | None => owns before a' k' /\ loops_on a' /\ length (fds a') = (length (fds a) + n)%nat /\ same_setup a a'
  | Some err => rolled_back before a a' k' /\ exists i : nat, (i < length (fds a) + n)%nat /\ names_queue (Z.of_nat i) err /\
                map snd (loops a') = seqZ 0 (Z.of_nat i) /\ Forall (fun l => fst l ∉ before) (loops a')
  end.
Proof.
  revert a k. induction n as [|n IH]; intros a k Ho Hl; cbn [start_queues].
  { intros [= <- <- <-]. split; [done|]. split; [done|]. split; [lia|done]. }
  destruct (start_queue _ _ _ _ a k) as [[[err|] a1] k1] eqn:E1;
    pose proof (start_queue_spec _ _ _ _ _ _ _ _ _ Ho Hl E1) as Hs.
  - intros [= <- <- <-]. destruct Hs as (Hr & Hlo & Hn). split; [done|]. exists (length (fds a)).
    rewrite Hlo. destruct Hl as [Hl1 Hl2]. split; [lia|]. split; [done|]. split; [done|].
    destruct Ho as (_ & Hdis & _). apply List.Forall_forall. intros l Hin Hb. apply (Hdis (fst l)); [|done].
    apply elem_of_list_to_set. rewrite <- Hl1. apply list_elem_of_In. by apply in_map.
  - destruct Hs as (Ho1 & Hl1 & Hlen & Hsame). intros Hr.
    replace (len (fds a) + 1) with (len (fds a1)) in Hr by lens.
    specialize (IH a1 k1 Ho1 Hl1 Hr). destruct e as [err|].
    + destruct IH as [(Hk & Hf & Hs') (i & Hi & Hn)]. split.
      { split; [done|]. split; [done|]. unfold same_setup in *. naive_solver congruence. }
      exists i. split; [lia|done].
    + destruct IH as (Ho' & Hl' & Hlen' & Hs'). split; [done|]. split; [done|]. split; [lia|].
      unfold same_setup in *. naive_solver congruence.
Qed.

(** What [Start] returns on a new capturer. *)
Definition Start_result (c : Config) (k : kernel) (e : option bytes) (a : AFPacketCapturer) (k' : kernel) : Prop :=
  match e with
  | None =>
      owns (open_fds k) a k' /\ loops_on a /\ len (fds a) = NumQueues (defaults c) /\
      ctx a = Some false /\ closer a = true /\
      out a = Some {| chan_buf := []; chan_cap := OutputBuffer (defaults c); chan_closed := false |}
  | Some err =>
      open_fds k' = open_fds k /\ fds a = [] /\ closer a = false /\
      (loops a = [] /\ ctx a = None \/
       exists i : nat, Z.of_nat i < NumQueues (defaults c) /\ names_queue (Z.of_nat i) err /\
         map snd (loops a) = seqZ 0 (Z.of_nat i) /\ Forall (fun l => fst l ∉ open_fds k') (loops a) /\ ctx a = Some false)
  end.

Lemma Start_returns c k : exists e a k', Start (New c) k = Ret (e, a, k') /\ Start_result c k e a k'.
Proof.
  assert (Hearly : forall err : bytes, Start_result c k (Some err) (New c) k) by (intros err; split_and!; try done; by left).
  unfold Start. cbn [New cfg]. case_bool_decide; [by eexists _, _, _|].
  destruct (InterfaceByName _ k) as [ifIndex|err]; [|by eexists _, _, _].
  destruct (parseFanoutType _ _) as [ft|err]; [|by eexists _, _, _].
  unfold make_chan. assert (Hb : 0 < OutputBuffer (defaults c)).
  { cbn. destruct (OutputBuffer c <=? 0) eqn:E; lia. }
  assert (Hq : 0 < NumQueues (defaults c)).
  { cbn. destruct (NumQueues c <=? 0) eqn:E; lia. }
  replace (OutputBuffer (defaults c) <? 0) with false by lia. cbn [mbind outcome_bind].
  set (a0 := {| cfg := defaults c |}).
  destruct (start_queues _ _ _ _ 0 a0 k) as [[e a] k'] eqn:E.
  assert (Ho : owns (open_fds k) a0 k) by (split; [constructor|split; set_solver]).
  pose proof (start_queues_spec _ _ _ _ _ _ _ _ _ _ Ho ltac:(done) E) as Hs. destruct e as [err|].
  - destruct Hs as [(Hk & Hf & (_ & _ & Hctx & Hcl)) (i & Hi & Hn & Hm & Hfd)]. eexists _, _, _. split; [done|].
    unfold Start_result. rewrite Hk, Hcl, Hctx. split_and!; try done. right. exists i.
    change (length (fds a0)) with 0%nat in Hi. split; [lia|done].
  - destruct Hs as (Ho' & Hl & Hlen & (Hcfg & Hout & Hctx & Hcl)). eexists _, _, _. split; [done|].
    unfold Start_result. cbn [fds loops ctx closer out]. split; [done|]. split; [done|]. split.
    { change (length (fds a0)) with 0%nat in Hlen. unfold len. lia. }
    by rewrite Hctx, Hout.
Qed.

(** [Close] closes what [Start] opened, and a second [Close] closes nothing. *)
Lemma capture_Close_descriptors before a k :
  owns before a k ->
  let '(a', k') := Close a k in
  open_fds k' = before /\ loops a' = [] /\ Close a' k' = (a', k').
Proof.
  intros Ho. unfold Close. pose proof (closeAll_owned before
    {| cfg := cfg a; fds := fds a; out := out a;
       ctx := match ctx a with Some _ => Some true | None => None end; loops := []; closer := closer a |} k Ho) as Hc.
  split; [exact Hc|]. split; [done|]. cbn. by destruct (ctx a).
Qed.

(** C30: What [Start] leaves behind. On a new capturer it never panics, sizes that
    no memory holds apart. When it succeeds it holds one open socket and has started one capture loop per
    configured queue, with an empty output channel of the configured size and a
    context that is not cancelled; the process has no other new descriptor. When
    it fails it has closed every socket that it opened and holds none. But when
    it fails at some queue, which its error names, it has by then started exactly
    the loops of the queues before, on descriptors that are closed now, and it
    has neither cancelled their context nor started the goroutine that closes
    the output. *)
Theorem capture_Start_outcome c k :
  exists e a k', Start (New c) k = Ret (e, a, k') /\
    match e with
    | None =>
        owns (open_fds k) a k' /\ loops_on a /\ len (fds a) = NumQueues (defaults c) /\
        ctx a = Some false /\ closer a = true /\
        out a = Some {| chan_buf := []; chan_cap := OutputBuffer (defaults c); chan_closed := false |}
    | Some err =>
        open_fds k' = open_fds k /\ fds a = [] /\ closer a = false /\
        (loops a = [] /\ ctx a = None \/
         exists i : nat, Z.of_nat i < NumQueues (defaults c) /\ names_queue (Z.of_nat i) err /\
           map snd (loops a) = seqZ 0 (Z.of_nat i) /\ Forall (fun l => fst l ∉ open_fds k') (loops a) /\ ctx a = Some false)
    end.
Proof. exact (Start_returns c k). Qed.
End Sockets.

(** ** A kernel that opens at most [limit] descriptors *)

Definition limited_kernel (limit : Z) : Kernel := {|
  kernel := gset Z; open_fds := id;
  InterfaceByName name _ := OkR 2;
  unix_Socket _ _ _ k := if Z.of_nat (size k) <? limit
                         then (OkR (fresh k), {[fresh k]} ∪ k) else (ErrR (str "too many open files"), k);
  unix_Bind _ _ _ k := (None, k);
  unix_SetsockoptInt _ _ _ _ k := (None, k);
  unix_Close fd k := k ∖ {[fd]};
|}.

Lemma limited_lawful limit : @LawfulKernel (limited_kernel limit).
Proof.
  split; cbn; try done.
  - intros _ _ _ k fd k'. case_match; [|done]. intros [= <- <-]. split; [apply is_fresh|done].
  - intros _ _ _ k e k'. case_match; [done|]. by intros [= _ <-].
Qed.

Definition sample_config : Config :=
  {| Interface := str "eth0"; NumQueues := 3; BufferSizeMB := 0; SnapLength := 0; BPFFilter := [];
     FanoutType := []; FanoutGroupID := 0; OutputBuffer := 0 |}.

(** The third socket cannot be opened. *)
Definition sample_failure : option bytes * AFPacketCapturer * gset Z :=
  match @Start (limited_kernel 2) id (New sample_config) ∅ with
  | Ret r => r | _ => (None, New sample_config, ∅) end.

(** Two loops have been started when the third queue fails. *)
Lemma capture_Start_outcome_witness :
  let '(e, a, k') := sample_failure in
  e = Some (str "afpacket: open socket 2: socket: too many open files") /\ length (loops a) = 2%nat /\
  k' = ∅ /\ fds a = [] /\ closer a = false /\
  (loops a = [] /\ ctx a = None \/
   exists i : nat, Z.of_nat i < NumQueues (defaults sample_config) /\
     names_queue (Z.of_nat i) (str "afpacket: open socket 2: socket: too many open files") /\
     map snd (loops a) = seqZ 0 (Z.of_nat i) /\ Forall (fun l => fst l ∉ k') (loops a) /\ ctx a = Some false).
Proof.
  assert (Hs : @Start (limited_kernel 2) id (New sample_config) ∅ = Ret sample_failure) by (vm_compute; reflexivity).
  assert (He : fst (fst sample_failure) = Some (str "afpacket: open socket 2: socket: too many open files"))
    by (vm_compute; reflexivity).
  assert (Hl : length (loops (snd (fst sample_failure))) = 2%nat) by (vm_compute; reflexivity).
  destruct (@capture_Start_outcome (limited_kernel 2) id (limited_lawful 2) sample_config ∅) as (e & a & k' & E & H).
  rewrite Hs in E.
  assert (Hinj : forall x y : option bytes * AFPacketCapturer * gset Z, Ret x = Ret y -> x = y) by (by intros x y [= ->]).
  apply Hinj in E. rewrite E in He, Hl |- *. cbn [fst snd] in He, Hl. subst e.
  split; [reflexivity|]. split; [exact Hl|exact H].
Defined.
End Sockets.
