(* ===== verification/Metrics.v ===== *)
(** * The Prometheus collectors (internal/metrics/metrics.go)

    The package's collectors, in the order in which Go initialises them, and
    their registration, which runs before [main] and panics when the registry
    refuses one. The client library is a class with the documented condition
    under which it accepts a collector; [Wiring] has the metrics server. *)

From Stdlib Require QArith_base.
From S2P Require Import Prelude.
From S2P Require Import GoStrings.

Module Metrics.

(** ** The data the library is called with *)

Inductive buckets :=
| DefBuckets
| ExponentialBuckets (start factor : QArith_base.Q) (count : Z).

(** [prometheus.Opts]; subsystem and constant labels are never set. *)
Record Opts := { Namespace : bytes; Name : bytes; Help : bytes }.

Inductive collector :=
| NewCounter (o : Opts)
| NewCounterVec (o : Opts) (labels : list bytes)
| NewGauge (o : Opts)
| NewGaugeVec (o : Opts) (labels : list bytes)
| NewHistogram (o : Opts) (b : buckets).

Definition opts (c : collector) : Opts :=
  match c with NewCounter o | NewCounterVec o _ | NewGauge o | NewGaugeVec o _ | NewHistogram o _ => o end.

Definition labels (c : collector) : list bytes :=
  match c with NewCounterVec _ l | NewGaugeVec _ l => l | _ => [] end.

(** [prometheus.BuildFQName] without a subsystem. *)
Definition fqName (c : collector) : bytes := Namespace (opts c) ++ str "_" ++ Name (opts c).

(** ** What the library accepts *)

Definition letter (b : byte) : bool :=
  (65 <=? u8 b) && (u8 b <=? 90) || (97 <=? u8 b) && (u8 b <=? 122) || (u8 b =? 95).

(** Metric names are [[a-zA-Z_:][a-zA-Z0-9_:]*]. *)
Definition name_ok (s : bytes) : bool :=
  match s with
  | [] => false
  | c :: s => (letter c || (u8 c =? 58)) && forallb (fun b => letter b || is_digit b || (u8 b =? 58)) s
  end.

(** Label names are [[a-zA-Z_][a-zA-Z0-9_]*], not with two underscores first. *)
Definition label_ok (s : bytes) : bool :=
  match s with
  | [] => false
  | c :: t => letter c && forallb (fun b => letter b || is_digit b) t && negb (HasPrefix s (str "__"))
  end.

Definition buckets_ok (b : buckets) : bool :=
  match b with
  | DefBuckets => true
  | ExponentialBuckets start factor count => (1 <=? count) && negb (QArith_base.Qle_bool start (QArith_base.inject_Z 0))
      && negb (QArith_base.Qle_bool factor (QArith_base.inject_Z 1))
  end.

Definition valid (c : collector) : bool :=
  name_ok (fqName c) && forallb label_ok (labels c) && bool_decide (NoDup (labels c))
  && match c with NewHistogram _ b => buckets_ok b | _ => true end.

(** A registry of the client library: it takes a valid collector whose name no
    registered one has. *)
Class Prometheus := {
  registry : Type;
  registered : registry -> list bytes;
  Register : collector -> registry -> option registry;
  Register_ok : forall c r, valid c = true -> fqName c ∉ registered r ->
    exists r', Register c r = Some r' /\ registered r' = registered r ++ [fqName c];
}.

(** ** The collectors *)

Definition namespace : bytes := str "netcap".

Definition netcap (name help : string) : Opts := {| Namespace := namespace; Name := str name; Help := str help |}.

Definition PacketsCaptured : collector :=
  NewCounterVec (netcap "packets_captured_total" "Total number of packets captured.") [str "queue"].

Definition PacketsDropped : collector :=
  NewCounterVec (netcap "packets_dropped_total" "Total number of packets dropped.") [str "queue"; str "reason"].

Definition CaptureBytes : collector :=
  NewCounterVec (netcap "capture_bytes_total" "Total bytes captured.") [str "queue"].

Definition DecodeLatency : collector :=
  NewHistogram (netcap "decode_latency_seconds" "Packet decode latency in seconds.")
    (ExponentialBuckets (QArith_base.Qmake 1 1000000) (QArith_base.inject_Z 10) 7).

Definition ActiveStreams : collector :=
  NewGauge (netcap "active_streams" "Current number of active TCP reassembly streams.").

Definition ReassemblyPagesUsed : collector :=
  NewGauge (netcap "reassembly_pages_used" "Number of reassembly page buffers currently in use.").

Definition ProtocolEvents : collector :=
  NewCounterVec (netcap "protocol_events_total" "Total parsed protocol-level events.") [str "protocol"; str "direction"].

Definition ParseErrors : collector :=
  NewCounterVec (netcap "parse_errors_total" "Total protocol parse errors.") [str "protocol"; str "error_type"].

Definition KafkaMessagesSent : collector :=
  NewCounter (netcap "kafka_messages_sent_total" "Total messages sent to Kafka.").

Definition KafkaSendErrors : collector :=
  NewCounter (netcap "kafka_send_errors_total" "Total Kafka send errors.").

Definition KafkaBatchLatency : collector :=
  NewHistogram (netcap "kafka_batch_latency_seconds" "Kafka batch write latency in seconds.") DefBuckets.

Definition ChannelUtilization : collector :=
  NewGaugeVec (netcap "channel_utilization_ratio" "Pipeline channel utilization ratio (0-1) per stage.") [str "stage"].

Definition collectors : list collector :=
  [PacketsCaptured; PacketsDropped; CaptureBytes; DecodeLatency; ActiveStreams; ReassemblyPagesUsed;
   ProtocolEvents; ParseErrors; KafkaMessagesSent; KafkaSendErrors; KafkaBatchLatency; ChannelUtilization].

(** ** The initialisation of the package *)

Section Init.
Context `{Prometheus}.

(** [promauto] registers what it makes and panics when it cannot. *)
Definition promauto (r : registry) (c : collector) : outcome registry :=
  match Register c r with Some r' => Ret r' | None => Panic RegistrationFailed end.

Fixpoint init_all (r : registry) (cs : list collector) : outcome registry :=
  match cs with
  | [] => Ret r
  | c :: cs => r ← promauto r c; init_all r cs
  end.

Definition init (r : registry) : outcome registry := init_all r collectors.

Lemma init_all_registers r cs :
  forallb valid cs = true -> NoDup (map fqName cs) -> (forall c, c ∈ cs -> fqName c ∉ registered r) ->
  exists r', init_all r cs = Ret r' /\ registered r' = registered r ++ map fqName cs.
Proof.
  revert r. induction cs as [|c cs IH]; intros r Hv Hnd Hnew; [exists r; by rewrite app_nil_r|].
  cbn [forallb map init_all] in *. apply andb_true_iff in Hv as [Hc Hv]. apply list.NoDup_cons in Hnd as [Hn Hnd].
  destruct (Register_ok c r Hc (Hnew c (list_elem_of_here _ _))) as (r1 & E & Er). unfold promauto. rewrite E.
  cbn [mbind outcome_bind]. destruct (IH r1 Hv Hnd) as (r' & E' & Er').
  - intros k Hk. rewrite Er, elem_of_app, list_elem_of_singleton. intros [Hin|Heq].
    + by apply (Hnew k (list_elem_of_further _ _ _ Hk)).
    + apply Hn. rewrite <- Heq. by apply (list_elem_of_fmap_2 fqName).
  - exists r'. split; [done|]. by rewrite Er', Er, <- app_assoc.
Qed.

(** The names of the package's collectors begin alike, and differ. *)
Lemma collectors_ok :
  forallb valid collectors = true /\ NoDup (map fqName collectors) /\
  Forall (fun c => HasPrefix (fqName c) (str "netcap_") = true) collectors.
Proof.
  split; [by vm_compute|]. split; [|by repeat constructor].
  apply (bool_decide_unpack _). by vm_compute.
Qed.

(** The initialisation of the package does not panic, in any registry with no
    metric of this name space, and registers its twelve collectors. *)
Theorem metrics_init_registers r :
  (forall name, name ∈ registered r -> HasPrefix name (str "netcap_") = false) ->
  exists r', init r = Ret r' /\ registered r' = registered r ++ map fqName collectors.
Proof.
  intros Hr. destruct collectors_ok as (Hv & Hnd & Hp). apply init_all_registers; [done|done|].
  intros c Hc Hin. rewrite List.Forall_forall in Hp. apply list_elem_of_In in Hc. apply Hp in Hc. by rewrite (Hr _ Hin) in Hc.
Qed.
End Init.

(** ** The documented table *)

Definition type_of (c : collector) : bytes :=
  str match c with
      | NewCounter _ | NewCounterVec _ _ => "Counter"
      | NewGauge _ | NewGaugeVec _ _ => "Gauge"
      | NewHistogram _ _ => "Histogram"
      end.

(** The metrics of the user's guide with their types and labels. *)
Definition guide : list (bytes * bytes * list bytes) :=
  [(str "netcap_packets_captured_total", str "Counter", [str "queue"]);
   (str "netcap_packets_dropped_total", str "Counter", [str "queue"; str "reason"]);
   (str "netcap_capture_bytes_total", str "Counter", [str "queue"]);
   (str "netcap_decode_latency_seconds", str "Histogram", []);
   (str "netcap_active_streams", str "Gauge", []);
   (str "netcap_reassembly_pages_used", str "Gauge", []);
   (str "netcap_protocol_events_total", str "Counter", [str "protocol"; str "direction"]);
   (str "netcap_parse_errors_total", str "Counter", [str "protocol"; str "error_type"]);
   (str "netcap_kafka_messages_sent_total", str "Counter", []);
   (str "netcap_kafka_send_errors_total", str "Counter", []);
   (str "netcap_kafka_batch_latency_seconds", str "Histogram", []);
   (str "netcap_channel_utilization_ratio", str "Gauge", [str "stage"])].

Lemma collectors_documented : map (fun c => (fqName c, type_of c, labels c)) collectors = guide.
Proof. vm_compute. reflexivity. Qed.

(** ** A registry *)

Program Definition names_registry : Prometheus := {|
  registry := list bytes; registered := id;
  Register c r := if valid c && bool_decide (fqName c ∉ r) then Some (r ++ [fqName c]) else None |}.
Next Obligation. intros c r Hv Hn. cbv beta in *. rewrite Hv, bool_decide_eq_true_2 by done. by eexists. Qed.

(** In the library's default registry, next to its Go and process metrics. *)
Lemma metrics_init_registers_witness :
  let r : @registry names_registry := [str "go_goroutines"; str "process_cpu_seconds_total"] in
  exists r', init r = Ret r' /\ length (registered r') = 14%nat.
Proof.
  intros r. destruct (metrics_init_registers r) as (r' & E & Er).
  - intros name Hin. change (name ∈ [str "go_goroutines"; str "process_cpu_seconds_total"]) in Hin.
    rewrite !elem_of_cons, elem_of_nil in Hin. destruct Hin as [->|[->|[]]]; vm_compute; reflexivity.
  - exists r'. split; [exact E|]. rewrite Er. vm_compute. reflexivity.
Defined.
End Metrics.
