(* ===== verification/Wiring.v ===== *)
(** * Starting the agent ([cmd/netcap/main.go])

    What [main] makes of the configuration: the configuration of each stage,
    the channels between them and the parser registry, and its path from the
    configuration file to the running pipeline, failures included. *)

From S2P Require Import Prelude.
From S2P Require Import GoStrings.
From S2P Require Import Event.
From S2P Require Import Http.
From S2P Require Import Registry.
From S2P Require Import Parsers.
From S2P Require Import Decode.
From S2P Require Import Output.
From S2P Require Import Config.
From S2P Require Import Capture.
From S2P Require Import Sockets.

Module Wiring.
Section Wiring.
Context `{Unicode} `{Kernel}.
Variable quoted : bytes -> bytes.

(** ** The stages' configurations *)

Definition capture_config (c : Config.Config) : Capture.Config :=
  {| Capture.Interface := Config.Interface (Config.Capture c);
     Capture.NumQueues := Config.NumQueues (Config.Capture c);
     Capture.BufferSizeMB := Z.quot (Config.BufferSize (Config.Capture c)) (1024 * 1024);
     Capture.SnapLength := Config.SnapLength (Config.Capture c);
     Capture.BPFFilter := Config.BPFFilter (Config.Capture c);
     Capture.FanoutType := Config.Type_ (Config.Fanout (Config.Capture c));
     Capture.FanoutGroupID := Config.GroupID (Config.Fanout (Config.Capture c));
     Capture.OutputBuffer := Config.ChannelBuffer (Config.Decode c) |}.

Definition decoder_config (c : Config.Config) : Decode.DecoderConfig :=
  {| Decode.Workers := Config.Workers (Config.Decode c);
     Decode.ChannelBuffer := Config.ChannelBuffer (Config.Decode c) |}.

Definition reassembly_config (c : Config.Config) : Reassembler.ReassemblyConfig :=
  let r := Config.Reassembly c in
  {| Reassembler.MaxBufferedPagesPerConn := Config.MaxBufferedPagesPerConn r;
     Reassembler.MaxBufferedPagesTotal := Config.MaxBufferedPagesTotal r;
     Reassembler.ConnectionTimeout := Config.ConnectionTimeout r;
     Reassembler.MaxConnectionAge := Config.MaxConnectionAge r;
     Reassembler.FlushInterval := Config.FlushInterval r;
     Reassembler.ChannelBuffer := Config.ChannelBuffer (Config.Decode c) |}.

Definition kafka_config (c : Config.Config) : Output.KafkaConfig :=
  let k := Config.Kafka c in
  {| Output.Brokers := Config.Brokers k; Output.Topic := Config.Topic k;
     Output.BatchSize := Config.BatchSize k; Output.BatchTimeout := Config.BatchTimeout k;
     Output.Compression := Config.Compression k; Output.RequiredAcks := Config.RequiredAcks k;
     Output.NumWorkers := Config.NumWorkers k; Output.MaxMessageBytes := Config.MaxMessageBytes k |}.

(** ** The agent *)

(** [metrics.Server]: its address and the path it serves. *)
Record Server := { Addr : bytes; Path : bytes }.

(** [http.ServeMux] panics on a pattern that it does not accept. *)
Variable pattern_ok : bytes -> bool.

Definition NewServer (listen path : bytes) : outcome Server :=
  if pattern_ok path then Ret {| Addr := listen; Path := path |} else Panic InvalidPattern.

(** [Start]; [net_Listen] is the error of listening on an address, if any. *)
Definition Server_Start (net_Listen : bytes -> option bytes) (s : Server) : option bytes :=
  net_Listen (Addr s).

(** [Stop] gives the server of the library five seconds, whatever the context. *)
Definition Server_Stop (srv_Shutdown : Z -> option bytes) (_ : Server) : option bytes :=
  srv_Shutdown (5 * 1000000000).

(** The stages, with what their constructors keep of the configuration, and
    the channels [main] makes itself. *)
Record agent := {
  capturer : Sockets.AFPacketCapturer;
  decoder : Decode.DecoderConfig;
  tcpCh : channel Decode.DecodedPacket;
  udpCh : channel Decode.DecodedPacket;
  reassembler : Reassembler.ReassemblyConfig;
  producer : Output.Producer;
  registry : Registry.Registry parser;
  metrics : option Server;
}.

(** From the decoder to the pipeline, once the capture has started. *)
Definition build (c : Config.Config) (a : Sockets.AFPacketCapturer) : outcome agent :=
  tcp ← make_chan (Config.ChannelBuffer (Config.Decode c));
  udp ← make_chan (Config.ChannelBuffer (Config.Decode c));
  p ← Output.NewProducer (kafka_config c) (Config.ChannelBuffer (Config.Decode c));
  m ← (if Config.MetricsEnabled (Config.Metrics c)
       then s ← NewServer (Config.Listen (Config.Metrics c)) (Config.Path (Config.Metrics c)); Ret (Some s)
       else Ret None);
  Ret {| capturer := a; decoder := Decode.New (decoder_config c); tcpCh := tcp; udpCh := udp;
         reassembler := Reassembler.New (reassembly_config c); producer := p;
         registry := buildRegistry (Config.MaxBodyCapture (Config.HTTP (Config.Protocols c)))
                       (Config.MaxQueryLength (Config.DB (Config.Protocols c)));
         metrics := m |}.

(** [main] ends with [os.Exit(1)], or it gets to [p.Run]. *)
Inductive started := Exited (err : bytes) | Running (a : agent).

(** [main] up to [p.Run]; [read] is what viper reads into the defaults. *)
Definition startup (read : Config.Config -> result Config.Config) (k : kernel) : outcome (started * kernel) :=
  match Config.Load read with
  | ErrR e => Ret (Exited e, k)
  | OkR c =>
      '(e, a, k) ← Sockets.Start quoted (Sockets.New (capture_config c)) k;
      match e with
      | Some e => Ret (Exited e, k)
      | None => ag ← build c a; Ret (Running ag, k)
      end
  end.

(** ** What startup guarantees *)

Context `{!LawfulKernel}.

(** The agent runs as configured: one socket and one capture loop per queue,
    at least one decode worker and one Kafka worker, channels of the configured
    capacity, and the registry of all parsers. *)
Definition runs (c : Config.Config) (before : gset Z) (ag : agent) (k : kernel) : Prop :=
  let n := Config.ChannelBuffer (Config.Decode c) in
  Sockets.owns before (capturer ag) k /\ Sockets.loops_on (capturer ag) /\
  len (Sockets.fds (capturer ag)) = Z.max 1 (Config.NumQueues (Config.Capture c)) /\
  Decode.Workers (decoder ag) = Config.Workers (Config.Decode c) /\ 0 < Decode.ChannelBuffer (decoder ag) /\
  0 < Reassembler.ChannelBuffer (reassembler ag) /\
  chan_cap (tcpCh ag) = n /\ chan_cap (udpCh ag) = n /\ chan_cap (Output.input (producer ag)) = n /\
  0 < len (Output.writers (producer ag)) /\ Registry.indexed (registry ag).

Lemma NumQueues_max c : Capture.NumQueues (Capture.defaults c) = Z.max 1 (Capture.NumQueues c).
Proof. cbn. destruct (Capture.NumQueues c <=? 0) eqn:E; lia. Qed.

(** The metrics server, if there is one, gets a pattern the mux accepts. *)
Definition metrics_ok (c : Config.Config) : bool :=
  negb (Config.MetricsEnabled (Config.Metrics c)) || pattern_ok (Config.Path (Config.Metrics c)).

Lemma build_runs c before a k :
  Config.valid c -> 0 <= Config.ChannelBuffer (Config.Decode c) -> metrics_ok c = true ->
  Sockets.owns before a k -> Sockets.loops_on a ->
  len (Sockets.fds a) = Capture.NumQueues (Capture.defaults (capture_config c)) ->
  exists ag, build c a = Ret ag /\ runs c before ag k.
Proof.
  intros Hv Hn Hm Ho Hl Hf. unfold build, NewServer.
  destruct (Output.producer_lifecycle (kafka_config c) (Config.ChannelBuffer (Config.Decode c)) (fun _ => None) Hn)
    as (p & _ & _ & Hp & _ & Hw & _ & Hcap & _).
  rewrite Hp. unfold make_chan. replace (_ <? 0) with false by lia. cbn [mbind outcome_bind].
  assert (Hsrv : exists m, (if Config.MetricsEnabled (Config.Metrics c)
       then s ← (if pattern_ok (Config.Path (Config.Metrics c))
                 then Ret {| Addr := Config.Listen (Config.Metrics c); Path := Config.Path (Config.Metrics c) |}
                 else Panic InvalidPattern); Ret (Some s)
       else Ret None) = Ret m).
  { unfold metrics_ok in Hm. destruct (Config.MetricsEnabled _); [|by eexists]. cbn in Hm. rewrite Hm. by eexists. }
  destruct Hsrv as [m ->]. cbn [mbind outcome_bind].
  eexists. split; [done|]. unfold runs. cbv zeta. cbn [capturer decoder tcpCh udpCh reassembler producer registry chan_cap].
  split; [done|]. split; [done|]. split; [by rewrite Hf, NumQueues_max|].
  destruct Hv as (_ & _ & Hwk & _).
  split; [cbn; by replace (_ <=? 0) with false by lia|].
  split; [cbn; destruct (_ <=? 0) eqn:E; lia|].
  split; [cbn; destruct (_ <=? 0) eqn:E; lia|].
  split; [done|]. split; [done|]. split; [done|]. split; [|apply buildRegistry_indexed].
  unfold Output.NewProducer, make_chan in Hp. replace (_ <? 0) with false in Hp by lia. injection Hp as <-.
  rewrite Hw. apply Output.producer_config.
Qed.

(** From the configuration file to the pipeline. [main] either exits with
    an error, and then every socket it opened is closed again; or runs exactly
    as a valid configuration says; or panics, and then the configuration it
    loaded is valid but has one of two settings that nothing checks: a negative
    [decode.channel_buffer], or a metrics path that is no pattern. *)
Theorem main_startup read k :
  match startup read k with
  | Ret (Exited _, k') => open_fds k' = open_fds k
  | Ret (Running ag, k') => exists c, Config.Load read = OkR c /\ runs c (open_fds k) ag k'
  | Panic p => exists c, Config.Load read = OkR c /\
      ((p = MakeChanSize /\ Config.ChannelBuffer (Config.Decode c) < 0) \/
       (p = InvalidPattern /\ metrics_ok c = false))
  | NoFuel => False
  end.
Proof.
  unfold startup. destruct (Config.Load read) as [c|e] eqn:El; [|done].
  destruct (proj1 (Config.Load_valid read c) El) as [_ Hvalid].
  destruct (Sockets.Start_returns quoted (capture_config c) k) as (e & a & k' & -> & Hs).
  cbn [mbind outcome_bind]. destruct e as [e|]; [apply Hs|]. destruct Hs as (Ho & Hl & Hf & _).
  destruct (decide (0 <= Config.ChannelBuffer (Config.Decode c))) as [Hn|Hn].
  2: { unfold build, make_chan. replace (_ <? 0) with true by lia. cbn [mbind outcome_bind].
       exists c. split; [done|]. left. split; [done|lia]. }
  destruct (metrics_ok c) eqn:Hm.
  - destruct (build_runs c (open_fds k) a k' Hvalid Hn Hm Ho Hl Hf) as (ag & -> & Hr). by exists c.
  - unfold build, Output.NewProducer, make_chan, NewServer. replace (_ <? 0) with false by lia.
    cbn [mbind outcome_bind]. unfold metrics_ok in Hm. apply orb_false_iff in Hm as [Hm1 Hm2].
    apply negb_false_iff in Hm1. rewrite Hm1, Hm2. cbn [mbind outcome_bind]. exists c. split; [done|].
    right. split; [done|]. unfold metrics_ok. by rewrite Hm1, Hm2.
Qed.

(** ** Settings without effect *)

(** A configuration with other values for the settings that nothing reads. *)
Definition with_unused (c : Config.Config) (mode : bytes) (fanout : bool) (size : Z) (enabled : list bytes)
    (headers : bool) (tls : Config.TLSConfig) (log : Config.LoggingConfig) (rt : Config.RuntimeConfig)
    : Config.Config :=
  {| Config.Capture :=
       {| Config.Interface := Config.Interface (Config.Capture c); Config.Mode := mode;
          Config.NumQueues := Config.NumQueues (Config.Capture c);
          Config.BufferSize := Config.BufferSize (Config.Capture c);
          Config.SnapLength := Config.SnapLength (Config.Capture c);
          Config.BPFFilter := Config.BPFFilter (Config.Capture c);
          Config.Fanout := {| Config.Enabled := fanout; Config.GroupID := Config.GroupID (Config.Fanout (Config.Capture c));
                              Config.Type_ := Config.Type_ (Config.Fanout (Config.Capture c)); Config.Size := size |} |};
     Config.Decode := Config.Decode c; Config.Reassembly := Config.Reassembly c;
     Config.Protocols :=
       {| Config.EnabledProtocols := enabled;
          Config.HTTP := {| Config.MaxBodyCapture := Config.MaxBodyCapture (Config.HTTP (Config.Protocols c));
                            Config.CaptureHeaders := headers |};
          Config.TLS := tls; Config.DB := Config.DB (Config.Protocols c) |};
     Config.Kafka := Config.Kafka c; Config.Metrics := Config.Metrics c; Config.Logging := log; Config.Runtime := rt |}.

(** Settings without effect: the capture mode, whether fanout is enabled
    and its size, the list of enabled protocols, the capture of headers, and
    the TLS, logging and runtime sections change neither whether the agent
    starts nor anything it starts with. *)
Theorem main_unused_settings c mode fanout size enabled headers tls log rt k :
  startup (fun _ => OkR (with_unused c mode fanout size enabled headers tls log rt)) k
  = startup (fun _ => OkR c) k.
Proof.
  unfold startup, Config.Load. set (c' := with_unused _ _ _ _ _ _ _ _ _).
  assert (Hv : Config.Validate c' = Config.Validate c) by done. rewrite Hv.
  by destruct (Config.Validate c).
Qed.
End Wiring.

Lemma main_startup_witness :
  let ok := fun p => negb (bool_decide (p = [])) in
  match @startup ascii_unicode (Sockets.limited_kernel 8) id ok (fun d => OkR d) ∅ with
  | Ret (Exited _, k') => k' = ∅
  | Ret (Running ag, k') =>
      exists c, Config.Load (fun d => OkR d) = OkR c /\
        @runs ascii_unicode (Sockets.limited_kernel 8) c ∅ ag k'
  | Panic p => exists c, Config.Load (fun d => OkR d) = OkR c /\
      ((p = MakeChanSize /\ Config.ChannelBuffer (Config.Decode c) < 0) \/
       (p = InvalidPattern /\ metrics_ok ok c = false))
  | NoFuel => False
  end.
Proof.
  intros ok.
  exact (@main_startup ascii_unicode (Sockets.limited_kernel 8) id ok (Sockets.limited_lawful 8)
    (fun d => OkR d) ∅).
Defined.
End Wiring.
