(* ===== verification/Lifecycle.v ===== *)
(** * The whole of [main] ([cmd/netcap/main.go])

    [main] from the configuration file to its end: the startup of [Wiring], the
    pipeline of [Pipeline] with the stages in the order [main] adds them, the
    wait for a signal, the shutdown and the end of the capture. A stage's
    [Start] and [Stop] act on a world that is a parameter; what they do is in
    the stages' own files and in [Stages], and that the splitter's [Stop] never
    returns in [Shutdown]. *)

From S2P Require Import Prelude.
From S2P Require Import GoStrings.
From S2P Require Import Event.
From S2P Require Import Http.
From S2P Require Import Config.
From S2P Require Import Capture.
From S2P Require Import Sockets.
From S2P Require Import Pipeline.
From S2P Require Import Shutdown.
From S2P Require Import Wiring.

Module Lifecycle.
Import Wiring.Wiring.

(** The stages' [Name]s. *)
Definition stage_name (x : Shutdown.stage) : bytes :=
  match x with
  | Shutdown.Decoder => str "decoder"
  | Shutdown.PacketSplitter => str "packet-splitter"
  | Shutdown.Reassembler => str "tcp-reassembly"
  | Shutdown.KafkaProducer => str "kafka-producer"
  | Shutdown.Dispatcher => str "protocol-dispatcher"
  | Shutdown.Metrics => str "metrics-server"
  end.

Section Lifecycle.
Context `{Unicode} `{Kernel}.
Variable quoted : bytes -> bytes.
Variable pattern_ok : bytes -> bool.

(** The stages of an agent, and what they do until a signal comes. *)
Context {W : Type}.
Variable start_of : agent -> Shutdown.stage -> W -> option bytes * W.
Variable stop_of : agent -> Shutdown.stage -> W -> call (option bytes * W).
Variable until_signal : W -> call W.

Definition stage_of (ag : agent) (x : Shutdown.stage) : Pipeline.Stage W :=
  {| Pipeline.Name := stage_name x; Pipeline.Start := start_of ag x; Pipeline.Stop := stop_of ag x |}.

(** The calls of [AddStage]. *)
Definition assemble (ag : agent) : Pipeline.Pipeline W :=
  let p := Pipeline.New in
  let p := Pipeline.AddStage p (stage_of ag Shutdown.Decoder) in
  let p := Pipeline.AddStage p (stage_of ag Shutdown.PacketSplitter) in
  let p := Pipeline.AddStage p (stage_of ag Shutdown.Reassembler) in
  let p := Pipeline.AddStage p (stage_of ag Shutdown.KafkaProducer) in
  let p := Pipeline.AddStage p (stage_of ag Shutdown.Dispatcher) in
  match metrics ag with
  | Some _ => Pipeline.AddStage p (stage_of ag Shutdown.Metrics)
  | None => p
  end.

(** How far [main] gets: [os.Exit(1)], its end, or a call that never returns. *)
Inductive ended := Exit1 (w : W) | Finished (w : W) | AtRun | AtSignal (w : W) | AtShutdown (w : W).

Definition main (read : Config.Config -> result Config.Config) (k : kernel) (w : W) : outcome (ended * kernel) :=
  '(s, k) ← startup quoted pattern_ok read k;
  match s with
  | Exited _ => Ret (Exit1 w, k)
  | Running ag =>
      match Pipeline.Run (assemble ag) w with
      | Waits => Ret (AtRun, k)
      | Returned (Some _, w) => let '(_, k) := Sockets.Close (capturer ag) k in Ret (Exit1 w, k)
      | Returned (None, w) =>
          match until_signal w with
          | Waits => Ret (AtSignal w, k)
          | Returned w =>
              match Pipeline.Shutdown (assemble ag) w with
              | Waits => Ret (AtShutdown w, k)
              | Returned (_, w) => let '(_, k) := Sockets.Close (capturer ag) k in Ret (Finished w, k)
              end
          end
      end
  end.

(** ** How it ends *)

Context `{!LawfulKernel}.

(** The stages are those of [Shutdown], in its order. *)
Lemma assemble_stages ag :
  Pipeline.stages (assemble ag) = map (stage_of ag) (Shutdown.added (bool_decide (is_Some (metrics ag)))) /\
  reverse (Pipeline.stages (assemble ag)) = map (stage_of ag) (Shutdown.stop_order (bool_decide (is_Some (metrics ag)))).
Proof. unfold assemble. by destruct (metrics ag). Qed.

(** An agent that [main] started with the loaded configuration, with all its
    sockets open. *)
Definition up (read : Config.Config -> result Config.Config) (before : gset Z) (ag : agent) (k : kernel) : Prop :=
  exists c, Config.Load read = OkR c /\ runs c before ag k.

Lemma up_Close read before ag k :
  up read before ag k -> open_fds (snd (Sockets.Close (capturer ag) k)) = before.
Proof.
  intros (c & _ & Ho & _). pose proof (Sockets.capture_Close_descriptors _ _ _ Ho) as Hc.
  destruct (Sockets.Close _ _) as [a k']. by destruct Hc as [? _].
Qed.

(** C13: How [main] ends. When it exits with an error or returns, every socket
    it opened is closed again. An exit comes either before any stage is
    started, or because a stage failed to start, and then exactly the stages
    before it were started, in order, and stopped, in reverse order; before it
    returns all stages were started, and after the signal stopped in reverse
    order, whatever errors they give. Otherwise it waits, with its sockets open
    and running as a valid configuration says: for a signal, or in the rollback
    or the shutdown for a stage whose [Stop] never returns, where the stages
    after it in reverse order are not stopped. Or it panics, and then the
    configuration is valid but has one of two settings that nothing checks. *)
Theorem main_ends read k w :
  match main read k w with
  | Ret (Exit1 w', k') => open_fds k' = open_fds k /\
      (w' = w \/ exists ag ok s rest w1 err w2 es,
         Pipeline.stages (assemble ag) = ok ++ s :: rest /\ Pipeline.starts ok w w1 /\
         Pipeline.Start s w1 = (Some err, w2) /\ Pipeline.stops (reverse ok) w2 es w')
  | Ret (Finished w', k') => open_fds k' = open_fds k /\
      exists ag w1 w2 es, Pipeline.starts (Pipeline.stages (assemble ag)) w w1 /\ until_signal w1 = Returned w2 /\
        Pipeline.stops (reverse (Pipeline.stages (assemble ag))) w2 es w'
  | Ret (AtRun, k') => exists ag ok rest w2 x, up read (open_fds k) ag k' /\
      Pipeline.stages (assemble ag) = ok ++ rest /\ Pipeline.blocks (reverse ok) w2 x
  | Ret (AtSignal w', k') => exists ag, up read (open_fds k) ag k' /\
      Pipeline.starts (Pipeline.stages (assemble ag)) w w' /\ until_signal w' = Waits
  | Ret (AtShutdown w', k') => exists ag x, up read (open_fds k) ag k' /\
      Pipeline.blocks (reverse (Pipeline.stages (assemble ag))) w' x
  | Panic p => exists c, Config.Load read = OkR c /\
      ((p = MakeChanSize /\ Config.ChannelBuffer (Config.Decode c) < 0) \/
       (p = InvalidPattern /\ metrics_ok pattern_ok c = false))
  | NoFuel => False
  end.
Proof.
  unfold main. pose proof (main_startup quoted pattern_ok read k) as Hs.
  destruct (startup quoted pattern_ok read k) as [[[e|ag] k']|p|]; cbn [mbind outcome_bind]; [|..|exact Hs|exact Hs].
  { split; [exact Hs|by left]. }
  pose proof (up_Close read (open_fds k) ag k' Hs) as Hc.
  pose proof (Pipeline.pipeline_Run_rollback (assemble ag) w) as Hr. destruct (Pipeline.Run _ _) as [|[[e|] w1]].
  - destruct Hr as (ok & s & rest & w1 & err & w2 & x & Hst & _ & _ & Hx). by exists ag, ok, (s :: rest), w2, x.
  - destruct (Sockets.Close _ _) as [a k2]. split; [exact Hc|]. right.
    destruct Hr as (ok & s & rest & w2 & err & w3 & es & Hst & Hok & Hf & _ & Hb). by exists ag, ok, s, rest, w2, err, w3, es.
  - destruct (until_signal w1) as [|w2] eqn:Es; [by exists ag|].
    pose proof (Pipeline.pipeline_Shutdown_stops_all (assemble ag) w2) as Hd. destruct (Pipeline.Shutdown _ _) as [|[e w3]].
    + destruct Hd as [x Hx]. by exists ag, x.
    + destruct (Sockets.Close _ _) as [a k2]. split; [exact Hc|]. destruct Hd as (es & Hes & _). by exists ag, w1, w2, es.
Qed.
End Lifecycle.

(** ** The default configuration, and a splitter that never stops *)

#[local] Existing Instance Shutdown.stage_eq_dec.

Definition sample_stage (x : Shutdown.stage) : Pipeline.Stage (list bytes) :=
  Pipeline.logged (stage_name x) false (bool_decide (x = Shutdown.PacketSplitter)).

Definition some_path (p : bytes) : bool := negb (bool_decide (p = [])).

(** [main] is caught in [Shutdown]: four stages are stopped, and its socket
    stays open. *)
Lemma main_ends_witness :
  exists w k', @main ascii_unicode (Sockets.limited_kernel 8) id some_path (list bytes)
      (fun _ x => Pipeline.Start (sample_stage x)) (fun _ x => Pipeline.Stop (sample_stage x)) Returned
      (fun d => OkR d) ∅ [] = Ret (AtShutdown w, k') /\
    exists ag x, @up ascii_unicode (Sockets.limited_kernel 8) (fun d => OkR d) ∅ ag k' /\
      Pipeline.blocks (reverse (Pipeline.stages (assemble (fun _ x => Pipeline.Start (sample_stage x))
        (fun _ x => Pipeline.Stop (sample_stage x)) ag))) w x.
Proof.
  pose proof (@main_ends ascii_unicode (Sockets.limited_kernel 8) id some_path (list bytes)
    (fun _ x => Pipeline.Start (sample_stage x)) (fun _ x => Pipeline.Stop (sample_stage x)) Returned
    (Sockets.limited_lawful 8) (fun d => OkR d) ∅ []) as Hm.
  assert (Hc : match @main ascii_unicode (Sockets.limited_kernel 8) id some_path (list bytes)
      (fun _ x => Pipeline.Start (sample_stage x)) (fun _ x => Pipeline.Stop (sample_stage x)) Returned
      (fun d => OkR d) ∅ [] with Ret (AtShutdown _, _) => True | _ => False end) by (vm_compute; exact I).
  destruct (@main _ _ _ _ _ _ _ _ _ _ _) as [[[w|w| |w|w] k']|p|]; try destruct Hc.
  exists w, k'. split; [reflexivity|exact Hm].
Defined.
End Lifecycle.
